(* ===== verification/_CoqProject ===== *)
-Q . S2P
Prelude.v
Ptu.v
Filter.v
FilterProofs.v
Servo.v
Types.v
Bmca.v
Wire.v
WireProofs.v
Tlv.v
TlvProofs.v
Interval.v
ConfigStore.v
World.v
Keeps.v
Msgs.v
Timers.v
Config.v
PortFsm.v
ClockOps.v
Sync.v
Tx.v
Port.v
Decision.v
Rx.v
Manage.v
ClockWork.v
Setup.v
Stack.v
Boot.v
Reach.v
ManageProofs.v
Plain.v
Stable.v
Owners.v
OwnersOps.v
OwnersStack.v
Invariants.v
Fifo.v
SyncProofs.v
ForeignProofs.v
PortPath.v
PortProofs.v
Driver.v
Bytes.v
SwApi.v
Notify.v
DriverProofs.v
Requests.v
NotifyProofs.v
Frames.v
FramesProofs.v
Avtpdu.v
Command.v
CommandProofs.v
Poll.v
Text.v
Log.v
LogProofs.v
Dlr.v
DlrProofs.v
DlrNet.v
DlrNetProofs.v
DlrCmd.v
Md5.v
Md5Proofs.v
Isaac.v
Radius.v
RadiusProofs.v
SignProofs.v
RadiusMsg.v
RadiusServer.v
RadiusMsgProofs.v
RadiusRecv.v
Dot1x.v
Dot1xMachines.v
Dot1xProofs.v
Dot1xEnds.v
Dot1xSafe.v
Dot1xLocked.v
