(* ===== verification/Prelude.v ===== *)
(** * Verification of the LAN9646 PTP stack: overview

    This library models the IEEE 1588 / 802.1AS time synchronisation stack of
    the EVB-LAN9646 board support package, the C program in
    src/ung_apps_external/app_utils/ptp_stack (called ptp_stack below), as it is
    compiled for Linux (LINUX_PTP, NOTIFY_PTP_EVENT) on a little-endian 32-bit
    ARM, and proves what makes it correct.  With it come two programs that run
    beside it on the board, from src/ung_apps_external/app_utils/nettest/network:
    the one that supervises a device level ring, and authtest, which
    authenticates the ports of the switch (802.1X with a RADIUS server).

    ** The program

    A clock has a host port (index 0) and hardware ports.  A receive task hands
    each frame and each transmit timestamp to a [handle_] function; what takes
    longer is put into a message queue, and the process task calls the [proc_]
    function of the message, or sends it.  Timers call a [_func], which links a
    work into the queue of the schedule task; that task calls the [_work].  The
    ports move through the states of IEEE 1588; the state decision compares the
    foreign masters, chooses the best one and moves every port; a slave port
    feeds timestamps into the delay filter and the servo, which sets the
    hardware clock.

    ** Files and the code they model

    - [Prelude]: machine integers as [Z], memcmp, list lemmas, tactics.
    - [Ptu] (ptp_ptu.c), [Filter] (ptp_filter.c), [Servo] (ptp_servo.c): times as
      seconds and nanoseconds scaled by 2^16, the moving median of the path
      delay, the PI servo.  Doubles are the binary64 values of SpecFloat.
    - [Types] (lan937x_ptp_api.h, ptp_bmca.h, ptp_msg.h, ptp_port.h): structures
      and enumerations.
    - [Bmca] (ptp_bmca.c): dataset comparison, foreign master table, the
      recommended state.
    - [Wire] (ptp_msg.c), [Tlv] (ptp_protocol.c): a message is its bytes; fields
      are offsets; byte order conversion, TLV walks, path trace.
    - [Interval] (ptp_protocol.c): intervals, random delays, sequence numbers.
    - [ConfigStore] (os/config_store.c): the settings and the reader of their
      file.
    - [World]: the state all handlers share, as one record: clocks, ports, heap
      of messages, timers, works, queues, settings, globals, and the output to
      the driver and the sockets.  The integer fields of a structure are a map
      from field names, and storing converts to the type of the field.  A handler
      is [M A := world -> option (A * world)]; [None] is behaviour that C leaves
      undefined (a null or dangling pointer, an array index out of range, a
      signed overflow, a shift by a negative amount).
    - [Msgs] (ptp_msg.c, ptp_stack.c): allocation, reference counts, the queue.
    - [Timers] (os/sw_support.c): timerfd timers and the queue of works.
    - [Config] (ptp_config.c), [PortFsm] (port_event, host_event of ptp_port.c),
      [ClockOps] (ptp_clock.c), [Sync] (ptp_sync.c), [Tx] (ptp_protocol.c,
      ptp_forward.c), [Port] (ptp_port.c), [Decision] (ptp_protocol.c: Announce
      and the state decision), [Rx] (ptp_protocol.c, ptp_signal.c: every
      [handle_] and [proc_] function), [Manage] (ptp_manage.c), [ClockWork]
      (ptp_clock.c, ptp_port.c: works and timer callbacks), [Setup] (ptp_clock.c,
      ptp_port.c: creation, start, stop, link events), [Stack] (ptp_main.c,
      ptp_stack.c: init_stack, start, stop, exit).
    - [Driver] (lan937x_ptp_api.c) and [SwApi] (ksz_sw_api.c): every request to
      the drivers of the clock and of the switch, field by field, and what is
      read from the answer.  The device is a function of the request and a state
      of any type.
    - [Notify] (lan937x_ptp_api.c, ptp_stack.c): the receive function that cuts
      the stream of the device into messages, and the task that turns these
      into transmit timestamps and link changes.
    - [Frames] (ptp_sock.c): frames of the messages sent, socket and address of
      each, the receive task with its filters.  [Avtpdu] (avtpdu_1722.c): the
      frame of the automotive test status.
    - [Poll] (os/sw_support.c): a round of the timer task.
    - [Text] (ptp_ptu.c): times as text.  [Log] (ptp_main.c): the buffers of the
      event log and of the debug messages.
    - [Dlr], [DlrNet], [DlrCmd] (dlr.c, ksz_dlr_net.c in nettest/network): a
      program of its own that supervises a device level ring.  The devices are
      a sorted list of nodes in a heap, with a cursor; [DlrNet] has the messages,
      [DlrCmd] the console.
    - The authentication program: [Md5], [Isaac], [Radius] (ksz_radius.c in
      nettest/network): message digests, the pool of random numbers, hidden
      passwords, HMAC, the authenticators of a packet and their verification.
      [RadiusMsg] (authtest.c): the attributes of a message, written and read;
      [RadiusServer] (authtest.c): the requests, and the answers of server mode.
      [Dot1x] (authtest.c): a port, its frames, and what the receiving threads,
      the timer and the console do to it; [Dot1xMachines] (authtest.c): the eight
      state machines of a port, their order and their start.
    - [Command] (ptp_sock.c): the console, from the characters of a line to the
      settings and the starts and stops of the clocks.
    - [Boot]: the static variables, and an environment in which the stack can be
      run by computation; the witnesses use it.
    - [Reach]: the states the stack can reach: [init_stack], then any sequence of
      inputs (frames, timestamps, timers, scans of the work queue, link changes,
      start and stop, time, new settings) and rounds of the process task.

    Names are those of the C code.  A part of a C function that has a definition
    of its own carries a name that says what it does; PROJECT.json gives the
    lines.

    ** The proofs

    - Arithmetic: [Ptu] (carries are exact), [FilterProofs] (the array of indices
      updated in place refines "sort the last samples, take the middle one"; the
      path delay is the mean of IEEE 1588), [Servo] (no overflow, bounded
      adjustment, the PI law), [Interval], [SyncProofs] (the offset from the
      master is ingress - origin - corrections - path delay, exactly).
    - Data: [WireProofs] (round trip of every message type), [TlvProofs],
      [ConfigStore] (types of every setting, round trip of a line of the file).
    - Protocol: [Bmca] (order of the datasets, best master, one slave),
      [ForeignProofs] (a master counts from its third Announce), [PortFsm] with
      [PortPath] (the handlers implement the state machine; a slave-only clock
      stays a slave), [PortProofs] (the recursion of port_set_state; stopping a
      clock is undefined), [ManageProofs] (every request is answered and changes
      nothing).
    - Surroundings: [Bytes] (what is written to a field is read from it; a
      function stays within a part of a buffer), [DriverProofs] (the sign of a
      clock correction), [Requests] (every request is defined and stays within
      its size), [NotifyProofs] (messages come whole and in order; a round is an
      input of [Reach]), [FramesProofs] (the receive task is a filter without
      repetitions; what one host sends another hands on), [CommandProofs]
      (values set on the console are shown; a line is a sequence of inputs of
      [Reach], so what holds in every reachable state holds at the console),
      [Text] (printed times are read back exactly), [LogProofs] (the logs print
      everything in order and stay in their buffers).
    - The ring program: [DlrProofs] (the operations on the list of nodes insert
      into and delete from a sorted list), [DlrNetProofs] (no message of a device
      leaves a dangling pointer or a leak, except the list of participants; what
      one program writes another stores).
    - The authentication program: [Md5Proofs] (the digest is that of RFC 1321, in
      whatever pieces the message comes), [Isaac] (no pointer leaves the pool),
      [RadiusProofs] and [SignProofs] (a packet is accepted exactly when its
      authenticators are those of the RFCs, and what is signed is accepted),
      [RadiusMsgProofs] and [RadiusRecv] (a request is stored as it was meant),
      [Dot1xProofs] and [Dot1xEnds] (every run of the machines ends), [Dot1xSafe]
      (the driver is told what the status of the port is), [Dot1xLocked] (without
      a success a port stays closed, and how little is a success).
    - Reachable states: [Keeps] is a program logic for relations that handlers
      keep, with a tactic that walks the code; [Reach] and [Plain] prove once,
      for any relation with the properties of the class [Plain], that every
      handler without messages keeps it, [Stable] does the same for all handlers
      and all events.  [Invariants] instantiates it: integers stay in their
      types, the work queue is sound.  [Fifo]: the message queue is served in
      order.  [Owners], [OwnersOps] and [OwnersStack]: the reference count of
      every message is the number of its owners, so nothing is leaked or used
      after its release.

    ** Bounds and fuel

    Loops over arrays recurse on lists.  [port_set_state_n] has depth 2; the
    theorem [port_set_state_recursion] shows that no call goes deeper.  TLV walks
    take as fuel the number of bytes left plus one, and are undefined when it is
    used up: each step but that of a TLV with lengthField 0xFFFC takes bytes
    away, and with such a TLV the code loops for ever, whatever the fuel
    ([announce_tlv_never_ends]).  [schedule_scan] takes the number of rounds
    as a parameter, for works may link themselves again for ever; the reachable
    states allow any number.  [get_ptp_cmd] takes the length of its text plus
    one, the loops over the list of ring devices the number of nodes plus one,
    the walks over the attributes of a RADIUS packet the number of its bytes.  A
    run of a state machine has [MACHINE_FUEL] rounds, which [machines_end] shows
    to be enough.  Numbers of the clocks (3), of foreign masters (2) and the size
    of the timer table (80) are those of the code.

    ** Assumptions

    The class [Env] is what the stack asks of its surroundings: memory from
    malloc, random numbers, answers of the driver.  The handlers run one at a
    time, as the locks of the code make them; [multi_pdelay] is null, since
    USE_MULT_RESP is not defined.  For the authentication program there is one
    port; what other threads handle while a machine waits is a list of events, any
    list.  What the device of random numbers returns, and what automatic variables
    hold before they are set, are parameters.

    ** Not modelled

    Opening and configuring sockets and devices, threads and signals, the single
    debug messages and the text around the values on the console (ptp_sock.c,
    ptp_main.c).  The device behind ioctl and the sockets are parameters and
    outputs.  The header of the messages of the ring program is defined in a file
    the repository does not have: messages are records there.  Of authtest the
    sockets, the search for the port a frame or message belongs to, the printing,
    and the unused prep_eap_md5 are left out.  The other programs
    of the repository (test tools, register tools, linuxptp, Open-AVB, buildroot)
    are third party, or input and output around a driver. *)

From stdpp Require Import base list numbers option.
From Stdlib Require Import ZArith Lia.

#[global] Open Scope Z_scope.

(** ** Machine integers

    A C integer is a [Z]; assigning to an object of a given type converts the
    value to that type.  [uN w] and [sN w] are the conversions to the unsigned
    and to the (two's complement) signed type of [w] bits. *)

Definition uN (w z : Z) : Z := z mod 2 ^ w.
Definition sN (w z : Z) : Z := (z + 2 ^ (w - 1)) mod 2 ^ w - 2 ^ (w - 1).

Abbreviation u8 := (uN 8).
Abbreviation u16 := (uN 16).
Abbreviation u32 := (uN 32).
Abbreviation u64 := (uN 64).
Abbreviation s8 := (sN 8).
Abbreviation s16 := (sN 16).
Abbreviation s32 := (sN 32).
Abbreviation s64 := (sN 64).

Lemma uN_small w z : 0 <= z < 2 ^ w -> uN w z = z.
Proof. intros. unfold uN. by apply Z.mod_small. Qed.

Lemma sN_small w z : 0 < w -> - 2 ^ (w - 1) <= z < 2 ^ (w - 1) -> sN w z = z.
Proof.
  intros Hw Hz. unfold sN.
  replace (2 ^ w) with (2 * 2 ^ (w - 1)).
  - rewrite Z.mod_small; lia.
  - rewrite <- Z.pow_succ_r by lia. f_equal. lia.
Qed.

Lemma uN_range w z : 0 <= w -> 0 <= uN w z < 2 ^ w.
Proof. intros. unfold uN. apply Z.mod_pos_bound, Z.pow_pos_nonneg; lia. Qed.

Lemma sN_range w z : 0 < w -> - 2 ^ (w - 1) <= sN w z < 2 ^ (w - 1).
Proof.
  intros. unfold sN.
  assert (2 ^ w = 2 * 2 ^ (w - 1)) as E.
  { rewrite <- Z.pow_succ_r by lia. f_equal. lia. }
  pose proof (Z.mod_pos_bound (z + 2 ^ (w - 1)) (2 ^ w)) as H0.
  assert (0 < 2 ^ (w - 1)) by (apply Z.pow_pos_nonneg; lia). lia.
Qed.

Lemma sN_small_iff w z :
  0 < w -> (sN w z = z <-> - 2 ^ (w - 1) <= z < 2 ^ (w - 1)).
Proof.
  intros Hw. split; [|by apply sN_small].
  intros <-. by apply sN_range.
Qed.

Lemma s64_small z : - 9223372036854775808 <= z < 9223372036854775808 -> s64 z = z.
Proof. intros. apply sN_small; [lia|]. exact H. Qed.

Lemma s32_small z : - 2147483648 <= z < 2147483648 -> s32 z = z.
Proof. intros. apply sN_small; [lia|]. exact H. Qed.

Lemma u16_small z : 0 <= z < 65536 -> u16 z = z.
Proof. intros. apply uN_small. exact H. Qed.

Lemma u8_small z : 0 <= z < 256 -> u8 z = z.
Proof. intros. apply uN_small. exact H. Qed.

Lemma u32_small z : 0 <= z < 4294967296 -> u32 z = z.
Proof. intros. apply uN_small. exact H. Qed.

(** Numeric forms of the range lemmas, for [lia]. *)
Lemma u16_range z : 0 <= u16 z < 65536.
Proof. apply (uN_range 16). lia. Qed.
Lemma u8_range z : 0 <= u8 z < 256.
Proof. apply (uN_range 8). lia. Qed.
Lemma s32_range z : - 2147483648 <= s32 z < 2147483648.
Proof. apply (sN_range 32). lia. Qed.
Lemma s64_range z : - 9223372036854775808 <= s64 z < 9223372036854775808.
Proof. apply (sN_range 64). lia. Qed.

Create HintDb cint.
#[export] Hint Resolve u16_range u8_range s32_range s64_range : cint.

(** Remove every conversion whose operand provably fits, in the goal and in
    the hypotheses. *)
Ltac cint_with tac :=
  repeat match goal with
  | |- context [uN ?w ?x] => rewrite (uN_small w x) by tac
  | |- context [sN ?w ?x] => rewrite (sN_small w x) by tac
  | H : context [uN ?w ?x] |- _ => rewrite (uN_small w x) in H by tac
  | H : context [sN ?w ?x] |- _ => rewrite (sN_small w x) in H by tac
  end.
Ltac fits := solve [lia | split; [simpl; lia | simpl; lia] ].
Ltac cint := cint_with fits.

(** A number in the bits above those of another. *)
Lemma lor_shift w hi lo : 0 <= w -> 0 <= lo < 2 ^ w ->
  Z.lor (Z.shiftl hi w) lo = hi * 2 ^ w + lo.
Proof.
  intros Hw H. rewrite <- Z.add_nocarry_lor, Z.shiftl_mul_pow2; [done|done|].
  apply Z.bits_inj'. intros n Hn. rewrite Z.land_spec, Z.bits_0, Z.shiftl_spec by lia.
  destruct (Z_lt_dec n w); [by rewrite Z.testbit_neg_r by lia|].
  destruct (decide (lo = 0)) as [->|]; [by rewrite Z.bits_0, andb_false_r|].
  rewrite (Z.bits_above_log2 lo); [apply andb_false_r|lia|]. apply Z.log2_lt_pow2; [lia|].
  eapply Z.lt_le_trans; [apply H|]. apply Z.pow_le_mono_r; lia.
Qed.

(** Case analysis on every boolean test of the goal, innermost first. *)
Ltac case_tests :=
  repeat match goal with
  | |- context [if ?b then _ else _] =>
      lazymatch b with
      | context [if _ then _ else _] => fail
      | _ => let E := fresh "E" in destruct b eqn:E
      end
  end.

(** Turn boolean comparisons of the context into propositions. *)
Ltac bools :=
  repeat match goal with
  | H : (_ <? _) = true |- _ => apply Z.ltb_lt in H
  | H : (_ <? _) = false |- _ => apply Z.ltb_ge in H
  | H : (_ <=? _) = true |- _ => apply Z.leb_le in H
  | H : (_ <=? _) = false |- _ => apply Z.leb_gt in H
  | H : (_ >? _) = true |- _ => apply Z.gtb_lt in H
  | H : (_ >? _) = false |- _ => rewrite Z.gtb_ltb in H; apply Z.ltb_ge in H
  | H : (_ >=? _) = true |- _ => apply Z.geb_le in H
  | H : (_ >=? _) = false |- _ => rewrite Z.geb_leb in H; apply Z.leb_gt in H
  | H : (_ =? _) = true |- _ => apply Z.eqb_eq in H
  | H : (_ =? _) = false |- _ => apply Z.eqb_neq in H
  | H : _ && _ = true |- _ => apply andb_prop in H as [? ?]
  | H : _ || _ = false |- _ => apply orb_false_elim in H as [? ?]
  | H : _ && _ = false |- _ => apply andb_false_iff in H as [?|?]
  | H : _ || _ = true |- _ => apply orb_prop in H as [?|?]
  | H : negb _ = true |- _ => apply negb_true_iff in H
  | H : negb _ = false |- _ => apply negb_false_iff in H
  end.

(** A C truth value: any non-zero integer is true. *)
Definition truthy (z : Z) : bool := negb (z =? 0).
Definition b2z (b : bool) : Z := if b then 1 else 0.

Lemma truthy_b2z b : truthy (b2z b) = b.
Proof. by destruct b. Qed.

(** ** Bytes and [memcmp]

    [memcmp] on two byte arrays of the same length: the sign of the first
    difference. *)

Fixpoint memcmp (a b : list Z) : Z :=
  match a, b with
  | x :: a', y :: b' =>
      if x =? y then memcmp a' b' else if x <? y then -1 else 1
  | _, _ => 0
  end.

Lemma memcmp_refl a : memcmp a a = 0.
Proof. induction a; simpl; [done|]. by rewrite Z.eqb_refl. Qed.

Lemma memcmp_antisym a b : memcmp b a = - memcmp a b.
Proof.
  revert b. induction a as [|x a IH]; intros [|y b]; simpl; try done.
  rewrite (Z.eqb_sym y x). destruct (x =? y) eqn:E; [apply IH|]. bools.
  destruct (x <? y) eqn:E1, (y <? x) eqn:E2; bools; lia.
Qed.

Lemma memcmp_values a b : memcmp a b = -1 \/ memcmp a b = 0 \/ memcmp a b = 1.
Proof.
  revert b. induction a as [|x a IH]; intros [|y b]; simpl; auto.
  destruct (x =? y); [apply IH|]. destruct (x <? y); auto.
Qed.

Lemma memcmp_eq a b : length a = length b -> memcmp a b = 0 -> a = b.
Proof.
  revert b. induction a as [|x a IH]; intros [|y b]; simpl; try done.
  intros [= Hl]. destruct (x =? y) eqn:E; bools.
  - subst. intros. f_equal. by apply IH.
  - destruct (x <? y); done.
Qed.

Lemma memcmp_trans a b c :
  length a = length b -> length b = length c ->
  memcmp a b < 0 -> memcmp b c < 0 -> memcmp a c < 0.
Proof.
  revert b c. induction a as [|x a IH]; intros [|y b] [|z c]; simpl; try done.
  intros [= H1] [= H2].
  destruct (x =? y) eqn:E1, (y =? z) eqn:E2; bools; subst.
  - rewrite Z.eqb_refl. by apply IH.
  - destruct (y =? z) eqn:E; bools; [lia|]. done.
  - destruct (x =? z) eqn:E; bools; [lia|]. done.
  - destruct (x <? y) eqn:E3, (y <? z) eqn:E4; bools; try lia.
    intros _ _.
    destruct (x =? z) eqn:E; bools; [lia|].
    destruct (x <? z) eqn:E5; bools; lia.
Qed.

(** ** The option monad of fallible code

    [None] stands for undefined behaviour of the C code: an access outside an
    object, a division by zero, an oversized shift, the use of a null or of a
    released pointer. *)

Abbreviation UB := None.

(** Array read, undefined outside the array. *)
Definition aget {A} (l : list A) (i : Z) : option A :=
  if i <? 0 then UB else l !! Z.to_nat i.
Definition aset {A} (l : list A) (i : Z) (x : A) : option (list A) :=
  if (i <? 0) || (Z.of_nat (length l) <=? i) then UB
  else Some (<[Z.to_nat i := x]> l).

Lemma aget_Some {A} (l : list A) (i : nat) : aget l (Z.of_nat i) = l !! i.
Proof.
  unfold aget. destruct (Z.of_nat i <? 0) eqn:E; bools; [lia|].
  by rewrite Nat2Z.id.
Qed.

Lemma aset_Some {A} (l : list A) (i : nat) x :
  (i < length l)%nat -> aset l (Z.of_nat i) x = Some (<[i := x]> l).
Proof.
  intros. unfold aset.
  destruct (Z.of_nat i <? 0) eqn:E; bools; [lia|].
  destruct (Z.of_nat (length l) <=? Z.of_nat i) eqn:E'; bools; [lia|].
  simpl. by rewrite Nat2Z.id.
Qed.

(** ** Assignment to one field of a record

    [eta] rebuilds a record from its projections; [field_set proj v r] is the
    record [r] with [v] in the place of [proj r]. *)
Class Eta (R : Type) := eta : R -> R.

Ltac field_set proj v r :=
  let R := type of r in
  let e := eval unfold eta in (@eta R _ r) in
  let e := eval cbv beta in e in
  let e := match e with
           | ?h _ => let h' := eval unfold h in h in eval cbv beta in (h' r)
           | _ => e
           end in
  let p := eval pattern (proj r) in e in
  match p with ?f _ => let t := eval cbv beta in (f v) in exact t end.
