(* ===== verification/Ptu.v ===== *)
(** * Time units (ptp_ptu.c, ptp_ptu.h)

    A [ptu] is a signed time: seconds, and nanoseconds scaled by [2^16].
    The arithmetic of ptp_ptu.c on 64-bit integers, its value as one number
    of scaled nanoseconds, and the theorems that the carry handling is exact
    on normalised values that stay within the 64-bit range. *)

From stdpp Require Import base list numbers option.
From Stdlib Require Import ZArith Lia SpecFloat.
From S2P Require Import Prelude.

Definition SCALED_NANOSEC_S : Z := 16.
Definition NANOSEC_IN_SEC : Z := 1000000000.
Definition SCALED_NANOSEC_IN_SEC : Z := s64 (Z.shiftl 1000000000 SCALED_NANOSEC_S).

Lemma SCALED_NANOSEC_IN_SEC_val : SCALED_NANOSEC_IN_SEC = 65536000000000.
Proof. reflexivity. Qed.

Record ptu := mk_ptu { u_sec : Z; u_nsec : Z }.

#[export] Instance ptu_eq_dec : EqDecision ptu.
Proof. solve_decision. Defined.

Definition ptu_after (u1 u2 : ptu) : bool :=
  (u_sec u1 >? u_sec u2) ||
  ((u_sec u1 =? u_sec u2) && (u_nsec u1 >? u_nsec u2)).

Definition ptu_empty (u : ptu) : bool := (u_sec u =? 0) && (u_nsec u =? 0).

Definition ptu_zero : ptu := mk_ptu 0 0.

Definition ptu_get_nsec (u : ptu) : Z :=
  let nsec := if truthy (u_sec u) then s64 (u_sec u * NANOSEC_IN_SEC) else 0 in
  s64 (nsec + Z.shiftr (u_nsec u) SCALED_NANOSEC_S).

Definition ptu_add (u1 u2 : ptu) : ptu :=
  let sec := s64 (u_sec u1 + u_sec u2) in
  let nsec := s64 (u_nsec u1 + u_nsec u2) in
  let '(sec, nsec) :=
    if nsec >=? SCALED_NANOSEC_IN_SEC then
      (s64 (sec + 1), s64 (nsec - SCALED_NANOSEC_IN_SEC))
    else if nsec <=? - SCALED_NANOSEC_IN_SEC then
      (s64 (sec - 1), s64 (nsec + SCALED_NANOSEC_IN_SEC))
    else (sec, nsec) in
  let '(sec, nsec) :=
    if (sec >? 0) && (nsec <? 0) then
      (s64 (sec - 1), s64 (nsec + SCALED_NANOSEC_IN_SEC))
    else if (sec <? 0) && (nsec >? 0) then
      (s64 (sec + 1), s64 (- (SCALED_NANOSEC_IN_SEC - nsec)))
    else (sec, nsec) in
  mk_ptu sec nsec.

Definition ptu_sub (u1 u2 : ptu) : ptu :=
  let u4 := mk_ptu (s64 (- u_sec u2)) (s64 (- u_nsec u2)) in
  ptu_add u1 u4.

(** C division and remainder truncate; division by zero is undefined. *)
Definition ptu_div_int (u1 : ptu) (divisor : Z) : option ptu :=
  if divisor =? 0 then UB else
  let nsec := u_sec u1 in
  let nsec := Z.rem nsec divisor in
  let nsec := s64 (nsec * NANOSEC_IN_SEC) in
  let nsec := s64 (Z.shiftl nsec SCALED_NANOSEC_S) in
  let nsec := Z.quot nsec divisor in
  Some (mk_ptu (Z.quot (u_sec u1) divisor)
               (s64 (Z.quot (u_nsec u1) divisor + nsec))).

Definition ptu_div_sec (u1 u2 : ptu) : option ptu :=
  let nsec1 := ptu_get_nsec u1 in
  let nsec2 := ptu_get_nsec u2 in
  let nsec1 := s64 (nsec1 * NANOSEC_IN_SEC) in
  if nsec2 =? 0 then UB else
  let nsec1 := s64 (Z.quot nsec1 nsec2) in
  Some (mk_ptu (Z.quot nsec1 NANOSEC_IN_SEC)
               (s64 (Z.shiftl (Z.rem nsec1 NANOSEC_IN_SEC) SCALED_NANOSEC_S))).

(** ** IEEE 754 double precision

    [double] is the executable specification of binary64 of the standard
    library ([SpecFloat], precision 53, exponent bound 1024). *)

Abbreviation double := spec_float.
Definition d_of_Z (z : Z) : double := binary_normalize 53 1024 z 0 false.
Definition d_mul : double -> double -> double := SFmul 53 1024.
Definition d_div : double -> double -> double := SFdiv 53 1024.
Definition d_add : double -> double -> double := SFadd 53 1024.
Definition d_sub : double -> double -> double := SFsub 53 1024.

(** Conversion to an integer type truncates toward zero; it is undefined when
    the truncated value does not fit (not a number, infinity, overflow). *)
Definition d_trunc (d : double) : option Z :=
  match d with
  | S754_zero _ => Some 0
  | S754_finite s m e =>
      let a := if e >=? 0 then Z.pos m * 2 ^ e else Z.pos m / 2 ^ (- e) in
      Some (if s then - a else a)
  | _ => UB
  end.

Definition d_to_sN (w : Z) (d : double) : option Z :=
  z ← d_trunc d; if sN w z =? z then Some z else UB.

Definition ptu_div_ratio (u1 u2 : ptu) : double :=
  let d1 := d_of_Z (ptu_get_nsec u1) in
  let d2 := d_of_Z (ptu_get_nsec u2) in
  d_div d1 d2.

Definition ptu_mult (u1 : ptu) (r : double) : option ptu :=
  let d := d_of_Z (u_sec u1) in
  let d := d_mul d (d_of_Z NANOSEC_IN_SEC) in
  let d := d_add d (d_of_Z (u_nsec u1)) in
  let d := d_mul d r in
  s ← d_to_sN 64 d;
  Some (mk_ptu (Z.quot s SCALED_NANOSEC_IN_SEC) (Z.rem s SCALED_NANOSEC_IN_SEC)).

Definition POW2_41 : double := d_of_Z (Z.shiftl 1 41).

Definition float_to_ratio (ratio : double) : option Z :=
  let ratio := d_mul ratio POW2_41 in
  let ratio := d_sub ratio POW2_41 in
  d_to_sN 32 ratio.

Definition ratio_to_float (ratio : Z) : double :=
  let r := d_of_Z ratio in
  let r := d_add r POW2_41 in
  let eps := d_div POW2_41 (d_of_Z 10000000) in
  let r := if SFltb r (d_of_Z 0) then d_sub r eps else d_add r eps in
  d_div r POW2_41.

(** ** Specification: a [ptu] as one signed number *)

(** Scaled nanoseconds denoted by a [ptu]. *)
Definition ptu_val (u : ptu) : Z := u_sec u * SCALED_NANOSEC_IN_SEC + u_nsec u.

(** Normal form: less than a second of nanoseconds, of the sign of the
    seconds. *)
Definition ptu_wf (u : ptu) : Prop :=
  - SCALED_NANOSEC_IN_SEC < u_nsec u < SCALED_NANOSEC_IN_SEC /\
  (0 < u_sec u -> 0 <= u_nsec u) /\ (u_sec u < 0 -> u_nsec u <= 0).

(** Seconds far enough from the 64-bit limits for one addition. *)
Definition ptu_small (u : ptu) : Prop := - 2 ^ 62 < u_sec u < 2 ^ 62.

Ltac ptu_unfold :=
  unfold ptu_wf, ptu_small, ptu_val in *;
  rewrite ?SCALED_NANOSEC_IN_SEC_val in *; simpl u_sec in *; simpl u_nsec in *;
  change (2 ^ 62) with 4611686018427387904 in *.

Lemma ptu_val_inj u1 u2 :
  ptu_wf u1 -> ptu_wf u2 -> ptu_val u1 = ptu_val u2 -> u1 = u2.
Proof.
  destruct u1 as [s1 n1], u2 as [s2 n2]. intros H1 H2 H. ptu_unfold.
  assert (s1 = s2) by nia. subst. f_equal. lia.
Qed.

Lemma ptu_add_spec u1 u2 :
  ptu_wf u1 -> ptu_wf u2 -> ptu_small u1 -> ptu_small u2 ->
  ptu_wf (ptu_add u1 u2) /\ ptu_val (ptu_add u1 u2) = ptu_val u1 + ptu_val u2.
Proof.
  destruct u1 as [s1 n1], u2 as [s2 n2]. intros H1 H2 H3 H4.
  unfold ptu_add. ptu_unfold. cint.
  case_tests; bools; cint; simpl; cint; lia.
Qed.

Lemma ptu_neg_spec u :
  ptu_wf u -> ptu_small u ->
  let v := mk_ptu (s64 (- u_sec u)) (s64 (- u_nsec u)) in
  ptu_wf v /\ ptu_small v /\ ptu_val v = - ptu_val u.
Proof. destruct u as [s n]. intros H1 H2. simpl. ptu_unfold. cint. lia. Qed.

Lemma ptu_sub_spec u1 u2 :
  ptu_wf u1 -> ptu_wf u2 -> ptu_small u1 -> ptu_small u2 ->
  ptu_wf (ptu_sub u1 u2) /\ ptu_val (ptu_sub u1 u2) = ptu_val u1 - ptu_val u2.
Proof.
  intros H1 H2 H3 H4. unfold ptu_sub.
  destruct (ptu_neg_spec u2 H2 H4) as (Hw & Hs & Hv).
  destruct (ptu_add_spec u1 _ H1 Hw H3 Hs) as [Hr1 Hr2].
  split; [done|]. rewrite Hr2, Hv. lia.
Qed.

Lemma ptu_get_nsec_spec u :
  ptu_wf u -> - 9000000000 <= u_sec u <= 9000000000 ->
  ptu_get_nsec u = ptu_val u / 65536.
Proof.
  destruct u as [s n]. intros H1 H2. ptu_unfold. unfold ptu_get_nsec.
  simpl u_sec. simpl u_nsec. unfold SCALED_NANOSEC_S, NANOSEC_IN_SEC.
  rewrite Z.shiftr_div_pow2 by lia. change (2 ^ 16) with 65536.
  assert (- 1000000001 <= n / 65536 <= 1000000000).
  { split; [apply Z.div_le_lower_bound|apply Z.div_le_upper_bound]; lia. }
  replace (s * 65536000000000 + n) with (n + (s * 1000000000) * 65536) by lia.
  rewrite Z.div_add by lia. unfold truthy.
  destruct (s =? 0) eqn:E; bools; simpl; cint; lia.
Qed.

(** [ptu_add] is exact: on normalised operands whose seconds are within
    2^62 the result is normalised and denotes the sum, whatever carries and
    sign changes the code goes through. *)
Theorem ptu_add_exact (u1 u2 : ptu)
  (H1 : ptu_wf u1) (H2 : ptu_wf u2) (H3 : ptu_small u1) (H4 : ptu_small u2) :
  ptu_wf (ptu_add u1 u2) /\ ptu_val (ptu_add u1 u2) = ptu_val u1 + ptu_val u2.
Proof. by apply ptu_add_spec. Qed.

Lemma ptu_add_exact_witness :
  ptu_add (mk_ptu (-2) 0) (mk_ptu 1 32768000000000) = mk_ptu 0 (-32768000000000) /\
  ptu_val (ptu_add (mk_ptu (-2) 0) (mk_ptu 1 32768000000000)) =
  ptu_val (mk_ptu (-2) 0) + ptu_val (mk_ptu 1 32768000000000).
Proof.
  split; [vm_compute; reflexivity|].
  apply (ptu_add_exact (mk_ptu (-2) 0) (mk_ptu 1 32768000000000));
    vm_compute; repeat split; congruence.
Defined.

(** [ptu_sub] undoes [ptu_add]: subtracting a time and adding it back
    gives the same representation, field for field. *)
Theorem ptu_sub_add_cancel (u1 u2 : ptu)
  (H1 : ptu_wf u1) (H2 : ptu_wf u2)
  (H3 : - 2 ^ 61 < u_sec u1 < 2 ^ 61) (H4 : - 2 ^ 61 < u_sec u2 < 2 ^ 61) :
  ptu_add (ptu_sub u1 u2) u2 = u1.
Proof.
  assert (ptu_small u1 /\ ptu_small u2) as [S1 S2].
  { split; unfold ptu_small; lia. }
  destruct (ptu_sub_spec u1 u2) as [Hw Hv]; try done.
  assert (ptu_small (ptu_sub u1 u2)) as S3.
  { destruct (ptu_sub u1 u2) as [s n], u1, u2. ptu_unfold.
    change (2 ^ 61) with 2305843009213693952 in *. nia. }
  destruct (ptu_add_spec (ptu_sub u1 u2) u2) as [Hw' Hv']; try done.
  apply ptu_val_inj; try done. rewrite Hv', Hv. lia.
Qed.

Lemma ptu_sub_add_cancel_witness :
  ptu_sub (mk_ptu 1 5) (mk_ptu 3 7) = mk_ptu (-2) (-2) /\
  ptu_add (ptu_sub (mk_ptu 1 5) (mk_ptu 3 7)) (mk_ptu 3 7) = mk_ptu 1 5.
Proof.
  split; [vm_compute; reflexivity|].
  apply (ptu_sub_add_cancel (mk_ptu 1 5) (mk_ptu 3 7));
    vm_compute; repeat split; congruence.
Defined.

(** Truncating division, as a bound on the remainder. *)
Lemma quot_bound a d : 0 < d -> - d < a - d * Z.quot a d < d.
Proof.
  intros. pose proof (Z.quot_rem' a d).
  pose proof (Z.rem_bound_abs a d). lia.
Qed.

(** [ptu_div_int] by a positive divisor below 2^16 is defined, does not
    overflow, and is the quotient of the whole value up to less than one
    scaled nanosecond per truncation (two truncations). *)
Theorem ptu_div_int_quotient (u : ptu) (d : Z)
  (H1 : ptu_wf u) (H2 : 0 < d < 2 ^ 16) :
  exists v, ptu_div_int u d = Some v /\
    - 2 * d < ptu_val u - d * ptu_val v < 2 * d.
Proof.
  destruct u as [s n]. unfold ptu_div_int. simpl u_sec. simpl u_nsec.
  destruct (d =? 0) eqn:E; bools; [lia|].
  eexists; split; [done|]. ptu_unfold. change (2 ^ 16) with 65536 in *.
  unfold NANOSEC_IN_SEC, SCALED_NANOSEC_S.
  set (r := Z.rem s d).
  assert (s = d * Z.quot s d + r) as Hs by (apply Z.quot_rem').
  assert (- d < r < d) as Hr by (pose proof (quot_bound s d); lia).
  rewrite (s64_small (r * 1000000000)) by lia.
  rewrite Z.shiftl_mul_pow2 by lia. change (2 ^ 16) with 65536.
  rewrite (s64_small (_ * 65536)) by lia.
  set (t := r * 1000000000 * 65536).
  pose proof (quot_bound t d ltac:(lia)) as Ht.
  pose proof (quot_bound n d ltac:(lia)) as Hn.
  assert (- 65536000000001 < Z.quot t d < 65536000000001) by nia.
  assert (- 65536000000001 < Z.quot n d < 65536000000001) by nia.
  rewrite s64_small by lia. unfold t in *. nia.
Qed.

Lemma ptu_div_int_quotient_witness :
  ptu_div_int (mk_ptu 3 1) 2 = Some (mk_ptu 1 32768000000000) /\
  exists v, ptu_div_int (mk_ptu 3 1) 2 = Some v /\
    - 2 * 2 < ptu_val (mk_ptu 3 1) - 2 * ptu_val v < 2 * 2.
Proof.
  split; [vm_compute; reflexivity|].
  apply (ptu_div_int_quotient (mk_ptu 3 1) 2); vm_compute; repeat split; congruence.
Defined.

(** [ptu_get_nsec] is the floor of the value in nanoseconds, and
    [ptu_after] is the strict order of the values. *)
Theorem ptu_order_and_nsec (u1 u2 : ptu)
  (H1 : ptu_wf u1) (H2 : ptu_wf u2)
  (H3 : - 9000000000 <= u_sec u1 <= 9000000000) :
  ptu_get_nsec u1 = ptu_val u1 / 65536 /\
  (ptu_after u1 u2 = true <-> ptu_val u2 < ptu_val u1).
Proof.
  split; [by apply ptu_get_nsec_spec|].
  destruct u1 as [s1 n1], u2 as [s2 n2]. unfold ptu_after. ptu_unfold.
  rewrite orb_true_iff, andb_true_iff, !Z.gtb_lt, Z.eqb_eq. nia.
Qed.

Lemma ptu_order_and_nsec_witness :
  ptu_get_nsec (mk_ptu (-1) (-1)) = -1000000001 /\
  ptu_after (mk_ptu (-1) (-1)) (mk_ptu 0 0) = false /\
  (ptu_get_nsec (mk_ptu (-1) (-1)) = ptu_val (mk_ptu (-1) (-1)) / 65536 /\
   (ptu_after (mk_ptu (-1) (-1)) (mk_ptu 0 0) = true <->
    ptu_val (mk_ptu 0 0) < ptu_val (mk_ptu (-1) (-1)))).
Proof.
  split; [vm_compute; reflexivity|]. split; [vm_compute; reflexivity|].
  apply (ptu_order_and_nsec (mk_ptu (-1) (-1)) (mk_ptu 0 0));
    vm_compute; repeat split; congruence.
Defined.

(** The product of one second by the ratio 1: the seconds enter the double
    unscaled while the nanoseconds are scaled by 2^16, so a whole second comes
    back as 1/65536 of a second. *)
Lemma ptu_mult_unscaled_seconds :
  ptu_mult (mk_ptu 1 0) (d_of_Z 1) = Some (mk_ptu 0 1000000000).
Proof. vm_compute. reflexivity. Qed.
