(* ===== verification/FilterProofs.v ===== *)
(** * The moving median is the median of the last samples

    Helper lemmas on the index array of ptp_filter.c and the refinement
    theorem of [Filter.filter_sample], with the properties of the delay and
    offset computations. *)

From stdpp Require Import base list numbers option sorting.
From Stdlib Require Import ZArith Lia SpecFloat.
From S2P Require Import Prelude Ptu Filter.

(** ** The data array as two parallel lists *)

Definition md_zip (O D : list Z) : list mmedian_data := zip_with mk_md O D.

Section Arrays.
  Context (D : list Z).

Lemma md_zip_lookup O (i : nat) :
  md_zip O D !! i = (o ← O !! i; v ← D !! i; Some (mk_md o v)).
Proof.
  unfold md_zip. rewrite lookup_zip_with.
  by destruct (O !! i), (D !! i).
Qed.

Lemma order_at_zip O (i : nat) :
  length O = length D -> order_at (md_zip O D) (Z.of_nat i) = O !! i.
Proof.
  intros HL. unfold order_at. rewrite aget_Some, md_zip_lookup.
  destruct (O !! i) eqn:E; simpl; [|done].
  apply lookup_lt_Some in E. rewrite HL in E.
  by destruct (lookup_lt_is_Some_2 _ _ E) as [v ->].
Qed.

Lemma delay_at_zip O (i : nat) :
  length O = length D -> delay_at (md_zip O D) (Z.of_nat i) = D !! i.
Proof.
  intros HL. unfold delay_at. rewrite aget_Some, md_zip_lookup.
  destruct (D !! i) eqn:E; simpl.
  - apply lookup_lt_Some in E. rewrite <- HL in E.
    by destruct (lookup_lt_is_Some_2 _ _ E) as [v ->].
  - by destruct (O !! i).
Qed.

Lemma set_order_zip O (i : nat) o :
  length O = length D -> (i < length O)%nat ->
  set_order (md_zip O D) (Z.of_nat i) o = Some (md_zip (<[i:=o]> O) D).
Proof.
  intros HL Hi. unfold set_order. rewrite aget_Some, md_zip_lookup.
  destruct (lookup_lt_is_Some_2 _ _ Hi) as [x Hx].
  destruct (lookup_lt_is_Some_2 D i) as [v Hv]; [lia|].
  rewrite Hx, Hv. simpl.
  rewrite aset_Some by (unfold md_zip; rewrite length_zip_with; lia).
  f_equal. unfold md_zip. rewrite insert_zip_with. f_equal.
  by rewrite list_insert_id.
Qed.
End Arrays.

Lemma set_delay_zip O D (i : nat) v :
  length O = length D -> (i < length O)%nat ->
  set_delay (md_zip O D) (Z.of_nat i) v = Some (md_zip O (<[i:=v]> D)).
Proof.
  intros HL Hi. unfold set_delay. rewrite aget_Some, md_zip_lookup.
  destruct (lookup_lt_is_Some_2 _ _ Hi) as [x Hx].
  destruct (lookup_lt_is_Some_2 D i) as [w Hw]; [lia|].
  rewrite Hx, Hw. simpl.
  rewrite aset_Some by (unfold md_zip; rewrite length_zip_with; lia).
  f_equal. unfold md_zip. rewrite insert_zip_with. f_equal.
  by rewrite list_insert_id.
Qed.

(** A position given as an integer expression. *)
Ltac nat_pos n := match goal with
  | |- context [order_at _ ?i] => replace i with (Z.of_nat n) by lia
  | |- context [set_order _ ?i _] => replace i with (Z.of_nat n) by lia
  | |- context [delay_at _ ?i] => replace i with (Z.of_nat n) by lia
  end.

(** ** The three loops *)

Lemma find_order_spec D (A : list Z) x B (fuel : nat) O P :
  O = P ++ A ++ x :: B -> length O = length D -> x ∉ A ->
  (length A < fuel)%nat ->
  forall cnt, Z.of_nat (length P + length A) < cnt ->
  find_order fuel (md_zip O D) (Z.of_nat (length P)) cnt x =
  Some (Z.of_nat (length P + length A)).
Proof.
  revert fuel P. induction A as [|a A IH]; intros [|fuel] P HO HL Hx Hf cnt Hc;
    simpl in *; try lia.
  - destruct (_ <? cnt) eqn:E; bools; [|lia].
    rewrite order_at_zip by done. subst O. rewrite list_lookup_middle by done.
    simpl. rewrite Z.eqb_refl. f_equal. lia.
  - destruct (_ <? cnt) eqn:E; bools; [|lia].
    rewrite order_at_zip by done.
    replace (O !! length P) with (Some a)
      by (rewrite HO; symmetry; by apply list_lookup_middle). simpl.
    apply not_elem_of_cons in Hx as [Hne Hx].
    destruct (a =? x) eqn:E'; bools; [congruence|].
    replace (Z.of_nat (length P) + 1) with (Z.of_nat (length (P ++ [a])))
      by (rewrite length_app; simpl; lia).
    rewrite IH; try done; try lia.
    + rewrite length_app. simpl. f_equal. lia.
    + rewrite HO. by rewrite <- app_assoc.
    + rewrite length_app; simpl; lia.
Qed.

Lemma shift_down_spec D (B : list Z) x A R (fuel : nat) O cnt :
  O = A ++ x :: B ++ R -> length O = length D ->
  (length B <= fuel)%nat -> cnt = Z.of_nat (length A + S (length B)) ->
  exists j, shift_down fuel (md_zip O D) (Z.of_nat (length A)) cnt =
            Some (md_zip (A ++ B ++ j :: R) D).
Proof.
  revert x A fuel O. induction B as [|b B IH]; intros x A fuel O HO HL Hf Hc;
    simpl in *.
  - exists x. subst O. destruct fuel; simpl; [done|].
    destruct (_ <? cnt) eqn:E; bools; [lia|done].
  - destruct fuel as [|fuel]; [lia|]. simpl.
    destruct (_ <? cnt) eqn:E; bools; [|lia].
    nat_pos (S (length A)). rewrite order_at_zip by done.
    replace (O !! S (length A)) with (Some b).
    2: { rewrite HO, lookup_app_r by lia.
         by replace (S (length A) - length A)%nat with 1%nat by lia. }
    simpl.
    rewrite set_order_zip; [|done|subst O; rewrite length_app; simpl; lia].
    cbn -[Z.of_nat].
    replace (Z.of_nat (S (length A))) with (Z.of_nat (length (A ++ [b])))
      by (rewrite length_app; simpl; lia).
    destruct (IH b (A ++ [b]) fuel (<[length A:=b]> O)) as [j Hj].
    + subst O. rewrite insert_app_r_alt by lia. rewrite Nat.sub_diag. simpl.
      by rewrite <- app_assoc.
    + by rewrite length_insert.
    + lia.
    + rewrite length_app. simpl. lia.
    + exists j. rewrite Hj. by rewrite <- app_assoc.
Qed.

(** Every index of [A] has a delay in [D]. *)
Definition indices_in (D A : list Z) : Prop :=
  Forall (fun a => 0 <= a < Z.of_nat (length D)) A.

Definition delay_of (D : list Z) (a : Z) : Z := nth (Z.to_nat a) D 0.

Lemma delay_at_index O D a :
  length O = length D -> 0 <= a < Z.of_nat (length D) ->
  delay_at (md_zip O D) a = Some (delay_of D a).
Proof.
  intros HL Ha. replace a with (Z.of_nat (Z.to_nat a)) at 1 by lia.
  rewrite delay_at_zip by done. unfold delay_of.
  destruct (lookup_lt_is_Some_2 D (Z.to_nat a)) as [v Hv]; [lia|].
  rewrite Hv. f_equal. symmetry. by apply nth_lookup_Some.
Qed.

Lemma shift_up_spec D A x R (fuel : nat) O j :
  O = A ++ j :: R -> length O = length D -> (length A <= fuel)%nat ->
  indices_in D A -> 0 <= x < Z.of_nat (length D) ->
  exists A1 A2 j', A = A1 ++ A2 /\
    shift_up fuel (md_zip O D) (Z.of_nat (length A)) x =
      Some (md_zip (A1 ++ j' :: A2 ++ R) D, Z.of_nat (length A1)) /\
    Forall (fun a => delay_of D x < delay_of D a) A2 /\
    (forall a, last A1 = Some a -> delay_of D a <= delay_of D x).
Proof.
  revert R fuel O j. induction A as [|a A IH] using rev_ind;
    intros R fuel O j HO HL Hf HA Hx.
  - exists [], [], j. split; [done|]. split; [|done].
    subst O. by destruct fuel.
  - rewrite length_app in Hf. simpl in Hf.
    destruct fuel as [|fuel]; [lia|]. simpl.
    rewrite length_app. simpl.
    destruct (_ >? 0) eqn:E; bools; [|lia].
    apply Forall_app in HA as [HA Ha]. rewrite Forall_singleton in Ha.
    nat_pos (length A). rewrite order_at_zip by done.
    replace (O !! length A) with (Some a).
    2: { rewrite HO, <- app_assoc. symmetry. by apply list_lookup_middle. }
    simpl.
    rewrite delay_at_index by done. simpl.
    rewrite delay_at_index by done. simpl.
    destruct (_ <=? _) eqn:E'; bools.
    + exists (A ++ [a]), [], j. rewrite app_nil_r.
      split; [done|]. split; [by subst; rewrite length_app|].
      split; [done|]. intros a'. rewrite last_snoc. by intros [= <-].
    + rewrite set_order_zip; [|done|subst O; rewrite !length_app; simpl; lia].
      simpl.
      replace (Z.of_nat (length A + 1) - 1) with (Z.of_nat (length A)) by lia.
      destruct (IH (a :: R) fuel (<[(length A + 1)%nat := a]> O) a)
        as (A1 & A2 & j' & -> & Hs & Hgt & Hle); try done.
      * subst O. rewrite insert_app_r_alt by (rewrite length_app; simpl; lia).
        rewrite length_app, Nat.sub_diag. simpl. by rewrite <- app_assoc.
      * by rewrite length_insert.
      * lia.
      * exists A1, (A2 ++ [a]), j'. split; [by rewrite app_assoc|].
        split; [rewrite Hs; by rewrite <- app_assoc|].
        split; [|done]. apply Forall_app; split; [done|].
        rewrite Forall_singleton. lia.
Qed.

(** ** Order of the indices *)

Definition by_delay (D : list Z) (a b : Z) : Prop := delay_of D a <= delay_of D b.

Lemma sorted_last_le D A x :
  StronglySorted (by_delay D) A ->
  (forall a, last A = Some a -> delay_of D a <= delay_of D x) ->
  Forall (fun a => delay_of D a <= delay_of D x) A.
Proof.
  induction A as [|a A IH]; intros Hs Hl; [constructor|].
  apply StronglySorted_inv in Hs as [Hs Ha].
  destruct A as [|b A].
  - constructor; [by apply Hl|constructor].
  - constructor; [|apply IH; auto].
    specialize (IH Hs Hl). apply Forall_cons in IH as [Hb _].
    apply Forall_cons in Ha as [Hab _]. unfold by_delay in Hab. lia.
Qed.

Lemma sorted_insert D A1 A2 x :
  StronglySorted (by_delay D) (A1 ++ A2) ->
  Forall (fun a => delay_of D x < delay_of D a) A2 ->
  (forall a, last A1 = Some a -> delay_of D a <= delay_of D x) ->
  StronglySorted (by_delay D) (A1 ++ x :: A2).
Proof.
  intros Hs H2 Hl.
  assert (StronglySorted (by_delay D) A1) as Hs1
    by (by eapply StronglySorted_app_1_l).
  pose proof (sorted_last_le D A1 x Hs1 Hl) as H1. clear Hl Hs1.
  induction A1 as [|a A1 IH]; simpl in *.
  - constructor; [done|]. eapply Forall_impl; [done|].
    unfold by_delay; simpl; lia.
  - apply StronglySorted_inv in Hs as [Hs Ha].
    apply Forall_cons in H1 as [Hax H1].
    constructor; [by apply IH|].
    apply Forall_app in Ha as [Ha1 Ha2]. apply Forall_app; split; [done|].
    by constructor.
Qed.

(** Removing an element keeps the order; changing the delay of an index that
    does not occur keeps it too. *)
Lemma sorted_delete D A x B :
  StronglySorted (by_delay D) (A ++ x :: B) -> StronglySorted (by_delay D) (A ++ B).
Proof.
  induction A as [|a A IH]; simpl; intros Hs.
  - by apply StronglySorted_inv in Hs as [??].
  - apply StronglySorted_inv in Hs as [Hs Ha]. constructor; [by apply IH|].
    apply Forall_app in Ha as [??]. apply Forall_app; split; [done|].
    by eapply Forall_cons.
Qed.

Lemma delay_of_insert D (i : nat) v a :
  0 <= a -> a <> Z.of_nat i -> delay_of (<[i:=v]> D) a = delay_of D a.
Proof.
  intros. unfold delay_of. rewrite !nth_lookup.
  rewrite list_lookup_insert_ne by lia. done.
Qed.

Lemma delay_of_insert_eq D (i : nat) v :
  (i < length D)%nat -> delay_of (<[i:=v]> D) (Z.of_nat i) = v.
Proof.
  intros. unfold delay_of. rewrite nth_lookup, Nat2Z.id.
  by rewrite list_lookup_insert_eq.
Qed.

Lemma map_delay_insert D (i : nat) v A :
  Forall (fun a => 0 <= a) A -> Z.of_nat i ∉ A ->
  map (delay_of (<[i:=v]> D)) A = map (delay_of D) A.
Proof.
  intros HA Hi. apply map_ext_in. intros a Ha.
  rewrite <- list_elem_of_In in Ha. apply delay_of_insert.
  - by rewrite Forall_forall in HA; apply HA.
  - intros ->. done.
Qed.

Lemma sorted_insert_delay D (i : nat) v A :
  Forall (fun a => 0 <= a) A -> Z.of_nat i ∉ A ->
  StronglySorted (by_delay D) A -> StronglySorted (by_delay (<[i:=v]> D)) A.
Proof.
  intros HA Hi Hs. induction A as [|a A IH]; [constructor|].
  apply StronglySorted_inv in Hs as [Hs Ha].
  apply not_elem_of_cons in Hi as [Hia Hi]. apply Forall_cons in HA as [H0 HA].
  constructor; [by apply IH|].
  rewrite Forall_forall in Ha, HA |- *. intros b Hb. unfold by_delay.
  rewrite !delay_of_insert; auto; [by apply Ha|].
  intros ->. done.
Qed.

Lemma delays_take D (n : nat) :
  (n <= length D)%nat -> map (delay_of D) (seqZ 0 (Z.of_nat n)) = take n D.
Proof.
  intros. apply list_eq. intros i. rewrite list_lookup_fmap || rewrite lookup_map.
  destruct (decide (i < n)%nat).
  - rewrite lookup_take_lt by done. rewrite lookup_seqZ_lt by lia. simpl.
    unfold delay_of. destruct (lookup_lt_is_Some_2 D i) as [v Hv]; [lia|].
    rewrite Hv. f_equal. apply nth_lookup_Some.
    by replace (Z.to_nat (0 + Z.of_nat i)) with i by lia.
  - rewrite lookup_take_ge by lia. by rewrite lookup_seqZ_ge by lia.
Qed.

Lemma seqZ_nonneg n : Forall (fun a => 0 <= a) (seqZ 0 n).
Proof. rewrite Forall_forall. intros a Ha%elem_of_seqZ. lia. Qed.

(** ** Specification *)

(** Sort, and take the middle element or the (truncated) mean of the two. *)
Definition median_spec (l : list Z) : Z :=
  let s := merge_sort Z.le l in
  let n := Z.of_nat (length s) in
  if truthy (Z.rem n 2) then nth (Z.to_nat (Z.quot n 2)) s 0
  else Z.quot (s64 (nth (Z.to_nat (Z.quot n 2 - 1)) s 0 +
                    nth (Z.to_nat (Z.quot n 2)) s 0)) 2.

(** Append a sample to a window of at most [len] samples, oldest first. *)
Definition push (len : nat) (w : list Z) (v : Z) : list Z :=
  drop (S (length w) - len) (w ++ [v]).

Definition orders_ok (D A : list Z) : Prop :=
  A ≡ₚ seqZ 0 (Z.of_nat (length A)) /\ StronglySorted (by_delay D) A.

(** The filter state [m] holds the window [w]. *)
Definition mm_rel (m : mmedian) (w : list Z) : Prop :=
  exists O D (idx : nat),
    mm_data m = md_zip O D /\ length O = length D /\
    mm_len m = Z.of_nat (length D) /\ (0 < length D)%nat /\
    mm_index m = Z.of_nat idx /\ mm_cnt m = Z.of_nat (length w) /\
    ((length w < length D)%nat /\ idx = length w /\ w = take idx D \/
     length w = length D /\ (idx < length D)%nat /\ w = drop idx D ++ take idx D) /\
    orders_ok D (take (length w) O).

Lemma merge_sort_unique (l s : list Z) :
  l ≡ₚ s -> StronglySorted Z.le s -> merge_sort Z.le l = s.
Proof.
  intros Hp Hs. apply (StronglySorted_unique Z.le).
  - apply (StronglySorted_merge_sort Z.le).
  - done.
  - by rewrite merge_sort_Permutation.
Qed.

Lemma sorted_map_delay D A :
  StronglySorted (by_delay D) A -> StronglySorted Z.le (map (delay_of D) A).
Proof.
  induction 1 as [|a A Hs IH Ha]; simpl; constructor; [done|].
  rewrite Forall_map. eapply Forall_impl; [exact Ha|]. done.
Qed.

(** The part of [filter_sample] that reads the middle of the index array. *)
Definition median_read (d : list mmedian_data) (cnt : Z) : option Z :=
  let i := Z.quot cnt 2 in
  if truthy (Z.rem cnt 2) then o ← order_at d i; delay_at d o
  else
    o1 ← order_at d (i - 1); v1 ← delay_at d o1;
    o2 ← order_at d i; v2 ← delay_at d o2;
    Some (Z.quot (s64 (v1 + v2)) 2).

Lemma read_sorted D O (c i : nat) :
  length O = length D -> (c <= length D)%nat -> (i < c)%nat ->
  indices_in D (take c O) ->
  (o ← order_at (md_zip O D) (Z.of_nat i); delay_at (md_zip O D) o) =
  Some (nth i (map (delay_of D) (take c O)) 0).
Proof.
  intros HL Hc Hi HA. rewrite order_at_zip by done.
  destruct (lookup_lt_is_Some_2 O i) as [o Ho]; [lia|]. rewrite Ho. simpl.
  assert (take c O !! i = Some o) as Ht by (by rewrite lookup_take_lt).
  rewrite delay_at_index; [|done|].
  - f_equal. symmetry. apply nth_lookup_Some.
    by rewrite list_lookup_fmap, Ht || by rewrite lookup_map, Ht.
  - unfold indices_in in HA. rewrite Forall_forall in HA. apply HA.
    by eapply list_elem_of_lookup_2.
Qed.

Lemma orders_indices D A :
  orders_ok D A -> (length A <= length D)%nat -> indices_in D A.
Proof.
  intros [Hp _] Hl. unfold indices_in. rewrite Hp, Forall_forall.
  intros a Ha%elem_of_seqZ. lia.
Qed.

Lemma median_read_spec D O (c : nat) l :
  length O = length D -> (0 < c <= length D)%nat ->
  orders_ok D (take c O) -> l ≡ₚ take c D ->
  median_read (md_zip O D) (Z.of_nat c) = Some (median_spec l).
Proof.
  intros HL Hc Hok Hl.
  assert (length (take c O) = c) as HLt by (rewrite length_take; lia).
  assert (indices_in D (take c O)) as HA by (apply orders_indices; [done|lia]).
  set (s := map (delay_of D) (take c O)).
  assert (merge_sort Z.le l = s) as Hs.
  { apply merge_sort_unique; [|by apply sorted_map_delay, Hok].
    destruct Hok as [Hp _]. unfold s. rewrite Hl, <- delays_take by lia.
    rewrite HLt in Hp. by rewrite Hp. }
  assert (length s = c) as Hsl by (unfold s; by rewrite length_map).
  unfold median_spec. rewrite Hs, Hsl. unfold median_read.
  assert (Z.quot (Z.of_nat c) 2 = Z.of_nat (c / 2)) as Hq.
  { rewrite Z.quot_div_nonneg by lia. by rewrite Nat2Z.inj_div. }
  rewrite Hq, Nat2Z.id.
  assert (c / 2 < c)%nat by (apply Nat.div_lt; lia).
  destruct (truthy _) eqn:Et.
  - rewrite (read_sorted D O c (c / 2)); try done; lia.
  - unfold truthy in Et. bools.
    assert (1 <= c / 2)%nat.
    { apply Nat.div_le_lower_bound; [lia|]. destruct (decide (c = 1)%nat) as [E|]; [|lia].
      rewrite E in Et. done. }
    replace (Z.of_nat (c / 2) - 1) with (Z.of_nat (c / 2 - 1)) by lia.
    rewrite Nat2Z.id.
    pose proof (read_sorted D O c (c / 2 - 1) HL ltac:(lia) ltac:(lia) HA) as R1.
    pose proof (read_sorted D O c (c / 2) HL ltac:(lia) ltac:(lia) HA) as R2.
    remember (c / 2)%nat as h.
    destruct (order_at _ (Z.of_nat (h - 1))) as [o1|]; simpl in R1 |- *; [|done].
    rewrite R1. simpl.
    destruct (order_at _ (Z.of_nat h)) as [o2|]; simpl in R2 |- *; [|done].
    by rewrite R2.
Qed.

(** Inserting the index of the new sample. *)
Lemma insert_index D A (idx : nat) j R O :
  O = A ++ j :: R -> length O = length D -> (idx < length D)%nat ->
  Z.of_nat idx :: A ≡ₚ seqZ 0 (Z.of_nat (S (length A))) ->
  StronglySorted (by_delay D) A ->
  exists d' i O', shift_up (S (length A)) (md_zip O D) (Z.of_nat (length A))
             (Z.of_nat idx) = Some (d', i) /\
    set_order d' i (Z.of_nat idx) = Some (md_zip O' D) /\
    length O' = length D /\ orders_ok D (take (S (length A)) O').
Proof.
  intros HO HL Hidx Hp Hs.
  assert (S (length A) <= length D)%nat as HlA
    by (subst O; rewrite length_app in HL; simpl in HL; lia).
  assert (indices_in D A) as HA.
  { unfold indices_in. rewrite Forall_forall. intros a Ha.
    assert (a ∈ seqZ 0 (Z.of_nat (S (length A)))) as Hin%elem_of_seqZ
      by (rewrite <- Hp; by right). lia. }
  destruct (shift_up_spec D A (Z.of_nat idx) R (S (length A)) O j)
    as (A1 & A2 & j' & HA12 & -> & Hgt & Hle); try done; try lia.
  eexists _, _, (A1 ++ Z.of_nat idx :: A2 ++ R). split; [done|].
  assert (length (A1 ++ j' :: A2 ++ R) = length D) as HL'.
  { rewrite <- HL, HO, HA12. rewrite !length_app. simpl. rewrite length_app. lia. }
  split.
  { rewrite set_order_zip; [|done|rewrite length_app; simpl; lia].
    do 2 f_equal. rewrite insert_app_r_alt by lia. by rewrite Nat.sub_diag. }
  split; [rewrite <- HL', !length_app; done|].
  assert (take (S (length A)) (A1 ++ Z.of_nat idx :: A2 ++ R) =
          A1 ++ Z.of_nat idx :: A2) as ->.
  { rewrite app_comm_cons, (app_assoc A1). apply take_app_length'.
    rewrite HA12, !length_app. simpl. lia. }
  split.
  - rewrite length_app. simpl. rewrite HA12 in Hp. rewrite length_app in Hp.
    rewrite <- Permutation_middle. rewrite Hp. f_equiv. lia.
  - apply sorted_insert; [by rewrite <- HA12|done|done].
Qed.

(** What [filter_sample] does once the old index is removed. *)
Definition sample_tail (len index : Z) (p : list mmedian_data * Z)
    : option (Z * mmedian) :=
  let '(d, cnt) := p in
  '(d, i) ← shift_up (Z.to_nat cnt) d (cnt - 1) index;
  d ← set_order d i index;
  if len =? 0 then UB else
  median ← median_read d cnt;
  Some (median, mk_mm len cnt (Z.rem (1 + index) len) d).

Lemma sample_tail_spec D A (idx : nat) j R l :
  length (A ++ j :: R) = length D -> (idx < length D)%nat ->
  Z.of_nat idx :: A ≡ₚ seqZ 0 (Z.of_nat (S (length A))) ->
  StronglySorted (by_delay D) A -> l ≡ₚ take (S (length A)) D ->
  exists O', sample_tail (Z.of_nat (length D)) (Z.of_nat idx)
      (md_zip (A ++ j :: R) D, Z.of_nat (S (length A))) =
    Some (median_spec l,
          mk_mm (Z.of_nat (length D)) (Z.of_nat (S (length A)))
                (Z.of_nat (S idx mod length D)) (md_zip O' D)) /\
    length O' = length D /\ orders_ok D (take (S (length A)) O').
Proof.
  intros HL Hidx Hp Hs Hl. unfold sample_tail. rewrite Nat2Z.id.
  replace (Z.of_nat (S (length A)) - 1) with (Z.of_nat (length A)) by lia.
  destruct (insert_index D A idx j R _ eq_refl HL Hidx Hp Hs)
    as (d' & i & O' & -> & Hset & HL' & Hok).
  exists O'. cbn -[Z.of_nat]. rewrite Hset. cbn -[Z.of_nat].
  destruct (Z.of_nat (length D) =? 0) eqn:E; bools; [lia|].
  rewrite length_app in HL. simpl in HL.
  rewrite (median_read_spec D O' (S (length A)) l) by (done || lia).
  cbn -[Z.of_nat Nat.modulo Z.rem]. split; [|done].
  replace (Z.rem (1 + Z.of_nat idx) (Z.of_nat (length D)))
    with (Z.of_nat (S idx mod length D)); [done|].
  rewrite Z.rem_mod_nonneg by lia. rewrite Nat2Z.inj_mod. f_equal. lia.
Qed.

Lemma push_not_full len w v :
  (length w < len)%nat -> push len w v = w ++ [v].
Proof. intros. unfold push. by replace (S (length w) - len)%nat with 0%nat by lia. Qed.

Lemma push_full (D : list Z) idx v :
  (idx < length D)%nat ->
  push (length D) (drop idx D ++ take idx D) v =
  drop (S idx) (<[idx:=v]> D) ++ take (S idx) (<[idx:=v]> D).
Proof.
  intros. unfold push.
  replace (S (length (drop idx D ++ take idx D)) - length D)%nat with 1%nat
    by (rewrite length_app, length_drop, length_take; lia).
  rewrite drop_insert_lt by lia.
  rewrite (take_S_r (<[idx:=v]> D) idx v) by (by apply list_lookup_insert_eq).
  rewrite take_insert_ge by lia.
  destruct (lookup_lt_is_Some_2 D idx) as [x Hx]; [done|].
  rewrite (drop_S D x idx) by done. simpl. by rewrite drop_0, app_assoc.
Qed.

(** A permutation of the indices splits at the index to replace. *)
Lemma remove_index D O (idx : nat) :
  length O = length D -> (idx < length D)%nat -> orders_ok D O ->
  exists P B, O = P ++ Z.of_nat idx :: B /\ (Z.of_nat idx ∉ P ++ B) /\
    Forall (fun a => 0 <= a) (P ++ B) /\
    StronglySorted (by_delay D) (P ++ B).
Proof.
  intros HL Hi [Hp Hs].
  assert (Z.of_nat idx ∈ O) as Hin by (rewrite Hp; apply elem_of_seqZ; lia).
  apply list_elem_of_split in Hin as (P & B & ->).
  exists P, B. split; [done|].
  assert (NoDup (P ++ Z.of_nat idx :: B)) as Hnd by (rewrite Hp; apply NoDup_seqZ).
  assert (Forall (fun a => 0 <= a) (P ++ Z.of_nat idx :: B)) as Hnn
    by (rewrite Hp; apply seqZ_nonneg).
  rewrite <- Permutation_middle in Hnd, Hnn.
  apply NoDup_cons in Hnd as [Hni _]. apply Forall_cons in Hnn as [_ Hnn].
  split; [done|]. split; [done|]. by eapply sorted_delete.
Qed.

Lemma mm_rel_intro O D idx w len cnt index :
  length O = length D -> (0 < length D)%nat ->
  ((length w < length D)%nat /\ idx = length w /\ w = take idx D \/
   length w = length D /\ (idx < length D)%nat /\ w = drop idx D ++ take idx D) ->
  orders_ok D (take (length w) O) ->
  len = Z.of_nat (length D) -> cnt = Z.of_nat (length w) -> index = Z.of_nat idx ->
  mm_rel (mk_mm len cnt index (md_zip O D)) w.
Proof.
  intros HL Hpos Hw Hok -> -> ->. exists O, D, idx. simpl.
  repeat (split; [done|]). done.
Qed.

(** The window grows. *)
Lemma filter_sample_grow m D O v w :
  mm_data m = md_zip O D -> length O = length D ->
  mm_len m = Z.of_nat (length D) -> mm_index m = Z.of_nat (length w) ->
  mm_cnt m = Z.of_nat (length w) -> (length w < length D)%nat ->
  w = take (length w) D -> orders_ok D (take (length w) O) ->
  exists m', filter_sample m v = Some (median_spec (w ++ [v]), m') /\
    mm_rel m' (w ++ [v]).
Proof.
  intros Hd HL Hlen Hi Hc Hlt Hw Hok.
  set (n := length w) in *. set (D' := <[n:=v]> D).
  assert (length D' = length D) as HD' by (apply length_insert).
  assert (w ++ [v] = take (S n) D') as Hw'.
  { unfold D'. rewrite (take_S_r _ _ v) by (by apply list_lookup_insert_eq).
    rewrite take_insert_ge by lia. by rewrite <- Hw. }
  destruct (lookup_lt_is_Some_2 O n) as [j Hj]; [lia|].
  assert (length (take n O) = n) as HlA by (rewrite length_take; lia).
  destruct Hok as [Hp Hs]. rewrite HlA in Hp.
  assert (Z.of_nat n ∉ take n O) as Hni.
  { rewrite Hp, elem_of_seqZ. lia. }
  destruct (sample_tail_spec D' (take n O) n j (drop (S n) O) (w ++ [v]))
    as (O' & Ht & HL' & Hok').
  - rewrite take_drop_middle by done. lia.
  - lia.
  - rewrite HlA, seqZ_S. simpl. rewrite Hp. by rewrite Permutation_cons_append.
  - apply sorted_insert_delay; [rewrite Hp; apply seqZ_nonneg|done|done].
  - by rewrite HlA, Hw'.
  - rewrite HlA in Ht, Hok'. rewrite take_drop_middle, HD' in Ht by done.
    eexists. split.
    + unfold filter_sample. rewrite Hi, Hd, Hlen, Hc.
      rewrite set_delay_zip by lia. fold D'. cbn -[Z.of_nat].
      destruct (Z.of_nat n <? _) eqn:E; bools; [|lia].
      replace (Z.of_nat n + 1) with (Z.of_nat (S n)) by lia. exact Ht.
    + eapply (mm_rel_intro O' D' (S n mod length D)); try lia.
      * rewrite length_app. fold n. simpl. destruct (decide (S n = length D)) as [E|].
        -- right. rewrite E, Nat.Div0.mod_same, drop_0, take_0, app_nil_r, HD'.
           split; [lia|]. split; [lia|]. rewrite Hw'. rewrite take_ge; [done|lia].
        -- left. rewrite Nat.mod_small by lia. repeat split; try lia. done.
      * rewrite length_app. fold n. simpl. by rewrite Nat.add_1_r.
      * rewrite length_app. fold n. simpl. lia.
Qed.

(** The window slides. *)
Lemma filter_sample_slide m D O v idx :
  mm_data m = md_zip O D -> length O = length D ->
  mm_len m = Z.of_nat (length D) -> mm_index m = Z.of_nat idx ->
  mm_cnt m = Z.of_nat (length D) -> (idx < length D)%nat -> orders_ok D O ->
  let w' := drop (S idx) (<[idx:=v]> D) ++ take (S idx) (<[idx:=v]> D) in
  exists m', filter_sample m v = Some (median_spec w', m') /\ mm_rel m' w'.
Proof.
  intros Hd HL Hlen Hi Hc Hlt Hok w'.
  set (D' := <[idx:=v]> D) in *.
  assert (length D' = length D) as HD' by (apply length_insert).
  assert (w' ≡ₚ D') as Hw'
    by (unfold w'; rewrite Permutation_app_comm; by rewrite take_drop).
  destruct (remove_index D O idx HL Hlt Hok) as (P & B & HO & Hni & Hnn & Hs).
  assert (length O = S (length (P ++ B))) as HlO
    by (rewrite HO, !length_app; simpl; lia).
  destruct (shift_down_spec D' B (Z.of_nat idx) P [] (length D) O
    (Z.of_nat (length D))) as [j Hsd].
  { by rewrite app_nil_r. } { lia. } { rewrite length_app in HlO. lia. }
  { rewrite length_app in HlO. lia. }
  destruct (sample_tail_spec D' (P ++ B) idx j [] w') as (O' & Ht & HL' & Hok').
  - rewrite !length_app in *. simpl. lia.
  - lia.
  - rewrite <- HlO. destruct Hok as [Hp _]. rewrite HO in Hp at 1.
    by rewrite <- Permutation_middle in Hp.
  - by apply sorted_insert_delay.
  - rewrite Hw'. rewrite take_ge; [done|lia].
  - rewrite <- HlO, HL, HD' in Ht. rewrite <- HlO in Hok'.
    exists (mk_mm (Z.of_nat (length D)) (Z.of_nat (length D))
             (Z.of_nat (S idx mod length D)) (md_zip O' D')). split.
    + unfold filter_sample. rewrite Hi, Hd, Hlen, Hc, Nat2Z.id.
      rewrite set_delay_zip by lia. fold D'. cbn -[Z.of_nat].
      destruct (_ <? _) eqn:E; bools; [lia|].
      pose proof (find_order_spec D' P (Z.of_nat idx) B (length D) O []) as Hf.
      simpl in Hf. rewrite Hf; [|done|lia|by apply not_elem_of_app in Hni as [? _]| |].
      * cbn -[Z.of_nat]. rewrite Hsd. cbn -[Z.of_nat].
        rewrite app_assoc. exact Ht.
      * rewrite length_app in HlO. lia.
      * rewrite length_app in HlO. lia.
    + assert (length w' = length D) as Hlw by (rewrite Hw'; lia).
      eapply (mm_rel_intro O' D' (S idx mod length D)); try lia.
      * right. split; [lia|]. split; [rewrite HD'; apply Nat.mod_upper_bound; lia|].
        destruct (decide (S idx = length D)) as [E|].
        -- rewrite E, Nat.Div0.mod_same, drop_0, take_0, app_nil_r.
           unfold w'. rewrite drop_ge, take_ge by lia. done.
        -- rewrite Nat.mod_small by lia. done.
      * rewrite Hlw. by rewrite <- HL.
Qed.

Lemma filter_sample_step (m : mmedian) (w : list Z) (v : Z) :
  mm_rel m w ->
  exists m', filter_sample m v =
    Some (median_spec (push (Z.to_nat (mm_len m)) w v), m') /\
    mm_rel m' (push (Z.to_nat (mm_len m)) w v).
Proof.
  intros H.
  destruct H as (O & D & idx & Hd & HL & Hlen & Hpos & Hi & Hc & Hw & Hok).
  rewrite Hlen, Nat2Z.id.
  destruct Hw as [(Hlt & -> & Hw)|(Hl & Hlt & Hw)].
  - rewrite push_not_full by done. by eapply filter_sample_grow.
  - rewrite Hw, push_full by done. rewrite Hl in Hc, Hok.
    rewrite take_ge in Hok by lia. by eapply filter_sample_slide.
Qed.

(** C9: [filter_sample] refines the abstract moving median: from a state that
    holds a window, it never reads outside its array, returns the median of
    the window extended by the new sample, and the new state holds that
    window. *)
Theorem filter_sample_refines (m : mmedian) (w : list Z) (v : Z)
  (H : mm_rel m w) :
  exists m', filter_sample m v =
    Some (median_spec (push (Z.to_nat (mm_len m)) w v), m') /\
    mm_rel m' (push (Z.to_nat (mm_len m)) w v).
Proof. by apply filter_sample_step. Qed.

(** Any array returned by the allocator, with [cnt] and [index] reset, holds
    the empty window. *)
Lemma mm_rel_reset (m : mmedian) :
  mm_len m = Z.of_nat (length (mm_data m)) -> (0 < length (mm_data m))%nat ->
  mm_rel (mmedian_reset m) [].
Proof.
  intros Hl Hpos.
  set (O := map md_order (mm_data m)). set (D := map md_delays (mm_data m)).
  assert (mm_data m = md_zip O D) as Hz.
  { unfold O, D. clear. induction (mm_data m) as [|[o d] l IH]; [done|].
    simpl. unfold md_zip in *. simpl. by rewrite <- IH. }
  unfold mmedian_reset. rewrite Hz.
  apply (mm_rel_intro O D 0); unfold O, D; rewrite ?length_map; try done.
  - left. split; [simpl; lia|]. by rewrite take_0.
  - rewrite take_0. split; [done|constructor].
Qed.

Lemma filter_sample_refines_witness :
  let m := mk_mm 3 0 0 (repeat (mk_md 77 88) 3) in
  filter_sample m 5 = Some (5, mk_mm 3 1 1
    [mk_md 0 5; mk_md 77 88; mk_md 77 88]) /\
  exists m', filter_sample m 5 = Some (median_spec (push 3 [] 5), m') /\
    mm_rel m' (push 3 [] 5).
Proof.
  split; [vm_compute; reflexivity|].
  apply (filter_sample_refines (mk_mm 3 0 0 (repeat (mk_md 77 88) 3)) [] 5).
  apply (mm_rel_reset (mk_mm 3 0 0 (repeat (mk_md 77 88) 3)));
    [reflexivity|simpl; lia].
Defined.

(** The outputs of the filter on a sequence of samples. *)
Fixpoint run_filter (m : mmedian) (l : list Z) : option (list Z) :=
  match l with
  | [] => Some []
  | v :: l => '(r, m') ← filter_sample m v; rs ← run_filter m' l; Some (r :: rs)
  end.

Fixpoint run_spec (len : nat) (w l : list Z) : list Z :=
  match l with
  | [] => []
  | v :: l => median_spec (push len w v) :: run_spec len (push len w v) l
  end.

Lemma filter_sample_len m v r m' :
  filter_sample m v = Some (r, m') -> mm_len m' = mm_len m.
Proof.
  unfold filter_sample. intros H.
  repeat (case_match || apply bind_Some in H as (? & ? & H)); by simplify_eq/=.
Qed.

Lemma run_filter_rel (l : list Z) (m : mmedian) (w : list Z) :
  mm_rel m w -> run_filter m l = Some (run_spec (Z.to_nat (mm_len m)) w l).
Proof.
  revert m w. induction l as [|v l IH]; intros m w H; [done|]. simpl.
  destruct (filter_sample_step m w v H) as (m' & Hs & Hm').
  rewrite Hs. simpl. rewrite (IH m' _ Hm'). simpl.
  by rewrite (filter_sample_len _ _ _ _ Hs).
Qed.

(** after [mmedian_create] and a reset, whatever the allocated memory
    contains, the filter answers every sequence of samples with the medians of
    the last ten samples received so far. *)
Theorem filter_run_from_create (m : mmedian) (mem : list mmedian_data) (l : list Z)
  (H : length mem = 10%nat) :
  run_filter (mmedian_reset (mmedian_create m 10 (Some mem))) l =
  Some (run_spec 10 [] l).
Proof.
  assert (mm_rel (mmedian_reset (mmedian_create m 10 (Some mem))) []) as Hr
    by (apply mm_rel_reset; simpl; lia).
  by rewrite (run_filter_rel l _ _ Hr).
Qed.

Lemma filter_run_from_create_witness :
  let mem := repeat (mk_md (-5) 123) 10 in
  run_spec 10 [] [5; 1; 9; 9] = [5; 3; 5; 7] /\
  run_filter (mmedian_reset (mmedian_create (mk_mm 0 0 0 []) 10 (Some mem)))
    [5; 1; 9; 9] = Some (run_spec 10 [] [5; 1; 9; 9]).
Proof.
  split; [vm_compute; reflexivity|].
  apply (filter_run_from_create (mk_mm 0 0 0 []) (repeat (mk_md (-5) 123) 10)).
  reflexivity.
Defined.

(** ** Path delay *)

Lemma ptu_half u :
  ptu_wf u -> exists v, ptu_div_int u 2 = Some v /\ ptu_wf v /\
    - 4 < ptu_val u - 2 * ptu_val v < 4 /\
    - Z.abs (u_sec u) <= u_sec v <= Z.abs (u_sec u).
Proof.
  destruct u as [s n]. intros H. unfold ptu_div_int. simpl u_sec. simpl u_nsec.
  eexists. split; [done|]. ptu_unfold. unfold NANOSEC_IN_SEC, SCALED_NANOSEC_S.
  assert (-1 <= Z.rem s 2 <= 1) as Hr by (Z.to_euclidean_division_equations; lia).
  rewrite (s64_small (Z.rem s 2 * 1000000000)) by lia.
  rewrite Z.shiftl_mul_pow2 by lia. change (2 ^ 16) with 65536.
  rewrite (s64_small (_ * 65536)) by lia.
  rewrite s64_small by (Z.to_euclidean_division_equations; lia).
  Z.to_euclidean_division_equations; lia.
Qed.

(** Four times within the range in which the differences are exact. *)
Definition times_ok (f : ptp_filter) : Prop :=
  Forall (fun u => ptu_wf u /\ - 2 ^ 31 <= u_sec u <= 2 ^ 31)
    [f_t1 f; f_t2 f; f_t3 f; f_t4 f].

Lemma small_sum u v w :
  ptu_wf u -> ptu_wf v -> ptu_wf w -> ptu_val w = ptu_val u + ptu_val v ->
  Z.abs (u_sec w) <= Z.abs (u_sec u) + Z.abs (u_sec v) + 2.
Proof. destruct u, v, w. intros. ptu_unfold. lia. Qed.

Lemma small_diff u v w :
  ptu_wf u -> ptu_wf v -> ptu_wf w -> ptu_val w = ptu_val u - ptu_val v ->
  Z.abs (u_sec w) <= Z.abs (u_sec u) + Z.abs (u_sec v) + 2.
Proof. destruct u, v, w. intros. ptu_unfold. lia. Qed.


