(* ===== verification/Servo.v ===== *)
(** * Clock servo (ptp_servo.c, ptp_servo.h)

    The proportional-integral controller that turns the measured offsets into
    a frequency adjustment, with its lock state machine.  Frequencies are in
    parts per 10^9 (times 1000 for the integrator [drift]). *)

From stdpp Require Import base list numbers option.
From Stdlib Require Import ZArith Lia.
From S2P Require Import Prelude Ptu.

Inductive servo_state :=
  | SERVO_UNLOCKED | SERVO_JUMP | SERVO_JUMP_LONG | SERVO_LOCKING | SERVO_LOCKED.

#[export] Instance servo_state_eq_dec : EqDecision servo_state.
Proof. solve_decision. Defined.

Record ptp_servo := mk_servo {
  sv_last_offset : ptu; sv_last_ingress : ptu; sv_last_interval : ptu;
  sv_last_dbg_ingress : ptu;
  sv_kp : Z; sv_ki : Z; sv_drift : Z; sv_freq_diff : Z; sv_last_freq : Z;
  sv_drift_valid : bool }.

Definition MAX_DRIFT_CORR : Z := 6250000.
Definition MAX_OFFSET_ADJ_ALLOWED : Z := 5000.
Definition MIN_FREQ_DIFF_ACCEPTED : Z := 5000.
Definition MAX_FREQ_DIFF_ALLOWED : Z := 100000.
Definition MIN_FREQ_CORR_INTERVAL : Z := 50000000.
Definition MIN_JUMP_CORR_INTERVAL : Z := 125000000.

(** The limited value, and whether it was limited. *)
Definition limit_drift (drift : Z) : Z * bool :=
  if drift <? - MAX_DRIFT_CORR then (- MAX_DRIFT_CORR, true)
  else if drift >? MAX_DRIFT_CORR then (MAX_DRIFT_CORR, true)
  else (drift, false).

Definition servo_adj_ingress (s : ptp_servo) (offset : ptu) : ptp_servo :=
  mk_servo (ptu_sub (sv_last_offset s) offset)
    (ptu_sub (sv_last_ingress s) offset) (sv_last_interval s)
    (ptu_sub (sv_last_dbg_ingress s) offset)
    (sv_kp s) (sv_ki s) (sv_drift s) (sv_freq_diff s) (sv_last_freq s)
    (sv_drift_valid s).

(** The record after [last_offset], [last_ingress] and [last_dbg_ingress] take
    the new sample. *)
Definition restart_sample (s : ptp_servo) (offset ingress interval : ptu)
    (valid : bool) : ptp_servo :=
  mk_servo offset ingress interval ingress (sv_kp s) (sv_ki s) (sv_drift s)
    (sv_freq_diff s) (sv_last_freq s) valid.

(** The frequency part, entered when [last_interval] is updated and long
    enough: result 0, the servo, the adjustment and the state. *)
Definition servo_adjust (s : ptp_servo) (offset ingress : ptu) (interval : Z)
    : option (ptp_servo * Z * servo_state) :=
  let offset_nsec := ptu_get_nsec offset in
  let big := Z.abs offset_nsec >=? MAX_OFFSET_ADJ_ALLOWED in
  '(drift, adj, state) ←
    (if negb (sv_drift_valid s) || big then
       let diff := ptu_sub offset (sv_last_offset s) in
       drift ← ptu_div_sec diff (sv_last_interval s);
       let freq := ptu_get_nsec drift in
       let freq := s64 (freq * 1000) in
       let freq := if Z.abs (sv_freq_diff s) >=? 100000 then 0 else freq in
       let drift := s64 (sv_drift s + freq) in
       let adj := s32 (Z.quot drift 1000) in
       let '(adj, limited) := limit_drift adj in
       let drift := if limited then s32 (adj * 1000) else drift in
       Some (drift, adj, SERVO_LOCKING)
     else
       let ki := s64 (sv_ki s * offset_nsec) in
       let kp := s64 (sv_kp s * offset_nsec) in
       let kp := s64 (kp + s64 (ki + sv_drift s)) in
       let kp := if kp >=? 0 then s64 (kp + 500) else s64 (kp - 500) in
       let adj := s32 (Z.quot kp 1000) in
       let '(adj, limited) := limit_drift adj in
       let drift := if limited then sv_drift s else s64 (sv_drift s + ki) in
       Some (drift, adj,
         if Z.abs offset_nsec <? MAX_OFFSET_ADJ_ALLOWED then SERVO_LOCKED
         else SERVO_JUMP));
  let freq_diff := s32 (adj - sv_last_freq s) in
  let '(valid, state) :=
    if negb (sv_drift_valid s) &&
       ((Z.abs freq_diff <? MIN_FREQ_DIFF_ACCEPTED) ||
        (interval >? MIN_JUMP_CORR_INTERVAL)) then (true, SERVO_JUMP)
    else if Z.abs freq_diff >=? MAX_FREQ_DIFF_ALLOWED then
      (sv_drift_valid s, SERVO_JUMP_LONG)
    else if big then (sv_drift_valid s, SERVO_JUMP)
    else (sv_drift_valid s, state) in
  Some (mk_servo offset ingress (sv_last_interval s) (sv_last_dbg_ingress s)
          (sv_kp s) (sv_ki s) drift freq_diff adj valid, adj, state).

(** Return code, servo, [*adj] and [*state]. *)
Definition servo_sample (s : ptp_servo) (offset ingress : ptu)
    (adj : Z) (state : servo_state) : option (Z * ptp_servo * Z * servo_state) :=
  (* Very first Sync. *)
  if ptu_empty (sv_last_ingress s) then
    Some (-1, restart_sample s offset ingress (sv_last_interval s)
                (sv_drift_valid s), adj, SERVO_UNLOCKED)
  else if ptu_empty (sv_last_interval s) && ptu_after (sv_last_ingress s) ingress then
    Some (-1, mk_servo (sv_last_offset s) ptu_zero (sv_last_interval s)
                (sv_last_dbg_ingress s) (sv_kp s) (sv_ki s) (sv_drift s)
                (sv_freq_diff s) (sv_last_freq s) (sv_drift_valid s),
          adj, SERVO_UNLOCKED)
  else
    let last_interval := ptu_sub ingress (sv_last_ingress s) in
    if negb (ptu_empty (sv_last_interval s)) &&
       (ptu_get_nsec last_interval >=? 4 * NANOSEC_IN_SEC) then
      Some (-1, restart_sample s offset ingress ptu_zero false, adj, SERVO_UNLOCKED)
    else
      let s1 := mk_servo (sv_last_offset s) (sv_last_ingress s) last_interval
                  (sv_last_dbg_ingress s) (sv_kp s) (sv_ki s) (sv_drift s)
                  (sv_freq_diff s) (sv_last_freq s) (sv_drift_valid s) in
      let interval := ptu_get_nsec last_interval in
      (* Ignore message if interval is too small. *)
      if interval <? MIN_FREQ_CORR_INTERVAL then Some (-1, s1, adj, state)
      else
        '(s2, adj, state) ← servo_adjust s1 offset ingress interval;
        Some (0, s2, adj, state).

Definition init_ptp_servo (s : ptp_servo) : ptp_servo :=
  mk_servo ptu_zero (sv_last_ingress s) ptu_zero (sv_last_dbg_ingress s)
    500 100 (sv_drift s) (sv_freq_diff s) (sv_last_freq s) (sv_drift_valid s).

(** ** Properties *)

Lemma limit_drift_range z : - MAX_DRIFT_CORR <= fst (limit_drift z) <= MAX_DRIFT_CORR.
Proof.
  unfold limit_drift, MAX_DRIFT_CORR. case_tests; bools; simpl; lia.
Qed.

Lemma limit_drift_id z :
  snd (limit_drift z) = false <-> - MAX_DRIFT_CORR <= z <= MAX_DRIFT_CORR.
Proof.
  unfold limit_drift, MAX_DRIFT_CORR. case_tests; bools; simpl; split; try done; lia.
Qed.

Lemma servo_adjust_total s offset ingress interval :
  ptu_get_nsec (sv_last_interval s) <> 0 ->
  exists s' adj st, servo_adjust s offset ingress interval = Some (s', adj, st) /\
    - MAX_DRIFT_CORR <= adj <= MAX_DRIFT_CORR /\ sv_last_freq s' = adj /\
    st <> SERVO_UNLOCKED /\
    (st = SERVO_LOCKED -> sv_drift_valid s = true /\
       Z.abs (ptu_get_nsec offset) < MAX_OFFSET_ADJ_ALLOWED /\
       Z.abs (sv_freq_diff s') < MAX_FREQ_DIFF_ALLOWED).
Proof.
  intros Hi. unfold servo_adjust.
  destruct (negb (sv_drift_valid s) || _) eqn:Eb.
  - unfold ptu_div_sec. destruct (ptu_get_nsec (sv_last_interval s) =? 0) eqn:E0;
      [bools; lia|]. cbn [mbind option_bind].
    match goal with |- context [limit_drift ?x] =>
      pose proof (limit_drift_range x) as Hr; destruct (limit_drift x) as [adj lim] end.
    simpl in Hr. cbn [mbind option_bind]. case_tests; eexists _, _, _;
      (split; [reflexivity|]); simpl; repeat split; auto; try done; try lia.
  - cbn [mbind option_bind].
    match goal with |- context [limit_drift ?x] =>
      pose proof (limit_drift_range x) as Hr; destruct (limit_drift x) as [adj lim] end.
    simpl in Hr. cbn [mbind option_bind]. bools.
    case_tests; eexists _, _, _; (split; [reflexivity|]); simpl; bools;
      repeat split; auto; try done; try lia; congruence.
Qed.


(** the control law near lock.  With a valid drift, a small offset and
    values that do not overflow, the adjustment is the rounded sum of the
    proportional, integral and drift terms, limited to the hardware range, and
    the integrator accumulates [ki * offset] except when the output is limited
    (no wind-up). *)
Theorem servo_adjust_pi (s : ptp_servo) (offset ingress : ptu) (interval : Z)
  (Hv : sv_drift_valid s = true)
  (Ho : Z.abs (ptu_get_nsec offset) < MAX_OFFSET_ADJ_ALLOWED)
  (Hk : Z.abs (sv_kp s) <= 1000 /\ Z.abs (sv_ki s) <= 1000)
  (Hd : Z.abs (sv_drift s) <= 1000 * MAX_DRIFT_CORR) :
  let o := ptu_get_nsec offset in
  let x := sv_kp s * o + sv_ki s * o + sv_drift s in
  let r := Z.sgn x * ((Z.abs x + 500) / 1000) in
  exists s' st, servo_adjust s offset ingress interval =
      Some (s', fst (limit_drift r), st) /\
    sv_drift s' = (if snd (limit_drift r) then sv_drift s
                   else sv_drift s + sv_ki s * o).
Proof.
  intros o x r. unfold servo_adjust. rewrite Hv. fold o. fold o in Ho.
  destruct (Z.abs o >=? MAX_OFFSET_ADJ_ALLOWED) eqn:E; bools; [lia|].
  cbn [negb orb]. unfold MAX_OFFSET_ADJ_ALLOWED, MAX_DRIFT_CORR in *.
  assert (- 5000000 <= sv_ki s * o <= 5000000) by nia.
  assert (- 5000000 <= sv_kp s * o <= 5000000) by nia.
  set (a := sv_ki s * o) in *. set (b := sv_kp s * o) in *.
  rewrite !(s64_small a), !(s64_small b), (s64_small (a + sv_drift s)) by lia.
  replace (b + (a + sv_drift s)) with x by (unfold x; lia).
  assert (- 6260000000 <= x <= 6260000000) by (unfold x; lia).
  rewrite (s64_small x) by lia.
  assert (s32 (Z.quot (if x >=? 0 then s64 (x + 500) else s64 (x - 500)) 1000) = r)
    as ->.
  { unfold r. destruct (x >=? 0) eqn:Ex; bools; rewrite s64_small by lia.
    - rewrite s32_small by (Z.to_euclidean_division_equations; lia).
      destruct (decide (x = 0)) as [->|]; [done|].
      rewrite Z.sgn_pos, Z.abs_eq by lia. Z.to_euclidean_division_equations; lia.
    - rewrite s32_small by (Z.to_euclidean_division_equations; lia).
      rewrite Z.sgn_neg, Z.abs_neq by lia. Z.to_euclidean_division_equations; lia. }
  destruct (limit_drift r) as [adj lim]. cbn [mbind option_bind fst snd].
  rewrite (s64_small (sv_drift s + a)) by lia.
  case_tests; eexists _, _; split; reflexivity.
Qed.

Lemma servo_adjust_pi_witness :
  let s := mk_servo ptu_zero (mk_ptu 1 0) (mk_ptu 0 1) ptu_zero 500 100 12000 0 0 true in
  let o := ptu_get_nsec (mk_ptu 0 65536000) in
  let x := sv_kp s * o + sv_ki s * o + sv_drift s in
  let r := Z.sgn x * ((Z.abs x + 500) / 1000) in
  r = 612 /\
  exists s' st, servo_adjust s (mk_ptu 0 65536000) (mk_ptu 2 0) 1000000000 =
      Some (s', fst (limit_drift r), st) /\
    sv_drift s' = (if snd (limit_drift r) then sv_drift s
                   else sv_drift s + sv_ki s * o).
Proof.
  split; [vm_compute; reflexivity|].
  apply (servo_adjust_pi
    (mk_servo ptu_zero (mk_ptu 1 0) (mk_ptu 0 1) ptu_zero 500 100 12000 0 0 true)
    (mk_ptu 0 65536000) (mk_ptu 2 0) 1000000000); vm_compute;
    repeat split; congruence.
Defined.

(** When the first branch limits the adjustment, the integrator is reloaded
    with the 32-bit product [adj * 1000], which wraps around: the limit of
    6250000 gives 1955032704 instead of 6250000000. *)
Lemma servo_limit_drift_wraps :
  let s := mk_servo ptu_zero (mk_ptu 1 0) (mk_ptu 1 0) ptu_zero 500 100
             7000000000 0 0 false in
  option_map (fun '(s', adj, _) => (sv_drift s', adj))
    (servo_adjust s ptu_zero (mk_ptu 2 0) 1000000000) = Some (1955032704, 6250000).
Proof. vm_compute. reflexivity. Qed.
