(* ===== verification/Types.v ===== *)
(** * Data model (lan937x_ptp_api.h, ptp_bmca.h, ptp_msg.h, ptp_port.h)

    The structures of the protocol shared by the components, with their
    fields at the widths of the source, and the enumerations of port states,
    port events and delay mechanisms. *)

From stdpp Require Import base list numbers option.
From Stdlib Require Import ZArith Lia.
From S2P Require Import Prelude.

(** ** Identities *)

(** [struct ptp_clock_identity]: eight bytes. *)
Abbreviation clock_identity := (list Z).

Record port_identity := mk_pid { pid_clock : clock_identity; pid_port : Z }.

#[export] Instance port_identity_eq_dec : EqDecision port_identity.
Proof. solve_decision. Defined.

(** Eight bytes and a 16-bit port. *)
Definition clock_id_wf (c : clock_identity) : Prop :=
  length c = 8%nat /\ Forall (fun b => 0 <= b < 256) c.
Definition port_id_wf (p : port_identity) : Prop :=
  clock_id_wf (pid_clock p) /\ 0 <= pid_port p < 65536.

(** The object representation of a port identity on the (little-endian)
    target: this is what [memcmp] compares. *)
Definition port_id_bytes (p : port_identity) : list Z :=
  pid_clock p ++ [pid_port p mod 256; pid_port p / 256].

Record clock_quality := mk_quality {
  clockClass : Z; clockAccuracy : Z; offsetScaledLogVariance : Z }.

#[export] Instance clock_quality_eq_dec : EqDecision clock_quality.
Proof. solve_decision. Defined.

(** ** Times *)

Record ptp_utime := mk_utime { ut_sec : Z; ut_nsec : Z }.
Definition utime0 : ptp_utime := mk_utime 0 0.

Record ptp_timestamp := mk_ts { ts_hi : Z; ts_lo : Z; ts_nsec : Z }.

#[export] Instance ptp_utime_eq_dec : EqDecision ptp_utime.
Proof. solve_decision. Defined.
#[export] Instance ptp_timestamp_eq_dec : EqDecision ptp_timestamp.
Proof. solve_decision. Defined.

(** ** Message types, TLV types *)

Definition SYNC_MSG : Z := 0.
Definition DELAY_REQ_MSG : Z := 1.
Definition PDELAY_REQ_MSG : Z := 2.
Definition PDELAY_RESP_MSG : Z := 3.
Definition FOLLOW_UP_MSG : Z := 8.
Definition DELAY_RESP_MSG : Z := 9.
Definition PDELAY_RESP_FOLLOW_UP_MSG : Z := 10.
Definition ANNOUNCE_MSG : Z := 11.
Definition SIGNALING_MSG : Z := 12.
Definition MANAGEMENT_MSG : Z := 13.

Definition TLV_MANAGEMENT : Z := 1.
Definition TLV_MANAGEMENT_ERROR_STATUS : Z := 2.
Definition TLV_ORGANIZATION_EXTENSION : Z := 3.
Definition TLV_PATH_TRACE : Z := 8.

(** ** Port states, events, delay mechanisms *)

Inductive ptp_state :=
  | PTP_S_INIT | PTP_S_INITIALIZING | PTP_S_FAULTY | PTP_S_DISABLED
  | PTP_S_LISTENING | PTP_S_PRE_MASTER | PTP_S_MASTER | PTP_S_PASSIVE
  | PTP_S_UNCALIBRATED | PTP_S_SLAVE.

Inductive ptp_event :=
  | EVENT_NONE | EVENT_FAULT_SET | EVENT_FAULT_CLEAR | EVENT_ENABLE
  | EVENT_DISABLE | EVENT_ANNOUNCE_TIMEOUT | EVENT_QUALIFICATION_TIMEOUT
  | EVENT_CLOCK_STABLE | EVENT_CLOCK_UNSTABLE | EVENT_READY_MASTER
  | EVENT_BECOME_MASTER | EVENT_BECOME_SLAVE | EVENT_BECOME_PASSIVE
  | EVENT_INIT_COMPLETE.

Inductive delay_mech := DELAY_NONE | DELAY_E2E | DELAY_P2P.

#[export] Instance ptp_state_eq_dec : EqDecision ptp_state.
Proof. solve_decision. Defined.
#[export] Instance ptp_event_eq_dec : EqDecision ptp_event.
Proof. solve_decision. Defined.
#[export] Instance delay_mech_eq_dec : EqDecision delay_mech.
Proof. solve_decision. Defined.

(** The enumeration values, where the code compares them. *)
Definition state_num (s : ptp_state) : Z :=
  match s with
  | PTP_S_INIT => 0 | PTP_S_INITIALIZING => 1 | PTP_S_FAULTY => 2
  | PTP_S_DISABLED => 3 | PTP_S_LISTENING => 4 | PTP_S_PRE_MASTER => 5
  | PTP_S_MASTER => 6 | PTP_S_PASSIVE => 7 | PTP_S_UNCALIBRATED => 8
  | PTP_S_SLAVE => 9
  end.

(** ** Data sets *)

Definition DDS_TWO_STEP_FLAG : Z := 1.
Definition DDS_SLAVE_ONLY : Z := 2.

Record default_ds := mk_dds {
  dds_flags : Z; dds_numberPorts : Z; dds_priority1 : Z;
  dds_quality : clock_quality; dds_priority2 : Z;
  dds_clockIdentity : clock_identity; dds_domainNumber : Z }.

Record current_ds := mk_cur {
  cur_stepsRemoved : Z; cur_offsetFromMaster : Z; cur_meanPathDelay : Z }.

Record parent_ds := mk_pds {
  pds_parentPortIdentity : port_identity; pds_grandmasterPriority1 : Z;
  pds_grandmasterClockQuality : clock_quality; pds_grandmasterPriority2 : Z;
  pds_grandmasterIdentity : clock_identity }.

(** Dataset of the best master clock algorithm ([struct bmc_dataset]). *)
Record bmc_dataset := mk_ds {
  ds_prio_1 : Z; ds_prio_2 : Z; ds_steps_removed : Z; ds_id : clock_identity;
  ds_quality : clock_quality; ds_rx : port_identity; ds_tx : port_identity }.

#[export] Instance bmc_dataset_eq_dec : EqDecision bmc_dataset.
Proof. solve_decision. Defined.

(** A reference to a [struct ptp_port]: the host port of a clock, or an entry
    of [ptp_hw_ports]. *)
Inductive pref := Host (c : nat) | Hw (i : nat).

#[export] Instance pref_eq_dec : EqDecision pref.
Proof. solve_decision. Defined.

(** An entry of the foreign master table (the fields the stack uses). *)
Record foreign_dataset := mk_fd {
  fd_dataset : bmc_dataset; fd_cnt : Z; fd_valid : bool; fd_port : option pref }.

Definition pid0 : port_identity := mk_pid (replicate 8 0) 0.
Definition ds0 : bmc_dataset :=
  mk_ds 0 0 0 (replicate 8 0) (mk_quality 0 0 0) pid0 pid0.
Definition fd0 : foreign_dataset := mk_fd ds0 0 false None.

(** ** Comparison of identities *)

Definition same_clock_id (h n : clock_identity) : bool := memcmp h n =? 0.
Definition broadcast_clock_id (n : clock_identity) : bool :=
  memcmp n (replicate 8 255) =? 0.
Definition same_port_id (h n : port_identity) : bool :=
  memcmp (port_id_bytes h) (port_id_bytes n) =? 0.
Lemma same_clock_id_true h n :
  length h = length n -> same_clock_id h n = true <-> h = n.
Proof.
  intros HL. unfold same_clock_id. rewrite Z.eqb_eq. split.
  - by apply memcmp_eq.
  - intros ->. apply memcmp_refl.
Qed.

Lemma port_id_bytes_inj p q :
  port_id_wf p -> port_id_wf q -> port_id_bytes p = port_id_bytes q -> p = q.
Proof.
  destruct p as [c n], q as [c' n']. intros ((L1 & _) & B1) ((L2 & _) & B2) H.
  unfold port_id_bytes in H. simpl in *.
  apply app_inj_1 in H as [-> H]; [|congruence].
  injection H as H1 H2. f_equal.
  pose proof (Z.div_mod n 256 ltac:(lia)). pose proof (Z.div_mod n' 256 ltac:(lia)).
  lia.
Qed.

Lemma same_port_id_true p q :
  port_id_wf p -> port_id_wf q -> same_port_id p q = true <-> p = q.
Proof.
  intros Hp Hq. unfold same_port_id. rewrite Z.eqb_eq. split.
  - intros H. apply port_id_bytes_inj; [done|done|].
    apply memcmp_eq; [|done]. unfold port_id_bytes. rewrite !length_app. simpl.
    destruct Hp as ((-> & _) & _), Hq as ((-> & _) & _). done.
  - intros ->. apply memcmp_refl.
Qed.
