(* ===== verification/Bmca.v ===== *)
(** * Best master clock algorithm (ptp_bmca.c)

    Dataset comparison, the choice among the foreign masters of a port, the
    foreign master table, and the recommended state of a port. *)

From stdpp Require Import base list numbers option.
From Stdlib Require Import ZArith Lia.
From S2P Require Import Prelude Types.

Definition A_BETTER_PATH : Z := 2.
Definition A_BETTER : Z := 1.
Definition B_BETTER : Z := -1.
Definition B_BETTER_PATH : Z := -2.
Definition MAX_FOREIGN_MASTERS : nat := 2.
Definition FOREIGN_MASTER_THRESHOLD : Z := 3.

(** ** Dataset comparison *)

Definition bmca_better_path (a b : bmc_dataset) : Z :=
  let steps_a := ds_steps_removed a in
  let steps_b := ds_steps_removed b in
  if steps_a + 1 <? steps_b then A_BETTER
  else if steps_b + 1 <? steps_a then B_BETTER
  else if steps_a <? steps_b then
    let diff := memcmp (port_id_bytes (ds_rx b)) (port_id_bytes (ds_tx b)) in
    if diff <? 0 then A_BETTER else if diff >? 0 then A_BETTER_PATH else 0
  else if steps_b <? steps_a then
    let diff := memcmp (port_id_bytes (ds_rx a)) (port_id_bytes (ds_tx a)) in
    if diff <? 0 then B_BETTER else if diff >? 0 then B_BETTER_PATH else 0
  else
    let diff := memcmp (port_id_bytes (ds_tx a)) (port_id_bytes (ds_tx b)) in
    if diff <? 0 then A_BETTER_PATH
    else if diff >? 0 then B_BETTER_PATH
    else if pid_port (ds_rx a) <? pid_port (ds_rx b) then A_BETTER_PATH
    else if pid_port (ds_rx b) <? pid_port (ds_rx a) then B_BETTER_PATH
    else 0.

(** Two datasets at different addresses, neither null. *)
Definition bmca_better_ds (a b : bmc_dataset) : Z :=
  let diff := memcmp (ds_id a) (ds_id b) in
  if diff =? 0 then bmca_better_path a b
  else if ds_prio_1 a <? ds_prio_1 b then A_BETTER
  else if ds_prio_1 b <? ds_prio_1 a then B_BETTER
  else if clockClass (ds_quality a) <? clockClass (ds_quality b) then A_BETTER
  else if clockClass (ds_quality b) <? clockClass (ds_quality a) then B_BETTER
  else if clockAccuracy (ds_quality a) <? clockAccuracy (ds_quality b) then A_BETTER
  else if clockAccuracy (ds_quality b) <? clockAccuracy (ds_quality a) then B_BETTER
  else if offsetScaledLogVariance (ds_quality a) <?
          offsetScaledLogVariance (ds_quality b) then A_BETTER
  else if offsetScaledLogVariance (ds_quality b) <?
          offsetScaledLogVariance (ds_quality a) then B_BETTER
  else if ds_prio_2 a <? ds_prio_2 b then A_BETTER
  else if ds_prio_2 b <? ds_prio_2 a then B_BETTER
  else if diff <? 0 then A_BETTER else B_BETTER.

(** Pointers to datasets, [None] for the null pointer.  The first test of the
    code is on the addresses; two pointers to the same object compare as equal
    values, for which the comparison is 0 as well ([bmca_better_same]). *)
Definition bmca_better (a b : option bmc_dataset) : Z :=
  match a, b with
  | None, None => 0
  | Some _, None => A_BETTER
  | None, Some _ => B_BETTER
  | Some a, Some b => bmca_better_ds a b
  end.

(** ** Decision *)

Definition port_can_accept_announce (class : Z) (own : bmc_dataset)
    (best : option bmc_dataset) : bool :=
  if (class <=? 127) ||
     match best with
     | Some b => memcmp (ds_id own) (ds_id b) =? 0
     | None => false
     end then false else true.

(** [best_port] is [clock_best_port(c)], [p] the port decided on, [own] the
    default dataset with [tx.port] set to the index of the port. *)
Definition bmca_decide (class : Z) (own : bmc_dataset)
    (clock_best : option bmc_dataset) (best_port : option pref)
    (p : pref) (port_best : option bmc_dataset) (state : ptp_state) : ptp_state :=
  if match port_best with None => true | Some _ => false end &&
     (bool_decide (PTP_S_LISTENING = state) || bool_decide (PTP_S_FAULTY = state))
  then state
  (* Cannot be a slave clock. *)
  else if negb (port_can_accept_announce class own port_best) then
    if bmca_better (Some own) port_best >? 0 then PTP_S_MASTER else PTP_S_PASSIVE
  else if negb (class =? 255) && (bmca_better (Some own) clock_best >? 0) then
    PTP_S_MASTER
  (* Only one will be a slave port. *)
  else if bool_decide (best_port = Some p) then PTP_S_SLAVE
  else if bool_decide (best_port = None) then
    if bool_decide (PTP_S_FAULTY = state) then state else PTP_S_LISTENING
  (* Other ports will be either passive or master. *)
  else if bmca_better clock_best port_best =? A_BETTER_PATH then PTP_S_PASSIVE
  else PTP_S_PRE_MASTER.

(** ** Foreign masters *)

(** Index of the best valid entry, scanning from index [i] with [best] found
    so far. *)
Fixpoint find_best_from (i : nat) (l : list foreign_dataset)
    (best : option (nat * foreign_dataset)) : option (nat * foreign_dataset) :=
  match l with
  | [] => best
  | f :: l =>
      let best :=
        if negb (fd_valid f) then best
        else match best with
        | None => Some (i, f)
        | Some (_, b) =>
            if bmca_better (Some (fd_dataset f)) (Some (fd_dataset b)) >? 0
            then Some (i, f) else best
        end in
      find_best_from (S i) l best
  end.

Definition find_best_master (masters : list foreign_dataset)
    : option (nat * foreign_dataset) :=
  find_best_from 0 masters None.

(** Index of the entry for the sender of [ds]: the used entry with the same
    transmitter, or the first free one, into which the dataset is copied. *)
Fixpoint find_foreign_from (i : nat) (l : list foreign_dataset)
    (ds : bmc_dataset) (first : option nat) : (bool * option nat) :=
  match l with
  | [] => (false, first)
  | f :: l =>
      let first := match first with
                   | None => if fd_cnt f =? 0 then Some i else None
                   | Some _ => first
                   end in
      if negb (fd_cnt f =? 0) && same_port_id (ds_tx ds) (ds_tx (fd_dataset f))
      then (true, Some i)
      else find_foreign_from (S i) l ds first
  end.

Definition find_foreign_master (masters : list foreign_dataset) (ds : bmc_dataset)
    : option nat * list foreign_dataset :=
  match find_foreign_from 0 masters ds None with
  | (true, r) => (r, masters)
  | (false, Some i) =>
      (Some i, alter (fun f => mk_fd ds (fd_cnt f) (fd_valid f) (fd_port f)) i masters)
  | (false, None) => (None, masters)
  end.

(** ** Properties of the comparison *)

Lemma bmca_better_path_antisym a b :
  bmca_better_path b a = - bmca_better_path a b.
Proof.
  unfold bmca_better_path, A_BETTER, B_BETTER, A_BETTER_PATH, B_BETTER_PATH.
  pose proof (memcmp_antisym (port_id_bytes (ds_tx a)) (port_id_bytes (ds_tx b))) as ->.
  case_tests; bools; lia.
Qed.

(** The attributes in the order of IEEE 1588 (figure "data set comparison"):
    one list compared lexicographically. *)
Definition bmca_key (d : bmc_dataset) : list Z :=
  ds_prio_1 d :: clockClass (ds_quality d) :: clockAccuracy (ds_quality d) ::
  offsetScaledLogVariance (ds_quality d) :: ds_prio_2 d :: ds_id d.

Lemma bmca_better_path_same a : bmca_better_path a a = 0.
Proof. pose proof (bmca_better_path_antisym a a). lia. Qed.

Lemma bmca_better_same a : bmca_better a a = 0.
Proof.
  destruct a as [a|]; [|done]. simpl. unfold bmca_better_ds.
  rewrite memcmp_refl. apply bmca_better_path_same.
Qed.

Lemma bmca_better_key a b :
  length (ds_id a) = length (ds_id b) -> ds_id a <> ds_id b ->
  bmca_better_ds a b = - memcmp (bmca_key a) (bmca_key b).
Proof.
  intros HL Hne. unfold bmca_better_ds, A_BETTER, B_BETTER.
  destruct (memcmp (ds_id a) (ds_id b) =? 0) eqn:E0; bools.
  { by apply memcmp_eq in E0. }
  unfold bmca_key. cbn [memcmp].
  destruct (memcmp_values (ds_id a) (ds_id b)) as [E|[E|E]]; rewrite E in *; try done;
  case_tests; bools; try lia.
Qed.

Lemma bmca_better_flip (a b : option bmc_dataset) :
  bmca_better b a = - bmca_better a b.
Proof.
  destruct a as [a|], b as [b|]; try done. simpl. unfold bmca_better_ds.
  rewrite (memcmp_antisym (ds_id a) (ds_id b)).
  unfold A_BETTER, B_BETTER.
  destruct (memcmp (ds_id a) (ds_id b) =? 0) eqn:E; bools.
  - rewrite E. simpl. apply bmca_better_path_antisym.
  - destruct (- memcmp (ds_id a) (ds_id b) =? 0) eqn:E'; bools; [lia|].
    case_tests; bools; lia.
Qed.

(** The comparison is antisymmetric, null pointers included: exchanging
    the two datasets exchanges the answers A_BETTER / B_BETTER and
    A_BETTER_PATH / B_BETTER_PATH. *)
Theorem bmca_better_antisym (a b : option bmc_dataset) :
  bmca_better b a = - bmca_better a b.
Proof. apply bmca_better_flip. Qed.

(** C30: between different grandmasters the comparison is the lexicographic
    comparison of the IEEE 1588 attributes (priority1, class, accuracy,
    variance, priority2, identity): it never answers "same", and it is
    transitive. *)
Theorem bmca_better_lexicographic (a b c : bmc_dataset)
  (Hl : length (ds_id a) = length (ds_id b) /\ length (ds_id b) = length (ds_id c))
  (Hab : ds_id a <> ds_id b) (Hbc : ds_id b <> ds_id c) (Hac : ds_id a <> ds_id c) :
  bmca_better (Some a) (Some b) = - memcmp (bmca_key a) (bmca_key b) /\
  bmca_better (Some a) (Some b) <> 0 /\
  (bmca_better (Some a) (Some b) > 0 -> bmca_better (Some b) (Some c) > 0 ->
   bmca_better (Some a) (Some c) > 0).
Proof.
  destruct Hl as [L1 L2]. simpl.
  rewrite !bmca_better_key by (done || congruence).
  split; [done|]. split.
  - intros H. apply Hab.
    assert (bmca_key a = bmca_key b) as Hk.
    { apply memcmp_eq; [unfold bmca_key; simpl; lia|lia]. }
    by injection Hk.
  - intros H1 H2.
    assert (memcmp (bmca_key a) (bmca_key c) < 0); [|lia].
    apply (memcmp_trans _ (bmca_key b)); unfold bmca_key in *; simpl length; lia.
Qed.

Definition ds_example (id prio : Z) : bmc_dataset :=
  mk_ds prio 248 1 (replicate 7 0 ++ [id]) (mk_quality 248 33 17258) pid0 pid0.

Lemma bmca_better_lexicographic_witness :
  bmca_better (Some (ds_example 3 100)) (Some (ds_example 2 246)) = 1 /\
  (bmca_better (Some (ds_example 3 100)) (Some (ds_example 2 246)) =
     - memcmp (bmca_key (ds_example 3 100)) (bmca_key (ds_example 2 246)) /\
   bmca_better (Some (ds_example 3 100)) (Some (ds_example 2 246)) <> 0 /\
   (bmca_better (Some (ds_example 3 100)) (Some (ds_example 2 246)) > 0 ->
    bmca_better (Some (ds_example 2 246)) (Some (ds_example 1 250)) > 0 ->
    bmca_better (Some (ds_example 3 100)) (Some (ds_example 1 250)) > 0)).
Proof.
  split; [vm_compute; reflexivity|].
  apply (bmca_better_lexicographic (ds_example 3 100) (ds_example 2 246)
           (ds_example 1 250)); [split; reflexivity|..]; vm_compute; congruence.
Defined.

(** Two announcements of the same grandmaster with the same distance, sent by
    ports 1 and 256 of one clock: [memcmp] reads the 16-bit port low byte
    first on a little-endian target, so port 256 is the better path. *)
Lemma bmca_port_little_endian :
  let d n := mk_ds 246 248 1 (replicate 8 1) (mk_quality 248 33 17258) pid0
               (mk_pid (replicate 8 2) n) in
  bmca_better (Some (d 256)) (Some (d 1)) = A_BETTER_PATH.
Proof. vm_compute. reflexivity. Qed.

(** ** Properties of the foreign master table *)

Lemma find_best_from_in l : forall i best j f,
  find_best_from i l best = Some (j, f) ->
  best = Some (j, f) \/ (exists k, j = (i + k)%nat /\ l !! k = Some f /\ fd_valid f = true).
Proof.
  induction l as [|g l IH]; intros i best j f H; simpl in H; [by left|].
  apply IH in H as [H|(k & -> & Hk & Hv)].
  - destruct (fd_valid g) eqn:Ev; simpl in H; [|by left].
    destruct best as [[j' b]|].
    + case_match; [|by left]. injection H as <- <-.
      right. exists 0%nat. split; [lia|]. done.
    + injection H as <- <-. right. exists 0%nat. split; [lia|]. done.
  - right. exists (S k). split; [lia|]. done.
Qed.

Lemma find_best_from_some l : forall i best,
  best <> None \/ Exists (fun f => fd_valid f = true) l ->
  find_best_from i l best <> None.
Proof.
  induction l as [|g l IH]; intros i best H; simpl.
  - destruct H as [H|H]; [done|by apply Exists_nil in H].
  - apply IH. destruct (fd_valid g) eqn:Ev; simpl.
    + left. destruct best as [[j b]|]; [|done]. by case_match.
    + destruct H as [H|H]; [by left|]. right.
      apply Exists_cons in H as [H|H]; [congruence|done].
Qed.

(** C17: [find_best_master] on a foreign master table answers a valid entry of
    the table that no other valid entry beats, and answers nothing exactly
    when no entry is valid. *)
Theorem find_best_master_best (l : list foreign_dataset)
  (H : length l = MAX_FOREIGN_MASTERS) :
  match find_best_master l with
  | Some (i, f) => l !! i = Some f /\ fd_valid f = true /\
      forall j g, l !! j = Some g -> fd_valid g = true ->
        bmca_better (Some (fd_dataset g)) (Some (fd_dataset f)) <= 0
  | None => Forall (fun f => fd_valid f = false) l
  end.
Proof.
  destruct l as [|f [|g [|? ?]]]; try done. unfold find_best_master. simpl.
  assert (forall d, bmca_better_ds d d <= 0) as Hrefl.
  { intros d. pose proof (bmca_better_same (Some d)) as E. simpl in E. lia. }
  pose proof (bmca_better_flip (Some (fd_dataset f)) (Some (fd_dataset g))) as Ha.
  simpl in Ha.
  assert (forall h, fd_valid h = true ->
    (fd_valid f = true -> bmca_better_ds (fd_dataset f) (fd_dataset h) <= 0) ->
    (fd_valid g = true -> bmca_better_ds (fd_dataset g) (fd_dataset h) <= 0) ->
    forall j k, [f; g] !! j = Some k -> fd_valid k = true ->
      bmca_better (Some (fd_dataset k)) (Some (fd_dataset h)) <= 0) as Hall.
  { intros h ? ? ? [|[|j]] k Hk Hv; simplify_eq/=; auto. }
  destruct (fd_valid f) eqn:Ef, (fd_valid g) eqn:Eg; simpl.
  - destruct (_ >? 0) eqn:E; bools; (split; [done|]); (split; [done|]);
      apply Hall; intros; auto; lia.
  - repeat (split; [done|]). apply Hall; intros; auto; congruence.
  - repeat (split; [done|]). apply Hall; intros; auto; congruence.
  - by repeat constructor.
Qed.

Lemma find_best_master_best_witness :
  let l := [mk_fd (ds_example 1 246) 1 true None; mk_fd (ds_example 2 100) 1 true None] in
  option_map fst (find_best_master l) = Some 1%nat /\
  match find_best_master l with
  | Some (i, f) => l !! i = Some f /\ fd_valid f = true /\
      forall j g, l !! j = Some g -> fd_valid g = true ->
        bmca_better (Some (fd_dataset g)) (Some (fd_dataset f)) <= 0
  | None => Forall (fun f => fd_valid f = false) l
  end.
Proof.
  split; [vm_compute; reflexivity|].
  apply (find_best_master_best [mk_fd (ds_example 1 246) 1 true None;
                                mk_fd (ds_example 2 100) 1 true None]).
  reflexivity.
Defined.

Lemma find_foreign_from_spec (ds : bmc_dataset) (l : list foreign_dataset) :
  forall i first,
  match find_foreign_from i l ds first with
  | (true, r) => exists k f, r = Some (i + k)%nat /\ l !! k = Some f /\
      fd_cnt f <> 0 /\ same_port_id (ds_tx ds) (ds_tx (fd_dataset f)) = true
  | (false, r) =>
      Forall (fun f => fd_cnt f = 0 \/
        same_port_id (ds_tx ds) (ds_tx (fd_dataset f)) = false) l /\
      match first with
      | Some _ => r = first
      | None => match r with
        | Some j => exists k f, j = (i + k)%nat /\ l !! k = Some f /\ fd_cnt f = 0
        | None => Forall (fun f => fd_cnt f <> 0) l
        end
      end
  end.
Proof.
  induction l as [|f l IH]; intros i first; simpl.
  { split; [done|]. destruct first; done. }
  destruct (negb (fd_cnt f =? 0) && _) eqn:E.
  { bools. exists 0%nat, f. rewrite Nat.add_0_r. by repeat split. }
  assert (fd_cnt f = 0 \/ same_port_id (ds_tx ds) (ds_tx (fd_dataset f)) = false)
    as Hf by (bools; auto).
  clear E. specialize (IH (S i)
    (match first with Some _ => first | None => if fd_cnt f =? 0 then Some i else None end)).
  destruct (find_foreign_from _ _ _ _) as [[] r].
  { destruct IH as (k & g & -> & ?). exists (S k), g. split; [f_equal; lia|done]. }
  destruct IH as [IH1 IH2]. split; [by constructor|].
  destruct first as [x|]; [done|].
  destruct (fd_cnt f =? 0) eqn:E0; bools.
  - subst r. exists 0%nat, f. rewrite Nat.add_0_r. by repeat split.
  - simpl in IH2. destruct r as [j|]; simpl in IH2.
    + destruct IH2 as (k & g & -> & ?). exists (S k), g. split; [lia|done].
    + by constructor.
Qed.

(** The answer [r] for the dataset [ds] and the table [l]. *)
Definition foreign_found (l : list foreign_dataset) (ds : bmc_dataset)
    (r : option nat * list foreign_dataset) : Prop :=
  match r with
  | (Some i, l') => exists f, l !! i = Some f /\
      (fd_cnt f <> 0 /\ same_port_id (ds_tx ds) (ds_tx (fd_dataset f)) = true /\ l' = l
       \/ fd_cnt f = 0 /\
          Forall (fun g => fd_cnt g = 0 \/
            same_port_id (ds_tx ds) (ds_tx (fd_dataset g)) = false) l /\
          l' = <[i := mk_fd ds (fd_cnt f) (fd_valid f) (fd_port f)]> l)
  | (None, l') => l' = l /\
      Forall (fun g => fd_cnt g <> 0 /\
        same_port_id (ds_tx ds) (ds_tx (fd_dataset g)) = false) l
  end.
Lemma find_foreign_found l ds : foreign_found l ds (find_foreign_master l ds).
Proof.
  unfold find_foreign_master.
  pose proof (find_foreign_from_spec ds l 0 None) as H.
  destruct (find_foreign_from 0 l ds None) as [[] [i|]].
  - destruct H as (k & f & [= ->] & Hk & ? & ?). exists f. split; [done|]. by left; repeat split.
  - destruct H as (k & f & [=] & _).
  - destruct H as (Hall & k & f & -> & Hk & Hc). exists f. split; [done|]. right.
    split; [done|]. split; [done|]. apply list_eq. intros j. simpl.
    destruct (decide (k = j)) as [<-|].
    + rewrite list_lookup_alter_eq, list_lookup_insert_eq, Hk;
        [done|by eapply lookup_lt_Some].
    + by rewrite list_lookup_alter_ne, list_lookup_insert_ne.
  - destruct H as [Hall Hne]. split; [done|].
    rewrite Forall_forall in Hall, Hne. apply Forall_forall. intros g Hg.
    specialize (Hall g Hg). specialize (Hne g Hg). destruct Hall; [done|]. by split.
Qed.

(** [find_foreign_master] answers the entry in use for the transmitter of
    the dataset, unchanged; else a free entry that now holds the dataset; and
    nothing only when every entry is in use for another transmitter.  No other
    entry changes. *)
Theorem find_foreign_master_spec (l : list foreign_dataset) (ds : bmc_dataset) :
  match find_foreign_master l ds with
  | (Some i, l') => exists f, l !! i = Some f /\
      (fd_cnt f <> 0 /\ same_port_id (ds_tx ds) (ds_tx (fd_dataset f)) = true /\ l' = l
       \/ fd_cnt f = 0 /\
          Forall (fun g => fd_cnt g = 0 \/
            same_port_id (ds_tx ds) (ds_tx (fd_dataset g)) = false) l /\
          l' = <[i := mk_fd ds (fd_cnt f) (fd_valid f) (fd_port f)]> l)
  | (None, l') => l' = l /\
      Forall (fun g => fd_cnt g <> 0 /\
        same_port_id (ds_tx ds) (ds_tx (fd_dataset g)) = false) l
  end.
Proof. apply find_foreign_found. Qed.

(** ** Properties of the decision *)

(** C7: at most one port of a clock is recommended as slave: the port that
    received the best announcement; a clock of class 127 or less has none, and
    a port with nothing received in listening or faulty state keeps its state. *)
Theorem bmca_decide_one_slave (class : Z) (own : bmc_dataset)
  (clock_best : option bmc_dataset) (best_port : option pref)
  (p q : pref) (bp bq : option bmc_dataset) (sp sq : ptp_state)
  (Hp : bmca_decide class own clock_best best_port p bp sp = PTP_S_SLAVE)
  (Hq : bmca_decide class own clock_best best_port q bq sq = PTP_S_SLAVE) :
  p = q /\ best_port = Some p /\ 127 < class /\
  (class = 255 \/ bmca_better clock_best (Some own) >= 0).
Proof.
  assert (forall r br sr,
    bmca_decide class own clock_best best_port r br sr = PTP_S_SLAVE ->
    best_port = Some r /\ 127 < class /\
    (class = 255 \/ bmca_better clock_best (Some own) >= 0)) as Hone.
  { clear. intros r br sr. unfold bmca_decide.
    destruct (_ && (_ || _)) eqn:E1.
    { intros ->. destruct br; simpl in E1; done. }
    unfold port_can_accept_announce.
    destruct ((class <=? 127) || _) eqn:E2; simpl; [by case_tests|].
    destruct (negb (class =? 255) && _) eqn:E3; [done|].
    clear E1. case_bool_decide as E4;
      [|destruct sr; simpl; by case_tests].
    intros _. apply orb_false_elim in E2 as [E2 _]. apply Z.leb_gt in E2.
    split; [done|]. split; [done|]. apply andb_false_iff in E3 as [E3|E3]; bools.
    - by left.
    - right. fold (bmca_better (Some own) clock_best) in E3. pose proof (bmca_better_flip (Some own) clock_best). lia. }
  destruct (Hone _ _ _ Hp) as (H1 & H2 & H3). destruct (Hone _ _ _ Hq) as (H4 & _).
  rewrite H1 in H4. injection H4 as ->. auto.
Qed.

Lemma bmca_decide_one_slave_witness :
  let own := ds_example 9 250 in
  bmca_decide 248 own (Some (ds_example 1 100)) (Some (Hw 0)) (Hw 0)
    (Some (ds_example 1 100)) PTP_S_LISTENING = PTP_S_SLAVE /\
  (Hw 0 = Hw 0 /\ Some (Hw 0) = Some (Hw 0) /\ 127 < 248 /\
   (248 = 255 \/ bmca_better (Some (ds_example 1 100)) (Some own) >= 0)).
Proof.
  split; [vm_compute; reflexivity|].
  apply (bmca_decide_one_slave 248 (ds_example 9 250) (Some (ds_example 1 100))
    (Some (Hw 0)) (Hw 0) (Hw 0) (Some (ds_example 1 100)) (Some (ds_example 1 100))
    PTP_S_LISTENING PTP_S_LISTENING); vm_compute; reflexivity.
Defined.
