(* ===== verification/Wire.v ===== *)
(** * Messages in memory and on the wire (ptp_msg.c, lan937x_ptp_api.h)

    A [struct ptp_msg] is a byte buffer; a field is an offset and a width.  The
    structures are packed, the target is little-endian, so [ntohs], [htonl],
    [be64toh] and the others reverse the bytes of a field in place. *)

From stdpp Require Import base list numbers option.
From Stdlib Require Import ZArith Lia.
From S2P Require Import Prelude Types.

Abbreviation buf := (list Z).

(** ** Little-endian access *)

Fixpoint le (l : list Z) : Z :=
  match l with [] => 0 | x :: l => x + 256 * le l end.
Fixpoint le_bytes (n : nat) (v : Z) : list Z :=
  match n with O => [] | S n => v mod 256 :: le_bytes n (v / 256) end.

Definition in_buf (b : buf) (o n : nat) : bool := (o + n <=? length b)%nat.
Definition bytes (b : buf) (o n : nat) : option (list Z) :=
  if in_buf b o n then Some (take n (drop o b)) else UB.
Definition put (b : buf) (o : nat) (l : list Z) : option buf :=
  if in_buf b o (length l) then Some (take o b ++ l ++ drop (o + length l) b)
  else UB.
Definition rd (b : buf) (o n : nat) : option Z := le <$> bytes b o n.
Definition wr (b : buf) (o n : nat) (v : Z) : option buf := put b o (le_bytes n v).

(** Conversion of the [n]-byte field at [o] between network and host order. *)
Definition swap (b : buf) (o n : nat) : option buf :=
  l ← bytes b o n; put b o (reverse l).

(** Several fields, one after the other. *)
Fixpoint swaps (fs : list (nat * nat)) (b : buf) : option buf :=
  match fs with
  | [] => Some b
  | (o, n) :: fs => b ← swap b o n; swaps fs b
  end.

(** Fields of a structure that starts at [o]. *)
Definition at_off (o : nat) (fs : list (nat * nat)) : list (nat * nat) :=
  map (fun f => (o + f.1, f.2)%nat) fs.

(** ** Layout of [struct ptp_msg_hdr] *)

Definition SIZE_hdr : nat := 34.
Definition SIZE_timestamp : nat := 10.
Definition SIZE_port_identity : nat := 10.
Definition SIZE_msg_sync : Z := 10.
Definition SIZE_msg_delay_resp : Z := 20.
Definition SIZE_msg_pdelay_req : Z := 20.
Definition SIZE_msg_announce : Z := 30.
Definition SIZE_msg_signaling_base : Z := 10.
Definition SIZE_msg_management_base : Z := 14.
Definition SIZE_tlv : Z := 4.
Definition SIZE_org_ext : Z := 11.
Definition SIZE_data_1 : nat := 22.
Definition SIZE_data_2 : nat := 6.
Definition SIZE_peer : nat := 18.

(** Bit fields and scalars of the header. *)
Definition hdr_messageType (b : buf) : option Z := (fun x => Z.land x 15) <$> rd b 0 1.
Definition hdr_transportSpecific (b : buf) : option Z :=
  (fun x => Z.shiftr x 4) <$> rd b 0 1.
Definition hdr_messageLength (b : buf) : option Z := rd b 2 2.
Definition hdr_domainNumber (b : buf) : option Z := rd b 4 1.
Definition flag_unicast (b : buf) : option bool := (fun x => Z.testbit x 2) <$> rd b 6 1.
Definition flag_twoStep (b : buf) : option bool := (fun x => Z.testbit x 1) <$> rd b 6 1.
Definition hdr_correctionField (b : buf) : option Z := s64 <$> rd b 8 8.
Definition rd_clock_id (b : buf) (o : nat) : option clock_identity := bytes b o 8.
Definition rd_port_id (b : buf) (o : nat) : option port_identity :=
  c ← rd_clock_id b o; p ← rd b (o + 8) 2; Some (mk_pid c p).
Definition hdr_sourcePortIdentity (b : buf) : option port_identity := rd_port_id b 20.
Definition hdr_sequenceId (b : buf) : option Z := rd b 30 2.
Definition hdr_logMessageInterval (b : buf) : option Z := s8 <$> rd b 33 1.

Definition rd_timestamp (b : buf) (o : nat) : option ptp_timestamp :=
  hi ← rd b o 2; lo ← rd b (o + 2) 4; ns ← rd b (o + 6) 4; Some (mk_ts hi lo ns).
Definition wr_timestamp (b : buf) (o : nat) (t : ptp_timestamp) : option buf :=
  b ← wr b o 2 (ts_hi t); b ← wr b (o + 2) 4 (ts_lo t); wr b (o + 6) 4 (ts_nsec t).
Definition wr_port_id (b : buf) (o : nat) (p : port_identity) : option buf :=
  b ← put b o (pid_clock p); wr b (o + 8) 2 (pid_port p).

(** Assignments to the header. *)
Definition set_bits (x lo n v : Z) : Z :=
  Z.lor (Z.land x (Z.lnot (Z.shiftl (Z.ones n) lo)))
        (Z.shiftl (Z.land v (Z.ones n)) lo).
Definition set_byte_bits (b : buf) (o : nat) (lo n v : Z) : option buf :=
  x ← rd b o 1; wr b o 1 (set_bits x lo n v).
Definition set_messageType (b : buf) (v : Z) := set_byte_bits b 0 0 4 v.
Definition set_transportSpecific (b : buf) (v : Z) := set_byte_bits b 0 4 4 v.
Definition set_versionPTP (b : buf) (v : Z) := set_byte_bits b 1 0 4 v.
Definition set_messageLength (b : buf) (v : Z) := wr b 2 2 v.
Definition set_domainNumber (b : buf) (v : Z) := wr b 4 1 v.
Definition set_unicastFlag (b : buf) (v : Z) := set_byte_bits b 6 2 1 v.
Definition set_twoStepFlag (b : buf) (v : Z) := set_byte_bits b 6 1 1 v.
Definition set_ptpTimescale (b : buf) (v : Z) := set_byte_bits b 7 3 1 v.
Definition set_utcOffsetValid (b : buf) (v : Z) := set_byte_bits b 7 2 1 v.
Definition set_correctionField (b : buf) (v : Z) := wr b 8 8 v.
Definition set_source_clock (b : buf) (c : clock_identity) := put b 20 c.
Definition set_source_port (b : buf) (v : Z) := wr b 28 2 v.
Definition set_sequenceId (b : buf) (v : Z) := wr b 30 2 v.
Definition set_controlField (b : buf) (v : Z) := wr b 32 1 v.
Definition set_logMessageInterval (b : buf) (v : Z) := wr b 33 1 v.

(** ** Byte order of the fixed parts *)

Definition ptp_hdr_rx (b : buf) : option buf :=
  swaps [(8, 8); (2, 2); (28, 2); (30, 2)]%nat b.
Definition ptp_hdr_tx (b : buf) : option buf :=
  swaps [(8, 8); (2, 2); (28, 2); (30, 2)]%nat b.

Definition ptp_port_identity_rx (b : buf) (id : nat) : option buf :=
  swaps (at_off id [(8, 2)]%nat) b.
Definition ptp_port_identity_tx (b : buf) (id : nat) : option buf :=
  swaps (at_off id [(8, 2)]%nat) b.

Definition ptp_timestamp_rx (b : buf) (ts : nat) : option buf :=
  swaps (at_off ts [(0, 2); (2, 4); (6, 4)]%nat) b.
Definition ptp_timestamp_tx (b : buf) (ts : nat) : option buf :=
  swaps (at_off ts [(0, 2); (2, 4); (6, 4)]%nat) b.

(** ** Byte order of the TLVs *)

Definition M_DEFAULT_DATA_SET : Z := 8192.
Definition M_CURRENT_DATA_SET : Z := 8193.
Definition M_PARENT_DATA_SET : Z := 8194.
Definition M_PORT_DATA_SET : Z := 8196.
Definition M_PORT_DATA_SET_NP : Z := 49154.

Definition tlv_type (b : buf) (tlv : nat) : option Z := rd b tlv 2.
Definition tlv_lengthField (b : buf) (tlv : nat) : option Z := rd b (tlv + 2) 2.

(** Only the identifier is converted on reception. *)
Definition ptp_tlv_manage_rx (b : buf) (tlv : nat) : option buf := swap b (tlv + 4) 2.

Definition manage_tx_fields (managementId : Z) : list (nat * nat) :=
  if managementId =? M_DEFAULT_DATA_SET then [(2, 2); (7, 2)]%nat
  else if managementId =? M_CURRENT_DATA_SET then [(0, 2); (2, 8); (10, 8)]%nat
  else if managementId =? M_PARENT_DATA_SET then
    [(8, 2); (12, 2); (14, 4); (21, 2)]%nat
  else if managementId =? M_PORT_DATA_SET then [(8, 2); (12, 8)]%nat
  else if managementId =? M_PORT_DATA_SET_NP then [(0, 4); (4, 4)]%nat
  else [].

Definition ptp_tlv_manage_tx (b : buf) (tlv : nat) : option buf :=
  managementId ← rd b (tlv + 4) 2;
  b ← swaps (at_off (tlv + 6) (manage_tx_fields managementId)) b;
  swap b (tlv + 4) 2.

Definition ptp_tlv_manage_error_rx (b : buf) (tlv : nat) : option buf :=
  swaps (at_off tlv [(4, 2); (6, 2); (8, 4)]%nat) b.
Definition ptp_tlv_manage_error_tx (b : buf) (tlv : nat) : option buf :=
  swaps (at_off tlv [(4, 2); (6, 2); (8, 4)]%nat) b.

(** Organizations: IEEE 802.1, IEEE C37.238, Microchip. *)
Definition OUI_8021 : list Z := [0; 128; 194].
Definition OUI_C37_238 : list Z := [28; 18; 157].
Definition OUI_MICROCHIP : list Z := [0; 16; 161].

Definition data_1_fields : list (nat * nat) :=
  [(0, 4); (4, 2); (6, 2); (8, 8); (16, 2); (18, 4)]%nat.
Definition data_2_fields : list (nat * nat) := [(4, 2)]%nat.
Definition C37_238_fields : list (nat * nat) := [(0, 2); (2, 4); (6, 4); (10, 2)]%nat.
Definition peer_fields : list (nat * nat) := [(8, 2); (10, 4); (14, 4)]%nat.

(** The entries of the Microchip TLV: [i] bytes are left.  The test compares
    an [int] with a [size_t], as unsigned numbers.  Each round uses 18 more
    bytes of the buffer, so that [length b] rounds are enough to leave it. *)
Fixpoint peer_entries (fuel : nat) (b : buf) (data : nat) (i : Z) : option buf :=
  if u32 i >=? Z.of_nat SIZE_peer then
    match fuel with
    | O => UB
    | S fuel =>
        b ← swaps (at_off data peer_fields) b;
        peer_entries fuel b (data + SIZE_peer) (s32 (i - Z.of_nat SIZE_peer))
    end
  else Some b.

Definition ptp_tlv_org_ext_rx (b : buf) (tlv : nat) : option buf :=
  organizationId ← bytes b (tlv + 4) 3;
  organizationSubType ← bytes b (tlv + 7) 3;
  let dataField := (tlv + 10)%nat in
  if bool_decide (organizationId = OUI_8021) then
    if bool_decide (organizationSubType = [0; 0; 1]) then
      swaps (at_off dataField data_1_fields) b
    else if bool_decide (organizationSubType = [0; 0; 2]) then
      swaps (at_off dataField data_2_fields) b
    else Some b
  else if bool_decide (organizationId = OUI_C37_238) then
    if bool_decide (organizationSubType = [0; 0; 1]) then
      swaps (at_off dataField C37_238_fields) b
    else Some b
  else if bool_decide (organizationId = OUI_MICROCHIP) then
    if bool_decide (organizationSubType = [0; 0; 1]) then
      lengthField ← tlv_lengthField b tlv;
      let i := s32 (lengthField + SIZE_tlv - (SIZE_org_ext - 1)) in
      peer_entries (length b) b dataField i
    else Some b
  else Some b.

(** The conversion to network order names the same fields. *)
Definition ptp_tlv_org_ext_tx (b : buf) (tlv : nat) : option buf :=
  organizationId ← bytes b (tlv + 4) 3;
  organizationSubType ← bytes b (tlv + 7) 3;
  let dataField := (tlv + 10)%nat in
  if bool_decide (organizationId = OUI_8021) then
    if bool_decide (organizationSubType = [0; 0; 1]) then
      swaps (at_off dataField data_1_fields) b
    else if bool_decide (organizationSubType = [0; 0; 2]) then
      swaps (at_off dataField data_2_fields) b
    else Some b
  else if bool_decide (organizationId = OUI_C37_238) then
    if bool_decide (organizationSubType = [0; 0; 1]) then
      swaps (at_off dataField C37_238_fields) b
    else Some b
  else if bool_decide (organizationId = OUI_MICROCHIP) then
    if bool_decide (organizationSubType = [0; 0; 1]) then
      lengthField ← tlv_lengthField b tlv;
      let i := s32 (lengthField + SIZE_tlv - (SIZE_org_ext - 1)) in
      peer_entries (length b) b dataField i
    else Some b
  else Some b.

(** One round of the loop of [ptp_tlv_rx]: [None] in the second component when
    the loop is left by [break]. *)
Definition tlv_rx_one (b : buf) (data : nat) (len : Z) : option (buf * option (nat * Z)) :=
  b ← swap b data 2;
  b ← swap b (data + 2) 2;
  lengthField ← tlv_lengthField b data;
  let size := u16 (lengthField + SIZE_tlv) in
  if len >=? size then
    let len := u16 (len - size) in
    ty ← tlv_type b data;
    b ← (if ty =? TLV_MANAGEMENT then ptp_tlv_manage_rx b data
         else if ty =? TLV_MANAGEMENT_ERROR_STATUS then ptp_tlv_manage_error_rx b data
         else if ty =? TLV_ORGANIZATION_EXTENSION then ptp_tlv_org_ext_rx b data
         else Some b);
    Some (b, Some ((data + Z.to_nat size)%nat, len))
  else Some (b, None).

Definition tlv_tx_one (b : buf) (data : nat) (len : Z) : option (buf * option (nat * Z)) :=
  lengthField ← tlv_lengthField b data;
  let size := u16 (lengthField + SIZE_tlv) in
  if len >=? size then
    let len := u16 (len - size) in
    ty ← tlv_type b data;
    b ← (if ty =? TLV_MANAGEMENT then ptp_tlv_manage_tx b data
         else if ty =? TLV_MANAGEMENT_ERROR_STATUS then ptp_tlv_manage_error_tx b data
         else if ty =? TLV_ORGANIZATION_EXTENSION then ptp_tlv_org_ext_tx b data
         else Some b);
    b ← swap b data 2;
    b ← swap b (data + 2) 2;
    Some (b, Some ((data + Z.to_nat size)%nat, len))
  else Some (b, None).

(** The [do ... while (len >= sizeof(struct ptp_tlv))] loops.  Out of fuel
    stands for a loop that is still running. *)
Fixpoint tlv_loop (one : buf -> nat -> Z -> option (buf * option (nat * Z)))
    (fuel : nat) (b : buf) (data : nat) (len : Z) : option buf :=
  match fuel with
  | O => UB
  | S fuel =>
      '(b, next) ← one b data len;
      match next with
      | None => Some b
      | Some (data, len) =>
          if len >=? SIZE_tlv then tlv_loop one fuel b data len else Some b
      end
  end.

(** Fuel of the loops: a round consumes at least one byte of [len], except
    for a TLV whose size wraps to 0, which is left in the next round. *)
Definition tlv_fuel (len : Z) : nat := Z.to_nat (2 * len + 2).

Definition ptp_tlv_rx (b : buf) (data : nat) (len : Z) : option buf :=
  tlv_loop tlv_rx_one (tlv_fuel len) b data len.
Definition ptp_tlv_tx (b : buf) (data : nat) (len : Z) : option buf :=
  tlv_loop tlv_tx_one (tlv_fuel len) b data len.

(** ** Whole messages *)

(** Offset of [msg->data], and the fields of [ptp_msg_announce]. *)
Definition DATA : nat := 34.
Definition ANN_utc : nat := 44.
Definition ANN_variance : nat := 50.
Definition ANN_steps : nat := 61.
Definition SECOND_id : nat := 44.

(** Fixed part: the converted buffer and [size]. *)
Definition msg_body_rx (b : buf) (messageType len : Z) : option (buf * Z) :=
  if (messageType =? SYNC_MSG) || (messageType =? FOLLOW_UP_MSG) then
    b ← ptp_timestamp_rx b DATA; Some (b, SIZE_msg_sync)
  else if messageType =? DELAY_RESP_MSG then
    b ← ptp_port_identity_rx b SECOND_id;
    b ← ptp_timestamp_rx b DATA; Some (b, SIZE_msg_delay_resp)
  else if (messageType =? PDELAY_REQ_MSG) || (messageType =? PDELAY_RESP_MSG) then
    b ← ptp_port_identity_rx b SECOND_id;
    b ← ptp_timestamp_rx b DATA; Some (b, SIZE_msg_pdelay_req)
  else if messageType =? PDELAY_RESP_FOLLOW_UP_MSG then
    b ← ptp_timestamp_rx b DATA;
    b ← ptp_port_identity_rx b SECOND_id; Some (b, SIZE_msg_pdelay_req)
  else if messageType =? ANNOUNCE_MSG then
    b ← ptp_timestamp_rx b DATA;
    b ← swaps [(ANN_utc, 2); (ANN_variance, 2); (ANN_steps, 2)]%nat b;
    Some (b, SIZE_msg_announce)
  else if messageType =? SIGNALING_MSG then
    b ← ptp_port_identity_rx b DATA; Some (b, SIZE_msg_signaling_base)
  else if messageType =? MANAGEMENT_MSG then
    b ← ptp_port_identity_rx b DATA; Some (b, SIZE_msg_management_base)
  else Some (b, u16 (len - Z.of_nat SIZE_hdr)).

Definition msg_body_tx (b : buf) (messageType len : Z) : option (buf * Z) :=
  if (messageType =? SYNC_MSG) || (messageType =? FOLLOW_UP_MSG) then
    b ← ptp_timestamp_tx b DATA; Some (b, SIZE_msg_sync)
  else if messageType =? DELAY_RESP_MSG then
    b ← ptp_port_identity_tx b SECOND_id;
    b ← ptp_timestamp_tx b DATA; Some (b, SIZE_msg_delay_resp)
  (* The reserved identity of Pdelay_Req is left as it is. *)
  else if messageType =? PDELAY_REQ_MSG then
    b ← ptp_timestamp_tx b DATA; Some (b, SIZE_msg_pdelay_req)
  else if messageType =? PDELAY_RESP_MSG then
    b ← ptp_port_identity_tx b SECOND_id;
    b ← ptp_timestamp_tx b DATA; Some (b, SIZE_msg_pdelay_req)
  else if messageType =? PDELAY_RESP_FOLLOW_UP_MSG then
    b ← ptp_timestamp_tx b DATA;
    b ← ptp_port_identity_tx b SECOND_id; Some (b, SIZE_msg_pdelay_req)
  else if messageType =? ANNOUNCE_MSG then
    b ← ptp_timestamp_tx b DATA;
    b ← swaps [(ANN_utc, 2); (ANN_variance, 2); (ANN_steps, 2)]%nat b;
    Some (b, SIZE_msg_announce)
  else if messageType =? SIGNALING_MSG then
    b ← ptp_port_identity_tx b DATA; Some (b, SIZE_msg_signaling_base)
  else if messageType =? MANAGEMENT_MSG then
    b ← ptp_port_identity_tx b DATA; Some (b, SIZE_msg_management_base)
  else Some (b, u16 (len - Z.of_nat SIZE_hdr)).

(** The TLVs after the fixed part of [size] bytes. *)
Definition msg_tlvs (tlvs : buf -> nat -> Z -> option buf) (b : buf)
    (len size : Z) : option buf :=
  let data := (DATA + Z.to_nat size)%nat in
  let size := u16 (size + Z.of_nat SIZE_hdr) in
  if len >=? size then
    let len := u16 (len - size) in
    if len >=? SIZE_tlv then tlvs b data len else Some b
  else Some b.

Definition ptp_msg_rx (b : buf) : option buf :=
  b ← ptp_hdr_rx b;
  len ← hdr_messageLength b;
  (* Just the header, for the report of a timestamp. *)
  if len =? Z.of_nat SIZE_hdr then Some b else
  messageType ← hdr_messageType b;
  '(b, size) ← msg_body_rx b messageType len;
  msg_tlvs ptp_tlv_rx b len size.

Definition ptp_msg_tx (b : buf) : option buf :=
  len ← hdr_messageLength b;
  b ← ptp_hdr_tx b;
  messageType ← hdr_messageType b;
  '(b, size) ← msg_body_tx b messageType len;
  msg_tlvs ptp_tlv_tx b len size.
