(* ===== verification/WireProofs.v ===== *)
(** * Properties of the byte-order conversions (ptp_msg.c) *)

From stdpp Require Import base list numbers option.
From Stdlib Require Import ZArith Lia.
From S2P Require Import Prelude Types Wire.

(** ** Swapping fields *)

Lemma in_buf_true b o n : in_buf b o n = true <-> (o + n <= length b)%nat.
Proof. apply Nat.leb_le. Qed.

Lemma bytes_Some b o n :
  (o + n <= length b)%nat -> bytes b o n = Some (take n (drop o b)).
Proof. intros H. unfold bytes. by rewrite (proj2 (in_buf_true b o n) H). Qed.

(** The field in the middle of a buffer. *)
Lemma bytes_mid pre f rest :
  bytes (pre ++ f ++ rest) (length pre) (length f) = Some f.
Proof.
  rewrite bytes_Some by (rewrite !length_app; lia). f_equal.
  by rewrite drop_app_length, take_app_length.
Qed.

Lemma swap_mid pre f rest :
  swap (pre ++ f ++ rest) (length pre) (length f) = Some (pre ++ reverse f ++ rest).
Proof.
  unfold swap. rewrite bytes_mid. simpl. unfold put.
  rewrite length_reverse.
  rewrite (proj2 (in_buf_true _ _ _)) by (rewrite !length_app; lia).
  f_equal. rewrite take_app_length. f_equal. f_equal.
  rewrite app_assoc, drop_app_length'; [done|]. by rewrite length_app.
Qed.

Lemma swap_same b o n l : bytes b o n = Some l -> reverse l = l -> swap b o n = Some b.
Proof.
  intros H Hr. unfold swap. rewrite H. cbn [mbind option_bind]. rewrite Hr.
  unfold bytes in H. destruct (in_buf b o n) eqn:E; [|done]. injection H as <-.
  apply in_buf_true in E. unfold put.
  assert (length (take n (drop o b)) = n) as Hl
    by (rewrite length_take, length_drop; lia).
  rewrite Hl, (proj2 (in_buf_true b o n) E). f_equal.
  by rewrite <- drop_drop, take_drop, take_drop.
Qed.

Lemma split_field (b : buf) o n :
  (o + n <= length b)%nat ->
  exists pre f rest : list Z, b = pre ++ f ++ rest /\ length pre = o /\ length f = n.
Proof.
  intros H. exists (take o b), (take n (drop o b)), (drop n (drop o b)).
  rewrite (take_drop n), take_drop. split; [done|].
  rewrite !length_take, length_drop. lia.
Qed.

Lemma swap_Some b o n :
  (o + n <= length b)%nat -> exists b', swap b o n = Some b' /\ length b' = length b.
Proof.
  intros H. destruct (split_field b o n H) as (pre & f & rest & -> & <- & <-).
  rewrite swap_mid. eexists; split; [done|].
  rewrite !length_app, length_reverse. lia.
Qed.

Lemma swap_inv b o n b' :
  swap b o n = Some b' -> (o + n <= length b)%nat /\ length b' = length b.
Proof.
  intros H. destruct (decide (o + n <= length b)%nat) as [Hl|Hl].
  - destruct (swap_Some b o n Hl) as (x & Hx & ?). rewrite H in Hx.
    by injection Hx as ->.
  - unfold swap, bytes in H.
    destruct (in_buf b o n) eqn:E; [apply in_buf_true in E; lia|done].
Qed.

Lemma swap_involutive b o n b' : swap b o n = Some b' -> swap b' o n = Some b.
Proof.
  intros H. destruct (swap_inv _ _ _ _ H) as [Hl _].
  destruct (split_field b o n Hl) as (pre & f & rest & -> & <- & <-).
  rewrite swap_mid in H. injection H as <-.
  pose proof (swap_mid pre (reverse f) rest) as E.
  by rewrite reverse_involutive, length_reverse in E.
Qed.

(** The conversion of a field inside a part of the buffer. *)
Lemma swap_local pre t rest o n :
  (o + n <= length t)%nat ->
  swap (pre ++ t ++ rest) (length pre + o) n =
  (fun t' => pre ++ t' ++ rest) <$> swap t o n.
Proof.
  intros H. destruct (split_field t o n H) as (p & f & r & -> & <- & <-).
  rewrite swap_mid. simpl.
  pose proof (swap_mid (pre ++ p) f (r ++ rest)) as E.
  rewrite length_app in E. rewrite <- !app_assoc in E. rewrite <- !app_assoc. exact E.
Qed.

(** Fields in increasing order, from position [k], within [m] bytes. *)
Fixpoint increasing (k m : nat) (fs : list (nat * nat)) : Prop :=
  match fs with
  | [] => True
  | (o, n) :: fs => (k <= o)%nat /\ (o + n <= m)%nat /\ increasing (o + n) m fs
  end.

Definition fits_fields (m : nat) (fs : list (nat * nat)) : Prop :=
  Forall (fun f => f.1 + f.2 <= m)%nat fs.
Definition apart (f g : nat * nat) : Prop :=
  (f.1 + f.2 <= g.1 \/ g.1 + g.2 <= f.1)%nat.
Fixpoint disjoint_fields (fs : list (nat * nat)) : Prop :=
  match fs with
  | [] => True
  | f :: fs => Forall (apart f) fs /\ disjoint_fields fs
  end.

Lemma swaps_Some fs : forall b,
  fits_fields (length b) fs ->
  exists b', swaps fs b = Some b' /\ length b' = length b.
Proof.
  induction fs as [|[o n] fs IH]; intros b H; simpl; [eauto|].
  apply Forall_cons_1 in H as [H1 H2]. simpl in H1.
  destruct (swap_Some b o n H1) as (b1 & -> & Hl). simpl.
  destruct (IH b1) as (b2 & -> & Hl2).
  { unfold fits_fields. by rewrite Hl. }
  exists b2. split; [done|congruence].
Qed.

Lemma swaps_inv fs : forall b b',
  swaps fs b = Some b' -> fits_fields (length b) fs /\ length b' = length b.
Proof.
  induction fs as [|[o n] fs IH]; intros b b' H; simpl in H.
  - injection H as ->. split; [by constructor|done].
  - destruct (swap b o n) as [b1|] eqn:E; [|done]. simpl in H.
    apply swap_inv in E as [E1 E2]. apply IH in H as [H1 H2].
    rewrite E2 in *. split; [|done]. by constructor.
Qed.

Lemma swaps_app fs gs b : swaps (fs ++ gs) b = (b1 ← swaps fs b; swaps gs b1).
Proof.
  revert b. induction fs as [|[o n] fs IH]; intros b; simpl; [done|].
  destruct (swap b o n); simpl; [apply IH|done].
Qed.

Lemma swaps_local pre t rest fs : 
  fits_fields (length t) fs ->
  swaps (at_off (length pre) fs) (pre ++ t ++ rest) =
  (fun t' => pre ++ t' ++ rest) <$> swaps fs t.
Proof.
  revert t. induction fs as [|[o n] fs IH]; intros t H; simpl; [done|].
  apply Forall_cons_1 in H as [H1 H2]. simpl in H1.
  rewrite swap_local by done.
  destruct (swap_Some t o n H1) as (t1 & -> & Hl). simpl.
  apply IH. unfold fits_fields. by rewrite Hl.
Qed.

(** Conversions of fields that do not overlap commute. *)
Lemma swap_comm b o n o' n' :
  apart (o, n) (o', n') ->
  (o + n <= length b)%nat -> (o' + n' <= length b)%nat ->
  (x ← swap b o n; swap x o' n') = (x ← swap b o' n'; swap x o n).
Proof.
  assert (forall o n o' n', (o + n <= o')%nat -> (o' + n' <= length b)%nat ->
    (x ← swap b o n; swap x o' n') = (x ← swap b o' n'; swap x o n)) as Hlt.
  { clear. intros o n o' n' H1 H2.
    destruct (split_field b (o + n) (length b - (o + n))) as (p & q & r & -> & Hp & Hq);
      [lia|].
    rewrite !length_app in *.
    assert (r = []) as -> by (apply length_zero_iff_nil; lia).
    rewrite app_nil_r in *.
    assert ((o' - length p) + n' <= length q)%nat as Hq' by lia.
    pose proof (swap_local [] p q o n ltac:(lia)) as E1. simpl in E1.
    destruct (swap_Some p o n ltac:(lia)) as (p' & Ep & Hp').
    pose proof (swap_local p q [] (o' - length p) n' Hq') as E2.
    replace (length p + (o' - length p))%nat with o' in E2 by lia.
    destruct (swap_Some q (o' - length p) n' Hq') as (q' & Eq & Hq'').
    rewrite Ep in E1. rewrite Eq in E2. rewrite app_nil_r in E2. simpl in *.
    rewrite E1, E2. simpl. rewrite app_nil_r.
    pose proof (swap_local [] p q' o n ltac:(lia)) as E3. simpl in E3.
    rewrite Ep in E3. simpl in E3. rewrite E3.
    pose proof (swap_local p' q [] (o' - length p) n' Hq') as E4.
    rewrite Hp' in E4.
    replace (length p + (o' - length p))%nat with o' in E4 by lia.
    rewrite Eq, !app_nil_r in E4. simpl in E4. by rewrite E4, app_nil_r. }
  intros [H|H] H1 H2; simpl in H.
  - by apply Hlt.
  - symmetry. apply Hlt; lia.
Qed.

Lemma swap_swaps_comm fs : forall b o n,
  Forall (apart (o, n)) fs -> (o + n <= length b)%nat ->
  fits_fields (length b) fs ->
  (x ← swap b o n; swaps fs x) = (x ← swaps fs b; swap x o n).
Proof.
  induction fs as [|[o' n'] fs IH]; intros b o n Ha Ho Hf; simpl.
  { destruct (swap b o n); done. }
  apply Forall_cons_1 in Ha as [Ha1 Ha2]. apply Forall_cons_1 in Hf as [Hf1 Hf2].
  simpl in Hf1.
  pose proof (swap_comm b o n o' n' Ha1 Ho Hf1) as E.
  destruct (swap_Some b o n Ho) as (b1 & E1 & Hl1).
  destruct (swap_Some b o' n' Hf1) as (b2 & E2 & Hl2).
  rewrite E1, E2 in *. simpl in *. rewrite E.
  rewrite <- (IH b2 o n); [done|done|lia|]. unfold fits_fields. by rewrite Hl2.
Qed.

(** Converting the same disjoint fields twice restores the buffer. *)
Lemma swaps_involutive fs : forall b b',
  disjoint_fields fs -> swaps fs b = Some b' -> swaps fs b' = Some b.
Proof.
  induction fs as [|[o n] fs IH]; intros b b' Hd H; simpl in *.
  { by injection H as ->. }
  destruct Hd as [Ha Hd].
  destruct (swap b o n) as [b1|] eqn:E; [|done]. simpl in H.
  pose proof (swap_inv _ _ _ _ E) as [Ho Hl1].
  destruct (swaps_inv _ _ _ H) as [Hf Hl2].
  pose proof (swap_swaps_comm fs b' o n Ha ltac:(lia)) as C.
  rewrite C by (by rewrite Hl2).
  rewrite (IH _ _ Hd H). simpl. by apply swap_involutive.
Qed.

(** Fields of a structure whose conversion is not affected by other fields. *)
Lemma increasing_fits fs : forall k m, increasing k m fs -> fits_fields m fs.
Proof.
  induction fs as [|[o n] fs IH]; intros k m H; simpl in *; constructor.
  - simpl. lia.
  - apply (IH (o + n)%nat). tauto.
Qed.

Lemma increasing_apart fs : forall k m o n,
  increasing k m fs -> (o + n <= k)%nat -> Forall (apart (o, n)) fs.
Proof.
  induction fs as [|[o' n'] fs IH]; intros k m o n H Hk; simpl in *; constructor.
  - left. simpl. lia.
  - destruct H as (H1 & H2 & H3). apply (IH (o' + n')%nat m); [done|lia].
Qed.

Lemma increasing_disjoint fs : forall k m, increasing k m fs -> disjoint_fields fs.
Proof.
  induction fs as [|[o n] fs IH]; intros k m H; simpl in *; [done|].
  destruct H as (H1 & H2 & H3). split.
  - by apply (increasing_apart fs (o + n)%nat m).
  - by apply (IH (o + n)%nat m).
Qed.

Lemma increasing_at_off fs : forall k m a,
  increasing k m fs -> increasing (a + k) (a + m) (at_off a fs).
Proof.
  induction fs as [|[o n] fs IH]; intros k m a H; simpl in *; [done|].
  destruct H as (H1 & H2 & H3). split; [lia|]. split; [lia|].
  rewrite <- Nat.add_assoc. by apply IH.
Qed.

Lemma increasing_app fs gs : forall k l m,
  increasing k l fs -> increasing l m gs -> (l <= m)%nat -> (k <= l)%nat ->
  increasing k m (fs ++ gs).
Proof.
  induction fs as [|[o n] fs IH]; intros k l m H1 H2 Hl Hk; simpl in *.
  - clear -H2 Hk. destruct gs as [|[o n] gs]; simpl in *; [done|]. intuition lia.
  - destruct H1 as (H11 & H12 & H13). split; [done|]. split; [lia|].
    apply (IH _ l); try done.
Qed.

(** ** Reading next to converted fields *)

Lemma bytes_local pre t rest o n :
  (o + n <= length t)%nat -> bytes (pre ++ t ++ rest) (length pre + o) n = bytes t o n.
Proof.
  intros H. destruct (split_field t o n H) as (p & f & r & -> & <- & <-).
  rewrite bytes_mid. pose proof (bytes_mid (pre ++ p) f (r ++ rest)) as E.
  rewrite length_app in E. rewrite <- !app_assoc in E. by rewrite <- !app_assoc.
Qed.

Lemma rd_local pre t rest o n :
  (o + n <= length t)%nat -> rd (pre ++ t ++ rest) (length pre + o) n = rd t o n.
Proof. intros H. unfold rd. by rewrite bytes_local. Qed.

Lemma swap_take b o n b' k : swap b o n = Some b' -> (k <= o)%nat -> take k b' = take k b.
Proof.
  intros H Hk. destruct (swap_inv _ _ _ _ H) as [Hl _].
  destruct (split_field b o n Hl) as (pre & f & rest & -> & <- & <-).
  rewrite swap_mid in H. injection H as <-. rewrite !take_app_le; done.
Qed.

Lemma swaps_take fs : forall k m b b',
  increasing k m fs -> swaps fs b = Some b' -> take k b' = take k b.
Proof.
  induction fs as [|[o n] fs IH]; intros k m b b' Hi H; simpl in *.
  { by injection H as ->. }
  destruct Hi as (H1 & H2 & H3). destruct (swap b o n) as [b1|] eqn:E; [|done].
  simpl in H. rewrite <- (swap_take b o n b1 k E H1).
  pose proof (IH (o + n)%nat m b1 b' H3 H) as T.
  apply (f_equal (take k)) in T. by rewrite !take_take, !Nat.min_l in T by lia.
Qed.

Lemma bytes_take b b' k o n :
  take k b = take k b' -> length b = length b' -> (o + n <= k)%nat ->
  bytes b o n = bytes b' o n.
Proof.
  intros H HL Hk. unfold bytes, in_buf. rewrite HL.
  destruct (o + n <=? length b')%nat eqn:E; [|done]. f_equal.
  assert (forall x : list Z, take n (drop o x) = drop o (take (o + n) x)) as T.
  { intros x. by rewrite skipn_firstn_comm, Nat.add_comm, Nat.add_sub. }
  rewrite !T. f_equal.
  apply (f_equal (take (o + n))) in H. by rewrite !take_take, !Nat.min_l in H by lia.
Qed.

Lemma at_off_at_off a c fs : at_off a (at_off c fs) = at_off (a + c) fs.
Proof.
  induction fs as [|[o n] fs IH]; simpl; [done|]. rewrite IH. by rewrite Nat.add_assoc.
Qed.

Lemma at_off_app a fs gs : at_off a (fs ++ gs) = at_off a fs ++ at_off a gs.
Proof. apply map_app. Qed.

(** ** The fields of a TLV *)

(** Entries of the Microchip TLV. *)
Fixpoint peers (n : nat) : list (nat * nat) :=
  match n with
  | O => []
  | S n => peer_fields ++ at_off SIZE_peer (peers n)
  end.

Definition org_fields (oui sub : list Z) (size : nat) : list (nat * nat) :=
  at_off 10
    (if bool_decide (oui = OUI_8021) then
       if bool_decide (sub = [0; 0; 1]) then data_1_fields
       else if bool_decide (sub = [0; 0; 2]) then data_2_fields else []
     else if bool_decide (oui = OUI_C37_238) then
       if bool_decide (sub = [0; 0; 1]) then C37_238_fields else []
     else if bool_decide (oui = OUI_MICROCHIP) then
       if bool_decide (sub = [0; 0; 1]) then peers ((size - 10) / SIZE_peer) else []
     else []).

(** The fields after the TLV header that are kept in host order. *)
Definition tlv_fields (t : list Z) : list (nat * nat) :=
  let ty := le (take 2 t) in
  if ty =? TLV_MANAGEMENT then [(4, 2)]%nat
  else if ty =? TLV_MANAGEMENT_ERROR_STATUS then [(4, 2); (6, 2); (8, 4)]%nat
  else if ty =? TLV_ORGANIZATION_EXTENSION then
    org_fields (take 3 (drop 4 t)) (take 3 (drop 7 t)) (length t)
  else [].

(** End of the part of the header that [tlv_fields] reads. *)
Definition tlv_head (t : list Z) : nat :=
  if le (take 2 t) =? TLV_ORGANIZATION_EXTENSION then 10 else 4.

(** A TLV in host order: its length field is right and its fields lie inside;
    a management TLV carries none of the data sets that are converted in one
    direction only. *)
Definition tlv_wf (t : list Z) : Prop :=
  (tlv_head t <= length t)%nat /\ Z.of_nat (length t) < 65536 /\
  le (take 2 (drop 2 t)) = Z.of_nat (length t) - 4 /\
  fits_fields (length t) (tlv_fields t) /\
  (le (take 2 t) = TLV_MANAGEMENT -> manage_tx_fields (le (take 2 (drop 4 t))) = []).

(** The TLV on the wire. *)
Definition tlv_wire (t : list Z) : option (list Z) :=
  swaps (tlv_fields t ++ [(0, 2); (2, 2)]%nat) t.

Lemma increasing_weaken fs : forall k l m m',
  increasing k m fs -> (l <= k)%nat -> fits_fields m' fs -> increasing l m' fs.
Proof.
  induction fs as [|[o n] fs IH]; intros k l m m' H Hl Hf; simpl in *; [done|].
  destruct H as (H1 & H2 & H3). apply Forall_cons_1 in Hf as [Hf1 Hf2]. simpl in Hf1.
  split; [lia|]. split; [done|]. by apply (IH (o + n)%nat _ m).
Qed.

Lemma peers_increasing n : increasing 0 (SIZE_peer * n) (peers n).
Proof.
  induction n as [|n IH]; [done|].
  replace (SIZE_peer * S n)%nat with (SIZE_peer + SIZE_peer * n)%nat by lia.
  assert (increasing 18 (SIZE_peer + SIZE_peer * n) (at_off SIZE_peer (peers n))) as H.
  { replace 18%nat with (SIZE_peer + 0)%nat by done. by apply increasing_at_off. }
  unfold SIZE_peer in *. simpl peers. cbn -[Nat.add Nat.mul].
  repeat (split; [lia|]). done.
Qed.

(** Some increasing range always exists for the fields of a TLV. *)
Lemma org_fields_increasing oui sub size :
  exists m, increasing 10 m (org_fields oui sub size).
Proof.
  assert (exists m, forall fs, fs = data_1_fields \/ fs = data_2_fields \/
    fs = C37_238_fields \/ fs = [] \/ fs = peers ((size - 10) / SIZE_peer) ->
    increasing 0 m fs) as (m & Hm).
  { exists (22 + SIZE_peer * ((size - 10) / SIZE_peer))%nat.
    intros fs [-> | [-> | [-> | [-> | ->]]]]; try (simpl; intuition lia).
    pose proof (peers_increasing ((size - 10) / SIZE_peer)) as H.
    apply (increasing_weaken _ 0 0 (SIZE_peer * ((size - 10) / SIZE_peer))); [done|lia|].
    pose proof (increasing_fits _ _ _ H) as Hf. unfold fits_fields in *.
    rewrite Forall_forall in Hf. apply Forall_forall. intros f Hin.
    specialize (Hf f Hin). revert Hf. generalize (SIZE_peer * ((size - 10) / SIZE_peer))%nat. lia. }
  exists (10 + m)%nat. unfold org_fields.
  replace 10%nat with (10 + 0)%nat at 1 by done.
  apply increasing_at_off, Hm. repeat case_bool_decide; auto 6.
Qed.

Lemma tlv_fields_increasing t : exists m, increasing (tlv_head t) m (tlv_fields t).
Proof.
  unfold tlv_fields, tlv_head.
  destruct (le (take 2 t) =? TLV_MANAGEMENT) eqn:E1; bools.
  { rewrite E1. exists 6%nat. simpl. lia. }
  destruct (le (take 2 t) =? TLV_MANAGEMENT_ERROR_STATUS) eqn:E2; bools.
  { rewrite E2. exists 12%nat. simpl. lia. }
  destruct (le (take 2 t) =? TLV_ORGANIZATION_EXTENSION) eqn:E3; bools.
  - apply org_fields_increasing.
  - by exists 0%nat.
Qed.

Lemma tlv_wf_increasing t :
  tlv_wf t -> increasing (tlv_head t) (length t) (tlv_fields t).
Proof.
  intros (_ & _ & _ & Hf & _). destruct (tlv_fields_increasing t) as [m H].
  by apply (increasing_weaken _ (tlv_head t) _ m).
Qed.

Lemma tlv_head_4 t : (4 <= tlv_head t)%nat.
Proof. unfold tlv_head. destruct (_ =? _); lia. Qed.

Lemma tlv_wire_disjoint t :
  tlv_wf t -> disjoint_fields ([(0, 2); (2, 2)]%nat ++ tlv_fields t).
Proof.
  intros H. apply (increasing_disjoint _ 0 (length t)).
  pose proof (tlv_wf_increasing t H). pose proof (tlv_head_4 t).
  destruct H as (Hl & _). simpl. repeat (split; [lia|]).
  apply (increasing_weaken _ (tlv_head t) _ (length t)); [done|lia|].
  by apply (increasing_fits _ (tlv_head t)).
Qed.

(** The loop over the Microchip entries is the conversion of [peers n]. *)
Lemma peer_entries_spec n : forall fuel b d i,
  18 * Z.of_nat n <= i < 18 * Z.of_nat n + 18 -> i < 2 ^ 31 ->
  (n <= fuel)%nat ->
  peer_entries fuel b d i = swaps (at_off d (peers n)) b.
Proof.
  induction n as [|n IH]; intros fuel b d i Hi Hm Hf.
  - destruct fuel; simpl; rewrite u32_small by lia;
      destruct (i >=? Z.of_nat SIZE_peer) eqn:E; bools; done || (unfold SIZE_peer in *; lia).
  - destruct fuel as [|fuel]; [lia|]. cbn [peer_entries].
    rewrite u32_small by lia.
    destruct (i >=? Z.of_nat SIZE_peer) eqn:E; bools; [|unfold SIZE_peer in *; lia].
    rewrite s32_small by (unfold SIZE_peer; lia).
    cbn [peers]. rewrite at_off_app, swaps_app.
    destruct (swaps (at_off d peer_fields) b) as [b1|]; cbn [mbind option_bind]; [|done].
    rewrite at_off_at_off. apply IH; unfold SIZE_peer; lia.
Qed.

(** The organization handlers, on a TLV [u] inside a buffer. *)
Lemma org_ext_rx_spec pre u rest :
  (10 <= length u)%nat -> Z.of_nat (length u) < 65536 ->
  le (take 2 (drop 2 u)) = Z.of_nat (length u) - 4 ->
  ptp_tlv_org_ext_rx (pre ++ u ++ rest) (length pre) =
  swaps (at_off (length pre)
    (org_fields (take 3 (drop 4 u)) (take 3 (drop 7 u)) (length u))) (pre ++ u ++ rest).
Proof.
  intros HL HM Hlen. unfold ptp_tlv_org_ext_rx, org_fields, tlv_lengthField.
  rewrite !bytes_local, rd_local by lia.
  unfold rd. rewrite !bytes_Some by lia. cbn [mbind option_bind fmap option_fmap option_map].
  rewrite !at_off_at_off, Hlen.
  repeat case_bool_decide; try done; try (simpl; done).
  rewrite s32_small by (unfold SIZE_tlv, SIZE_org_ext; lia).
  apply peer_entries_spec; unfold SIZE_tlv, SIZE_org_ext, SIZE_peer.
  - pose proof (Nat.div_mod (length u - 10) 18 ltac:(lia)).
    pose proof (Nat.mod_upper_bound (length u - 10) 18 ltac:(lia)). lia.
  - lia.
  - rewrite !length_app.
    pose proof (Nat.Div0.div_le_mono (length u - 10) (length u) 18 ltac:(lia)).
    pose proof (Nat.Div0.div_le_upper_bound (length u) 18 (length u) ltac:(lia)). lia.
Qed.

Lemma org_ext_tx_rx b tlv : ptp_tlv_org_ext_tx b tlv = ptp_tlv_org_ext_rx b tlv.
Proof. reflexivity. Qed.

(** ** One TLV *)

Lemma take_drop_head (u t : list Z) k a n :
  take k u = take k t -> length u = length t -> (a + n <= k)%nat ->
  (k <= length t)%nat -> take n (drop a u) = take n (drop a t).
Proof.
  intros H HL Hk Hkt.
  pose proof (bytes_take u t k a n H HL Hk) as E.
  rewrite !bytes_Some in E by lia. by injection E.
Qed.

Section one_tlv.
  Context (t u : list Z).
  Hypothesis wf : tlv_wf t.
  Hypothesis head : take (tlv_head t) u = take (tlv_head t) t.
  Hypothesis len_eq : length u = length t.

Lemma head_eq a n :
  (a + n <= tlv_head t)%nat -> take n (drop a u) = take n (drop a t).
Proof. destruct wf as (H & _). intros. by apply (take_drop_head u t (tlv_head t)). Qed.

Lemma wf_rd_type pre rest : rd (pre ++ u ++ rest) (length pre) 2 = Some (le (take 2 t)).
Proof.
  pose proof (tlv_head_4 t). destruct wf as (Hl & _).
  pose proof (rd_local pre u rest 0 2 ltac:(lia)) as E. rewrite Nat.add_0_r in E.
  rewrite E. unfold rd. rewrite bytes_Some by lia. simpl. do 2 f_equal.
  apply (head_eq 0 2). lia.
Qed.

Lemma wf_rd_length pre rest :
  rd (pre ++ u ++ rest) (length pre + 2) 2 = Some (Z.of_nat (length t) - 4).
Proof.
  pose proof (tlv_head_4 t). destruct wf as (Hl & _ & Hlen & _).
  rewrite rd_local by lia. unfold rd. rewrite bytes_Some by lia. simpl. f_equal.
  rewrite <- Hlen. f_equal. apply head_eq. lia.
Qed.

Lemma body_rx pre rest :
  (if le (take 2 t) =? TLV_MANAGEMENT then ptp_tlv_manage_rx (pre ++ u ++ rest) (length pre)
   else if le (take 2 t) =? TLV_MANAGEMENT_ERROR_STATUS then
     ptp_tlv_manage_error_rx (pre ++ u ++ rest) (length pre)
   else if le (take 2 t) =? TLV_ORGANIZATION_EXTENSION then
     ptp_tlv_org_ext_rx (pre ++ u ++ rest) (length pre)
   else Some (pre ++ u ++ rest)) =
  swaps (at_off (length pre) (tlv_fields t)) (pre ++ u ++ rest).
Proof.
  pose proof wf as (Hl & HM & Hlen & Hf & Hmg). unfold tlv_fields.
  destruct (_ =? TLV_MANAGEMENT).
  { unfold ptp_tlv_manage_rx. simpl. by destruct (swap _ _ _). }
  destruct (_ =? TLV_MANAGEMENT_ERROR_STATUS); [done|].
  destruct (_ =? TLV_ORGANIZATION_EXTENSION) eqn:E; [|done].
  assert (tlv_head t = 10%nat) as H10 by (unfold tlv_head; by rewrite E).
  rewrite H10 in Hl.
  rewrite org_ext_rx_spec.
  - rewrite len_eq, !head_eq by lia. done.
  - lia.
  - lia.
  - rewrite head_eq by lia. lia.
Qed.
End one_tlv.

Lemma body_tx t pre rest :
  tlv_wf t ->
  (if le (take 2 t) =? TLV_MANAGEMENT then ptp_tlv_manage_tx (pre ++ t ++ rest) (length pre)
   else if le (take 2 t) =? TLV_MANAGEMENT_ERROR_STATUS then
     ptp_tlv_manage_error_tx (pre ++ t ++ rest) (length pre)
   else if le (take 2 t) =? TLV_ORGANIZATION_EXTENSION then
     ptp_tlv_org_ext_tx (pre ++ t ++ rest) (length pre)
   else Some (pre ++ t ++ rest)) =
  swaps (at_off (length pre) (tlv_fields t)) (pre ++ t ++ rest).
Proof.
  intros wf. rewrite <- (body_rx t t wf eq_refl eq_refl).
  destruct (_ =? TLV_MANAGEMENT) eqn:E; [|done]. bools.
  destruct wf as (Hl & HM & Hlen & Hf & Hmg).
  unfold ptp_tlv_manage_tx, ptp_tlv_manage_rx.
  assert (6 <= length t)%nat as H6.
  { unfold tlv_fields in Hf. rewrite E in Hf. simpl in Hf.
    apply Forall_cons_1 in Hf as [Hf _]. simpl in Hf. lia. }
  rewrite rd_local by lia. unfold rd. rewrite bytes_Some by lia. simpl.
  by rewrite (Hmg E).
Qed.

Lemma tlv_wire_Some t : tlv_wf t ->
  exists t' tb, tlv_wire t = Some t' /\ length t' = length t /\
    swaps (tlv_fields t) t = Some tb /\ length tb = length t /\
    swaps [(0, 2); (2, 2)]%nat tb = Some t' /\
    take (tlv_head t) tb = take (tlv_head t) t.
Proof.
  intros wf. pose proof (tlv_wf_increasing t wf) as Hi. pose proof (tlv_head_4 t).
  destruct wf as (Hl & _ & _ & Hf & _).
  destruct (swaps_Some _ t Hf) as (tb & Eb & Hlb).
  destruct (swaps_Some [(0, 2); (2, 2)]%nat tb) as (t' & E' & Hl').
  { repeat constructor; simpl; lia. }
  exists t', tb. unfold tlv_wire. rewrite swaps_app, Eb.
  cbn [mbind option_bind]. rewrite E'. repeat split; try done; [congruence|].
  by apply (swaps_take (tlv_fields t) _ (length t)).
Qed.

Lemma tlv_tx_one_spec t t' pre rest len :
  tlv_wf t -> tlv_wire t = Some t' -> Z.of_nat (length t) <= len < 65536 ->
  tlv_tx_one (pre ++ t ++ rest) (length pre) len =
  Some (pre ++ t' ++ rest,
        Some ((length pre + length t)%nat, len - Z.of_nat (length t))).
Proof.
  intros wf Hw Hlen. pose proof (tlv_head_4 t).
  unfold tlv_tx_one, tlv_lengthField, tlv_type.
  rewrite (wf_rd_length t t wf eq_refl eq_refl). cbn [mbind option_bind].
  unfold SIZE_tlv. replace (Z.of_nat (length t) - 4 + 4) with (Z.of_nat (length t)) by lia.
  rewrite !u16_small by lia.
  destruct (len >=? Z.of_nat (length t)) eqn:E; bools; [|lia].
  rewrite (wf_rd_type t t wf eq_refl eq_refl). cbn [mbind option_bind].
  rewrite body_tx by done.
  destruct (tlv_wire_Some t) as (x & tb & Hx & _ & Hb & Hlb & Hh & _); [done|].
  destruct wf as (Hl & _ & _ & Hf & _).
  rewrite Hw in Hx. injection Hx as <-.
  rewrite swaps_local, Hb by done. cbn [fmap option_fmap option_map mbind option_bind].
  assert (fits_fields (length tb) [(0, 2); (2, 2)]%nat) as Hf2
    by (repeat constructor; simpl; lia).
  pose proof (swaps_local pre tb rest _ Hf2) as E2. rewrite Hh in E2.
  simpl in E2. rewrite Nat.add_0_r in E2.
  destruct (swap _ (length pre) 2) as [b1|]; [|by simpl in E2]. cbn [mbind option_bind] in *.
  destruct (swap b1 _ 2) as [b2|]; [|by simpl in E2]. cbn [mbind option_bind] in *. injection E2 as ->.
  do 4 f_equal. lia.
Qed.

Lemma tlv_rx_one_spec t t' pre rest len :
  tlv_wf t -> tlv_wire t = Some t' -> Z.of_nat (length t) <= len < 65536 ->
  tlv_rx_one (pre ++ t' ++ rest) (length pre) len =
  Some (pre ++ t ++ rest,
        Some ((length pre + length t)%nat, len - Z.of_nat (length t))).
Proof.
  intros wf Hw Hlen. pose proof (tlv_head_4 t).
  destruct (tlv_wire_Some t) as (x & tb & Hx & Hlx & Hb & Hlb & Hh & Hhead); [done|].
  rewrite Hw in Hx. injection Hx as <-.
  pose proof wf as (Hl & _ & _ & Hf & _).
  assert (swaps [(0, 2); (2, 2)]%nat t' = Some tb) as Hh'.
  { apply swaps_involutive; [|done]. repeat (constructor; simpl; try lia). }
  assert (swaps (tlv_fields t) tb = Some t) as Hb'.
  { apply swaps_involutive; [|done].
    apply (increasing_disjoint _ (tlv_head t) (length t)). by apply tlv_wf_increasing. }
  assert (fits_fields (length t') [(0, 2); (2, 2)]%nat) as Hf2
    by (repeat constructor; simpl; lia).
  pose proof (swaps_local pre t' rest _ Hf2) as E2. rewrite Hh' in E2.
  simpl in E2. rewrite Nat.add_0_r in E2.
  unfold tlv_rx_one, tlv_lengthField, tlv_type.
  destruct (swap _ (length pre) 2) as [b1|]; [|by simpl in E2]. cbn [mbind option_bind] in *.
  destruct (swap b1 _ 2) as [b2|]; [|by simpl in E2]. cbn [mbind option_bind] in *. injection E2 as ->.
  rewrite (wf_rd_length t tb wf Hhead Hlb). cbn [mbind option_bind].
  unfold SIZE_tlv. replace (Z.of_nat (length t) - 4 + 4) with (Z.of_nat (length t)) by lia.
  rewrite !u16_small by lia.
  destruct (len >=? Z.of_nat (length t)) eqn:E; bools; [|lia].
  rewrite (wf_rd_type t tb wf Hhead Hlb). cbn [mbind option_bind].
  rewrite (body_rx t tb wf Hhead Hlb).
  rewrite swaps_local, Hb' by (by rewrite Hlb).
  cbn [fmap option_fmap option_map mbind option_bind].
  do 4 f_equal. lia.
Qed.

(** ** The TLVs of a message *)

Section loops.
  Context (one : buf -> nat -> Z -> option (buf * option (nat * Z))).
  Context (conv : list Z -> list Z -> Prop).
  Hypothesis conv_size : forall t t', conv t t' -> (4 <= length t)%nat /\ length t' = length t.
  Hypothesis one_spec : forall t t' pre rest len,
    conv t t' -> Z.of_nat (length t) <= len < 65536 ->
    one (pre ++ t ++ rest) (length pre) len =
    Some (pre ++ t' ++ rest,
          Some ((length pre + length t)%nat, len - Z.of_nat (length t))).

Lemma tlv_loop_spec ts : forall ts' fuel pre rest r,
  Forall2 conv ts ts' -> ts <> [] -> (length ts <= fuel)%nat -> 0 <= r < 4 ->
  Z.of_nat (length (concat ts)) + r < 65536 ->
  tlv_loop one fuel (pre ++ concat ts ++ rest) (length pre)
    (Z.of_nat (length (concat ts)) + r) =
  Some (pre ++ concat ts' ++ rest).
Proof.
  induction ts as [|t ts IH]; intros ts' fuel pre rest r HF Hne Hfuel Hr HM; [done|].
  inversion HF as [|? t' ? ts1 Hc HF' ]; subst. destruct (conv_size _ _ Hc) as [H4 Hl].
  destruct fuel as [|fuel]; simpl in Hfuel; [lia|]. simpl concat in *.
  rewrite length_app in *. cbn [tlv_loop].
  rewrite <- app_assoc, (one_spec t t') by (done || lia).
  cbn [mbind option_bind].
  replace (Z.of_nat (length t + length (concat ts)) + r - Z.of_nat (length t))
    with (Z.of_nat (length (concat ts)) + r) by lia.
  destruct ts as [|t2 ts].
  - inversion HF'; subst. simpl concat. simpl length.
    destruct (_ >=? SIZE_tlv) eqn:E; bools; unfold SIZE_tlv in *; [lia|].
    by rewrite !app_nil_r.
  - destruct (_ >=? SIZE_tlv) eqn:E; bools.
    + rewrite <- Hl, <- length_app, !app_assoc, <- (app_assoc _ (concat (t2 :: ts))).
      rewrite (IH ts1); [|done|done|lia|done|lia]. by rewrite !app_assoc.
    + inversion HF' as [|? t2' ? ts2 Hc2 _]; subst.
      destruct (conv_size _ _ Hc2) as [H4' _].
      simpl concat in *. rewrite length_app in *. unfold SIZE_tlv in *. lia.
Qed.
End loops.

Lemma tlv_fuel_enough (ts : list (list Z)) conv (ts' : list (list Z)) r :
  (forall t t', conv t t' -> (4 <= length t)%nat /\ length t' = length t) ->
  Forall2 conv ts ts' -> 0 <= r ->
  (length ts <= tlv_fuel (Z.of_nat (length (concat ts)) + r))%nat.
Proof.
  intros Hc HF Hr. assert (length ts <= length (concat ts))%nat as H.
  { induction HF as [|t t' ts ts' H1 _ IH]; simpl; [lia|].
    rewrite length_app. destruct (Hc _ _ H1). lia. }
  unfold tlv_fuel. lia.
Qed.

(** A TLV and its wire form. *)
Definition to_wire (t t' : list Z) : Prop := tlv_wf t /\ tlv_wire t = Some t'.

Lemma to_wire_size t t' : to_wire t t' -> (4 <= length t)%nat /\ length t' = length t.
Proof.
  intros [wf Hw]. pose proof (tlv_head_4 t).
  destruct (tlv_wire_Some t wf) as (x & tb & Hx & Hl & _).
  rewrite Hw in Hx. injection Hx as <-. destruct wf as (? & _). split; [lia|done].
Qed.

Lemma ptp_tlv_tx_spec ts ts' pre rest r :
  Forall2 to_wire ts ts' -> ts <> [] -> 0 <= r < 4 ->
  Z.of_nat (length (concat ts)) + r < 65536 ->
  ptp_tlv_tx (pre ++ concat ts ++ rest) (length pre) (Z.of_nat (length (concat ts)) + r)
  = Some (pre ++ concat ts' ++ rest).
Proof.
  intros HF Hne Hr HM. apply tlv_loop_spec with (conv := to_wire); try done.
  - apply to_wire_size.
  - intros t t' p q len [wf Hw] Hlen. by apply tlv_tx_one_spec.
  - eapply tlv_fuel_enough; [apply to_wire_size|done|lia].
Qed.

Lemma ptp_tlv_rx_spec ts ts' pre rest r :
  Forall2 to_wire ts ts' -> ts <> [] -> 0 <= r < 4 ->
  Z.of_nat (length (concat ts)) + r < 65536 ->
  ptp_tlv_rx (pre ++ concat ts' ++ rest) (length pre) (Z.of_nat (length (concat ts)) + r)
  = Some (pre ++ concat ts ++ rest).
Proof.
  intros HF Hne Hr HM.
  assert (length (concat ts) = length (concat ts')) as Hc.
  { clear -HF. induction HF as [|t t' ts ts' H _ IH]; simpl; [done|].
    rewrite !length_app. destruct (to_wire_size _ _ H). lia. }
  rewrite Hc in *.
  assert (forall t' t, flip to_wire t' t -> (4 <= length t')%nat /\ length t = length t')
    as Hs by (intros t' t H; destruct (to_wire_size _ _ H); lia).
  assert (Forall2 (flip to_wire) ts' ts) as HF' by by apply Forall2_flip.
  apply tlv_loop_spec with (conv := flip to_wire); try done.
  - intros t' t p q len [wf Hw] Hlen. destruct (Hs t' t) as [? E]; [by split|].
    rewrite <- E in *. by apply tlv_rx_one_spec.
  - intros ->. by inversion HF.
  - eapply tlv_fuel_enough; [apply Hs|done|lia].
Qed.

(** ** The fixed part of a message *)

Definition hdr_fields : list (nat * nat) := [(8, 8); (2, 2); (28, 2); (30, 2)]%nat.
Definition ts_fields : list (nat * nat) := [(34, 2); (36, 4); (40, 4)]%nat.

Definition fixed_fields (ty : Z) : list (nat * nat) :=
  if (ty =? SYNC_MSG) || (ty =? FOLLOW_UP_MSG) then ts_fields
  else if ty =? DELAY_RESP_MSG then (52, 2)%nat :: ts_fields
  else if ty =? PDELAY_REQ_MSG then ts_fields
  else if ty =? PDELAY_RESP_MSG then (52, 2)%nat :: ts_fields
  else if ty =? PDELAY_RESP_FOLLOW_UP_MSG then ts_fields ++ [(52, 2)]%nat
  else if ty =? ANNOUNCE_MSG then ts_fields ++ [(44, 2); (50, 2); (61, 2)]%nat
  else if (ty =? SIGNALING_MSG) || (ty =? MANAGEMENT_MSG) then [(42, 2)]%nat
  else [].

Definition fixed_size (ty len : Z) : Z :=
  if (ty =? SYNC_MSG) || (ty =? FOLLOW_UP_MSG) then SIZE_msg_sync
  else if ty =? DELAY_RESP_MSG then SIZE_msg_delay_resp
  else if (ty =? PDELAY_REQ_MSG) || (ty =? PDELAY_RESP_MSG) ||
          (ty =? PDELAY_RESP_FOLLOW_UP_MSG) then SIZE_msg_pdelay_req
  else if ty =? ANNOUNCE_MSG then SIZE_msg_announce
  else if ty =? SIGNALING_MSG then SIZE_msg_signaling_base
  else if ty =? MANAGEMENT_MSG then SIZE_msg_management_base
  else len - Z.of_nat SIZE_hdr.

(** A message in host order: [fixed] part, TLVs, fewer than four bytes that
    are no TLV; [extra] is the rest of the buffer. *)
Record msg_wf (b : buf) (ty : Z) (fixed : buf) (ts : list (list Z)) (tail extra : buf)
    : Prop := {
  mw_b : b = fixed ++ concat ts ++ tail ++ extra;
  mw_type : hdr_messageType b = Some ty;
  mw_len : hdr_messageLength b =
    Some (Z.of_nat (length fixed + length (concat ts) + length tail));
  mw_max : Z.of_nat (length fixed + length (concat ts) + length tail) < 65536;
  mw_hdr : (34 <= length fixed)%nat;
  mw_fixed : Z.of_nat (length fixed) = 34 + fixed_size ty
    (Z.of_nat (length fixed + length (concat ts) + length tail));
  mw_ts : Forall tlv_wf ts;
  mw_tail : (length tail < 4)%nat;
  (* the reserved port of Pdelay_Req reads the same in both orders *)
  mw_reserved : ty = PDELAY_REQ_MSG -> exists x, bytes b 52 2 = Some [x; x] }.

Lemma swaps_prefix fs f R :
  fits_fields (length f) fs ->
  swaps fs (f ++ R) = (fun x => x ++ R) <$> swaps fs f.
Proof.
  intros H. pose proof (swaps_local [] f R fs H) as E. simpl in E.
  replace (at_off 0 fs) with fs in E; [done|].
  clear. induction fs as [|[o n] fs IH]; [done|]. simpl. by rewrite <- IH.
Qed.

Lemma swap_bytes b o n b' o' n' :
  apart (o', n') (o, n) -> swap b o n = Some b' -> bytes b' o' n' = bytes b o' n'.
Proof.
  intros Ha H. destruct (swap_inv _ _ _ _ H) as [Hl Hlen].
  destruct Ha as [Ha|Ha]; simpl in Ha.
  - apply (bytes_take _ _ (o' + n')); [|done|lia]. by apply (swap_take b o n).
  - destruct (split_field b o n Hl) as (p & f & r & -> & Hp & Hf). subst o n.
    rewrite swap_mid in H. injection H as <-.
    unfold bytes, in_buf. rewrite !length_app, length_reverse.
    destruct (_ <=? _)%nat; [|done]. do 2 f_equal.
    assert (forall x, length x = length f ->
      drop o' (p ++ x ++ r) = drop (o' - length p - length f) r) as D.
    { intros x Hx. rewrite drop_app, drop_ge, drop_app, (drop_ge x) by lia.
      simpl. f_equal. lia. }
    rewrite !D; [done|done|by rewrite length_reverse].
Qed.

Lemma swaps_bytes fs : forall b b' o n,
  Forall (apart (o, n)) fs -> swaps fs b = Some b' -> bytes b' o n = bytes b o n.
Proof.
  induction fs as [|[o' n'] fs IH]; intros b b' o n Ha H; simpl in H.
  { by injection H as ->. }
  apply Forall_cons_1 in Ha as [Ha1 Ha2].
  destruct (swap b o' n') as [b1|] eqn:E; [|done]. simpl in H.
  rewrite (IH b1 b' o n Ha2 H). by apply (swap_bytes b o' n').
Qed.

(** Decides disjointness and bounds of concrete lists of fields. *)
Ltac fields :=
  simpl; repeat match goal with
  | |- Forall _ _ => constructor
  | |- _ /\ _ => split
  | |- True => exact I
  | |- apart _ _ => unfold apart; simpl; lia
  end.

Lemma fixed_fields_apart ty o n :
  (o + n <= 34)%nat -> Forall (apart (o, n)) (fixed_fields ty).
Proof. intros. unfold fixed_fields, ts_fields. case_tests; fields. Qed.

Lemma fixed_disjoint ty : disjoint_fields (hdr_fields ++ fixed_fields ty).
Proof. unfold fixed_fields, ts_fields, hdr_fields. case_tests; fields. Qed.

Lemma fixed_fits ty len m :
  Z.of_nat m = 34 + fixed_size ty len -> fits_fields m (fixed_fields ty).
Proof.
  unfold fixed_size, fixed_fields, ts_fields, SIZE_msg_sync, SIZE_msg_delay_resp,
    SIZE_msg_pdelay_req, SIZE_msg_announce, SIZE_msg_signaling_base,
    SIZE_msg_management_base.
  intros H. revert H. case_tests; intros; simpl in *; try discriminate;
    repeat constructor; simpl; lia.
Qed.

Lemma msg_body_tx_spec b ty len :
  34 <= len < 65536 ->
  msg_body_tx b ty len =
  (fun x => (x, fixed_size ty len)) <$> swaps (fixed_fields ty) b.
Proof.
  intros Hlen. unfold msg_body_tx, fixed_size, fixed_fields, ptp_timestamp_tx,
    ptp_port_identity_tx.
  destruct ((ty =? SYNC_MSG) || _); [done|].
  destruct (ty =? DELAY_RESP_MSG).
  { simpl. by destruct (swap b _ _). }
  destruct (ty =? PDELAY_REQ_MSG); [done|].
  destruct (ty =? PDELAY_RESP_MSG).
  { simpl. by destruct (swap b _ _). }
  destruct (ty =? PDELAY_RESP_FOLLOW_UP_MSG).
  { rewrite swaps_app. simpl orb. cbv iota. by destruct (swaps ts_fields b) eqn:E;
      unfold ts_fields in E; simpl in *; rewrite E. }
  destruct (ty =? ANNOUNCE_MSG).
  { rewrite swaps_app. simpl orb. cbv iota. by destruct (swaps ts_fields b) eqn:E;
      unfold ts_fields in E; simpl in *; rewrite E. }
  destruct (ty =? SIGNALING_MSG); [done|].
  destruct (ty =? MANAGEMENT_MSG); [done|].
  simpl. rewrite u16_small; [done|]. unfold SIZE_hdr. lia.
Qed.

(** Reception converts the same fields, and the reserved port of Pdelay_Req. *)
Lemma msg_body_rx_spec b ty len :
  34 <= len < 65536 -> (ty = PDELAY_REQ_MSG -> swap b 52 2 = Some b) ->
  msg_body_rx b ty len =
  (fun x => (x, fixed_size ty len)) <$> swaps (fixed_fields ty) b.
Proof.
  intros Hlen Hres. rewrite <- msg_body_tx_spec by done.
  unfold msg_body_rx, msg_body_tx.
  destruct ((ty =? SYNC_MSG) || _); [done|].
  destruct (ty =? DELAY_RESP_MSG); [done|].
  destruct (ty =? PDELAY_REQ_MSG) eqn:E; [|done]. bools. simpl orb. cbv iota.
  unfold ptp_port_identity_rx. simpl. by rewrite (Hres E).
Qed.

(** ** Whole messages *)

Lemma to_wire_all ts : Forall tlv_wf ts -> exists ts', Forall2 to_wire ts ts'.
Proof.
  induction 1 as [|t ts Ht _ [ts' IH]]; [by exists []|].
  destruct (tlv_wire_Some t Ht) as (t' & _ & Hw & _).
  exists (t' :: ts'). by constructor.
Qed.

Lemma msg_tlvs_spec tlvs fixed mid mid' (tail extra : buf) L size (r : Z) :
  Z.of_nat (length fixed) = 34 + size -> 0 <= size ->
  L = Z.of_nat (length fixed + length mid) + r -> 0 <= r < 4 -> L < 65536 ->
  (mid = [] -> mid' = []) -> (mid <> [] -> 4 <= Z.of_nat (length mid)) ->
  (mid <> [] -> tlvs (fixed ++ mid ++ extra) (length fixed)
                  (Z.of_nat (length mid) + r) = Some (fixed ++ mid' ++ extra)) ->
  msg_tlvs tlvs (fixed ++ mid ++ extra) L size = Some (fixed ++ mid' ++ extra).
Proof.
  intros Hf Hs HL Hr HM Hnil H4 Hspec. unfold msg_tlvs, SIZE_hdr.
  rewrite (u16_small (size + _)) by lia.
  destruct (L >=? _) eqn:E; bools; [|lia].
  rewrite u16_small by lia.
  replace (DATA + Z.to_nat size)%nat with (length fixed) by (unfold DATA; lia).
  replace (L - (size + Z.of_nat 34)) with (Z.of_nat (length mid) + r) by lia.
  destruct mid as [|x mid].
  - simpl. rewrite Hnil by done. destruct (_ >=? SIZE_tlv) eqn:E2; [|done].
    bools. unfold SIZE_tlv in *. lia.
  - specialize (H4 ltac:(done)).
    destruct (_ >=? SIZE_tlv) eqn:E2; bools; unfold SIZE_tlv in *; [|lia].
    by apply Hspec.
Qed.

Lemma concat_wire (ts ts' : list (list Z)) :
  Forall2 to_wire ts ts' ->
  (concat ts = [] -> concat ts' = []) /\
  (concat ts' = [] -> concat ts = []) /\
  (concat ts <> [] -> 4 <= Z.of_nat (length (concat ts)) /\ ts <> []) /\
  length (concat ts') = length (concat ts).
Proof.
  induction 1 as [|t t' ts ts' H _ IH]; simpl; [done|].
  destruct (to_wire_size _ _ H) as [H4 Hl].
  destruct t as [|x t]; simpl in *; [lia|]. destruct t' as [|x' t']; [done|].
  simpl in *. rewrite !length_app. repeat split; try done; lia.
Qed.

(** The two directions, for a message with parts named as in [msg_wf]: [f2] is
    the fixed part on the wire. *)
Section message.
Context (ty : Z) (fixed : buf) (ts ts' : list (list Z)) (tail extra : buf).
Let R := concat ts ++ tail ++ extra.
Let L := Z.of_nat (length fixed + length (concat ts) + length tail).
Hypothesis wf : msg_wf (fixed ++ R) ty fixed ts tail extra.
Hypothesis wire : Forall2 to_wire ts ts'.
Context (f2 : buf).
Hypothesis conv : swaps (hdr_fields ++ fixed_fields ty) fixed = Some f2.

Lemma msg_len_range : 34 <= L < 65536.
Proof using wf. destruct wf as [_ _ _ Hmax Hh _ _ _ _]. subst L. lia. Qed.

Lemma msg_hdr_fits (f : buf) : length f = length fixed -> fits_fields (length f) hdr_fields.
Proof using wf.
  destruct wf as [_ _ _ _ Hh _ _ _ _]. intros ->. repeat constructor; simpl; lia.
Qed.

Lemma msg_fixed_fits (f : buf) :
  length f = length fixed -> fits_fields (length f) (fixed_fields ty).
Proof using wf.
  destruct wf as [_ _ _ _ _ Hfix _ _ _]. intros ->. by apply (fixed_fits ty L).
Qed.

Lemma msg_tx_out : ptp_msg_tx (fixed ++ R) = Some (f2 ++ concat ts' ++ tail ++ extra).
Proof using wf wire conv.
  pose proof msg_len_range as HL.
  pose proof wf as [_ Hty Hlen Hmax Hh Hfix Hts Htail _].
  destruct (concat_wire ts ts' wire) as (Hn1 & Hn2 & H4 & Hcl).
  destruct (swaps_inv _ _ _ conv) as [_ Hl2].
  pose proof conv as E2. rewrite swaps_app in E2.
  destruct (swaps hdr_fields fixed) as [f1|] eqn:E1; [|done].
  cbn [mbind option_bind] in E2. destruct (swaps_inv _ _ _ E1) as [_ Hl1].
  fold L in Hfix. unfold ptp_msg_tx. rewrite Hlen. fold L. cbn [mbind option_bind].
  unfold ptp_hdr_tx. fold hdr_fields.
  rewrite swaps_prefix, E1 by (by apply msg_hdr_fits).
  cbn [fmap option_fmap option_map mbind option_bind].
  assert (hdr_messageType (f1 ++ R) = Some ty) as ->.
  { rewrite <- Hty. unfold hdr_messageType, rd. f_equal. f_equal.
    apply (swaps_bytes hdr_fields); [fields|].
    by rewrite swaps_prefix, E1 by (by apply msg_hdr_fits). }
  cbn [mbind option_bind]. rewrite msg_body_tx_spec by done.
  rewrite swaps_prefix, E2 by (by apply msg_fixed_fits).
  cbn [fmap option_fmap option_map mbind option_bind]. unfold R.
  apply (msg_tlvs_spec _ f2 (concat ts) (concat ts') tail (tail ++ extra) L _
           (Z.of_nat (length tail))); try done; try lia.
  - tauto.
  - intros Hne. destruct (H4 Hne). apply ptp_tlv_tx_spec; done || lia.
Qed.

(** Conversion of the header back: [g] is the fixed part with a host header. *)
Context (g : buf).
Hypothesis back : swaps hdr_fields f2 = Some g.
Hypothesis back_fixed : swaps (fixed_fields ty) g = Some fixed.

Lemma msg_g_length : length g = length fixed /\ length f2 = length fixed.
Proof using back back_fixed.
  destruct (swaps_inv _ _ _ back) as [_ H1]. destruct (swaps_inv _ _ _ back_fixed) as [_ H2].
  split; congruence.
Qed.

(** What the fields of the fixed part do not cover reads the same. *)
Lemma msg_g_bytes o n :
  (o + n <= length fixed)%nat -> Forall (apart (o, n)) (fixed_fields ty) ->
  bytes (g ++ concat ts' ++ tail ++ extra) o n = bytes (fixed ++ R) o n.
Proof using wire back back_fixed.
  intros Hon Ha. destruct (concat_wire ts ts' wire) as (_ & _ & _ & Hcl).
  destruct msg_g_length as [Hlg _].
  unfold bytes, in_buf, R. rewrite !length_app, Hlg, Hcl.
  destruct (_ <=? _)%nat; [|done]. f_equal.
  pose proof (swaps_bytes (fixed_fields ty) g fixed o n Ha back_fixed) as E.
  rewrite !bytes_Some in E by lia. injection E as E.
  rewrite !drop_app_le, !take_app_le by (rewrite ?length_drop; lia). done.
Qed.

Lemma msg_header_only :
  L = Z.of_nat SIZE_hdr -> fixed_fields ty = [] /\ concat ts = [].
Proof using wf.
  pose proof wf as [_ _ _ _ Hh Hfix _ _ _]. fold L in Hfix. unfold SIZE_hdr. intros EL.
  split.
  - rewrite EL in Hfix. revert Hfix. clear -EL Hh. subst L.
    unfold fixed_size, fixed_fields, SIZE_hdr, SIZE_msg_sync, SIZE_msg_delay_resp,
      SIZE_msg_pdelay_req, SIZE_msg_announce, SIZE_msg_signaling_base,
      SIZE_msg_management_base.
    case_tests; intros; simpl in *; try discriminate; try lia; try done.
  - apply length_zero_iff_nil. subst L. lia.
Qed.

Lemma msg_rx_back : ptp_msg_rx (f2 ++ concat ts' ++ tail ++ extra) = Some (fixed ++ R).
Proof using wf wire back back_fixed.
  pose proof msg_len_range as HL. pose proof msg_g_length as [Hlg Hl2].
  pose proof wf as [_ Hty Hlen Hmax Hh Hfix Hts Htail Hres]. fold L in Hfix.
  destruct (concat_wire ts ts' wire) as (Hn1 & Hn2 & H4 & Hcl).
  unfold ptp_msg_rx, ptp_hdr_rx. fold hdr_fields.
  rewrite swaps_prefix, back by (by apply msg_hdr_fits).
  cbn [fmap option_fmap option_map mbind option_bind].
  assert (hdr_messageLength (g ++ concat ts' ++ tail ++ extra) = Some L) as ->.
  { unfold L. rewrite <- Hlen. unfold hdr_messageLength, rd.
    rewrite msg_g_bytes; [done|lia|]. apply fixed_fields_apart. lia. }
  cbn [mbind option_bind].
  destruct (L =? Z.of_nat SIZE_hdr) eqn:EL; bools.
  { destruct (msg_header_only EL) as [Hff Hct]. rewrite Hff in back_fixed.
    injection back_fixed as ->. unfold R. by rewrite Hct, Hn1. }
  assert (hdr_messageType (g ++ concat ts' ++ tail ++ extra) = Some ty) as ->.
  { rewrite <- Hty. unfold hdr_messageType, rd.
    rewrite msg_g_bytes; [done|lia|]. apply fixed_fields_apart. lia. }
  cbn [mbind option_bind].
  rewrite msg_body_rx_spec; [|done|].
  - rewrite swaps_prefix, back_fixed by (by apply msg_fixed_fits).
    cbn [fmap option_fmap option_map mbind option_bind].
    apply (msg_tlvs_spec _ fixed (concat ts') (concat ts) tail (tail ++ extra) L _
             (Z.of_nat (length tail))); try done; try lia.
    + intros. assert (concat ts <> []) by tauto. destruct H4; [done|]. lia.
    + intros Hne. assert (concat ts <> []) as Hne2 by tauto. destruct (H4 Hne2).
      rewrite Hcl. apply ptp_tlv_rx_spec; done || lia.
  - intros Hp. destruct (Hres Hp) as [x Hx]. apply (swap_same _ _ _ [x; x]); [|done].
    rewrite <- Hx. apply msg_g_bytes.
    + rewrite Hp in Hfix. unfold fixed_size in Hfix. simpl in Hfix.
      unfold SIZE_msg_pdelay_req in Hfix. lia.
    + rewrite Hp. fields.
Qed.
End message.

(** C22: a well-formed message in host order is sent by [ptp_msg_tx] and read
    back by [ptp_msg_rx] as the same bytes, TLVs included; both stay inside
    the buffer. *)
Theorem ptp_msg_roundtrip b ty fixed ts tail extra
  (wf : msg_wf b ty fixed ts tail extra) :
  exists w, ptp_msg_tx b = Some w /\ ptp_msg_rx w = Some b /\ length w = length b.
Proof.
  pose proof wf as [Hb _ _ _ _ _ Hts _ _]. subst b.
  destruct (to_wire_all ts Hts) as [ts' Hw].
  destruct (concat_wire ts ts' Hw) as (_ & _ & _ & Hcl).
  destruct (swaps_Some (hdr_fields ++ fixed_fields ty) fixed) as (f2 & E2 & Hl2).
  { apply Forall_app. split.
    - by apply (msg_hdr_fits ty fixed ts tail extra).
    - by apply (msg_fixed_fits ty fixed ts tail extra). }
  pose proof (swaps_involutive _ _ _ (fixed_disjoint ty) E2) as E2'.
  rewrite swaps_app in E2'. destruct (swaps hdr_fields f2) as [g|] eqn:E1'; [|done].
  cbn [mbind option_bind] in E2'.
  exists (f2 ++ concat ts' ++ tail ++ extra). split; [|split].
  - by apply (msg_tx_out ty fixed ts ts' tail extra wf Hw f2).
  - by apply (msg_rx_back ty fixed ts ts' tail extra wf Hw f2 g).
  - rewrite !length_app, Hl2, Hcl. lia.
Qed.

(** A Follow_Up with the information TLV of IEEE 802.1AS. *)
Definition fup_ex_fixed : buf :=
  [24; 2; 76; 0] ++ replicate 30 7 ++ [1; 0; 2; 0; 0; 0; 9; 8; 7; 6].
Definition fup_ex_tlv : list Z :=
  [3; 0; 28; 0] ++ OUI_8021 ++ [0; 0; 1] ++
  [1; 2; 3; 4; 5; 6; 7; 8; 9; 10; 11; 12; 13; 14; 15; 16; 17; 18; 19; 20; 21; 22].

Lemma ptp_msg_roundtrip_witness :
  let b := fup_ex_fixed ++ concat [fup_ex_tlv] ++ [] ++ replicate 24 0 in
  exists w, ptp_msg_tx b = Some w /\ ptp_msg_rx w = Some b /\ length w = length b.
Proof.
  apply (ptp_msg_roundtrip _ FOLLOW_UP_MSG fup_ex_fixed [fup_ex_tlv] [] (replicate 24 0)).
  split; try reflexivity; try (vm_compute; lia).
  - apply Forall_singleton. split; [vm_compute; lia|].
    split; [reflexivity|]. split; [reflexivity|]. split; [|discriminate].
    vm_compute. repeat constructor.
Defined.
