(* ===== verification/Tlv.v ===== *)
(** * TLVs: appending, walking, path trace and follow-up information
    (ptp_protocol.c)

    A pointer into a message is an offset into its buffer. *)

From stdpp Require Import base list numbers option.
From Stdlib Require Import ZArith Lia.
From S2P Require Import Prelude Types Wire.

(** ** Appending and walking *)

(** [tlv_end] is the end of the TLV written so far, [size] the message length
    to update; answers the buffer, the new end and the new message length. *)
Definition ptp_add_tlv (b : buf) (tlv tlv_end : nat) (type len size : Z)
    : option (buf * nat * Z) :=
  b ← wr b tlv 2 type;
  '(b, tlv_end, len) ←
    (if Z.odd len then
       b ← wr b tlv_end 1 0; Some (b, (tlv_end + 1)%nat, u16 (len + 1))
     else Some (b, tlv_end, len));
  let size := u16 (size + len) in
  let len := u16 (len - SIZE_tlv) in
  b ← wr b (tlv + 2) 2 len;
  Some (b, tlv_end, size).

(** The TLV at [data], if complete, with the position after it and the bytes
    left. *)
Definition ptp_next_tlv (b : buf) (data : nat) (left : Z)
    : option (option nat * nat * Z) :=
  if left >=? SIZE_tlv then
    lengthField ← tlv_lengthField b data;
    let len := u16 (lengthField + SIZE_tlv) in
    if left <? len then Some (None, data, left)
    else Some (Some data, (data + Z.to_nat len)%nat, u16 (left - len))
  else Some (None, data, left).

(** The TLV found, the bytes left after it, and what is stored through
    [last]. *)
Record tlv_search := mk_search {
  s_tlv : option nat; s_left : Z; s_last : option nat }.

(** [None] when a read leaves the buffer, or when the loop is still running
    after [fuel] rounds. *)
Fixpoint find_tlv_loop (fuel : nat) (b : buf) (data : nat) (type left : Z)
    : option tlv_search :=
  match fuel with
  | O => None
  | S fuel =>
      if left >=? SIZE_tlv then
        lengthField ← tlv_lengthField b data;
        let len := u16 (lengthField + SIZE_tlv) in
        if left <? len then Some (mk_search None left None)
        else
          let left := u16 (left - len) in
          tlvType ← tlv_type b data;
          if tlvType =? type then Some (mk_search (Some data) left None)
          else find_tlv_loop fuel b (data + Z.to_nat len) type left
      else Some (mk_search None left (Some data))
  end.

(** A round consumes at least one byte unless the size wraps to zero. *)
Definition ptp_find_tlv (b : buf) (data : nat) (type left : Z) : option tlv_search :=
  find_tlv_loop (S (Z.to_nat left)) b data type left.

(** ** Path trace of Announce messages *)

Definition SIZE_clock_identity : Z := 8.
(** [sizeof(struct ptp_msg_hdr) + sizeof(struct ptp_msg_announce)] *)
Definition ANN_end : Z := 64.

Fixpoint trace_loop (fuel : nat) (b : buf) (id : nat) (len : Z) (c_id : clock_identity)
    : option bool :=
  if len >=? SIZE_clock_identity then
    match fuel with
    | O => None
    | S fuel =>
        x ← rd_clock_id b id;
        if memcmp x c_id =? 0 then Some true
        else trace_loop fuel b (id + 8) (u16 (len - SIZE_clock_identity)) c_id
    end
  else Some false.

Definition check_path_trace (c_id : clock_identity) (b : buf) : option bool :=
  len ← hdr_messageLength b;
  if len >? ANN_end then
    s ← ptp_find_tlv b (Z.to_nat ANN_end) TLV_PATH_TRACE (u16 (len - ANN_end));
    match s_tlv s with
    | Some tlv =>
        len ← tlv_lengthField b tlv;
        trace_loop (Z.to_nat len) b (tlv + 4) len c_id
    | None => Some false
    end
  else Some false.

(** Where to put the identity: the TLV, the position of the identity, the
    length of the TLV without it and the buffer; nothing on the early returns. *)
Definition path_trace_slot (b : buf) : option (option (nat * nat * Z * buf)) :=
  len ← hdr_messageLength b;
  let data := Z.to_nat ANN_end in
  if len >? ANN_end then
    s ← ptp_find_tlv b data TLV_PATH_TRACE (u16 (len - ANN_end));
    match s_tlv s with
    | Some tlv =>
        lengthField ← tlv_lengthField b tlv;
        let cnt := lengthField / SIZE_clock_identity in
        if negb (cnt * SIZE_clock_identity =? lengthField) then Some None
        else
          let id := (tlv + 4 + 8 * Z.to_nat cnt)%nat in
          let len := u16 (lengthField + SIZE_tlv) in
          messageLength ← hdr_messageLength b;
          b ← set_messageLength b (messageLength - len);
          Some (Some (tlv, id, len, b))
    | None =>
        if s_left s >? 2 then Some None
        else
          tlv ← s_last s;
          Some (Some (tlv, (tlv + 4)%nat, SIZE_tlv, b))
    end
  else Some (Some (data, (data + 4)%nat, SIZE_tlv, b)).

Definition clock_add_path_trace (c_id : clock_identity) (b : buf) : option buf :=
  slot ← path_trace_slot b;
  match slot with
  | None => Some b
  | Some (tlv, id, len, b) =>
      b ← put b id c_id;
      let len := u16 (len + SIZE_clock_identity) in
      let tlv_end := (id + 8)%nat in
      messageLength ← hdr_messageLength b;
      '(b, _, messageLength) ← ptp_add_tlv b tlv tlv_end TLV_PATH_TRACE len messageLength;
      set_messageLength b messageLength
  end.

(** ** Organization extensions *)

Definition ptp_set_org_ext_tlv (b : buf) (org : nat) (sub : Z) : option buf :=
  b ← put b (org + 4) OUI_8021;
  put b (org + 7) [0; 0; u8 sub].

(** [sizeof(struct ptp_msg_hdr) + sizeof(struct ptp_msg_follow_up)] *)
Definition FUP_end : nat := 44.

(** The Follow_Up information TLV of IEEE 802.1AS, appended to a Follow_Up. *)
Definition clock_add_follow_up (b : buf) : option buf :=
  let tlv := FUP_end in
  b ← ptp_set_org_ext_tlv b tlv 1;
  let data := (tlv + 10)%nat in
  b ← wr b data 4 0;
  b ← wr b (data + 4) 2 0;
  b ← put b (data + 6) (replicate 12 0);
  b ← wr b (data + 18) 4 0;
  let tlv_end := (data + SIZE_data_1)%nat in
  let len := u16 (SIZE_org_ext - 1 + Z.of_nat SIZE_data_1) in
  messageLength ← hdr_messageLength b;
  '(b, _, messageLength) ←
    ptp_add_tlv b tlv tlv_end TLV_ORGANIZATION_EXTENSION len messageLength;
  set_messageLength b messageLength.

(** Looks the information up; the value read is not used further, so that only
    the reads remain. *)
Definition check_follow_up (b : buf) : option unit :=
  len ← hdr_messageLength b;
  if len >? Z.of_nat FUP_end then
    s ← ptp_find_tlv b FUP_end TLV_ORGANIZATION_EXTENSION (u16 (len - Z.of_nat FUP_end));
    match s_tlv s with
    | Some tlv =>
        organizationId ← bytes b (tlv + 4) 3;
        organizationSubType ← bytes b (tlv + 7) 3;
        if bool_decide (organizationId = OUI_8021) &&
           bool_decide (organizationSubType = [0; 0; 1]) then
          _ ← rd b (tlv + 10) 4; Some tt
        else Some tt
    | None => Some tt
    end
  else Some tt.
