(* ===== verification/TlvProofs.v ===== *)
(** * Properties of the TLV walks and of the path trace *)

From stdpp Require Import base list numbers option.
From Stdlib Require Import ZArith Lia.
From S2P Require Import Prelude Types Wire WireProofs Tlv.

(** ** Writing in the middle of a buffer *)

Lemma put_mid pre (f l rest : list Z) :
  length l = length f -> put (pre ++ f ++ rest) (length pre) l = Some (pre ++ l ++ rest).
Proof.
  intros H. unfold put. rewrite (proj2 (in_buf_true _ _ _)) by (rewrite !length_app; lia).
  f_equal. rewrite take_app_length. f_equal. f_equal.
  rewrite app_assoc, drop_app_length'; [done|]. rewrite length_app. lia.
Qed.

Lemma put_local pre (t rest : list Z) o l :
  (o + length l <= length t)%nat ->
  put (pre ++ t ++ rest) (length pre + o) l = (fun t' => pre ++ t' ++ rest) <$> put t o l.
Proof.
  intros H. destruct (split_field t o (length l) H) as (p & f & r & -> & <- & Hf).
  rewrite put_mid by done. simpl.
  pose proof (put_mid (pre ++ p) f l (r ++ rest) ltac:(done)) as E.
  rewrite length_app in E. rewrite <- !app_assoc in E. rewrite <- !app_assoc. exact E.
Qed.

Lemma le_bytes_length n v : length (le_bytes n v) = n.
Proof. revert v. induction n; intros; simpl; [done|]. by rewrite IHn. Qed.

Lemma le_le_bytes n v : 0 <= v < 256 ^ Z.of_nat n -> le (le_bytes n v) = v.
Proof.
  revert v. induction n as [|n IH]; intros v H; simpl.
  - simpl in H. lia.
  - rewrite IH.
    + pose proof (Z.div_mod v 256 ltac:(lia)). lia.
    + split; [apply Z.div_pos; lia|]. apply Z.div_lt_upper_bound; [lia|].
      rewrite Nat2Z.inj_succ, Z.pow_succ_r in H by lia. lia.
Qed.

(** ** Walking *)

(** A TLV as the walks see it: a length field that tells its size. *)
Definition tlv_chunk (t : list Z) : Prop :=
  (4 <= length t)%nat /\ Z.of_nat (length t) < 65536 /\
  le (take 2 (drop 2 t)) = Z.of_nat (length t) - 4.

Definition chunk_type (t : list Z) : Z := le (take 2 t).

Lemma chunk_reads t pre rest :
  tlv_chunk t ->
  tlv_lengthField (pre ++ t ++ rest) (length pre) = Some (Z.of_nat (length t) - 4) /\
  tlv_type (pre ++ t ++ rest) (length pre) = Some (chunk_type t).
Proof.
  intros (H4 & HM & Hlen). split.
  - unfold tlv_lengthField. rewrite rd_local by lia. unfold rd.
    rewrite bytes_Some by lia. simpl. by rewrite Hlen.
  - unfold tlv_type. pose proof (rd_local pre t rest 0 2 ltac:(lia)) as E.
    rewrite Nat.add_0_r in E. rewrite E. unfold rd. by rewrite bytes_Some by lia.
Qed.

(** The walk over [ts] that stops at the first TLV of the type. *)
Lemma find_tlv_loop_spec ts : forall fuel pre rest type r,
  Forall tlv_chunk ts -> 0 <= r < 4 -> (length ts < fuel)%nat ->
  Z.of_nat (length (concat ts)) + r < 65536 ->
  find_tlv_loop fuel (pre ++ concat ts ++ rest) (length pre) type
    (Z.of_nat (length (concat ts)) + r) =
  match list_find (fun t => chunk_type t = type) ts with
  | Some (i, t) =>
      Some (mk_search (Some (length pre + length (concat (take i ts)))%nat)
              (Z.of_nat (length (concat (drop (S i) ts))) + r) None)
  | None => Some (mk_search None r (Some (length pre + length (concat ts))%nat))
  end.
Proof.
  induction ts as [|t ts IH]; intros fuel pre rest type r HF Hr Hfuel HM.
  - destruct fuel as [|fuel]; [lia|]. simpl concat in *. cbn [find_tlv_loop].
    destruct (_ >=? SIZE_tlv) eqn:E; bools; unfold SIZE_tlv in *; simpl in *; [lia|].
    by rewrite Nat.add_0_r.
  - destruct fuel as [|fuel]; [lia|]. simpl in Hfuel.
    apply Forall_cons_1 in HF as [Ht HF]. pose proof Ht as (H4 & HMt & _).
    simpl concat in *. rewrite length_app in *.
    cbn [find_tlv_loop]. rewrite <- app_assoc.
    destruct (chunk_reads t pre (concat ts ++ rest) Ht) as [-> ->].
    cbn [mbind option_bind]. unfold SIZE_tlv.
    destruct (_ >=? 4) eqn:E; bools; [|lia].
    replace (Z.of_nat (length t) - 4 + 4) with (Z.of_nat (length t)) by lia.
    rewrite !u16_small by lia.
    destruct (_ <? Z.of_nat (length t)) eqn:E1; bools; [lia|].
    replace (Z.of_nat (length t + length (concat ts)) + r - Z.of_nat (length t))
      with (Z.of_nat (length (concat ts)) + r) by lia.
    cbn [list_find]. destruct (decide (chunk_type t = type)) as [->|Hne].
    + rewrite Z.eqb_refl. simpl. by rewrite Nat.add_0_r, drop_0.
    + rewrite (proj2 (Z.eqb_neq _ _) Hne), Nat2Z.id, <- length_app, app_assoc.
      rewrite IH by (done || lia).
      destruct (list_find _ ts) as [[i x]|]; simpl; rewrite !length_app; by rewrite ?Nat.add_assoc.
Qed.

Lemma concat_chunks_length ts :
  Forall tlv_chunk ts -> (4 * length ts <= length (concat ts))%nat.
Proof.
  induction 1 as [|t ts (H4 & _) _ IH]; simpl; [lia|]. rewrite length_app. lia.
Qed.

Lemma ptp_find_tlv_spec ts pre rest type r :
  Forall tlv_chunk ts -> 0 <= r < 4 -> Z.of_nat (length (concat ts)) + r < 65536 ->
  ptp_find_tlv (pre ++ concat ts ++ rest) (length pre) type
    (Z.of_nat (length (concat ts)) + r) =
  match list_find (fun t => chunk_type t = type) ts with
  | Some (i, t) =>
      Some (mk_search (Some (length pre + length (concat (take i ts)))%nat)
              (Z.of_nat (length (concat (drop (S i) ts))) + r) None)
  | None => Some (mk_search None r (Some (length pre + length (concat ts))%nat))
  end.
Proof.
  intros HF Hr HM. apply find_tlv_loop_spec; try done.
  pose proof (concat_chunks_length ts HF). lia.
Qed.

(** ** Path trace *)

Definition trace_tlv (ids : list clock_identity) : list Z :=
  le_bytes 2 TLV_PATH_TRACE ++ le_bytes 2 (8 * Z.of_nat (length ids)) ++ concat ids.

#[local] Arguments trace_tlv : simpl never.
#[local] Arguments le_bytes : simpl never.

Definition ids_ok (ids : list clock_identity) : Prop :=
  Forall (fun i => length i = 8%nat) ids.

Lemma concat_ids_length ids : ids_ok ids -> length (concat ids) = (8 * length ids)%nat.
Proof. induction 1 as [|i ids Hi _ IH]; simpl; [done|]. rewrite length_app. lia. Qed.

Lemma trace_tlv_length ids :
  ids_ok ids -> length (trace_tlv ids) = (4 + 8 * length ids)%nat.
Proof.
  intros H. unfold trace_tlv. rewrite !length_app, !le_bytes_length.
  rewrite concat_ids_length by done. lia.
Qed.

Lemma trace_tlv_chunk ids :
  ids_ok ids -> 8 * Z.of_nat (length ids) < 65532 ->
  tlv_chunk (trace_tlv ids) /\ chunk_type (trace_tlv ids) = TLV_PATH_TRACE.
Proof.
  intros H HM. pose proof (trace_tlv_length ids H) as HL. unfold tlv_chunk.
  rewrite HL. split; [|done]. split; [lia|]. split; [lia|].
  unfold trace_tlv. rewrite drop_app_length' by done. rewrite take_app_length' by done.
  rewrite le_le_bytes; [lia|]. change (256 ^ Z.of_nat 2) with 65536. lia.
Qed.

Lemma memcmp_id x c : length x = length c -> (memcmp x c =? 0) = bool_decide (x = c).
Proof.
  intros H. case_bool_decide as E; apply Z.eqb_eq || apply Z.eqb_neq.
  - subst. apply memcmp_refl.
  - intros H0. by apply memcmp_eq in H0.
Qed.

Lemma trace_loop_spec ids : forall fuel pre rest c,
  ids_ok ids -> length c = 8%nat -> (length ids <= fuel)%nat ->
  8 * Z.of_nat (length ids) < 65536 ->
  trace_loop fuel (pre ++ concat ids ++ rest) (length pre) (8 * Z.of_nat (length ids)) c
  = Some (bool_decide (c ∈ ids)).
Proof.
  induction ids as [|i ids IH]; intros fuel pre rest c Hok Hc Hfuel HM.
  - destruct fuel; simpl; done.
  - apply Forall_cons_1 in Hok as [Hi Hok]. destruct fuel as [|fuel]; simpl in Hfuel; [lia|].
    simpl length in *. simpl concat. cbn [trace_loop]. unfold SIZE_clock_identity.
    destruct (_ >=? 8) eqn:E; bools; [|lia].
    rewrite <- app_assoc. unfold rd_clock_id.
    pose proof (bytes_mid pre i (concat ids ++ rest)) as Hb. rewrite Hi in Hb.
    rewrite Hb. cbn [mbind option_bind]. rewrite memcmp_id by congruence.
    case_bool_decide as Hx.
    + subst. symmetry. f_equal. apply bool_decide_eq_true_2. by left.
    + rewrite u16_small by lia. replace (8 * Z.of_nat (S (length ids)) - 8)
        with (8 * Z.of_nat (length ids)) by lia.
      rewrite <- Hi, <- length_app, app_assoc.
      rewrite IH by (done || lia). f_equal. apply bool_decide_ext.
      rewrite elem_of_cons. split; [by right|]. intros [->|]; done.
Qed.

(** An Announce message in host order with its TLVs [ts] before, and the path
    trace if there is one; [extra] is the rest of the buffer. *)
Record announce_with (b fixed : buf) (ts : list (list Z))
    (trace : option (list clock_identity)) (extra : buf) : Prop := {
  aw_b : b = fixed ++ concat ts ++ from_option trace_tlv [] trace ++ extra;
  aw_fixed : length fixed = 64%nat;
  aw_ts : Forall tlv_chunk ts;
  aw_other : Forall (fun t => chunk_type t <> TLV_PATH_TRACE) ts;
  aw_ids : ids_ok (default [] trace);
  aw_len : hdr_messageLength b = Some
    (64 + Z.of_nat (length (concat ts) + length (from_option trace_tlv [] trace)));
  aw_max : 64 + Z.of_nat (length (concat ts) + length (from_option trace_tlv [] trace))
    < 65520 }.

Lemma find_none ts :
  Forall (fun t => chunk_type t <> TLV_PATH_TRACE) ts ->
  list_find (fun t => chunk_type t = TLV_PATH_TRACE) ts = None.
Proof. intros H. apply list_find_None. exact H. Qed.

Lemma find_trace ts ids :
  Forall (fun t => chunk_type t <> TLV_PATH_TRACE) ts ->
  chunk_type (trace_tlv ids) = TLV_PATH_TRACE ->
  list_find (fun t => chunk_type t = TLV_PATH_TRACE) (ts ++ [trace_tlv ids]) =
  Some (length ts, trace_tlv ids).
Proof.
  intros H Ht. induction H as [|t ts Hne _ IH]; cbn [list_find app length].
  - destruct (decide _) as [|n]; [done|by destruct n].
  - destruct (decide _) as [|n]; [done|]. by rewrite IH.
Qed.

(** Reads of the length in the fixed part. *)
Lemma hdr_len_app (f R : buf) : (4 <= length f)%nat ->
  hdr_messageLength (f ++ R) = rd f 2 2.
Proof.
  intros H. pose proof (rd_local [] f R 2 2 ltac:(lia)) as E. exact E.
Qed.

Lemma announce_find b fixed ts trace extra :
  announce_with b fixed ts trace extra ->
  (len ← hdr_messageLength b;
   ptp_find_tlv b (Z.to_nat ANN_end) TLV_PATH_TRACE (u16 (len - ANN_end))) =
  Some (match trace with
        | Some _ => mk_search (Some (64 + length (concat ts))%nat) 0 None
        | None => mk_search None 0 (Some (64 + length (concat ts))%nat)
        end).
Proof.
  intros [-> Hf Hts Hno Hids Hlen HM]. rewrite Hlen. cbn [mbind option_bind].
  unfold ANN_end. replace (Z.to_nat 64) with (length fixed) by (rewrite Hf; done).
  rewrite u16_small by lia.
  match goal with |- context [ptp_find_tlv _ _ _ ?x] =>
    replace x with (Z.of_nat (length (concat ts) +
      length (from_option trace_tlv [] trace)) + 0) by lia end.
  destruct trace as [ids|]; cbn [from_option default length app] in *.
  - rewrite (trace_tlv_length ids Hids) in *.
    destruct (trace_tlv_chunk ids Hids ltac:(lia)) as [Hc Ht].
    pose proof (ptp_find_tlv_spec (ts ++ [trace_tlv ids]) fixed extra TLV_PATH_TRACE 0) as E.
    rewrite concat_app in E. cbn [concat] in E. rewrite app_nil_r in E.
    rewrite !length_app, trace_tlv_length in E by done.
    rewrite <- app_assoc in E.
    rewrite E; [|apply Forall_app; split; [done|by apply Forall_singleton]|done|lia].
    rewrite (find_trace ts ids Hno Ht). rewrite take_app_length.
    rewrite drop_ge by (rewrite length_app; simpl; lia). by rewrite Hf.
  - rewrite Nat.add_0_r.
    pose proof (ptp_find_tlv_spec ts fixed extra TLV_PATH_TRACE 0) as E.
    rewrite E; [|done|done|lia]. rewrite find_none by done. by rewrite Hf.
Qed.

Lemma check_path_trace_exact b fixed ts trace extra c
  (H : announce_with b fixed ts trace extra) (Hc : length c = 8%nat) :
  check_path_trace c b = Some (bool_decide (c ∈ default [] trace)).
Proof.
  pose proof (announce_find _ _ _ _ _ H) as HF.
  destruct H as [Hb Hf Hts Hno Hids Hlen HM]. unfold check_path_trace.
  rewrite Hlen in *. cbn [mbind option_bind] in *.
  destruct (_ >? ANN_end) eqn:E; bools; unfold ANN_end in *.
  - rewrite HF. cbn [mbind option_bind]. destruct trace as [ids|]; [|done].
    cbn [from_option default s_tlv length app] in *. rewrite (trace_tlv_length ids Hids) in *.
    destruct (trace_tlv_chunk ids Hids ltac:(lia)) as [Hck _].
    destruct (chunk_reads (trace_tlv ids) (fixed ++ concat ts) extra Hck) as [Hr _].
    rewrite trace_tlv_length in Hr by done. rewrite length_app, Hf in Hr.
    rewrite Hb, app_assoc, Hr. cbn [mbind option_bind].
    unfold trace_tlv. rewrite <- !app_assoc.
    pose proof (trace_loop_spec ids (8 * length ids)
      (fixed ++ concat ts ++ le_bytes 2 TLV_PATH_TRACE ++
       le_bytes 2 (8 * Z.of_nat (length ids))) extra c) as T.
    rewrite !length_app, !le_bytes_length, Hf in T. rewrite <- !app_assoc in T.
    replace (64 + (length (concat ts) + (2 + 2)))%nat
      with (64 + length (concat ts) + 4)%nat in T by lia.
    replace (Z.of_nat (4 + 8 * length ids) - 4) with (8 * Z.of_nat (length ids)) by lia.
    replace (Z.to_nat (8 * Z.of_nat (length ids))) with (8 * length ids)%nat by lia.
    apply T; done || lia.
  - destruct trace as [ids|]; [|done]. cbn [from_option default] in *.
    rewrite (trace_tlv_length ids Hids) in *. lia.
Qed.

(** [check_path_trace] tells whether the identity is in the path trace of
    an Announce message. *)
Theorem check_path_trace_spec b fixed ts trace extra c
  (H : announce_with b fixed ts trace extra) (Hc : length c = 8%nat) :
  check_path_trace c b = Some (bool_decide (c ∈ default [] trace)).
Proof. by apply (check_path_trace_exact b fixed ts trace extra). Qed.

(** A small Announce: zero but for the length, with a path trace. *)
Definition announce_ex (ids : list clock_identity) : buf :=
  let t := trace_tlv ids in
  replicate 2 0 ++ le_bytes 2 (64 + Z.of_nat (length t)) ++ replicate 60 0 ++ t ++
  replicate 20 0.

Lemma announce_ex_with :
  let ids := [replicate 8 1; replicate 8 2] in
  announce_with (announce_ex ids) (take 64 (announce_ex ids)) [] (Some ids) (replicate 20 0).
Proof.
  split; [reflexivity|reflexivity|constructor|constructor| |reflexivity|reflexivity].
  repeat constructor.
Qed.

Lemma check_path_trace_spec_witness :
  let b := announce_ex [replicate 8 1; replicate 8 2] in
  check_path_trace (replicate 8 2) b =
    Some (bool_decide (replicate 8 2 ∈ [replicate 8 1; replicate 8 2])).
Proof.
  exact (check_path_trace_spec _ _ _ _ _ (replicate 8 2) announce_ex_with eq_refl).
Defined.

(** ** Appending to the path trace *)

(** The fixed part with another message length. *)
Definition with_length (f : buf) (v : Z) : buf := take 2 f ++ le_bytes 2 v ++ drop 4 f.

Lemma with_length_length f v : (4 <= length f)%nat -> length (with_length f v) = length f.
Proof.
  intros. unfold with_length.
  rewrite !length_app, length_take, length_drop, le_bytes_length. lia.
Qed.

Lemma set_messageLength_app f R v :
  (4 <= length f)%nat -> set_messageLength (f ++ R) v = Some (with_length f v ++ R).
Proof.
  intros H. unfold set_messageLength, wr, put, with_length.
  rewrite le_bytes_length, (proj2 (in_buf_true _ _ _)) by (rewrite length_app; lia).
  f_equal. rewrite take_app_le, drop_app_le by lia. by rewrite <- !app_assoc.
Qed.

Lemma with_length_rd f R v :
  (4 <= length f)%nat -> 0 <= v < 65536 ->
  hdr_messageLength (with_length f v ++ R) = Some v.
Proof.
  intros H Hv. unfold hdr_messageLength, rd, with_length. rewrite <- app_assoc.
  pose proof (bytes_mid (take 2 f) (le_bytes 2 v) (drop 4 f ++ R)) as E.
  rewrite length_take, Nat.min_l, le_bytes_length in E by lia.
  rewrite <- app_assoc, E. cbn [fmap option_fmap option_map]. f_equal. by apply le_le_bytes.
Qed.

Lemma with_length_twice f v w :
  (4 <= length f)%nat -> with_length (with_length f v) w = with_length f w.
Proof.
  intros H. unfold with_length.
  assert (length (take 2 f) = 2%nat) as H2 by (rewrite length_take; lia).
  rewrite take_app_length' by done. f_equal. f_equal.
  rewrite app_assoc, drop_app_length'; [done|].
  by rewrite length_app, le_bytes_length, H2.
Qed.

(** Where the identity goes: after the [ids], over the eight bytes [o]. *)
Lemma path_trace_slot_spec b fixed ts trace extra :
  announce_with b fixed ts trace extra -> (12 <= length extra)%nat ->
  let ids := default [] trace in
  let tlv := (64 + length (concat ts))%nat in
  exists fixed1 h o extra',
    path_trace_slot b = Some (Some (tlv, (tlv + 4 + 8 * length ids)%nat,
      4 + 8 * Z.of_nat (length ids),
      fixed1 ++ concat ts ++ h ++ concat ids ++ o ++ extra')) /\
    length h = 4%nat /\ length o = 8%nat /\ length fixed1 = 64%nat /\
    (forall v, with_length fixed1 v = with_length fixed v) /\
    hdr_messageLength (fixed1 ++ concat ts ++ h ++ concat ids ++ o ++ extra') =
      Some (64 + Z.of_nat (length (concat ts))) /\
    (exists k, extra' = drop k extra).
Proof.
  intros H Hex. pose proof (announce_find _ _ _ _ _ H) as HF.
  destruct H as [Hb Hf Hts Hno Hids Hlen HM]. unfold path_trace_slot.
  rewrite Hlen in *. cbn [mbind option_bind] in *.
  destruct trace as [ids|]; cbn [from_option default id] in *.
  - rewrite (trace_tlv_length ids Hids) in *.
    destruct (_ >? ANN_end) eqn:E; bools; unfold ANN_end in *; [|lia].
    rewrite HF. cbn [mbind option_bind s_tlv].
    destruct (trace_tlv_chunk ids Hids ltac:(lia)) as [Hck _].
    destruct (chunk_reads (trace_tlv ids) (fixed ++ concat ts) extra Hck) as [Hr _].
    rewrite trace_tlv_length in Hr by done. rewrite length_app, Hf in Hr.
    rewrite <- app_assoc, <- Hb in Hr. rewrite Hr. cbn [mbind option_bind].
    unfold SIZE_clock_identity, SIZE_tlv.
    replace (Z.of_nat (4 + 8 * length ids) - 4) with (Z.of_nat (length ids) * 8) by lia.
    rewrite Z.div_mul, Z.eqb_refl by lia. simpl negb. cbv iota.
    rewrite u16_small, Nat2Z.id by lia. rewrite Hb.
    set (v := 64 + _ - _).
    rewrite set_messageLength_app by lia. cbn [mbind option_bind].
    assert (v = 64 + Z.of_nat (length (concat ts))) as Hv by (subst v; lia).
    exists (with_length fixed v), (le_bytes 2 TLV_PATH_TRACE ++
      le_bytes 2 (8 * Z.of_nat (length ids))), (take 8 extra), (drop 8 extra).
    assert (forall R : buf, trace_tlv ids ++ R = (le_bytes 2 TLV_PATH_TRACE ++
      le_bytes 2 (8 * Z.of_nat (length ids))) ++ concat ids ++ R) as Ht
      by (intros; unfold trace_tlv; by rewrite <- !app_assoc).
    split; [|split; [|split; [|split; [|split; [|split]]]]].
    + rewrite Ht, take_drop.
      by replace (Z.of_nat (length ids) * 8 + 4) with (4 + 8 * Z.of_nat (length ids)) by lia.
    + by rewrite length_app, !le_bytes_length.
    + rewrite length_take. lia.
    + rewrite with_length_length; lia.
    + intros w. apply with_length_twice. lia.
    + rewrite with_length_rd, Hv by lia. done.
    + by exists 8%nat.
  - rewrite app_nil_l in Hb.
    exists fixed, (take 4 extra), (take 8 (drop 4 extra)), (drop 8 (drop 4 extra)).
    cbn [concat length app] in *. rewrite take_drop, take_drop, <- Hb.
    split; [|split; [|split; [|split; [|split; [|split]]]]].
    + destruct (_ >? ANN_end) eqn:E; bools; unfold ANN_end in *.
      * rewrite HF. cbn [mbind option_bind s_tlv s_left s_last]. 
        by rewrite Nat.mul_0_r, Nat.add_0_r.
      * destruct (concat ts) as [|x l]; simpl length in *; [|lia]. done.
    + rewrite length_take. lia.
    + rewrite length_take, length_drop. lia.
    + done.
    + done.
    + rewrite Hlen. f_equal. simpl length. lia.
    + exists (4 + 8)%nat. by rewrite drop_drop.
Qed.

(** The header of a TLV of even length, written over the four bytes [h]. *)
Lemma ptp_add_tlv_head pre h body tlv_end type len size :
  length h = 4%nat -> 4 <= len -> 0 <= size -> size + len < 65536 -> Z.odd len = false ->
  ptp_add_tlv (pre ++ h ++ body) (length pre) tlv_end type len size =
  Some (pre ++ le_bytes 2 type ++ le_bytes 2 (len - 4) ++ body, tlv_end, size + len).
Proof.
  intros Hh Hlen Hs Hsum Hodd. unfold ptp_add_tlv, SIZE_tlv, wr.
  destruct (split_field h 0 2 ltac:(lia)) as (h0 & h1 & h2 & -> & Hh0 & Hh1).
  destruct h0; [|done]. cbn [app] in *. rewrite length_app in Hh. rewrite <- app_assoc.
  rewrite (put_mid pre h1 (le_bytes 2 type)) by (rewrite le_bytes_length; lia).
  cbn [mbind option_bind]. rewrite Hodd. cbn [mbind option_bind].
  rewrite !u16_small by lia.
  pose proof (put_mid (pre ++ le_bytes 2 type) h2 (le_bytes 2 (len - 4)) body
    ltac:(rewrite le_bytes_length; lia)) as P.
  rewrite length_app, le_bytes_length, <- !app_assoc in P. by rewrite P.
Qed.

(** An Announce that got the path trace [ids] as its last TLV. *)
Lemma announce_extended v fixed ts ids extra :
  length fixed = 64%nat -> Forall tlv_chunk ts ->
  Forall (fun t => chunk_type t <> TLV_PATH_TRACE) ts -> ids_ok ids ->
  v = 68 + Z.of_nat (length (concat ts) + 8 * length ids) -> v < 65520 ->
  announce_with (with_length fixed v ++ concat ts ++ trace_tlv ids ++ extra)
    (with_length fixed v) ts (Some ids) extra.
Proof.
  intros Hf Hts Hno Hok Hv HM. pose proof (trace_tlv_length ids Hok) as Hl.
  split; cbn [from_option default id]; try done.
  - rewrite with_length_length; lia.
  - rewrite with_length_rd by lia. f_equal. lia.
  - lia.
Qed.

(** appending keeps the Announce as it is, with the identity added at the
    end of its path trace (a new TLV if it had none) and the message length
    adjusted; the clock then finds itself in the path trace, so that an
    Announce that comes back is not accepted. *)
Theorem clock_add_path_trace_spec b fixed ts trace extra c
  (H : announce_with b fixed ts trace extra) (Hc : length c = 8%nat)
  (Hroom : (12 <= length extra)%nat)
  (Hmax : 64 + Z.of_nat (length (concat ts) + length (from_option trace_tlv [] trace)) < 65500) :
  exists b' fixed' extra',
    clock_add_path_trace c b = Some b' /\
    announce_with b' fixed' ts (Some (default [] trace ++ [c])) extra' /\
    take 2 fixed' = take 2 fixed /\ drop 4 fixed' = drop 4 fixed /\
    check_path_trace c b' = Some true /\ (exists k, extra' = drop k extra).
Proof.
  pose proof (path_trace_slot_spec _ _ _ _ _ H Hroom) as Hs. cbv zeta in Hs.
  destruct Hs as (f1 & h & o & ex & Hslot & Hh & Ho & Hf1 & Hw & Hl1 & Hex).
  destruct H as [Hb Hf Hts Hno Hids Hlen HM].
  assert (ids_ok (default [] trace)) as Hids' by exact Hids.
  set (ids := default [] trace) in *.
  assert (64 + Z.of_nat (length (concat ts)) + 8 * Z.of_nat (length ids) < 65500) as Hn.
  { subst ids. destruct trace as [i|]; cbn [from_option default id] in *; [|simpl in *; lia].
    rewrite (trace_tlv_length i Hids) in Hmax. lia. }
  assert (64 + Z.of_nat (length (concat ts)) < 65520) as HM2 by lia.
  pose proof (concat_ids_length ids Hids') as Hci.
  unfold clock_add_path_trace. rewrite Hslot. cbn [mbind option_bind].
  pose proof (put_mid (f1 ++ concat ts ++ h ++ concat ids) o c ex ltac:(lia)) as P1.
  rewrite !length_app, Hf1, Hh, Hci in P1.
  replace (64 + (length (concat ts) + (4 + 8 * length ids)))%nat
    with (64 + length (concat ts) + 4 + 8 * length ids)%nat in P1 by lia.
  rewrite <- !app_assoc in P1. rewrite P1. cbn [mbind option_bind].
  assert (hdr_messageLength (f1 ++ concat ts ++ h ++ concat ids ++ c ++ ex) =
          Some (64 + Z.of_nat (length (concat ts)))) as ->.
  { rewrite hdr_len_app by lia. rewrite <- Hl1. symmetry. by apply hdr_len_app; lia. }
  cbn [mbind option_bind]. unfold SIZE_clock_identity. rewrite (u16_small (4 + _ + 8)) by lia.
  pose proof (ptp_add_tlv_head (f1 ++ concat ts) h (concat ids ++ c ++ ex)
    (64 + length (concat ts) + 4 + 8 * length ids + 8) TLV_PATH_TRACE
    (4 + 8 * Z.of_nat (length ids) + 8) (64 + Z.of_nat (length (concat ts))) Hh) as P2.
  rewrite length_app, Hf1, <- !app_assoc in P2. rewrite P2; clear P2; [|lia..|].
  2: { replace (4 + 8 * Z.of_nat (length ids) + 8)
         with (0 + 2 * (4 * Z.of_nat (length ids) + 6)) by lia.
       by rewrite Z.odd_add_mul_2. }
  cbn [mbind option_bind]. rewrite set_messageLength_app by lia. rewrite Hw.
  eexists _, _, ex. split; [done|].
  assert (ids_ok (ids ++ [c])) as Hok by (apply Forall_app; by repeat constructor).
  replace (4 + 8 * Z.of_nat (length ids) + 8 - 4) with (8 * Z.of_nat (length (ids ++ [c])))
    by (rewrite length_app; simpl; lia).
  pose proof (announce_extended (64 + Z.of_nat (length (concat ts)) +
    (4 + 8 * Z.of_nat (length ids) + 8)) fixed ts (ids ++ [c]) ex
    Hf Hts Hno Hok ltac:(rewrite length_app; simpl; lia) ltac:(lia)) as HA.
  unfold trace_tlv in HA. rewrite concat_app in HA. cbn [concat] in HA.
  rewrite app_nil_r, <- !app_assoc in HA.
  split; [exact HA|]. split; [|split; [|split; [|exact Hex]]].
  - unfold with_length. rewrite take_app_length'; [done|]. rewrite length_take. lia.
  - unfold with_length. rewrite app_assoc, drop_app_length'; [done|].
    rewrite length_app, le_bytes_length, length_take. lia.
  - rewrite (check_path_trace_exact _ _ _ _ _ c HA Hc). f_equal.
    apply bool_decide_eq_true_2. apply elem_of_app. right. by left.
Qed.

Lemma clock_add_path_trace_spec_witness :
  exists b' fixed' extra',
    clock_add_path_trace (replicate 8 3) (announce_ex [replicate 8 1; replicate 8 2])
      = Some b' /\
    announce_with b' fixed' []
      (Some ([replicate 8 1; replicate 8 2] ++ [replicate 8 3])) extra' /\
    take 2 fixed' = take 2 (take 64 (announce_ex [replicate 8 1; replicate 8 2])) /\
    drop 4 fixed' = drop 4 (take 64 (announce_ex [replicate 8 1; replicate 8 2])) /\
    check_path_trace (replicate 8 3) b' = Some true /\
    (exists k, extra' = drop k (replicate 20 0)).
Proof.
  apply (clock_add_path_trace_spec _ _ _ (Some [replicate 8 1; replicate 8 2]) _
    (replicate 8 3) announce_ex_with eq_refl); vm_compute; [lia|reflexivity].
Defined.

(** ** A TLV whose size wraps to zero

    [lengthField] 0xFFFC makes the 16-bit size 0: the walk stays where it is.
    The conversion on reception can leave such a TLV in an Announce: the TLV
    sizes 1 and 3 of the bytes below make it convert overlapping headers. *)

Lemma find_tlv_zero_size b data type left fuel :
  tlv_lengthField b data = Some 65532 -> (exists ty, tlv_type b data = Some ty /\ ty <> type) ->
  4 <= left < 65536 ->
  find_tlv_loop (S fuel) b data type left = find_tlv_loop fuel b data type left.
Proof.
  intros Hl (ty & Ht & Hne) Hr.
  cbn [find_tlv_loop]. unfold SIZE_tlv. destruct (left >=? 4) eqn:E; bools; [|lia].
  rewrite Hl, Ht. cbn [mbind option_bind].
  replace (u16 (65532 + 4)) with 0 by reflexivity.
  destruct (left <? 0) eqn:E2; bools; [lia|]. rewrite Z.sub_0_r, u16_small by lia.
  destruct (ty =? type) eqn:E3; bools; [done|]. by rewrite Nat.add_0_r.
Qed.

Definition announce_loop : buf :=
  [11; 2; 0; 72] ++ replicate 60 0 ++ [252; 0; 255; 253; 255; 0; 0; 0].

(** a received Announce can carry a TLV of lengthField 0xFFFC, whose size
    wraps to zero: a round of the search [check_path_trace] makes in it leaves
    the position and the bytes left as they were, so that no number of rounds
    gives a result. *)
Theorem announce_tlv_never_ends :
  exists b, ptp_msg_rx announce_loop = Some b /\
  hdr_messageType b = Some 11 /\ hdr_messageLength b = Some 72 /\
  forall fuel,
    find_tlv_loop (S fuel) b 64 TLV_PATH_TRACE 8 = find_tlv_loop fuel b 64 TLV_PATH_TRACE 8 /\
    find_tlv_loop fuel b 64 TLV_PATH_TRACE 8 = None.
Proof.
  destruct (ptp_msg_rx announce_loop) as [b|] eqn:E; [|vm_compute in E; discriminate].
  vm_compute in E. injection E as <-. eexists. split; [done|]. split; [done|].
  split; [done|].
  assert (forall f b, tlv_lengthField b 64 = Some 65532 ->
    (exists ty, tlv_type b 64 = Some ty /\ ty <> TLV_PATH_TRACE) ->
    find_tlv_loop (S f) b 64 TLV_PATH_TRACE 8 = find_tlv_loop f b 64 TLV_PATH_TRACE 8) as H.
  { intros. apply find_tlv_zero_size; [done|done|lia]. }
  match goal with |- forall _, find_tlv_loop _ ?b _ _ _ = _ /\ _ => specialize (fun f => H f b) end.
  assert (H' : forall f, find_tlv_loop (S f) _ 64 TLV_PATH_TRACE 8 = _) by
    (intros f; apply (H f); [done|eexists; split; [reflexivity|by vm_compute]]).
  intros fuel. split; [apply H'|]. induction fuel; [done|]. by rewrite H'.
Qed.
