(* ===== verification/Interval.v ===== *)
(** * Message intervals and sequence numbers (ptp_protocol.c)

    Intervals are base-2 logarithms of seconds; timers run in milliseconds. *)

From stdpp Require Import base list numbers option.
From Stdlib Require Import ZArith Lia.
From S2P Require Import Prelude.

(** ** Conversions *)

(** [1 << interval] of an [int] is undefined outside 0..30. *)
Definition shl1 (n : Z) : option Z :=
  if (0 <=? n) && (n <? 31) then Some (Z.shiftl 1 n) else UB.

(** [while (ms > (1 << interval)) interval++;] *)
Fixpoint up_loop (fuel : nat) (ms interval : Z) : option Z :=
  match fuel with
  | O => None
  | S fuel =>
      x ← shl1 interval;
      if ms >? x then up_loop fuel ms (interval + 1) else Some interval
  end.

(** [while (ms < us) { interval++; ms *= 2; }] *)
Fixpoint double_loop (fuel : nat) (ms us interval : Z) : option Z :=
  match fuel with
  | O => None
  | S fuel =>
      if ms <? us then double_loop fuel (s32 (ms * 2)) us (interval + 1)
      else Some interval
  end.

(** At most twelve rounds: the number of seconds is below 2148. *)
Definition us_to_ptp_interval (us : Z) : option Z :=
  if us >=? 1000000 then up_loop 13 (Z.quot us 1000000) 0
  else double_loop 6 62500 us (-4).

(** [for (i = 1; i < n; i++) ms >>= 1;] with [n - 1] rounds left. *)
Fixpoint halve (rounds : nat) (ms : Z) : Z :=
  match rounds with
  | O => ms
  | S rounds => halve rounds (Z.shiftr ms 1)
  end.

Definition ptp_interval_to_ms (interval : Z) : Z :=
  if interval >=? 0 then
    let interval := if interval >? 8 then 8 else interval in
    s32 (Z.shiftl 1 interval * 1000)
  else
    let interval := s32 (- interval) in
    let ms := halve (Z.to_nat (interval - 1)) 500000 in
    let ms := Z.quot ms 1000 in
    if ms =? 0 then 1 else ms.

Definition ptp_interval_to_cnt (interval seconds : Z) : option Z :=
  if interval >=? 0 then
    cnt ← shl1 interval;
    let cnt := Z.quot seconds cnt in
    Some (if cnt =? 0 then 1 else cnt)
  else
    cnt ← shl1 (s32 (- interval));
    Some (s32 (s32 (cnt * seconds) + 1)).

(** [random] is the number [rand()] answers; the remainder by zero is
    undefined. *)
Definition ptp_random_ms (random ms percent : Z) : option Z :=
  let range := Z.quot (s32 (ms * percent)) 100 in
  let sign := Z.land (Z.shiftr random 16) 1 in
  if range =? 0 then UB else
  let random := Z.rem random range in
  Some (if truthy sign then s32 (ms + random) else s32 (ms - random)).

(** [seqid] is the last number accepted, or a mark above 0xffff; [sequenceId]
    the number of the message. *)
Definition accept_seqid (seqid sequenceId : Z) : bool :=
  if seqid >? 65535 then true
  else
    let seqid := u16 (sequenceId - seqid) in
    if (seqid =? 0) || (seqid >? 65520) then false else true.

(** ** Properties *)

Lemma halve_div n ms : 0 <= ms -> halve n ms = ms / 2 ^ Z.of_nat n.
Proof.
  revert ms. induction n as [|n IH]; intros ms H; simpl halve.
  - by rewrite Z.div_1_r.
  - rewrite Z.shiftr_div_pow2 by lia. change (2 ^ 1) with 2.
    rewrite IH by (apply Z.div_pos; lia).
    rewrite Z.div_div by lia. f_equal. rewrite Nat2Z.inj_succ, Z.pow_succ_r by lia. lia.
Qed.

(** The delay in closed form. *)
Lemma ptp_interval_to_ms_closed i :
  -128 <= i < 128 ->
  ptp_interval_to_ms i =
  if i >=? 0 then 1000 * 2 ^ Z.min i 8 else Z.max 1 (500 / 2 ^ (- i - 1)).
Proof.
  intros Hi. unfold ptp_interval_to_ms. destruct (i >=? 0) eqn:E; bools.
  - replace (if i >? 8 then 8 else i) with (Z.min i 8)
      by (destruct (i >? 8) eqn:E2; bools; lia).
    rewrite Z.shiftl_mul_pow2 by lia.
    assert (1 <= 2 ^ Z.min i 8 <= 2 ^ 8) as HP.
    { split; [pose proof (Z.pow_pos_nonneg 2 (Z.min i 8)); lia|].
      apply Z.pow_le_mono_r; lia. }
    change (2 ^ 8) with 256 in HP. rewrite s32_small by lia. lia.
  - rewrite s32_small, halve_div by lia. rewrite Z2Nat.id by lia.
    assert (0 < 2 ^ (- i - 1)) as HP by (apply Z.pow_pos_nonneg; lia).
    rewrite Z.quot_div_nonneg by (try apply Z.div_pos; lia).
    rewrite Z.div_div, (Z.mul_comm _ 1000), <- Z.div_div by lia.
    change (500000 / 1000) with 500.
    assert (0 <= 500 / 2 ^ (- i - 1)) by (apply Z.div_pos; lia).
    destruct (_ =? 0) eqn:E2; bools; lia.
Qed.

(** Over the whole range of an interval the delay is a power of two in
    milliseconds, between 1 ms and 256 s and larger for larger intervals. *)
Theorem ptp_interval_to_ms_spec (i j : Z) (Hi : -128 <= i <= j) (Hj : j < 128) :
  ptp_interval_to_ms i =
    (if i >=? 0 then 1000 * 2 ^ Z.min i 8 else Z.max 1 (500 / 2 ^ (- i - 1))) /\
  1 <= ptp_interval_to_ms i <= ptp_interval_to_ms j /\ ptp_interval_to_ms j <= 256000.
Proof.
  split; [apply ptp_interval_to_ms_closed; lia|].
  rewrite !ptp_interval_to_ms_closed by lia.
  assert (forall k, 0 <= k -> 0 < 2 ^ k) as HP by (intros; apply Z.pow_pos_nonneg; lia).
  assert (forall k, 0 <= k -> 0 <= 500 / 2 ^ k <= 500) as HD.
  { intros k Hk. specialize (HP k Hk). split; [apply Z.div_pos; lia|].
    apply Z.div_le_upper_bound; nia. }
  destruct (i >=? 0) eqn:E1, (j >=? 0) eqn:E2; bools; try lia.
  - assert (2 ^ Z.min i 8 <= 2 ^ Z.min j 8) by (apply Z.pow_le_mono_r; lia).
    assert (2 ^ Z.min j 8 <= 2 ^ 8) as H8 by (apply Z.pow_le_mono_r; lia).
    change (2 ^ 8) with 256 in H8.
    pose proof (HP (Z.min i 8) ltac:(lia)). lia.
  - specialize (HD (- i - 1) ltac:(lia)). specialize (HP (Z.min j 8) ltac:(lia)).
    assert (2 ^ Z.min j 8 <= 2 ^ 8) as H8 by (apply Z.pow_le_mono_r; lia).
    change (2 ^ 8) with 256 in H8. lia.
  - pose proof (HD (- j - 1) ltac:(lia)).
    assert (500 / 2 ^ (- i - 1) <= 500 / 2 ^ (- j - 1)).
    { apply Z.div_le_compat_l; [lia|]. split; [apply HP; lia|].
      apply Z.pow_le_mono_r; lia. }
    lia.
Qed.

Lemma ptp_interval_to_ms_spec_witness :
  ptp_interval_to_ms (-3) =
    (if -3 >=? 0 then 1000 * 2 ^ Z.min (-3) 8 else Z.max 1 (500 / 2 ^ (- (-3) - 1))) /\
  1 <= ptp_interval_to_ms (-3) <= ptp_interval_to_ms 0 /\ ptp_interval_to_ms 0 <= 256000.
Proof. apply (ptp_interval_to_ms_spec (-3) 0); lia. Defined.

Lemma up_loop_spec fuel : forall ms k,
  0 <= k -> 1 <= ms <= 4096 -> k <= 12 -> (k = 0 \/ 2 ^ (k - 1) < ms) ->
  (13 - Z.to_nat k <= fuel)%nat ->
  exists i, up_loop fuel ms k = Some i /\ k <= i <= 12 /\ ms <= 2 ^ i /\
    (i = 0 \/ 2 ^ (i - 1) < ms).
Proof.
  induction fuel as [|fuel IH]; intros ms k Hk Hms H12 Hlo Hf; [lia|]. cbn [up_loop].
  unfold shl1. destruct ((0 <=? k) && (k <? 31)) eqn:E; bools; try lia.
  rewrite Z.shiftl_1_l. cbn [mbind option_bind].
  destruct (ms >? 2 ^ k) eqn:E2; bools.
  - assert (k <> 12) as Hne by (intros ->; change (2 ^ 12) with 4096 in E2; lia).
    destruct (IH ms (k + 1)) as (i & ? & ? & ? & ?); [lia|lia|lia| |lia|].
    { right. by replace (k + 1 - 1) with k by lia. }
    exists i. repeat split; try done; lia.
  - exists k. repeat split; try done; lia.
Qed.

(** for a positive number of microseconds (a C [int]) the loops end, with
    the smallest interval from -4 on that is not shorter, whole seconds
    counted; it undoes [ptp_interval_to_ms] from -4 to 8. *)
Theorem us_to_ptp_interval_spec (us : Z) (Hus : us < 2 ^ 31) :
  (exists i, us_to_ptp_interval us = Some i /\ -4 <= i <= 12 /\
    (1000000 <= us -> us / 1000000 <= 2 ^ i /\ (i = 0 \/ 2 ^ (i - 1) < us / 1000000)) /\
    (us < 1000000 -> us <= 62500 * 2 ^ (i + 4) /\ (i = -4 \/ 62500 * 2 ^ (i + 3) < us))) /\
  (forall i, -4 <= i <= 8 -> us = 1000 * ptp_interval_to_ms i ->
    us_to_ptp_interval us = Some i).
Proof.
  split.
  - unfold us_to_ptp_interval. destruct (us >=? 1000000) eqn:E; bools.
    + rewrite Z.quot_div_nonneg by lia.
      assert (1 <= us / 1000000 <= 4096).
      { split; [apply Z.div_le_lower_bound; lia|]. apply Z.div_le_upper_bound; lia. }
      destruct (up_loop_spec 13 (us / 1000000) 0) as (i & ? & ? & ? & ?); [lia..|].
      exists i. repeat split; try done; lia.
    + cbn [double_loop]. cint.
      repeat match goal with
      | |- context [if ?a <? ?b then _ else _] =>
          let E := fresh in destruct (a <? b) eqn:E; bools
      end; try lia; eexists; (split; [reflexivity|]); (split; [lia|]);
        (split; [lia|]); intros; (split; [simpl; lia|]);
        solve [left; lia | right; simpl; lia].
  - intros i Hi ->.
    assert (i = -4 \/ i = -3 \/ i = -2 \/ i = -1 \/ i = 0 \/ i = 1 \/ i = 2 \/ i = 3 \/
      i = 4 \/ i = 5 \/ i = 6 \/ i = 7 \/ i = 8) as Hcases by lia.
    repeat destruct Hcases as [->|Hcases]; try reflexivity. by subst.
Qed.

Lemma us_to_ptp_interval_spec_witness :
  (exists i, us_to_ptp_interval 125000 = Some i /\ -4 <= i <= 12 /\
    (1000000 <= 125000 -> 125000 / 1000000 <= 2 ^ i /\
       (i = 0 \/ 2 ^ (i - 1) < 125000 / 1000000)) /\
    (125000 < 1000000 -> 125000 <= 62500 * 2 ^ (i + 4) /\
       (i = -4 \/ 62500 * 2 ^ (i + 3) < 125000))) /\
  (forall i, -4 <= i <= 8 -> 125000 = 1000 * ptp_interval_to_ms i ->
    us_to_ptp_interval 125000 = Some i).
Proof. apply (us_to_ptp_interval_spec 125000). lia. Defined.

(** a sequence number is accepted exactly when it is 1 to 65520 ahead of
    the last one in 16-bit arithmetic, so that none of the last fifteen and the
    last one itself is accepted again; a mark accepts any number. *)
Theorem accept_seqid_window (last k : Z) (Hlast : 0 <= last <= 65535)
  (Hk : 0 <= k < 65536) :
  accept_seqid last (u16 (last + k)) = bool_decide (1 <= k <= 65520) /\
  (forall mark s, 65535 < mark -> accept_seqid mark s = true).
Proof.
  split.
  - unfold accept_seqid. destruct (last >? 65535) eqn:E; bools; [lia|].
    assert (u16 (u16 (last + k) - last) = k) as ->.
    { unfold uN. rewrite Zminus_mod_idemp_l. replace (last + k - last) with k by lia.
      apply Z.mod_small. exact Hk. }
    destruct ((k =? 0) || (k >? 65520)) eqn:E2; symmetry.
    + apply bool_decide_eq_false_2. bools; lia.
    + apply bool_decide_eq_true_2. bools. lia.
  - intros mark s H. unfold accept_seqid. destruct (mark >? 65535) eqn:E; bools; [done|lia].
Qed.

Lemma accept_seqid_window_witness :
  accept_seqid 65535 (u16 (65535 + 2)) = bool_decide (1 <= 2 <= 65520) /\
  (forall mark s, 65535 < mark -> accept_seqid mark s = true).
Proof. apply (accept_seqid_window 65535 2); lia. Defined.

(** A random delay is within the percentage of the delay asked for, and it
    is defined exactly when that percentage is at least one millisecond. *)
Theorem ptp_random_ms_range (random ms percent : Z)
  (Hr : 0 <= random < 2 ^ 31) (Hms : 1 <= ms <= 256000) (Hp : 1 <= percent <= 100) :
  (100 <= ms * percent -> exists r, ptp_random_ms random ms percent = Some r /\
     Z.abs (r - ms) < ms * percent / 100) /\
  (ms * percent < 100 -> ptp_random_ms random ms percent = None).
Proof.
  assert (0 < ms * percent <= 25600000) as Hb by nia.
  unfold ptp_random_ms. rewrite (s32_small (ms * percent)) by lia.
  rewrite Z.quot_div_nonneg by lia. split; intros H.
  - assert (1 <= ms * percent / 100) as H1 by (apply Z.div_le_lower_bound; lia).
    assert (ms * percent / 100 <= 256000) as H2 by (apply Z.div_le_upper_bound; lia).
    destruct (_ =? 0) eqn:E; bools; [lia|].
    rewrite Z.rem_mod_nonneg by lia.
    pose proof (Z.mod_pos_bound random (ms * percent / 100) ltac:(lia)).
    destruct (truthy _); rewrite s32_small by lia; eexists; (split; [done|]); lia.
  - rewrite Z.div_small by lia. done.
Qed.

Lemma ptp_random_ms_range_witness :
  (100 <= 125 * 10 -> exists r, ptp_random_ms 99999999 125 10 = Some r /\
     Z.abs (r - 125) < 125 * 10 / 100) /\
  (125 * 10 < 100 -> ptp_random_ms 99999999 125 10 = None).
Proof. apply (ptp_random_ms_range 99999999 125 10); lia. Defined.

(** With the ten percent of the Pdelay timer: undefined from interval -7 down. *)
Lemma ptp_random_ms_short_interval random :
  ptp_random_ms random (ptp_interval_to_ms (-7)) 10 = None.
Proof. reflexivity. Qed.
