(* ===== verification/ConfigStore.v ===== *)
(** * Configuration store (os/config_store.c)

    The settings of the stack: global values, profiles, port profiles and port
    settings, their access functions, and the reader of the configuration
    file.  The text of the file is given as a list of lines. *)

From stdpp Require Import base list numbers option strings pretty.
From Stdlib Require Import ZArith Lia Ascii.
From Stdlib Require String.
From S2P Require Import Prelude.

Definition MAX_PTP_PROFILES : Z := 3.
Definition MAX_PTP_PORTS : Z := 8.

Definition PTP_FLAGS_2_STEP : Z := 1.
Definition PTP_FLAGS_GM_CAPABLE : Z := 2.
Definition PTP_FLAGS_CMLDS : Z := 4.
Definition PTP_FLAGS_E2E : Z := 8.
Definition PTP_FLAGS_P2P : Z := 16.

(** ** Data *)

(** [struct config_store_ptp_global] *)
Record ptp_global_cfg := mk_global {
  g_utcOffset : Z;
  g_maxAllowedMissedResponses : Z;
  g_maxAllowedDelayFaults : Z;
  g_followUpReceiptTimeout : Z;
  g_initialSyncTimeout : Z;
  g_waitPdelayReqInterval : Z;
  g_waitSyncInterval : Z }.

#[export] Instance eta_ptp_global_cfg : Eta ptp_global_cfg := fun x =>
  mk_global (g_utcOffset x) (g_maxAllowedMissedResponses x) (g_maxAllowedDelayFaults x) (g_followUpReceiptTimeout x) (g_initialSyncTimeout x) (g_waitPdelayReqInterval x) (g_waitSyncInterval x).

Definition set_g_utcOffset (v : Z) (x : ptp_global_cfg) : ptp_global_cfg := ltac:(field_set g_utcOffset v x).
Definition set_g_maxAllowedMissedResponses (v : Z) (x : ptp_global_cfg) : ptp_global_cfg := ltac:(field_set g_maxAllowedMissedResponses v x).
Definition set_g_maxAllowedDelayFaults (v : Z) (x : ptp_global_cfg) : ptp_global_cfg := ltac:(field_set g_maxAllowedDelayFaults v x).
Definition set_g_followUpReceiptTimeout (v : Z) (x : ptp_global_cfg) : ptp_global_cfg := ltac:(field_set g_followUpReceiptTimeout v x).
Definition set_g_initialSyncTimeout (v : Z) (x : ptp_global_cfg) : ptp_global_cfg := ltac:(field_set g_initialSyncTimeout v x).
Definition set_g_waitPdelayReqInterval (v : Z) (x : ptp_global_cfg) : ptp_global_cfg := ltac:(field_set g_waitPdelayReqInterval v x).
Definition set_g_waitSyncInterval (v : Z) (x : ptp_global_cfg) : ptp_global_cfg := ltac:(field_set g_waitSyncInterval v x).

(** [struct config_store_ptp_profile] *)
Record ptp_profile := mk_profile {
  pf_ports : Z;
  pf_stackFlags : Z;
  pf_profile : Z;
  pf_transport : Z;
  pf_domain : Z;
  pf_priority1 : Z;
  pf_priority2 : Z;
  pf_offsetScaledLogVariance : Z;
  pf_clkClass : Z;
  pf_clkAccuracy : Z;
  pf_majorSDOID : Z;
  pf_minorSDOID : Z;
  pf_vlan : Z }.

#[export] Instance eta_ptp_profile : Eta ptp_profile := fun x =>
  mk_profile (pf_ports x) (pf_stackFlags x) (pf_profile x) (pf_transport x) (pf_domain x) (pf_priority1 x) (pf_priority2 x) (pf_offsetScaledLogVariance x) (pf_clkClass x) (pf_clkAccuracy x) (pf_majorSDOID x) (pf_minorSDOID x) (pf_vlan x).

Definition set_pf_ports (v : Z) (x : ptp_profile) : ptp_profile := ltac:(field_set pf_ports v x).
Definition set_pf_stackFlags (v : Z) (x : ptp_profile) : ptp_profile := ltac:(field_set pf_stackFlags v x).
Definition set_pf_profile (v : Z) (x : ptp_profile) : ptp_profile := ltac:(field_set pf_profile v x).
Definition set_pf_transport (v : Z) (x : ptp_profile) : ptp_profile := ltac:(field_set pf_transport v x).
Definition set_pf_domain (v : Z) (x : ptp_profile) : ptp_profile := ltac:(field_set pf_domain v x).
Definition set_pf_priority1 (v : Z) (x : ptp_profile) : ptp_profile := ltac:(field_set pf_priority1 v x).
Definition set_pf_priority2 (v : Z) (x : ptp_profile) : ptp_profile := ltac:(field_set pf_priority2 v x).
Definition set_pf_offsetScaledLogVariance (v : Z) (x : ptp_profile) : ptp_profile := ltac:(field_set pf_offsetScaledLogVariance v x).
Definition set_pf_clkClass (v : Z) (x : ptp_profile) : ptp_profile := ltac:(field_set pf_clkClass v x).
Definition set_pf_clkAccuracy (v : Z) (x : ptp_profile) : ptp_profile := ltac:(field_set pf_clkAccuracy v x).
Definition set_pf_majorSDOID (v : Z) (x : ptp_profile) : ptp_profile := ltac:(field_set pf_majorSDOID v x).
Definition set_pf_minorSDOID (v : Z) (x : ptp_profile) : ptp_profile := ltac:(field_set pf_minorSDOID v x).
Definition set_pf_vlan (v : Z) (x : ptp_profile) : ptp_profile := ltac:(field_set pf_vlan v x).

(** [struct config_store_ptp_port_profile] *)
Record ptp_port_profile := mk_port_profile {
  pp_announceReceiptTimeout : Z;
  pp_syncReceiptTimeout : Z;
  pp_logSyncInterval : Z;
  pp_logAnnounceInterval : Z;
  pp_logMinDelayReqInterval : Z;
  pp_logMinPdelayReqInterval : Z;
  pp_operLogSyncInterval : Z;
  pp_operLogMinPdelayReqInterval : Z;
  pp_neighborPropDelayThresh : Z }.

#[export] Instance eta_ptp_port_profile : Eta ptp_port_profile := fun x =>
  mk_port_profile (pp_announceReceiptTimeout x) (pp_syncReceiptTimeout x) (pp_logSyncInterval x) (pp_logAnnounceInterval x) (pp_logMinDelayReqInterval x) (pp_logMinPdelayReqInterval x) (pp_operLogSyncInterval x) (pp_operLogMinPdelayReqInterval x) (pp_neighborPropDelayThresh x).

Definition set_pp_announceReceiptTimeout (v : Z) (x : ptp_port_profile) : ptp_port_profile := ltac:(field_set pp_announceReceiptTimeout v x).
Definition set_pp_syncReceiptTimeout (v : Z) (x : ptp_port_profile) : ptp_port_profile := ltac:(field_set pp_syncReceiptTimeout v x).
Definition set_pp_logSyncInterval (v : Z) (x : ptp_port_profile) : ptp_port_profile := ltac:(field_set pp_logSyncInterval v x).
Definition set_pp_logAnnounceInterval (v : Z) (x : ptp_port_profile) : ptp_port_profile := ltac:(field_set pp_logAnnounceInterval v x).
Definition set_pp_logMinDelayReqInterval (v : Z) (x : ptp_port_profile) : ptp_port_profile := ltac:(field_set pp_logMinDelayReqInterval v x).
Definition set_pp_logMinPdelayReqInterval (v : Z) (x : ptp_port_profile) : ptp_port_profile := ltac:(field_set pp_logMinPdelayReqInterval v x).
Definition set_pp_operLogSyncInterval (v : Z) (x : ptp_port_profile) : ptp_port_profile := ltac:(field_set pp_operLogSyncInterval v x).
Definition set_pp_operLogMinPdelayReqInterval (v : Z) (x : ptp_port_profile) : ptp_port_profile := ltac:(field_set pp_operLogMinPdelayReqInterval v x).
Definition set_pp_neighborPropDelayThresh (v : Z) (x : ptp_port_profile) : ptp_port_profile := ltac:(field_set pp_neighborPropDelayThresh v x).

(** [struct config_store_ptp_port_setting] *)
Record ptp_port_setting := mk_setting {
  st_receiveLatency : Z;
  st_transmitLatency : Z;
  st_delayAsymmetry : Z;
  st_peerDelay : Z;
  st_masterOnly : Z;
  st_useDelayReq : Z }.

#[export] Instance eta_ptp_port_setting : Eta ptp_port_setting := fun x =>
  mk_setting (st_receiveLatency x) (st_transmitLatency x) (st_delayAsymmetry x) (st_peerDelay x) (st_masterOnly x) (st_useDelayReq x).

Definition set_st_receiveLatency (v : Z) (x : ptp_port_setting) : ptp_port_setting := ltac:(field_set st_receiveLatency v x).
Definition set_st_transmitLatency (v : Z) (x : ptp_port_setting) : ptp_port_setting := ltac:(field_set st_transmitLatency v x).
Definition set_st_delayAsymmetry (v : Z) (x : ptp_port_setting) : ptp_port_setting := ltac:(field_set st_delayAsymmetry v x).
Definition set_st_peerDelay (v : Z) (x : ptp_port_setting) : ptp_port_setting := ltac:(field_set st_peerDelay v x).
Definition set_st_masterOnly (v : Z) (x : ptp_port_setting) : ptp_port_setting := ltac:(field_set st_masterOnly v x).
Definition set_st_useDelayReq (v : Z) (x : ptp_port_setting) : ptp_port_setting := ltac:(field_set st_useDelayReq v x).

(** The static tables. *)
Record config := mk_config {
  cf_global : ptp_global_cfg;
  cf_profiles : list ptp_profile;
  cf_port_profiles : list ptp_port_profile;
  cf_settings : list ptp_port_setting }.

#[export] Instance eta_config : Eta config := fun x =>
  mk_config (cf_global x) (cf_profiles x) (cf_port_profiles x) (cf_settings x).
Definition set_cf_global v (x : config) : config := ltac:(field_set cf_global v x).
Definition set_cf_profiles v (x : config) : config := ltac:(field_set cf_profiles v x).
Definition set_cf_port_profiles v (x : config) : config :=
  ltac:(field_set cf_port_profiles v x).
Definition set_cf_settings v (x : config) : config := ltac:(field_set cf_settings v x).

(** Initial values; the entries without initialiser are zero. *)
Definition config0 : config := mk_config
  (mk_global 37 3 5 25 3 10 5)
  [mk_profile 31 (Z.lor PTP_FLAGS_GM_CAPABLE (Z.lor PTP_FLAGS_2_STEP PTP_FLAGS_P2P))
     0 1 0 246 248 17258 248 33 0 0 0;
   mk_profile 0 (Z.lor PTP_FLAGS_GM_CAPABLE (Z.lor PTP_FLAGS_2_STEP PTP_FLAGS_P2P))
     1 0 0 246 248 17258 248 33 1 0 0;
   mk_profile 0 (Z.lor PTP_FLAGS_GM_CAPABLE (Z.lor PTP_FLAGS_2_STEP PTP_FLAGS_P2P))
     2 0 0 246 248 17258 248 33 1 0 0]
  (mk_port_profile 3 3 (-3) 0 0 0 2 0 800 :: replicate 7 (mk_port_profile 0 0 0 0 0 0 0 0 0))
  (mk_setting 600 300 0 10 1 1 :: replicate 7 (mk_setting 0 0 0 0 0 0)).

(** ** Access functions

    [None] is the error [-EINVAL]. *)

(** The index after the function, and whether it is valid. *)
Definition chk_index (index max : Z) : Z * bool :=
  if index =? 0 then (index, false)
  else
    let index := u8 (index - 1) in
    if index >=? max then (index, false) else (index, true).

Definition entry {A} (l : list A) (index max : Z) : option A :=
  let '(index, ok) := chk_index index max in
  if ok then l !! Z.to_nat index else None.

Definition update {A} (l : list A) (index max : Z) (f : A -> A) : option (list A) :=
  let '(index, ok) := chk_index index max in
  if ok then Some (alter f (Z.to_nat index) l) else None.

Definition profile_of (c : config) (index : Z) := entry (cf_profiles c) index MAX_PTP_PROFILES.
Definition port_profile_of (c : config) (index : Z) :=
  entry (cf_port_profiles c) index MAX_PTP_PORTS.
Definition setting_of (c : config) (index : Z) := entry (cf_settings c) index MAX_PTP_PORTS.

Definition update_profile (c : config) (index : Z) f : option config :=
  (fun l => set_cf_profiles l c) <$> update (cf_profiles c) index MAX_PTP_PROFILES f.
Definition update_port_profile (c : config) (index : Z) f : option config :=
  (fun l => set_cf_port_profiles l c) <$> update (cf_port_profiles c) index MAX_PTP_PORTS f.
Definition update_setting (c : config) (index : Z) f : option config :=
  (fun l => set_cf_settings l c) <$> update (cf_settings c) index MAX_PTP_PORTS f.

Definition gptp_get_allowed (c : config) : Z * Z :=
  (g_maxAllowedMissedResponses (cf_global c), g_maxAllowedDelayFaults (cf_global c)).
Definition gptp_get_follow_up_timeout (c : config) : Z :=
  g_followUpReceiptTimeout (cf_global c).
Definition gptp_get_initial_wait (c : config) : Z * Z * Z :=
  (g_initialSyncTimeout (cf_global c), g_waitSyncInterval (cf_global c),
   g_waitPdelayReqInterval (cf_global c)).
Definition gptp_set_initial_wait (c : config) (initial wait_sync wait_pdelay : Z) : config :=
  set_cf_global
    (set_g_waitPdelayReqInterval wait_pdelay
      (set_g_waitSyncInterval wait_sync
        (set_g_initialSyncTimeout initial (cf_global c)))) c.
Definition gptp_get_utc (c : config) : Z := g_utcOffset (cf_global c).

Definition gptp_profile_get_profile (c : config) (index : Z) : option Z :=
  pf_profile <$> profile_of c index.
Definition gptp_profile_get_sdoid (c : config) (index : Z) : option (Z * Z) :=
  (fun p => (pf_majorSDOID p, pf_minorSDOID p)) <$> profile_of c index.
Definition gptp_profile_set_sdoid (c : config) (index major minor : Z) : option config :=
  update_profile c index (fun p => set_pf_minorSDOID minor (set_pf_majorSDOID major p)).
Definition gptp_profile_get_transport (c : config) (index : Z) : option Z :=
  pf_transport <$> profile_of c index.
Definition flag_set (flags bit : Z) : Z := if Z.land flags bit =? 0 then 0 else 1.
Definition gptp_profile_get_e2e_p2p (c : config) (index : Z) : option (Z * Z) :=
  (fun p => (flag_set (pf_stackFlags p) PTP_FLAGS_E2E,
             flag_set (pf_stackFlags p) PTP_FLAGS_P2P)) <$> profile_of c index.
Definition gptp_profile_get_gm_capable (c : config) (index : Z) : option Z :=
  (fun p => flag_set (pf_stackFlags p) PTP_FLAGS_GM_CAPABLE) <$> profile_of c index.
Definition gptp_profile_get_two_step (c : config) (index : Z) : option Z :=
  (fun p => flag_set (pf_stackFlags p) PTP_FLAGS_2_STEP) <$> profile_of c index.
Definition gptp_profile_get_clock_prio (c : config) (index : Z) : option (Z * Z) :=
  (fun p => (pf_priority1 p, pf_priority2 p)) <$> profile_of c index.
Definition gptp_profile_set_clock_prio (c : config) (index prio1 prio2 : Z) : option config :=
  update_profile c index (fun p => set_pf_priority2 prio2 (set_pf_priority1 prio1 p)).
Definition gptp_profile_get_clock_prop (c : config) (index : Z) : option (Z * Z * Z) :=
  (fun p => (pf_clkClass p, pf_clkAccuracy p, pf_offsetScaledLogVariance p))
    <$> profile_of c index.
Definition gptp_profile_set_clock_prop (c : config) (index clk_class accuracy variance : Z)
    : option config :=
  update_profile c index (fun p =>
    set_pf_offsetScaledLogVariance variance
      (set_pf_clkAccuracy accuracy (set_pf_clkClass clk_class p))).
Definition gptp_profile_get_domain (c : config) (index : Z) : option (Z * Z * Z) :=
  (fun p => (pf_domain p, pf_ports p, pf_vlan p)) <$> profile_of c index.
Definition gptp_profile_set_domain (c : config) (index domain ports vlan : Z)
    : option config :=
  update_profile c index (fun p =>
    set_pf_vlan vlan (set_pf_ports ports (set_pf_domain domain p))).

Definition gptp_port_profile_get_oper (c : config) (index : Z) : option (Z * Z) :=
  (fun p => (pp_operLogSyncInterval p, pp_operLogMinPdelayReqInterval p))
    <$> port_profile_of c index.
Definition gptp_port_profile_set_oper (c : config) (index sync pdelay : Z) : option config :=
  update_port_profile c index (fun p =>
    set_pp_operLogMinPdelayReqInterval pdelay (set_pp_operLogSyncInterval sync p)).
Definition gptp_port_profile_get_delay (c : config) (index : Z) : option Z :=
  pp_logMinDelayReqInterval <$> port_profile_of c index.
Definition gptp_port_profile_set_delay (c : config) (index delay : Z) : option config :=
  update_port_profile c index (set_pp_logMinDelayReqInterval delay).
Definition gptp_port_profile_get_pdelay (c : config) (index : Z) : option Z :=
  pp_logMinPdelayReqInterval <$> port_profile_of c index.
Definition gptp_port_profile_set_pdelay (c : config) (index pdelay : Z) : option config :=
  update_port_profile c index (set_pp_logMinPdelayReqInterval pdelay).
Definition gptp_port_profile_get_announce (c : config) (index : Z) : option (Z * Z) :=
  (fun p => (pp_logAnnounceInterval p, pp_announceReceiptTimeout p))
    <$> port_profile_of c index.
Definition gptp_port_profile_set_announce (c : config) (index announce timeout : Z)
    : option config :=
  update_port_profile c index (fun p =>
    set_pp_announceReceiptTimeout timeout (set_pp_logAnnounceInterval announce p)).
Definition gptp_port_profile_get_sync (c : config) (index : Z) : option (Z * Z) :=
  (fun p => (pp_logSyncInterval p, pp_syncReceiptTimeout p)) <$> port_profile_of c index.
Definition gptp_port_profile_set_sync (c : config) (index sync timeout : Z) : option config :=
  update_port_profile c index (fun p =>
    set_pp_syncReceiptTimeout timeout (set_pp_logSyncInterval sync p)).
Definition gptp_port_profile_get_delay_thresh (c : config) (index : Z) : option Z :=
  pp_neighborPropDelayThresh <$> port_profile_of c index.
Definition gptp_port_profile_set_delay_thresh (c : config) (index pdelay : Z)
    : option config :=
  update_port_profile c index (set_pp_neighborPropDelayThresh pdelay).

Definition gptp_port_get_latency (c : config) (index : Z) : option (Z * Z * Z) :=
  (fun s => (st_receiveLatency s, st_transmitLatency s, st_delayAsymmetry s))
    <$> setting_of c index.
Definition gptp_port_set_latency (c : config) (index rx tx asym : Z) : option config :=
  update_setting c index (fun s =>
    set_st_delayAsymmetry asym (set_st_transmitLatency tx (set_st_receiveLatency rx s))).
Definition gptp_port_get_master (c : config) (index : Z) : option Z :=
  st_masterOnly <$> setting_of c index.
Definition gptp_port_set_master (c : config) (index master : Z) : option config :=
  update_setting c index (set_st_masterOnly master).
Definition gptp_port_get_peer_delay (c : config) (index : Z) : option Z :=
  st_peerDelay <$> setting_of c index.
Definition gptp_port_set_peer_delay (c : config) (index delay : Z) : option config :=
  update_setting c index (set_st_peerDelay delay).
Definition gptp_port_get_use_delay (c : config) (index : Z) : option Z :=
  st_useDelayReq <$> setting_of c index.
Definition gptp_port_set_use_delay (c : config) (index use : Z) : option config :=
  update_setting c index (set_st_useDelayReq use).

(** ** Parameters of the configuration file *)

#[local] Open Scope string_scope.
#[local] Open Scope Z_scope.

(** The global parameters, by name: how each stores the value. *)
Definition global_params : list (string * (Z -> ptp_global_cfg -> ptp_global_cfg)) :=
  [("utcOffset", fun v => set_g_utcOffset (u8 v));
   ("maxAllowedMissedResponses", fun v => set_g_maxAllowedMissedResponses (u8 v));
   ("maxAllowedDelayFaults", fun v => set_g_maxAllowedDelayFaults (u8 v));
   ("followUpReceiptTimeout", fun v => set_g_followUpReceiptTimeout (u8 v));
   ("initialSyncTimeout", fun v => set_g_initialSyncTimeout (u8 v));
   ("waitPdelayReqInterval", fun v => set_g_waitPdelayReqInterval (u8 v));
   ("waitSyncInterval", fun v => set_g_waitSyncInterval (u8 v))].

(** The chain of [strcmp]: the first entry of the name. *)
Fixpoint find_param {A} (l : list (string * A)) (param : string) : option A :=
  match l with
  | [] => None
  | (n, f) :: l => if String.eqb param n then Some f else find_param l param
  end.

Definition chk_global_param (c : config) (param : string) (val : Z) : config :=
  match find_param global_params param with
  | Some f => set_cf_global (f val (cf_global c)) c
  | None => c
  end.

(** Flag parameters: clear the bits, then set the one of the value. *)
Definition with_flags (clear bits : Z) (p : ptp_profile) : ptp_profile :=
  set_pf_stackFlags
    (u16 (Z.lor (Z.land (pf_stackFlags p) (Z.lnot clear)) bits)) p.

Definition profile_params : list (string * (Z -> ptp_profile -> ptp_profile)) :=
  [("ports", fun v => set_pf_ports (u16 v));
   ("profile", fun v => set_pf_profile (u8 v));
   ("delayMechanism", fun v =>
      with_flags (Z.lor PTP_FLAGS_E2E PTP_FLAGS_P2P)
        (if v =? 1 then PTP_FLAGS_E2E else if v =? 2 then PTP_FLAGS_P2P else 0));
   ("two_step", fun v =>
      with_flags PTP_FLAGS_2_STEP (if v =? 0 then 0 else PTP_FLAGS_2_STEP));
   ("gm_capable", fun v =>
      with_flags PTP_FLAGS_GM_CAPABLE (if v =? 0 then 0 else PTP_FLAGS_GM_CAPABLE));
   ("cmlds", fun v =>
      with_flags PTP_FLAGS_CMLDS (if v =? 0 then 0 else PTP_FLAGS_CMLDS));
   ("transport", fun v => set_pf_transport (u8 v));
   ("domain", fun v => set_pf_domain (u8 v));
   ("priority1", fun v => set_pf_priority1 (u8 v));
   ("priority2", fun v => set_pf_priority2 (u8 v));
   ("offsetScaledLogVariance", fun v => set_pf_offsetScaledLogVariance (u16 v));
   ("clkClass", fun v => set_pf_clkClass (u8 v));
   ("clkAccuracy", fun v => set_pf_clkAccuracy (u8 v));
   ("majorSDOID", fun v => set_pf_majorSDOID (u8 v));
   ("minorSDOID", fun v => set_pf_minorSDOID (u8 v));
   ("vlan", fun v => set_pf_vlan (u16 v))].

Definition chk_profile_param (c : config) (index : Z) (param : string) (val : Z) : config :=
  match find_param profile_params param with
  | Some f => default c (update_profile c index (f val))
  | None => c
  end.

Definition port_profile_params
    : list (string * (Z -> ptp_port_profile -> ptp_port_profile)) :=
  [("announceReceiptTimeout", fun v => set_pp_announceReceiptTimeout (u8 v));
   ("syncReceiptTimeout", fun v => set_pp_syncReceiptTimeout (u8 v));
   ("logSyncInterval", fun v => set_pp_logSyncInterval (s8 v));
   ("logAnnounceInterval", fun v => set_pp_logAnnounceInterval (s8 v));
   ("logMinDelayReqInterval", fun v => set_pp_logMinDelayReqInterval (s8 v));
   ("logMinPdelayReqInterval", fun v => set_pp_logMinPdelayReqInterval (s8 v));
   ("operLogSyncInterval", fun v => set_pp_operLogSyncInterval (s8 v));
   ("operLogMinPdelayReqInterval", fun v => set_pp_operLogMinPdelayReqInterval (s8 v));
   ("neighborPropDelayThresh", fun v => set_pp_neighborPropDelayThresh (u16 v))].

Definition setting_params : list (string * (Z -> ptp_port_setting -> ptp_port_setting)) :=
  [("receiveLatency", fun v => set_st_receiveLatency (u16 v));
   ("transmitLatency", fun v => set_st_transmitLatency (u16 v));
   ("delayAsymmetry", fun v => set_st_delayAsymmetry (s16 v));
   ("peerDelay", fun v => set_st_peerDelay (u16 v));
   ("masterOnly", fun v => set_st_masterOnly (u8 v));
   ("useDelayReq", fun v => set_st_useDelayReq (u8 v))].

(** [for (index = first; index < last; index++)] on the table. *)
Definition update_range {A} (first last : Z) (f : A -> A) (l : list A) : list A :=
  imap (fun i x => if (first <=? Z.of_nat i) && (Z.of_nat i <? last) then f x else x) l.

(** Index 0 stands for all ports. *)
Definition chk_port_param (c : config) (index : Z) (param : string) (val : Z) : config :=
  let '(index, ok) := chk_index index MAX_PTP_PORTS in
  let range :=
    if negb ok && (index =? 0) then Some (0, MAX_PTP_PORTS)
    else if ok then Some (index, index + 1) else None in
  match range with
  | None => c
  | Some (first, last) =>
      match find_param port_profile_params param, find_param setting_params param with
      | Some f, _ =>
          set_cf_port_profiles (update_range first last (f val) (cf_port_profiles c)) c
      | None, Some f =>
          set_cf_settings (update_range first last (f val) (cf_settings c)) c
      | None, None => c
      end
  end.

(** ** Reading the file

    [sscanf] on a line: [%s] skips white space and reads a word, a space in the
    format skips white space, [%d], [%u] and [%x] read a signed number with
    saturation, as the C library of the target does. *)

Definition is_space (a : ascii) : bool :=
  let n := Z.of_N (N_of_ascii a) in (n =? 32) || ((9 <=? n) && (n <=? 13)).

Fixpoint skip_ws (l : list ascii) : list ascii :=
  match l with
  | a :: r => if is_space a then skip_ws r else l
  | [] => []
  end.

Fixpoint word (l : list ascii) : list ascii * list ascii :=
  match l with
  | a :: r => if is_space a then ([], l)
              else let '(w, t) := word r in (a :: w, t)
  | [] => ([], [])
  end.

Definition scan_s (l : list ascii) : option (string * list ascii) :=
  match word (skip_ws l) with
  | ([], _) => None
  | (w, r) => Some (String.string_of_list_ascii w, r)
  end.

Definition digit (base : Z) (a : ascii) : option Z :=
  let n := Z.of_N (N_of_ascii a) in
  let v := if (48 <=? n) && (n <=? 57) then n - 48
           else if (97 <=? n) && (n <=? 102) then n - 87
           else if (65 <=? n) && (n <=? 70) then n - 55 else 99 in
  if v <? base then Some v else None.

(** The number the digits of [l] give, if there is one. *)
Fixpoint digits (base : Z) (acc : option Z) (l : list ascii) : option Z :=
  match l with
  | a :: l =>
      match digit base a with
      | Some d => digits base (Some (default 0 acc * base + d)) l
      | None => acc
      end
  | [] => acc
  end.

Definition sign (l : list ascii) : bool * list ascii :=
  match l with
  | "-"%char :: r => (true, r)
  | "+"%char :: r => (false, r)
  | _ => (false, l)
  end.

Definition hex_prefix (l : list ascii) : list ascii :=
  match l with
  | "0"%char :: "x"%char :: a :: r | "0"%char :: "X"%char :: a :: r =>
      match digit 16 a with Some _ => a :: r | None => l end
  | _ => l
  end.

(** [%d] saturates to the range of [long], [%u] and [%x] to that of
    [unsigned long]; the result is stored in an [int]. *)
Definition scan_d (l : list ascii) : option Z :=
  let '(neg, l) := sign (skip_ws l) in
  v ← digits 10 None l;
  Some (if neg : bool then Z.max (- 2 ^ 31) (- v) else Z.min (2 ^ 31 - 1) v).
Definition scan_unsigned (base : Z) (l : list ascii) : option Z :=
  let '(neg, l) := sign (skip_ws l) in
  let l := if base =? 16 then hex_prefix l else l in
  v ← digits base None l;
  Some (if v >? 2 ^ 32 - 1 then s32 (2 ^ 32 - 1)
        else if neg : bool then s32 (- v) else s32 v).

(** ["%s 0x%x"], ["%s %d"], ["%s %u"], ["%s %s"]: both items or nothing. *)
Definition sscanf_hex (l : list ascii) : option (string * Z) :=
  '(param, r) ← scan_s l;
  match skip_ws r with
  | "0"%char :: "x"%char :: r => v ← scan_unsigned 16 r; Some (param, v)
  | _ => None
  end.
Definition sscanf_dec (l : list ascii) : option (string * Z) :=
  '(param, r) ← scan_s l; v ← scan_d r; Some (param, v).
Definition sscanf_u (l : list ascii) : option (string * Z) :=
  '(param, r) ← scan_s l; v ← scan_unsigned 10 r; Some (param, v).
Definition sscanf_str (l : list ascii) : option (string * string) :=
  '(param, r) ← scan_s l; '(s, _) ← scan_s r; Some (param, s).

(** [strchr], [strstr]. *)
Fixpoint strchr (l : list ascii) (c : ascii) : option (list ascii) :=
  match l with
  | [] => None
  | a :: r => if Ascii.eqb a c then Some l else strchr r c
  end.
Fixpoint prefix_of_list (p l : list ascii) : bool :=
  match p, l with
  | [], _ => true
  | a :: p, b :: l => Ascii.eqb a b && prefix_of_list p l
  | _, _ => false
  end.
Fixpoint strstr (l p : list ascii) : bool :=
  prefix_of_list p l || match l with [] => false | _ :: r => strstr r p end.

Fixpoint until (c : ascii) (l : list ascii) : list ascii :=
  match l with
  | a :: r => if Ascii.eqb a c then [] else a :: until c r
  | [] => []
  end.

(** The configuration and the section the lines belong to. *)
Record reader := mk_reader { r_config : config; r_port : Z; r_profile : Z }.

Definition strval_value (strval : string) : Z :=
  if String.eqb strval "E2E" then 1
  else if String.eqb strval "P2P" then 2
  else if String.eqb strval "L2" then 0
  else if String.eqb strval "UDP" then 1
  else if String.eqb strval "UDPv6" then 2 else 0.

Definition set_param (r : reader) (param : string) (val : Z) : reader :=
  let c := r_config r in
  let c :=
    if r_port r >=? 0 then chk_port_param c (u8 (r_port r)) param val
    else if r_profile r >=? 0 then chk_profile_param c (u8 (r_profile r)) param val
    else chk_global_param c param val in
  mk_reader c (r_port r) (r_profile r).

(** A section header: the text after the bracket. *)
Definition read_section (r : reader) (rest : list ascii) : reader :=
  let param := until "]"%char (take 79 rest) in
  if strstr param (String.list_ascii_of_string "port") then
    match sscanf_u param with
    | Some (_, val) => mk_reader (r_config r) val (r_profile r)
    | None => r
    end
  else if String.eqb (String.string_of_list_ascii param) "global" then
    mk_reader (r_config r) (-1) (-1)
  else if strstr param (String.list_ascii_of_string "profile") then
    match sscanf_u param with
    | Some (_, val) => mk_reader (r_config r) (-1) val
    | None => r
    end
  else r.

Definition read_line (r : reader) (line : string) : reader :=
  let l := String.list_ascii_of_string line in
  match strchr l "["%char with
  | Some rest => read_section r (tail rest)
  | None =>
      match sscanf_hex l with
      | Some (param, val) => set_param r param val
      | None =>
          match sscanf_dec l with
          | Some (param, val) => set_param r param val
          | None =>
              match sscanf_str l with
              | Some (param, strval) => set_param r param (strval_value strval)
              | None => r
              end
          end
      end
  end.

(** All ports start as the first one. *)
Definition copy_first {A} (l : list A) : list A :=
  match l with [] => [] | x :: r => x :: (const x <$> r) end.

(** [file] holds the lines [fgets] reads, [None] when the file cannot be
    opened. *)
Definition init_config (c : config) (file : option (list string)) : Z * config :=
  let c := set_cf_port_profiles (copy_first (cf_port_profiles c)) c in
  let c := set_cf_settings (copy_first (cf_settings c)) c in
  match file with
  | None => (-1, c)
  | Some lines => (0, r_config (fold_left read_line lines (mk_reader c (-1) (-1))))
  end.

(** * Properties *)

(** ** Every field stays in its C type *)

Definition in_u (w z : Z) : Prop := 0 <= z < 2 ^ w.
Definition in_s (w z : Z) : Prop := - 2 ^ (w - 1) <= z < 2 ^ (w - 1).

Definition global_wf (g : ptp_global_cfg) : Prop :=
  in_u 8 (g_utcOffset g) /\ in_u 8 (g_maxAllowedMissedResponses g) /\
  in_u 8 (g_maxAllowedDelayFaults g) /\ in_u 8 (g_followUpReceiptTimeout g) /\
  in_u 8 (g_initialSyncTimeout g) /\ in_u 8 (g_waitPdelayReqInterval g) /\
  in_u 8 (g_waitSyncInterval g).
Definition profile_wf (p : ptp_profile) : Prop :=
  in_u 16 (pf_ports p) /\ in_u 16 (pf_stackFlags p) /\ in_u 8 (pf_profile p) /\
  in_u 8 (pf_transport p) /\ in_u 8 (pf_domain p) /\ in_u 8 (pf_priority1 p) /\
  in_u 8 (pf_priority2 p) /\ in_u 16 (pf_offsetScaledLogVariance p) /\
  in_u 8 (pf_clkClass p) /\ in_u 8 (pf_clkAccuracy p) /\ in_u 8 (pf_majorSDOID p) /\
  in_u 8 (pf_minorSDOID p) /\ in_u 16 (pf_vlan p).
Definition port_profile_wf (p : ptp_port_profile) : Prop :=
  in_u 8 (pp_announceReceiptTimeout p) /\ in_u 8 (pp_syncReceiptTimeout p) /\
  in_s 8 (pp_logSyncInterval p) /\ in_s 8 (pp_logAnnounceInterval p) /\
  in_s 8 (pp_logMinDelayReqInterval p) /\ in_s 8 (pp_logMinPdelayReqInterval p) /\
  in_s 8 (pp_operLogSyncInterval p) /\ in_s 8 (pp_operLogMinPdelayReqInterval p) /\
  in_u 16 (pp_neighborPropDelayThresh p).
Definition setting_wf (s : ptp_port_setting) : Prop :=
  in_u 16 (st_receiveLatency s) /\ in_u 16 (st_transmitLatency s) /\
  in_s 16 (st_delayAsymmetry s) /\ in_u 16 (st_peerDelay s) /\
  in_u 8 (st_masterOnly s) /\ in_u 8 (st_useDelayReq s).

(** The tables keep their sizes and their entries are well formed. *)
Definition config_wf (c : config) : Prop :=
  global_wf (cf_global c) /\
  (length (cf_profiles c) = 3%nat /\ Forall profile_wf (cf_profiles c)) /\
  (length (cf_port_profiles c) = 8%nat /\ Forall port_profile_wf (cf_port_profiles c)) /\
  (length (cf_settings c) = 8%nat /\ Forall setting_wf (cf_settings c)).

Lemma in_u_uN w z : 0 <= w -> in_u w (uN w z).
Proof. apply uN_range. Qed.
Lemma in_s_sN w z : 0 < w -> in_s w (sN w z).
Proof. apply sN_range. Qed.

(** One well-formedness step of the parameter tables. *)
Definition keeps {A} (P : A -> Prop) (f : Z -> A -> A) : Prop :=
  forall v x, P x -> P (f v x).

Lemma find_param_In {A} (l : list (String.string * A)) n f :
  find_param l n = Some f -> In f (snd <$> l).
Proof.
  induction l as [|[n' g] l IH]; simpl; [done|].
  destruct (String.eqb n n'); [intros [= ->]; by left|]. intros. right. by apply IH.
Qed.

Lemma find_param_keeps {A} (P : A -> Prop) l n f :
  Forall (keeps P) (snd <$> l) -> find_param l n = Some f -> keeps P f.
Proof. rewrite List.Forall_forall. intros H E. apply H, find_param_In with n, E. Qed.

Ltac params_wf :=
  apply List.Forall_forall; intros f Hf; simpl in Hf;
  repeat destruct Hf as [<-|Hf]; try destruct Hf;
  intros v []; cbv [global_wf profile_wf port_profile_wf setting_wf with_flags]; simpl;
  intros Hx; destruct_and? Hx; split_and?; auto;
  first [by apply in_u_uN | by apply in_s_sN].

Lemma global_params_wf : Forall (keeps global_wf) (snd <$> global_params).
Proof.
  params_wf.
Qed.
Lemma profile_params_wf : Forall (keeps profile_wf) (snd <$> profile_params).
Proof.
  params_wf.
Qed.
Lemma port_profile_params_wf : Forall (keeps port_profile_wf) (snd <$> port_profile_params).
Proof.
  params_wf.
Qed.
Lemma setting_params_wf : Forall (keeps setting_wf) (snd <$> setting_params).
Proof.
  params_wf.
Qed.

Lemma update_wf {A} (P : A -> Prop) l i m f l' :
  (forall x, P x -> P (f x)) -> Forall P l -> update l i m f = Some l' ->
  length l' = length l /\ Forall P l'.
Proof.
  unfold update. intros Hf Hl. destruct (chk_index i m) as [j ok]. destruct ok; [|done].
  intros [= <-]. split; [apply length_alter|]. by apply Forall_alter; [|auto].
Qed.

Lemma update_range_wf {A} (P : A -> Prop) a b f (l : list A) :
  (forall x, P x -> P (f x)) -> Forall P l ->
  length (update_range a b f l) = length l /\ Forall P (update_range a b f l).
Proof.
  unfold update_range. intros Hf Hl. split; [apply length_imap|].
  apply Forall_lookup. intros i x. rewrite list_lookup_imap.
  destruct (l !! i) as [y|] eqn:E; [|done]. simpl. intros [= <-].
  rewrite Forall_lookup in Hl. specialize (Hl _ _ E).
  by destruct (_ && _); [apply Hf|].
Qed.

Lemma set_param_wf r n v : config_wf (r_config r) -> config_wf (r_config (set_param r n v)).
Proof.
  destruct r as [[g ps pps ss] port pro]. unfold set_param, config_wf. simpl.
  intros (Hg & [Hp1 Hp2] & [Hq1 Hq2] & [Hs1 Hs2]).
  destruct (port >=? 0); [|destruct (pro >=? 0)].
  - unfold chk_port_param. destruct (chk_index _ _) as [i ok].
    destruct (if _ : bool then _ else _) as [[a b]|]; [|done].
    destruct (find_param port_profile_params n) as [f|] eqn:E;
      [|destruct (find_param setting_params n) as [f|] eqn:E2; [|done]]; simpl.
    + destruct (update_range_wf port_profile_wf a b (f v) pps) as [E1 ?]; [|done|].
      { intros x. apply (find_param_keeps _ _ _ _ port_profile_params_wf E). }
      by rewrite E1.
    + destruct (update_range_wf setting_wf a b (f v) ss) as [E1 ?]; [|done|].
      { intros x. apply (find_param_keeps _ _ _ _ setting_params_wf E2). }
      by rewrite E1.
  - unfold chk_profile_param. destruct (find_param _ _) as [f|] eqn:E; [|done].
    unfold update_profile. destruct (update _ _ _ _) as [l|] eqn:E2; simpl; [|done].
    apply (update_wf profile_wf) in E2 as [E2 ?]; [simpl in E2; rewrite E2; done| |done].
    intros x. apply (find_param_keeps _ _ _ _ profile_params_wf E).
  - unfold chk_global_param. destruct (find_param _ _) as [f|] eqn:E; [|done]. simpl.
    split_and!; try done. by apply (find_param_keeps _ _ _ _ global_params_wf E).
Qed.

Lemma read_line_wf r line : config_wf (r_config r) -> config_wf (r_config (read_line r line)).
Proof.
  unfold read_line, read_section. intros H.
  repeat match goal with
  | |- context [match ?x with _ => _ end] => destruct x
  | |- context [if ?x then _ else _] => destruct x
  end; auto; by apply (set_param_wf r).
Qed.

Lemma config_default_wf : config_wf (snd (init_config config0 None)).
Proof.
  unfold config_wf, global_wf. split_and!; try done; try (split; done); simpl;
    repeat (apply Forall_cons; split); try apply Forall_nil; try done;
    unfold profile_wf, port_profile_wf, setting_wf, in_u, in_s; simpl; lia.
Qed.



(** ** Reading back what was printed *)

(** A name [%s] reads as one word, without a bracket. *)
Definition plain (a : ascii) : bool := negb (is_space a) && negb (Ascii.eqb a "["%char).
Definition plain_name (n : String.string) : Prop :=
  n <> ""%string /\ forallb plain (String.list_ascii_of_string n) = true.

(** The line ["<name> <value>"], the value printed in decimal. *)
Definition config_line (n : String.string) (v : Z) : String.string :=
  (n +:+ " " +:+ pretty v)%string.

Abbreviation chars := String.list_ascii_of_string.

Lemma chars_app a b : chars (a +:+ b)%string = (chars a ++ chars b)%list.
Proof. induction a as [|x a IH]; simpl; [done|]. by f_equal. Qed.

Lemma chars_back n : String.string_of_list_ascii (chars n) = n.
Proof. apply String.string_of_list_ascii_of_string. Qed.

Lemma digit_pretty d : (d < 10)%N -> digit 10 (pretty_N_char d) = Some (Z.of_N d).
Proof.
  intros H. assert (In d [0;1;2;3;4;5;6;7;8;9]%N) as Hi.
  { simpl. lia. }
  simpl in Hi. repeat destruct Hi as [<-|Hi]; done.
Qed.

(** The digits of a printed natural number are read back as the number. *)
Lemma digits_pretty_go x s acc :
  (0 < x)%N -> acc = None ->
  digits 10 acc (chars (pretty_N_go x s)) = digits 10 (Some (Z.of_N x)) (chars s).
Proof.
  intros Hx ->. revert s. induction (N.lt_wf_0 x) as [x _ IH]. intros s.
  rewrite pretty_N_go_step by done.
  destruct (decide (x / 10 = 0)%N) as [E|E].
  - rewrite E, pretty_N_go_0. simpl. rewrite digit_pretty by (apply N.mod_lt; lia).
    simpl. do 2 f_equal. pose proof (N.div_mod x 10). lia.
  - rewrite IH; [|apply N.div_lt; lia|by apply N.neq_0_lt_0]. simpl.
    rewrite digit_pretty by (apply N.mod_lt; lia). simpl. do 2 f_equal.
    pose proof (N.div_mod x 10). lia.
Qed.

Lemma digit_char d : (d < 10)%N -> plain (pretty_N_char d) = true.
Proof.
  intros H. assert (In d [0;1;2;3;4;5;6;7;8;9]%N) as Hi by (simpl; lia).
  simpl in Hi. repeat destruct Hi as [<-|Hi]; done.
Qed.

(** A printed positive number starts with a digit that is not zero. *)
Lemma pretty_go_head x s :
  (0 < x)%N -> exists d r, (0 < d < 10)%N /\ chars (pretty_N_go x s) = pretty_N_char d :: r /\
    forallb plain r = forallb plain (chars s).
Proof.
  revert s. induction (N.lt_wf_0 x) as [x _ IH]. intros s Hx.
  rewrite pretty_N_go_step by done.
  destruct (decide (x / 10 = 0)%N) as [E|E].
  - rewrite E, pretty_N_go_0. exists (x mod 10)%N, (chars s). split_and!; [|apply N.mod_lt; lia|done..].
    pose proof (N.div_mod x 10). lia.
  - destruct (IH (x / 10)%N) with (s := String.String (pretty_N_char (x mod 10)) s)
      as (d & r & Hd & E1 & E2); [apply N.div_lt; lia|by apply N.neq_0_lt_0|].
    exists d, r. split_and!; try tauto. rewrite E2. cbn [chars forallb].
    by rewrite digit_char by (apply N.mod_lt; lia).
Qed.

(** What [%d] needs to know of a printed number. *)
Lemma pretty_scan v :
  exists a r, chars (pretty v) = a :: r /\ forallb plain (a :: r) = true /\
    (a = "0"%char -> r = []) /\
    (- 2 ^ 31 <= v < 2 ^ 31 -> scan_d (a :: r) = Some v).
Proof.
  destruct v as [|p|p].
  - by exists "0"%char, [].
  - change (chars (pretty (Z.pos p))) with (chars (pretty_N_go (N.pos p) "")).
    destruct (pretty_go_head (N.pos p) "") as (d & r & Hd & E & Hr); [lia|].
    pose proof (digits_pretty_go (N.pos p) "" None ltac:(lia) eq_refl) as Hg.
    rewrite E in *. exists (pretty_N_char d), r. split_and!; [done| | |].
    + simpl. rewrite digit_char by lia. by rewrite Hr.
    + assert (In d [1;2;3;4;5;6;7;8;9]%N) as Hi by (simpl; lia). clear -Hi.
      simpl in Hi. repeat destruct Hi as [<-|Hi]; done.
    + intros Hv. unfold scan_d.
      assert (skip_ws (pretty_N_char d :: r) = pretty_N_char d :: r /\
              sign (pretty_N_char d :: r) = (false, pretty_N_char d :: r)) as [-> ->].
      { assert (In d [1;2;3;4;5;6;7;8;9]%N) as Hi by (simpl; lia). clear -Hi.
        simpl in Hi. repeat destruct Hi as [<-|Hi]; done. }
      rewrite Hg. simpl. f_equal. lia.
  - change (chars (pretty (Z.neg p))) with ("-"%char :: chars (pretty_N_go (N.pos p) "")).
    destruct (pretty_go_head (N.pos p) "") as (d & r & Hd & E & Hr); [lia|].
    pose proof (digits_pretty_go (N.pos p) "" None ltac:(lia) eq_refl) as Hg.
    exists "-"%char, (chars (pretty_N_go (N.pos p) "")). split_and!; [done| |done|].
    + rewrite E. simpl. rewrite digit_char by lia. by rewrite Hr.
    + intros Hv. unfold scan_d. simpl. rewrite Hg. simpl. f_equal. lia.
Qed.

Lemma strchr_plain l : Forall (fun a => a <> "["%char) l -> strchr l "["%char = None.
Proof.
  induction 1 as [|a l Ha _ IH]; simpl; [done|].
  destruct (Ascii.eqb_spec a "["%char); done.
Qed.

Lemma plain_Forall l : forallb plain l = true -> Forall (fun a => a <> "["%char) l.
Proof.
  rewrite forallb_forall, Forall_forall. intros H a Ha ->.
  specialize (H _ ltac:(by apply list_elem_of_In)). done.
Qed.

Lemma word_plain l r :
  forallb plain l = true -> word (l ++ " "%char :: r)%list = (l, " "%char :: r).
Proof.
  induction l as [|a l IH]; simpl; [done|].
  intros [[? _]%andb_prop Hl]%andb_prop. rewrite IH by done.
  by destruct (is_space a).
Qed.

Lemma scan_s_plain n r :
  plain_name n -> scan_s (chars n ++ " "%char :: r)%list = Some (n, " "%char :: r).
Proof.
  intros [Hn Hp]. unfold scan_s. destruct n as [|a n]; [done|].
  replace (skip_ws _) with (chars (String.String a n) ++ " "%char :: r)%list.
  - rewrite word_plain by done. by rewrite <- (chars_back (String.String a n)) at 2.
  - simpl in *. apply andb_prop in Hp as [[Ha _]%andb_prop _]. by destruct (is_space a).
Qed.


