(* ===== verification/World.v ===== *)
(** * The state of the stack

    The objects the handlers share: ports, clocks, messages, timers, works,
    the message queue, the global variables, and what the stack does to its
    environment.  A handler is a state transformer on a [world]; it is
    undefined ([UB]) where the C code is. *)

From stdpp Require Import base list numbers option gmap.
From Stdlib Require Import ZArith Lia SpecFloat.
From S2P Require Import Prelude Ptu Filter Servo Types Bmca Wire ConfigStore.

(** ** Integer fields

    The integer fields of a structure are the values of a map from the names
    of the fields; storing converts to the type of the field. *)

Inductive cty := CU (w : Z) | CS (w : Z).
Definition conv (t : cty) (z : Z) : Z :=
  match t with CU w => uN w z | CS w => sN w z end.

(** Enumerations with a decidable equality that computes on their numbers. *)
Class Tagged (A : Type) := mk_tagged {
  tag_of : A -> nat; of_tag : nat -> A; of_tag_of : forall x, of_tag (tag_of x) = x }.

#[export] Instance tagged_eq_dec {A} {H : Tagged A} : EqDecision A.
Proof.
  intros x y. destruct (Nat.eq_dec (tag_of x) (tag_of y)) as [E|E].
  - left. by rewrite <- (of_tag_of x), <- (of_tag_of y), E.
  - right. congruence.
Defined.

(** The integer fields of [struct ptp_port]; [ds_x] is [ds.x]. *)
Module P.
Inductive t :=
  | index | peer_index | portmap | id | gptp | gptp_auto | gptp_slave | p2p_two_step |
  sync_two_step | path_trace | follow_up_tlv | peer_resp | peer_valid | no_id_check |
  no_id_replace | report_announce | report_mismatched | report_pdelay | report_ready |
  report_ready_done | report_resp | report_signal | report_sync | as_capable |
  as_capable_set | no_capable | no_link | p2p | use_delay | use_one_way_resp |
  allow_multi_resp | mult_resp | neighborDelayThresh | ds_port | ds_logMinDelayReqInterval |
  ds_peerMeanPathDelay | ds_logAnnounceInterval | ds_announceReceiptTimeout |
  ds_logSyncInterval | ds_logMinPdelayReqInterval | ds_versionNumber |
  initialPdelayReqInterval | operPdelayReqInterval | initialSyncInterval | operSyncInterval
  | pdelay_req_interval | logSyncInterval | rx_latency | tx_latency | asym_delay |
  initialSyncTimeout | waitPdelayReqInterval | waitSyncInterval | seqid_ann |
  seqid_delay_req | seqid_sync | seqid_signal | as_capable_err | resp_missing | resp_cnt |
  resp_fup_cnt | mult_resp_cnt | mult_resp_fup_cnt | cnt_delay_req | cnt_sync_rx |
  cnt_delay_resp | cnt_sync_tx | cnt_fup_tx | max_sync_tx | delay_interval | last_fault.
Definition tag (f : t) : nat :=
  match f with
  | index => 0 | peer_index => 1 | portmap => 2 | id => 3 | gptp => 4 | gptp_auto => 5 |
  gptp_slave => 6 | p2p_two_step => 7 | sync_two_step => 8 | path_trace => 9 | follow_up_tlv
  => 10 | peer_resp => 11 | peer_valid => 12 | no_id_check => 13 | no_id_replace => 14 |
  report_announce => 15 | report_mismatched => 16 | report_pdelay => 17 | report_ready => 18
  | report_ready_done => 19 | report_resp => 20 | report_signal => 21 | report_sync => 22 |
  as_capable => 23 | as_capable_set => 24 | no_capable => 25 | no_link => 26 | p2p => 27 |
  use_delay => 28 | use_one_way_resp => 29 | allow_multi_resp => 30 | mult_resp => 31 |
  neighborDelayThresh => 32 | ds_port => 33 | ds_logMinDelayReqInterval => 34 |
  ds_peerMeanPathDelay => 35 | ds_logAnnounceInterval => 36 | ds_announceReceiptTimeout =>
  37 | ds_logSyncInterval => 38 | ds_logMinPdelayReqInterval => 39 | ds_versionNumber => 40
  | initialPdelayReqInterval => 41 | operPdelayReqInterval => 42 | initialSyncInterval => 43
  | operSyncInterval => 44 | pdelay_req_interval => 45 | logSyncInterval => 46 | rx_latency
  => 47 | tx_latency => 48 | asym_delay => 49 | initialSyncTimeout => 50 |
  waitPdelayReqInterval => 51 | waitSyncInterval => 52 | seqid_ann => 53 | seqid_delay_req
  => 54 | seqid_sync => 55 | seqid_signal => 56 | as_capable_err => 57 | resp_missing => 58
  | resp_cnt => 59 | resp_fup_cnt => 60 | mult_resp_cnt => 61 | mult_resp_fup_cnt => 62 |
  cnt_delay_req => 63 | cnt_sync_rx => 64 | cnt_delay_resp => 65 | cnt_sync_tx => 66 |
  cnt_fup_tx => 67 | max_sync_tx => 68 | delay_interval => 69 | last_fault => 70
  end.
Definition all : list t :=
  [index; peer_index; portmap; id; gptp; gptp_auto; gptp_slave; p2p_two_step; sync_two_step;
   path_trace; follow_up_tlv; peer_resp; peer_valid; no_id_check; no_id_replace;
   report_announce; report_mismatched; report_pdelay; report_ready; report_ready_done;
   report_resp; report_signal; report_sync; as_capable; as_capable_set; no_capable; no_link;
   p2p; use_delay; use_one_way_resp; allow_multi_resp; mult_resp; neighborDelayThresh;
   ds_port; ds_logMinDelayReqInterval; ds_peerMeanPathDelay; ds_logAnnounceInterval;
   ds_announceReceiptTimeout; ds_logSyncInterval; ds_logMinPdelayReqInterval;
   ds_versionNumber; initialPdelayReqInterval; operPdelayReqInterval; initialSyncInterval;
   operSyncInterval; pdelay_req_interval; logSyncInterval; rx_latency; tx_latency;
   asym_delay; initialSyncTimeout; waitPdelayReqInterval; waitSyncInterval; seqid_ann;
   seqid_delay_req; seqid_sync; seqid_signal; as_capable_err; resp_missing; resp_cnt;
   resp_fup_cnt; mult_resp_cnt; mult_resp_fup_cnt; cnt_delay_req; cnt_sync_rx;
   cnt_delay_resp; cnt_sync_tx; cnt_fup_tx; max_sync_tx; delay_interval; last_fault].
Definition ty (f : t) : cty :=
  match f with
  | index | peer_index | ds_announceReceiptTimeout | ds_versionNumber | resp_missing |
  resp_cnt | resp_fup_cnt | mult_resp_cnt | mult_resp_fup_cnt | cnt_delay_resp | cnt_sync_tx
  | cnt_fup_tx | max_sync_tx => CU 8
  | portmap | id | ds_port | rx_latency | tx_latency | initialSyncTimeout |
  waitPdelayReqInterval | waitSyncInterval | seqid_ann | seqid_delay_req | seqid_sync |
  seqid_signal | as_capable_err | cnt_delay_req | cnt_sync_rx => CU 16
  | report_mismatched => CU 2
  | neighborDelayThresh | delay_interval | last_fault => CS 32
  | ds_logMinDelayReqInterval | ds_logAnnounceInterval | ds_logSyncInterval |
  ds_logMinPdelayReqInterval | initialPdelayReqInterval | operPdelayReqInterval |
  initialSyncInterval | operSyncInterval | pdelay_req_interval | logSyncInterval => CS 8
  | ds_peerMeanPathDelay => CS 64
  | asym_delay => CS 16
  | _ => CU 1
  end.
End P.
#[export] Instance tagged_P : Tagged P.t.
Proof. refine (mk_tagged _ P.tag (fun n => nth n P.all P.index) _). by intros []. Defined.

(** The integer fields of [struct ptp_clock]. *)
Module C.
Inductive t :=
  | cfg_index | cnt | index | domain | specific | transport | ports | vid | live_ports |
  portmap | logAnnounceInterval | logSyncInterval | announceReceiptTimeout |
  syncReceiptTimeout | fupReceiptTimeout | rx_fup_seqid | rx_sync_seqid | tx_fup_seqid |
  tx_sync_seqid | utc_offset | residence | time_source | ann_max | sync_max | ann_cnt |
  sync_cnt | time_cnt | no_announce | sync_timeout | sync_timeout_ready | setup | stop |
  tx_sync | miss_sync | miss_fup | signaling | first_sync | report_sync | report_link |
  req_interval | set_interval_force | last_sync_jiffies | last_sync_time_jiffies |
  oper_sync_jiffies | prev_sync_jiffies | set_sync_timeout_jiffies.
Definition tag (f : t) : nat :=
  match f with
  | cfg_index => 0 | cnt => 1 | index => 2 | domain => 3 | specific => 4 | transport => 5 |
  ports => 6 | vid => 7 | live_ports => 8 | portmap => 9 | logAnnounceInterval => 10 |
  logSyncInterval => 11 | announceReceiptTimeout => 12 | syncReceiptTimeout => 13 |
  fupReceiptTimeout => 14 | rx_fup_seqid => 15 | rx_sync_seqid => 16 | tx_fup_seqid => 17 |
  tx_sync_seqid => 18 | utc_offset => 19 | residence => 20 | time_source => 21 | ann_max =>
  22 | sync_max => 23 | ann_cnt => 24 | sync_cnt => 25 | time_cnt => 26 | no_announce => 27
  | sync_timeout => 28 | sync_timeout_ready => 29 | setup => 30 | stop => 31 | tx_sync => 32
  | miss_sync => 33 | miss_fup => 34 | signaling => 35 | first_sync => 36 | report_sync =>
  37 | report_link => 38 | req_interval => 39 | set_interval_force => 40 | last_sync_jiffies
  => 41 | last_sync_time_jiffies => 42 | oper_sync_jiffies => 43 | prev_sync_jiffies => 44 |
  set_sync_timeout_jiffies => 45
  end.
Definition all : list t :=
  [cfg_index; cnt; index; domain; specific; transport; ports; vid; live_ports; portmap;
   logAnnounceInterval; logSyncInterval; announceReceiptTimeout; syncReceiptTimeout;
   fupReceiptTimeout; rx_fup_seqid; rx_sync_seqid; tx_fup_seqid; tx_sync_seqid; utc_offset;
   residence; time_source; ann_max; sync_max; ann_cnt; sync_cnt; time_cnt; no_announce;
   sync_timeout; sync_timeout_ready; setup; stop; tx_sync; miss_sync; miss_fup; signaling;
   first_sync; report_sync; report_link; req_interval; set_interval_force;
   last_sync_jiffies; last_sync_time_jiffies; oper_sync_jiffies; prev_sync_jiffies;
   set_sync_timeout_jiffies].
Definition ty (f : t) : cty :=
  match f with
  | ports | vid | live_ports | portmap | tx_fup_seqid | tx_sync_seqid | time_cnt => CU 16
  | logAnnounceInterval | logSyncInterval => CS 8
  | rx_fup_seqid | rx_sync_seqid => CS 32
  | utc_offset => CS 16
  | residence => CS 64
  | no_announce | sync_timeout | sync_timeout_ready | setup | stop | tx_sync | miss_sync |
  miss_fup | signaling | first_sync | report_sync | report_link | req_interval |
  set_interval_force => CU 1
  | last_sync_jiffies | last_sync_time_jiffies | oper_sync_jiffies | prev_sync_jiffies |
  set_sync_timeout_jiffies => CU 32
  | _ => CU 8
  end.
End C.
#[export] Instance tagged_C : Tagged C.t.
Proof. refine (mk_tagged _ C.tag (fun n => nth n C.all C.cfg_index) _). by intros []. Defined.

(** The global variables of the stack. *)
Module G.
Inductive t :=
  | allowed_lost_responses | allowed_pdelay_faults | ptp_stack_gptp | ptp_stack_slave_port |
  ptp_stack_gm_capable | ptp_stack_2step | ptp_stack_e2e | ptp_stack_p2p | spec |
  automotive_test_mode | avtpdu_seqid.
Definition tag (f : t) : nat :=
  match f with
  | allowed_lost_responses => 0 | allowed_pdelay_faults => 1 | ptp_stack_gptp => 2 |
  ptp_stack_slave_port => 3 | ptp_stack_gm_capable => 4 | ptp_stack_2step => 5 |
  ptp_stack_e2e => 6 | ptp_stack_p2p => 7 | spec => 8 | automotive_test_mode => 9 |
  avtpdu_seqid => 10
  end.
Definition all : list t :=
  [allowed_lost_responses; allowed_pdelay_faults; ptp_stack_gptp; ptp_stack_slave_port;
   ptp_stack_gm_capable; ptp_stack_2step; ptp_stack_e2e; ptp_stack_p2p; spec;
   automotive_test_mode; avtpdu_seqid].
Definition ty (f : t) : cty :=
  match f with
  | avtpdu_seqid => CU 16
  | _ => CU 8
  end.
End G.
#[export] Instance tagged_G : Tagged G.t.
Proof. refine (mk_tagged _ G.tag (fun n => nth n G.all G.allowed_lost_responses) _). by intros []. Defined.

(** The [struct ptp_msg_info] members of a port. *)
Module I.
Inductive t :=
  | tx_sync | tx_delay_req | tx_pdelay_resp | rx_delay_resp | rx_pdelay_fup.
Definition tag (f : t) : nat :=
  match f with
  | tx_sync => 0 | tx_delay_req => 1 | tx_pdelay_resp => 2 | rx_delay_resp => 3 |
  rx_pdelay_fup => 4
  end.
Definition all : list t :=
  [tx_sync; tx_delay_req; tx_pdelay_resp; rx_delay_resp; rx_pdelay_fup].
End I.
#[export] Instance tagged_I : Tagged I.t.
Proof. refine (mk_tagged _ I.tag (fun n => nth n I.all I.tx_sync) _). by intros []. Defined.

(** The message pointers of a clock. *)
Module S.
Inductive t :=
  | last_ann | last_sync | last_fup | last_rx_fup | base_sync | base_fup.
Definition tag (f : t) : nat :=
  match f with
  | last_ann => 0 | last_sync => 1 | last_fup => 2 | last_rx_fup => 3 | base_sync => 4 |
  base_fup => 5
  end.
Definition all : list t :=
  [last_ann; last_sync; last_fup; last_rx_fup; base_sync; base_fup].
End S.
#[export] Instance tagged_S : Tagged S.t.
Proof. refine (mk_tagged _ S.tag (fun n => nth n S.all S.last_ann) _). by intros []. Defined.

(** The message templates of a clock. *)
Module T.
Inductive t :=
  | ann_template | sync_template | fup_template | delay_req_template | delay_resp_template |
  pdelay_req_template | manage_template | signal_template.
Definition tag (f : t) : nat :=
  match f with
  | ann_template => 0 | sync_template => 1 | fup_template => 2 | delay_req_template => 3 |
  delay_resp_template => 4 | pdelay_req_template => 5 | manage_template => 6 |
  signal_template => 7
  end.
Definition all : list t :=
  [ann_template; sync_template; fup_template; delay_req_template; delay_resp_template;
   pdelay_req_template; manage_template; signal_template].
End T.
#[export] Instance tagged_T : Tagged T.t.
Proof. refine (mk_tagged _ T.tag (fun n => nth n T.all T.ann_template) _). by intros []. Defined.


(** ** Message information and path delay of a port *)

(** [struct ptp_msg_info] *)
Record msg_info := mk_info {
  mi_valid : bool; mi_two_step : bool; mi_resp : bool; mi_correction : Z;
  mi_seqid : Z; mi_domain : Z; mi_msg : Z; mi_id : port_identity;
  mi_ptp_time : ptp_timestamp; mi_hw_time : ptp_utime }.
#[export] Instance eta_msg_info : Eta msg_info := fun x =>
  mk_info (mi_valid x) (mi_two_step x) (mi_resp x) (mi_correction x) (mi_seqid x)
    (mi_domain x) (mi_msg x) (mi_id x) (mi_ptp_time x) (mi_hw_time x).
Definition info0 : msg_info :=
  mk_info false false false 0 0 0 0 pid0 (mk_ts 0 0 0) utime0.
Definition set_mi_valid v (x : msg_info) : msg_info := ltac:(field_set mi_valid v x).
Definition set_mi_resp v (x : msg_info) : msg_info := ltac:(field_set mi_resp v x).
Definition set_mi_hw_time v (x : msg_info) : msg_info := ltac:(field_set mi_hw_time v x).

(** [struct nrate_info] *)
Record nrate_info := mk_nrate {
  nr_ratio : double; nr_tx1 : ptu; nr_tx2 : ptu; nr_rx1 : ptu; nr_rx2 : ptu;
  nr_valid : bool }.

(** [struct ptp_pdelay_info], without the members used only with several
    responders *)
Record pdelay_info := mk_pdelay {
  pi_delay : Z; pi_raw_delay : Z; pi_nrate : nrate_info; pi_filter : ptp_filter }.
#[export] Instance eta_pdelay_info : Eta pdelay_info := fun x =>
  mk_pdelay (pi_delay x) (pi_raw_delay x) (pi_nrate x) (pi_filter x).
Definition set_pi_delay v (x : pdelay_info) : pdelay_info := ltac:(field_set pi_delay v x).
Definition set_pi_raw_delay v (x : pdelay_info) : pdelay_info :=
  ltac:(field_set pi_raw_delay v x).
Definition set_pi_nrate v (x : pdelay_info) : pdelay_info := ltac:(field_set pi_nrate v x).
Definition set_pi_filter v (x : pdelay_info) : pdelay_info := ltac:(field_set pi_filter v x).
Definition set_nr_ratio (r : double) (n : nrate_info) : nrate_info :=
  mk_nrate r (nr_tx1 n) (nr_tx2 n) (nr_rx1 n) (nr_rx2 n) (nr_valid n).

(** ** Ports *)

(** [struct ptp_port]; [p_multi_pdelay] is always null in this build. *)
Record port := mk_port {
  p_num : P.t -> Z;
  p_state : ptp_state;
  p_last_state : ptp_state;
  p_next_state : ptp_state;
  p_portState : ptp_state;
  p_delayMechanism : delay_mech;
  p_ds_clock : clock_identity;
  p_peer_id : port_identity;
  p_peer_addr : list Z;
  p_best : option nat;
  p_foreign : list foreign_dataset;
  p_info : I.t -> msg_info;
  p_c : option nat;
  p_pdelay : pdelay_info }.
#[export] Instance eta_port : Eta port := fun x =>
  mk_port (p_num x) (p_state x) (p_last_state x) (p_next_state x) (p_portState x)
    (p_delayMechanism x) (p_ds_clock x) (p_peer_id x) (p_peer_addr x) (p_best x)
    (p_foreign x) (p_info x) (p_c x) (p_pdelay x).
Definition set_p_num v (x : port) : port := ltac:(field_set p_num v x).
Definition set_p_state v (x : port) : port := ltac:(field_set p_state v x).
Definition set_p_last_state v (x : port) : port := ltac:(field_set p_last_state v x).
Definition set_p_next_state v (x : port) : port := ltac:(field_set p_next_state v x).
Definition set_p_portState v (x : port) : port := ltac:(field_set p_portState v x).
Definition set_p_delayMechanism v (x : port) : port := ltac:(field_set p_delayMechanism v x).
Definition set_p_ds_clock v (x : port) : port := ltac:(field_set p_ds_clock v x).
Definition set_p_peer_id v (x : port) : port := ltac:(field_set p_peer_id v x).
Definition set_p_peer_addr v (x : port) : port := ltac:(field_set p_peer_addr v x).
Definition set_p_best v (x : port) : port := ltac:(field_set p_best v x).
Definition set_p_foreign v (x : port) : port := ltac:(field_set p_foreign v x).
Definition set_p_info v (x : port) : port := ltac:(field_set p_info v x).
Definition set_p_c v (x : port) : port := ltac:(field_set p_c v x).
Definition set_p_pdelay v (x : port) : port := ltac:(field_set p_pdelay v x).

(** Point update of a map indexed by an enumeration. *)
Definition upd {A B} `{EqDecision A} (f : A -> B) (k : A) (v : B) : A -> B :=
  fun x => if decide (x = k) then v else f x.

Definition set_num (f : P.t) (v : Z) (p : port) : port :=
  set_p_num (upd (p_num p) f (conv (P.ty f) v)) p.
Definition set_info (i : I.t) (v : msg_info) (p : port) : port :=
  set_p_info (upd (p_info p) i v) p.

(** ** Clocks *)

(** A message of the heap. *)
Abbreviation mref := nat.

(** [struct ptp_clock]; [c_msg] holds the message pointers. *)
Record clock := mk_clock {
  c_num : C.t -> Z;
  c_delay_mechanism : delay_mech;
  c_host : port;
  c_ports : list (option pref);
  c_slave_port : option pref;
  c_id : clock_identity;
  c_dataset : bmc_dataset;
  c_best : option (pref * nat);
  c_best_id : clock_identity;
  c_dds : default_ds;
  c_cur : current_ds;
  c_pds : parent_ds;
  c_servo_state : servo_state;
  c_offset : ptu;
  c_servo : ptp_servo;
  c_first_sync_tx : ptp_utime;
  c_last_sync_rx : ptp_utime;
  c_msg : S.t -> option mref;
  c_rx_sync : msg_info;
  c_rx_fup : msg_info;
  c_template : T.t -> buf }.
#[export] Instance eta_clock : Eta clock := fun x =>
  mk_clock (c_num x) (c_delay_mechanism x) (c_host x) (c_ports x) (c_slave_port x) (c_id x)
    (c_dataset x) (c_best x) (c_best_id x) (c_dds x) (c_cur x) (c_pds x) (c_servo_state x)
    (c_offset x) (c_servo x) (c_first_sync_tx x) (c_last_sync_rx x) (c_msg x) (c_rx_sync x)
    (c_rx_fup x) (c_template x).
Definition set_c_num v (x : clock) : clock := ltac:(field_set c_num v x).
Definition set_c_delay_mechanism v (x : clock) : clock :=
  ltac:(field_set c_delay_mechanism v x).
Definition set_c_host v (x : clock) : clock := ltac:(field_set c_host v x).
Definition set_c_ports v (x : clock) : clock := ltac:(field_set c_ports v x).
Definition set_c_slave_port v (x : clock) : clock := ltac:(field_set c_slave_port v x).
Definition set_c_dataset v (x : clock) : clock := ltac:(field_set c_dataset v x).
Definition set_c_best v (x : clock) : clock := ltac:(field_set c_best v x).
Definition set_c_best_id v (x : clock) : clock := ltac:(field_set c_best_id v x).
Definition set_c_id v (x : clock) : clock := ltac:(field_set c_id v x).
Definition set_c_dds v (x : clock) : clock := ltac:(field_set c_dds v x).
Definition set_c_cur v (x : clock) : clock := ltac:(field_set c_cur v x).
Definition set_c_pds v (x : clock) : clock := ltac:(field_set c_pds v x).
Definition set_c_servo_state v (x : clock) : clock := ltac:(field_set c_servo_state v x).
Definition set_c_offset v (x : clock) : clock := ltac:(field_set c_offset v x).
Definition set_c_servo v (x : clock) : clock := ltac:(field_set c_servo v x).
Definition set_c_first_sync_tx v (x : clock) : clock :=
  ltac:(field_set c_first_sync_tx v x).
Definition set_c_last_sync_rx v (x : clock) : clock := ltac:(field_set c_last_sync_rx v x).
Definition set_c_msg v (x : clock) : clock := ltac:(field_set c_msg v x).
Definition set_c_rx_sync v (x : clock) : clock := ltac:(field_set c_rx_sync v x).
Definition set_c_rx_fup v (x : clock) : clock := ltac:(field_set c_rx_fup v x).
Definition set_c_template v (x : clock) : clock := ltac:(field_set c_template v x).
Definition set_cnum (f : C.t) (v : Z) (c : clock) : clock :=
  set_c_num (upd (c_num c) f (conv (C.ty f) v)) c.

(** ** Messages, timers, works *)

(** [struct ptp_msg_save] *)
Record msg_save_t := mk_save {
  sv_delayed : bool; sv_tx : bool; sv_udp : bool; sv_index : Z; sv_queue : Z;
  sv_portmap : Z; sv_vid : Z; sv_sec : Z; sv_nsec : Z }.
Definition save0 : msg_save_t := mk_save false false false 0 0 0 0 0 0.

(** [struct ptp_message]: the reference count, the port, the receive time,
    the source address and the message with the bytes allocated for it. *)
Record message := mk_message {
  m_refcnt : Z; m_port : option pref; m_rx : ptp_utime; m_save : msg_save_t;
  m_src : list Z; m_msg : buf }.
#[export] Instance eta_message : Eta message := fun x =>
  mk_message (m_refcnt x) (m_port x) (m_rx x) (m_save x) (m_src x) (m_msg x).
Definition set_m_refcnt v (x : message) : message := ltac:(field_set m_refcnt v x).
Definition set_m_port v (x : message) : message := ltac:(field_set m_port v x).
Definition set_m_rx v (x : message) : message := ltac:(field_set m_rx v x).
Definition set_m_save v (x : message) : message := ltac:(field_set m_save v x).
Definition set_m_src v (x : message) : message := ltac:(field_set m_src v x).
Definition set_m_msg v (x : message) : message := ltac:(field_set m_msg v x).

Inductive timer_id :=
  | T_delay (p : pref) | T_ann (p : pref) | T_qual (p : pref) | T_fault (p : pref)
  | T_sync (c : nat) | T_interval (c : nat) | T_sync_timeout (c : nat)
  | T_fup_timeout (c : nat) | T_signaling (c : nat) | T_delayed.
#[export] Instance timer_id_eq_dec : EqDecision timer_id.
Proof. solve_decision. Defined.

(** The function a timer calls; its parameter is the owner of the timer. *)
Inductive timer_fn :=
  | port_delay_req_func | port_pdelay_req_func | port_ann_timeout_func
  | port_qual_timeout_func | port_fault_timeout_func | clock_sync_func
  | clock_sync_timeout_func | clock_fup_timeout_func | clock_interval_func
  | clock_signaling_func | delayed_timer_func.
#[export] Instance timer_fn_eq_dec : EqDecision timer_fn.
Proof. solve_decision. Defined.

(** [struct ksz_timer_info]: [tm_open] while [xTimer] is an open descriptor,
    [tm_armed] the first expiration and the interval set on it, in ticks,
    [tm_polled] while the descriptor is in the poll set. *)
Record timer := mk_timer {
  tm_callback : option timer_fn; tm_repeat : bool; tm_max : Z; tm_period : Z;
  tm_open : bool; tm_armed : option (Z * Z); tm_polled : bool }.
#[export] Instance eta_timer : Eta timer := fun x =>
  mk_timer (tm_callback x) (tm_repeat x) (tm_max x) (tm_period x) (tm_open x)
    (tm_armed x) (tm_polled x).
Definition set_tm_callback v (x : timer) : timer := ltac:(field_set tm_callback v x).
Definition set_tm_max v (x : timer) : timer := ltac:(field_set tm_max v x).
Definition set_tm_period v (x : timer) : timer := ltac:(field_set tm_period v x).
Definition set_tm_open v (x : timer) : timer := ltac:(field_set tm_open v x).
Definition set_tm_armed v (x : timer) : timer := ltac:(field_set tm_armed v x).
Definition set_tm_polled v (x : timer) : timer := ltac:(field_set tm_polled v x).
Definition timer0 : timer := mk_timer None false 0 0 false None false.

Inductive work_id :=
  | W_delay_req (p : pref) | W_ann_timeout (p : pref) | W_qual_timeout (p : pref)
  | W_fault_timeout (p : pref) | W_sync (c : nat) | W_interval (c : nat)
  | W_sync_timeout (c : nat) | W_fup_timeout (c : nat) | W_signaling (c : nat)
  | W_update_interval (c : nat) | W_ethernet_ready (c : nat).
#[export] Instance work_id_eq_dec : EqDecision work_id.
Proof. solve_decision. Defined.

Inductive work_fn :=
  | port_delay_req_work | port_pdelay_req_work | port_ann_timeout_work
  | port_qual_timeout_work | port_fault_timeout_work | clock_sync_work
  | clock_sync_timeout_work | clock_fup_timeout_work | clock_interval_work
  | clock_signaling_work | clock_update_interval_work | clock_ethernet_ready_work.
#[export] Instance work_fn_eq_dec : EqDecision work_fn.
Proof. solve_decision. Defined.

(** [struct ksz_schedule_work] *)
Record work := mk_work { wk_func : option work_fn; wk_ticks : Z; wk_attach : bool }.
Definition work0 : work := mk_work None 0 false.

(** ** What the stack does to its environment *)
Inductive output :=
  | O_send (frame : buf) (udp : bool) (index portmap queue vid sec nsec : Z)
      (dest : option (list Z))
  | O_adj_freq (sec nsec freq interval index : Z)
  | O_set_delays (index rx tx asym : Z)
  | O_set_peer_delay (index delay : Z)
  | O_global_cfg (master two_step p2p as_ : Z)
  | O_port_cfg (index two_step p2p : Z)
  | O_aed (index seqid timestamp state portmap : Z)
  | O_clk_domain (clk : Z) (domains : list Z)
  | O_two_domain (on : Z)
  | O_notify (on : Z).

(** What the environment answers: the n-th answer to each question.
    [env_malloc] is the block of an allocation, [None] when it fails; the
    other functions are the results of the hardware interface. *)
Class Env := {
  env_malloc : nat -> nat -> option (list Z);
  env_filter_mem : nat -> option (list mmedian_data);
  env_rand : nat -> Z;
  env_adj_freq : nat -> Z;
  env_get_clock : nat -> Z * Z;
  env_get_freq : nat -> Z * Z;
  env_two_domain : nat -> Z * Z;
  env_clk_domain : nat -> Z * list Z }.

(** The blocks have the size asked for, and are made of bytes. *)
Class EnvOk (E : Env) := {
  env_malloc_size : forall n s l, env_malloc n s = Some l -> length l = s;
  env_malloc_bytes : forall n s l, env_malloc n s = Some l -> Forall (fun b => 0 <= b < 256) l }.

Record world := mk_world {
  w_clocks : list clock;
  w_hw : list port;
  w_heap : gmap mref message;
  w_tx_msg : option mref;
  w_timers : timer_id -> timer;
  w_table : list (option timer_id);
  w_works : work_id -> work;
  w_sched : list work_id;
  w_pause : bool;
  w_mq : list mref;
  w_out : list output;
  w_cfg : config;
  w_glob : G.t -> Z;
  w_now : Z;
  w_step : nat }.
#[export] Instance eta_world : Eta world := fun x =>
  mk_world (w_clocks x) (w_hw x) (w_heap x) (w_tx_msg x) (w_timers x) (w_table x)
    (w_works x) (w_sched x) (w_pause x) (w_mq x) (w_out x) (w_cfg x) (w_glob x) (w_now x)
    (w_step x).
Definition set_w_clocks v (x : world) : world := ltac:(field_set w_clocks v x).
Definition set_w_hw v (x : world) : world := ltac:(field_set w_hw v x).
Definition set_w_heap v (x : world) : world := ltac:(field_set w_heap v x).
Definition set_w_tx_msg v (x : world) : world := ltac:(field_set w_tx_msg v x).
Definition set_w_timers v (x : world) : world := ltac:(field_set w_timers v x).
Definition set_w_table v (x : world) : world := ltac:(field_set w_table v x).
Definition set_w_works v (x : world) : world := ltac:(field_set w_works v x).
Definition set_w_sched v (x : world) : world := ltac:(field_set w_sched v x).
Definition set_w_pause v (x : world) : world := ltac:(field_set w_pause v x).
Definition set_w_mq v (x : world) : world := ltac:(field_set w_mq v x).
Definition set_w_out v (x : world) : world := ltac:(field_set w_out v x).
Definition set_w_cfg v (x : world) : world := ltac:(field_set w_cfg v x).
Definition set_w_glob v (x : world) : world := ltac:(field_set w_glob v x).
Definition set_w_now v (x : world) : world := ltac:(field_set w_now v x).
Definition set_w_step v (x : world) : world := ltac:(field_set w_step v x).

(** ** The monad of the handlers *)

Definition M (A : Type) : Type := world -> option (A * world).

#[export] Instance M_ret : MRet M := fun A x w => Some (x, w).
#[export] Instance M_bind : MBind M := fun A B f m w =>
  match m w with Some (a, w) => f a w | None => UB end.

Definition ub {A} : M A := fun _ => UB.
Definition gets {A} (f : world -> A) : M A := fun w => Some (f w, w).
Definition modify (f : world -> world) : M unit := fun w => Some (tt, f w).
(** A value the code may use only if it is defined. *)
Definition lift {A} (x : option A) : M A := fun w =>
  match x with Some a => Some (a, w) | None => UB end.
Definition skip : M unit := mret tt.
Definition whenM (b : bool) (m : M unit) : M unit := if b then m else skip.
Fixpoint iterM {A} (f : A -> M unit) (l : list A) : M unit :=
  match l with [] => skip | x :: l => _ ← f x; iterM f l end.

(** The number of the next question to the environment. *)
Definition next_step : M nat := fun w => Some (w_step w, set_w_step (S (w_step w)) w).
Definition emit (o : output) : M unit := modify (fun w => set_w_out (w_out w ++ [o]) w).
Definition jiffies : M Z := gets w_now.

(** ** Access *)

Definition get_port (p : pref) : M port := fun w =>
  match p with
  | Host c => match w_clocks w !! c with Some k => Some (c_host k, w) | None => UB end
  | Hw i => match w_hw w !! i with Some q => Some (q, w) | None => UB end
  end.
Definition put_port (p : pref) (q : port) (w : world) : world :=
  match p with
  | Host c => set_w_clocks (alter (set_c_host q) c (w_clocks w)) w
  | Hw i => set_w_hw (<[i := q]> (w_hw w)) w
  end.
Definition mod_port (p : pref) (f : port -> port) : M unit :=
  q ← get_port p; modify (put_port p (f q)).
Definition pv (p : pref) (f : P.t) : M Z := q ← get_port p; mret (p_num q f).
Definition pb (p : pref) (f : P.t) : M bool := v ← pv p f; mret (truthy v).
Definition pset (p : pref) (f : P.t) (v : Z) : M unit := mod_port p (set_num f v).
Definition pstate (p : pref) : M ptp_state := q ← get_port p; mret (p_state q).
Definition pinfo (p : pref) (i : I.t) : M msg_info := q ← get_port p; mret (p_info q i).
Definition set_pinfo (p : pref) (i : I.t) (v : msg_info) : M unit := mod_port p (set_info i v).
Definition mod_pinfo (p : pref) (i : I.t) (f : msg_info -> msg_info) : M unit :=
  v ← pinfo p i; set_pinfo p i (f v).
(** [p->c], which the code uses without a test. *)
Definition pclock (p : pref) : M nat := q ← get_port p; lift (p_c q).

Definition get_clock (c : nat) : M clock := fun w =>
  match w_clocks w !! c with Some k => Some (k, w) | None => UB end.
Definition mod_clock (c : nat) (f : clock -> clock) : M unit :=
  k ← get_clock c; modify (fun w => set_w_clocks (<[c := f k]> (w_clocks w)) w).
Definition cv (c : nat) (f : C.t) : M Z := k ← get_clock c; mret (c_num k f).
Definition cb (c : nat) (f : C.t) : M bool := v ← cv c f; mret (truthy v).
Definition cset (c : nat) (f : C.t) (v : Z) : M unit := mod_clock c (set_cnum f v).
Definition cslot (c : nat) (s : S.t) : M (option mref) := k ← get_clock c; mret (c_msg k s).
Definition set_cslot (c : nat) (s : S.t) (m : option mref) : M unit :=
  mod_clock c (fun k => set_c_msg (upd (c_msg k) s m) k).

Definition gv (g : G.t) : M Z := gets (fun w => w_glob w g).
Definition gset (g : G.t) (v : Z) : M unit :=
  modify (fun w => set_w_glob (upd (w_glob w) g (conv (G.ty g) v)) w).

(** A message that has not been released. *)
Definition get_msg (m : mref) : M message := fun w =>
  match w_heap w !! m with Some x => Some (x, w) | None => UB end.
Definition mod_msg (m : mref) (f : message -> message) : M unit :=
  x ← get_msg m; modify (fun w => set_w_heap (<[m := f x]> (w_heap w)) w).
(** Read and write of the message text. *)
Definition mrd {A} (m : mref) (f : buf -> option A) : M A :=
  x ← get_msg m; lift (f (m_msg x)).
Definition mwr (m : mref) (f : buf -> option buf) : M unit :=
  b ← mrd m f; mod_msg m (set_m_msg b).

(** [c->ptp_ports[n]], an array of [MAX_PTP_PORTS + 1] pointers. *)
Definition ptp_port_of (c : nat) (n : nat) : M pref :=
  k ← get_clock c; lift (mjoin (c_ports k !! n)).
(** [for (n = 1; n <= c->cnt; n++) { p = c->ptp_ports[n]; ... }] *)
Definition for_ports (c : nat) (body : nat -> pref -> M unit) : M unit :=
  cnt ← cv c C.cnt;
  iterM (fun n => p ← ptp_port_of c n; body n p) (seq 1 (Z.to_nat cnt)).

(** [1 << n] and [1 << (index - 1)] on [int], undefined when negative or too
    large. *)
Definition shl1M (n : Z) : M Z :=
  if (0 <=? n) && (n <? 31) then mret (Z.shiftl 1 n) else ub.
(** [time_delta(a, b)] and [time_after_eq(a, b)] on 32-bit jiffies. *)
Definition time_delta (a b : Z) : Z := u32 (b - a).
Definition time_after_eq (a b : Z) : bool := s32 (u32 (a - b)) >=? 0.
(** [time_save(&c->f, m)] *)
Definition time_save (c : nat) (f : C.t) (m : Z) : M unit :=
  t ← jiffies; cset c f (if t <? m then m else t).
