(* ===== verification/Keeps.v ===== *)
(** * Relations a handler keeps

    [Keeps R m]: whenever [m] is defined, the worlds before and after it are
    related by [R].  For a preorder the judgment follows the structure of the
    handler, which [keeps] walks; the leaves are in the hint base of the same
    name. *)

From stdpp Require Import base list numbers option gmap.
From Stdlib Require Import ZArith Lia.
From S2P Require Import Prelude World.

Definition Keeps (R : relation world) {A} (m : M A) : Prop :=
  forall w a w', m w = Some (a, w') -> R w w'.

(** [X] after [R] is [X] again: the handlers that keep [R] may come first. *)
Class Absorbs (R X : relation world) : Prop := absorbs : forall a b c, R a b -> X b c -> X a c.
(** [X] is implied by [R]. *)
Class Covers (R X : relation world) : Prop := covers : forall a b, R a b -> X a b.

#[export] Instance absorbs_preorder R `{!PreOrder R} : Absorbs R R.
Proof. intros a b c ??. by etrans. Qed.
#[export] Instance covers_refl R : Covers R R.
Proof. by intros a b. Qed.

(** A change that keeps an invariant. *)
Definition Carries (I : world -> Prop) (w w' : world) : Prop := I w -> I w'.
#[export] Instance carries_preorder I : PreOrder (Carries I).
Proof. split; [intros w H; exact H | intros a b c H1 H2 H; apply H2, H1, H]. Qed.

Create HintDb keeps.
#[export] Hint Constants Opaque : keeps.
#[export] Hint Extern 0 (Covers _ _) => typeclasses eauto : keeps.
#[export] Hint Extern 0 (Absorbs _ _) => typeclasses eauto : keeps.
#[export] Hint Extern 0 (PreOrder _) => typeclasses eauto : keeps.

Section keeps.
Context (R : relation world) `{!PreOrder R}.

Lemma keeps_ret {A} (a : A) : Keeps R (mret a).
Proof. intros w b w' [= <- <-]. reflexivity. Qed.
Lemma keeps_skip : Keeps R skip.
Proof. intros w b w' [= <- <-]. reflexivity. Qed.
Lemma keeps_ub {A} : Keeps R (@ub A).
Proof. by intros w b w'. Qed.
Lemma keeps_lift {A} (o : option A) : Keeps R (lift o).
Proof. destruct o; [intros w b w' [= <- <-]; reflexivity | by intros w b w']. Qed.
Lemma keeps_gets {A} (f : world -> A) : Keeps R (gets f).
Proof. intros w b w' [= <- <-]. reflexivity. Qed.

End keeps.

Lemma keeps_cover {R} X `{!Covers R X} {A} (m : M A) : Keeps R m -> Keeps X m.
Proof. intros H w a w' E. eapply covers, H, E. Qed.

(** A handler of [R], then one of [X]. *)
Lemma keeps_bind R X `{!Absorbs R X} {A B} (f : M A) (g : A -> M B) :
  Keeps R f -> (forall a, Keeps X (g a)) -> Keeps X (f ≫= g).
Proof.
  intros Hf Hg w b w'. unfold mbind, M_bind. destruct (f w) as [[a w1]|] eqn:E; [|done].
  intros E'. eapply absorbs; [by eapply Hf | by eapply Hg].
Qed.
Lemma keeps_whenM X b (m : M unit) : Keeps X m -> Keeps X skip -> Keeps X (whenM b m).
Proof. by destruct b. Qed.
Lemma keeps_iterM R `{!PreOrder R} {A} (f : A -> M unit) l :
  (forall x, Keeps R (f x)) -> Keeps R (iterM f l).
Proof.
  intros H. induction l as [|x l IH]; [apply keeps_skip, _|].
  apply (keeps_bind R R); [apply H | by intros []].
Qed.

(** Readers change nothing. *)
Definition Reads {A} (m : M A) : Prop := forall w, m w = UB \/ exists a, m w = Some (a, w).
Lemma keeps_read R `{!PreOrder R} {A} (m : M A) : Reads m -> Keeps R m.
Proof. intros H w a w' E. destruct (H w) as [E'|[b E']]; [congruence|]. by simplify_eq. Qed.
Lemma reads_bind {A B} (f : M A) (g : A -> M B) :
  Reads f -> (forall a, Reads (g a)) -> Reads (f ≫= g).
Proof.
  intros Hf Hg w. unfold mbind, M_bind. destruct (Hf w) as [->|[a ->]]; [by left|]. apply Hg.
Qed.
Lemma reads_ret {A} (a : A) : Reads (mret a).
Proof. intros w. right. by eexists. Qed.
Lemma reads_gets {A} (f : world -> A) : Reads (gets f).
Proof. intros w. right. by eexists. Qed.
Lemma reads_lift {A} (o : option A) : Reads (lift o).
Proof. intros w. destruct o; [right; by eexists | by left]. Qed.
Lemma reads_get_port p : Reads (get_port p).
Proof.
  intros w. destruct p as [c|i]; unfold get_port.
  - destruct (w_clocks w !! c); [right; by eexists | by left].
  - destruct (w_hw w !! i); [right; by eexists | by left].
Qed.
Lemma reads_get_clock c : Reads (get_clock c).
Proof. intros w. unfold get_clock. destruct (w_clocks w !! c); [right; by eexists | by left]. Qed.
Lemma reads_get_msg m : Reads (get_msg m).
Proof. intros w. unfold get_msg. destruct (w_heap w !! m); [right; by eexists | by left]. Qed.
Lemma reads_ub {A} : Reads (@ub A).
Proof. intros w. by left. Qed.
#[export] Hint Resolve reads_ub reads_ret reads_gets reads_lift reads_get_port reads_get_clock
  reads_get_msg : keeps.

Ltac reads :=
  intros; first
    [ solve [auto with keeps]
    | lazymatch goal with
      | |- Reads (modify _) => fail
      | |- Reads (mbind _ _) => apply reads_bind; [reads | intros ?; reads]
      | |- Reads (match ?x with _ => _ end) => destruct x; reads
      | |- Reads (let _ := _ in _) => cbv zeta; reads
      | |- Reads ?m => let h := get_head m in unfold h; reads
      end ].

Lemma reads_pv p f : Reads (pv p f).
Proof. reads. Qed.
Lemma reads_pb p f : Reads (pb p f).
Proof. reads. Qed.
Lemma reads_pstate p : Reads (pstate p).
Proof. reads. Qed.
Lemma reads_pinfo p i : Reads (pinfo p i).
Proof. reads. Qed.
Lemma reads_pclock p : Reads (pclock p).
Proof. reads. Qed.
Lemma reads_cv c f : Reads (cv c f).
Proof. reads. Qed.
Lemma reads_cb c f : Reads (cb c f).
Proof. reads. Qed.
Lemma reads_cslot c s : Reads (cslot c s).
Proof. reads. Qed.
Lemma reads_gv g : Reads (gv g).
Proof. reads. Qed.
Lemma reads_mrd {A} m (f : _ -> option A) : Reads (mrd m f).
Proof. reads. Qed.
Lemma reads_jiffies : Reads jiffies.
Proof. reads. Qed.
Lemma reads_ptp_port_of c n : Reads (ptp_port_of c n).
Proof. reads. Qed.
#[export] Hint Resolve reads_pv reads_pb reads_pstate reads_pinfo reads_pclock reads_cv reads_cb
  reads_cslot reads_gv reads_mrd reads_jiffies reads_ptp_port_of : keeps.

(** ** Inversion of a run *)

Lemma bind_inv {A B} (f : M A) (g : A -> M B) w b w' :
  (f ≫= g) w = Some (b, w') -> exists a w1, f w = Some (a, w1) /\ g a w1 = Some (b, w').
Proof. unfold mbind, M_bind. destruct (f w) as [[a w1]|]; [eauto | done]. Qed.
Lemma reads_inv {A} (f : M A) w a w' : Reads f -> f w = Some (a, w') -> w' = w.
Proof. intros H E. destruct (H w) as [E'|[b E']]; congruence. Qed.

Lemma mrd_inv {A} m (f : _ -> option A) w a w' x :
  w_heap w !! m = Some x -> mrd m f w = Some (a, w') -> w' = w /\ f (m_msg x) = Some a.
Proof.
  intros Ex. unfold mrd, get_msg, mbind, M_bind, lift. rewrite Ex.
  destruct (f (m_msg x)); [|done]. by intros [= <- <-].
Qed.
Lemma get_clock_inv c w k w' : get_clock c w = Some (k, w') -> w' = w /\ w_clocks w !! c = Some k.
Proof. unfold get_clock. destruct (w_clocks w !! c); [|done]. by intros [= <- <-]. Qed.

(** Follow the handler: binds, tests and unfolding, with the hints as leaves.
    [R] is the preorder the parts before the last keep. *)
Ltac keeps R :=
  repeat first
    [ progress intros
    | solve [eauto 3 with keeps]
    | match goal with
      | |- Keeps ?X (mbind _ _) => apply (keeps_bind R X)
      | |- Keeps _ (whenM _ _) => apply keeps_whenM
      | |- Keeps _ (iterM _ _) => apply (keeps_iterM R)
      | |- Keeps _ (match ?x with _ => _ end) => destruct x
      | |- Keeps R ?m => apply (keeps_read R); solve [reads]
      | |- Keeps R (for_ports _ _) => unfold for_ports
      | |- Keeps _ ?m => let h := get_head m in unfold h
      end ].
