(* ===== verification/Msgs.v ===== *)
(** * Messages: allocation, sharing, queueing (ptp_msg.c, ptp_stack.c, ptp_clock.c)

    Messages are reference counted: the message pointers of the clocks, the
    message queue and the transmit buffer each own one reference. *)

From stdpp Require Import base list numbers option gmap.
From Stdlib Require Import ZArith Lia.
From S2P Require Import Prelude Types Wire World.

(** [sizeof(struct ptp_message)], and where the message starts in it. *)
Definition SIZE_ptp_message : nat := 52.
Definition OFF_src : nat := 42.
Definition OFF_msg : nat := 50.

(** ** Message information *)

Definition msg_info_valid (i : msg_info) : bool := mi_valid i.
Definition msg_info_ts_valid (i : msg_info) : bool := negb (ut_sec (mi_hw_time i) =? 0).
Definition msg_info_clear (i : msg_info) : msg_info :=
  set_mi_valid false
    (set_mi_resp false (set_mi_hw_time (mk_utime 0 (ut_nsec (mi_hw_time i))) i)).

(** Where the time and the identity of a message type are kept. *)
Definition msg_info_save (i : msg_info) (msg : buf) (hw_time : option ptp_utime)
    : option msg_info :=
  two_step ← flag_twoStep msg;
  correction ← hdr_correctionField msg;
  seqid ← hdr_sequenceId msg;
  domain ← hdr_domainNumber msg;
  messageType ← hdr_messageType msg;
  id ← hdr_sourcePortIdentity msg;
  ptp_time ←
    (if existsb (Z.eqb messageType)
          [SYNC_MSG; FOLLOW_UP_MSG; DELAY_RESP_MSG; PDELAY_RESP_MSG;
           PDELAY_RESP_FOLLOW_UP_MSG]
     then rd_timestamp msg DATA else Some (mi_ptp_time i));
  id ←
    (if messageType =? PDELAY_RESP_MSG then
       match hw_time with Some _ => Some id | None => rd_port_id msg SECOND_id end
     else Some id);
  Some (mk_info true two_step (mi_resp i) correction seqid domain messageType id ptp_time
          (default utime0 hw_time)).

Definition pinfo_clear (p : pref) (i : I.t) : M unit := mod_pinfo p i msg_info_clear.
(** [msg_info_save(&p->i, msg, hw_time)] *)
Definition pinfo_save (p : pref) (i : I.t) (m : mref) (hw_time : option ptp_utime) : M unit :=
  v ← pinfo p i; v ← mrd m (fun b => msg_info_save v b hw_time); set_pinfo p i v.

(** ** Allocation *)

Section alloc.
Context {env : Env}.

(** [msg] is the memory the message is copied from. *)
Definition alloc_msg (msg : option buf) (len : Z) (rx : option ptp_utime)
    : M (option mref) :=
  n ← next_step;
  match env_malloc n (Z.to_nat len + SIZE_ptp_message)%nat with
  | None => mret None
  | Some block =>
      let b := drop OFF_msg block in
      b ← lift (match msg with
                | Some src => x ← bytes src 0 (Z.to_nat len); b ← put b 0 x; ptp_msg_rx b
                | None => Some b
                end);
      let m := mk_message 1 None (default utime0 rx) save0
                 (255 :: take 5 (drop (S OFF_src) block)) b in
      _ ← modify (fun w => set_w_heap (<[n := m]> (w_heap w)) w);
      mret (Some n)
  end.

Definition free_msg (m : mref) : M unit :=
  _ ← get_msg m; modify (fun w => set_w_heap (delete m (w_heap w)) w).

Definition msg_get (m : mref) : M unit :=
  mod_msg m (fun x => set_m_refcnt (u8 (m_refcnt x + 1)) x).

Definition msg_put (m : mref) : M unit :=
  _ ← mod_msg m (fun x => set_m_refcnt (u8 (m_refcnt x - 1)) x);
  x ← get_msg m;
  if m_refcnt x =? 0 then free_msg m else skip.

(** [msg_clear(&c->s)] *)
Definition msg_clear (c : nat) (s : S.t) : M unit :=
  o ← cslot c s;
  _ ← match o with Some m => msg_put m | None => skip end;
  set_cslot c s None.

(** [msg_save(&c->s, m)] *)
Definition msg_save (c : nat) (s : S.t) (m : mref) : M unit :=
  o ← cslot c s;
  _ ← match o with Some old => msg_put old | None => skip end;
  _ ← msg_get m;
  set_cslot c s (Some m).

Definition get_tx_msg : M mref := o ← gets w_tx_msg; lift o.

Definition tx_msg_init : M unit :=
  o ← alloc_msg None 1500 None; modify (set_w_tx_msg o).

(** ** The queue of the process task *)

Definition queue_send (m : mref) : M unit :=
  modify (fun w => set_w_mq (w_mq w ++ [m]) w).

Definition ptp_save_rx_msg (m : mref) : M unit :=
  _ ← mod_msg m (fun x =>
        let s := m_save x in
        set_m_save (mk_save (sv_delayed s) false (sv_udp s) (sv_index s) (sv_queue s)
          (sv_portmap s) (sv_vid s) (sv_sec s) (sv_nsec s)) x);
  _ ← msg_get m;
  queue_send m.

(** [save.udp] is a one-bit field. *)
Definition ptp_save_tx_msg (m : mref) (index portmap queue udp vid sec nsec : Z) : M unit :=
  _ ← mod_msg m (fun x =>
        set_m_save (mk_save (sv_delayed (m_save x)) true (Z.odd udp) (u8 index) (u8 queue)
          (u16 portmap) (u16 vid) (u32 sec) (u32 nsec)) x);
  queue_send m.

(** The frame goes out over UDP or raw Ethernet; only the latter has a
    destination address. *)
Definition ptp_tx_msg (m : mref) (index portmap queue : Z) (udp : bool) (vid sec nsec : Z)
    (dest : option (list Z)) : M unit :=
  _ ← mod_msg m (set_m_rx utime0);
  b ← mrd m Some;
  emit (O_send b udp index (u16 portmap) queue (u16 vid) sec nsec (if udp then None else dest)).

(** ** Messages made from the templates *)

(** [memcpy] of the first bytes of [src] over the message. *)
Definition copy_msg (m : mref) (src : buf) (len : Z) : M unit :=
  x ← lift (bytes src 0 (Z.to_nat len)); mwr m (fun b => put b 0 x).

(** [m] null takes the transmit buffer. *)
Definition tx_buffer (m : option mref) : M mref :=
  match m with Some m => mret m | None => get_tx_msg end.

Definition clock_get_msg (c : nat) (msg : mref) (m : option mref) : M mref :=
  m ← tx_buffer m;
  src ← mrd msg Some;
  len ← mrd msg hdr_messageLength;
  _ ← copy_msg m src len;
  mret m.

Definition template_of (type : Z) : option T.t :=
  if type =? ANNOUNCE_MSG then Some T.ann_template
  else if type =? SYNC_MSG then Some T.sync_template
  else if type =? FOLLOW_UP_MSG then Some T.fup_template
  else if type =? DELAY_REQ_MSG then Some T.delay_req_template
  else if type =? DELAY_RESP_MSG then Some T.delay_resp_template
  else if existsb (Z.eqb type) [PDELAY_REQ_MSG; PDELAY_RESP_MSG; PDELAY_RESP_FOLLOW_UP_MSG]
  then Some T.pdelay_req_template
  else if type =? MANAGEMENT_MSG then Some T.manage_template
  else if type =? SIGNALING_MSG then Some T.signal_template
  else None.

Definition clock_new_msg (c : nat) (type : Z) (m : option mref) : M (option mref) :=
  m ← tx_buffer m;
  match template_of type with
  | None => mret None
  | Some t =>
      k ← get_clock c;
      let temp := c_template k t in
      len ← lift (hdr_messageLength temp);
      _ ← copy_msg m temp len;
      _ ← whenM ((type =? PDELAY_RESP_MSG) || (type =? PDELAY_RESP_FOLLOW_UP_MSG))
            (mwr m (fun b => set_messageType b type));
      mret (Some m)
  end.

(** The message of a call whose result the code uses without a test. *)
Definition new_msg (c : nat) (type : Z) (m : option mref) : M mref :=
  o ← clock_new_msg c type m; lift o.

End alloc.
