(* ===== verification/Timers.v ===== *)
(** * Timers and deferred work (os/sw_support.c)

    Timers are timerfd descriptors; works are linked in a queue that the
    schedule task runs. *)

From stdpp Require Import base list numbers option.
From Stdlib Require Import ZArith Lia.
From S2P Require Import Prelude World.

(** ** Timers *)

(** Size of the [Timers] and [pollfd] tables. *)
Definition MAX_TIMERS : Z := 80.

Definition convert_ticks_to_ns (xTicks : Z) : Z * Z :=
  let '(seconds, xTicks) :=
    if xTicks >=? 1000 then (s32 (xTicks / 1000), xTicks mod 1000) else (0, xTicks) in
  (seconds, s32 (u32 (xTicks * 1000000))).

(** A time set on a descriptor, back in ticks: [timerfd_settime] with a zero
    value disarms. *)
Definition timer_value (ticks : Z) : Z :=
  let '(s, ns) := convert_ticks_to_ns ticks in s * 1000 + ns / 1000000.
Definition timerfd_settime (value interval : Z) (t : timer) : timer :=
  if tm_open t then
    set_tm_armed (if timer_value value =? 0 then None
                  else Some (timer_value value, timer_value interval)) t
  else t.

Definition get_timer (i : timer_id) : M timer := gets (fun w => w_timers w i).
Definition mod_timer (i : timer_id) (f : timer -> timer) : M unit :=
  modify (fun w => set_w_timers (upd (w_timers w) i (f (w_timers w i))) w).

Definition ksz_exit_timer (i : timer_id) : M unit :=
  t ← get_timer i;
  match tm_callback t with
  | None => skip
  | Some _ =>
      mod_timer i (fun t =>
        set_tm_callback None (set_tm_open false (set_tm_armed None t)))
  end.

(** A timer that is already active keeps its descriptor. *)
Definition ksz_init_timer (i : timer_id) (xTicks : Z) (callback : timer_fn) (repeat : bool)
    : M unit :=
  t ← get_timer i;
  let active := match tm_callback t with Some _ => true | None => false end in
  _ ← mod_timer i (fun t =>
        mk_timer (Some callback) repeat (tm_max t) (u32 xTicks) (tm_open t) (tm_armed t)
          (tm_polled t));
  if active then skip
  else
    table ← gets w_table;
    _ ← modify (set_w_table (table ++ [Some i]));
    if Z.of_nat (length table) >=? MAX_TIMERS then ub
    else mod_timer i (fun t => set_tm_open true (set_tm_armed None (set_tm_polled true t))).

Definition ksz_change_timer (i : timer_id) (next xTicks : Z) : M unit :=
  mod_timer i (fun t =>
    timerfd_settime (u32 next) (if tm_repeat t then u32 xTicks else 0) t).

Definition ksz_start_timer (i : timer_id) (xTicks : Z) : M unit :=
  mod_timer i (fun t =>
    set_tm_polled true
      (set_tm_max (tm_period t)
        (timerfd_settime (u32 xTicks) (if tm_repeat t then tm_period t else 0) t))).

Definition ksz_stop_timer (i : timer_id) : M unit :=
  t ← get_timer i;
  if tm_max t =? 0 then skip
  else mod_timer i (fun t => set_tm_polled false (set_tm_max 0 (timerfd_settime 0 0 t))).

Definition set_period (i : timer_id) (ticks : Z) : M unit :=
  mod_timer i (set_tm_period (u32 ticks)).
(** [timer.period = ticks; ksz_start_timer(&timer, timer.period);] *)
Definition start_with (i : timer_id) (ticks : Z) : M unit :=
  _ ← set_period i ticks; t ← get_timer i; ksz_start_timer i (tm_period t).
Definition restart (i : timer_id) : M unit :=
  t ← get_timer i; ksz_start_timer i (tm_period t).

(** The table from its end: entries of closed timers are removed, and cleared
    below the first entry that stays. *)
Fixpoint clean_table (closed : timer_id -> bool) (top : bool) (r : list (option timer_id))
    : list (option timer_id) :=
  match r with
  | [] => []
  | Some i :: r =>
      if closed i then
        if top then clean_table closed true r else None :: clean_table closed false r
      else Some i :: clean_table closed false r
  | None :: r => None :: clean_table closed false r
  end.
Definition cleanup (closed : timer_id -> bool) (t : list (option timer_id)) :=
  reverse (clean_table closed true (reverse t)).
Definition ksz_cleanup_timers : M unit :=
  modify (fun w => set_w_table (cleanup (fun i => negb (tm_open (w_timers w i))) (w_table w)) w).

(** The entry of a descriptor; an empty entry is dereferenced. *)
Fixpoint TimerGetIndex (l : list (option timer_id)) (n : nat) (same : timer_id -> bool)
    : option (option nat) :=
  match l with
  | [] => Some None
  | None :: _ => UB
  | Some i :: l => if same i then Some (Some n) else TimerGetIndex l (S n) same
  end.
Definition pcTimerGetName (i : timer_id) : M (option nat) :=
  w ← gets id;
  lift (TimerGetIndex (w_table w) 0
          (fun j => tm_open (w_timers w j) && bool_decide (i = j))).

(** ** Works *)

Definition get_work (i : work_id) : M work := gets (fun w => w_works w i).
Definition put_work (i : work_id) (x : work) : M unit :=
  modify (fun w => set_w_works (upd (w_works w) i x) w).

(** The queue is a linked list: the node is unlinked by force, which is
    harmless only while it is not in the queue. *)
Definition init_work (i : work_id) (func : work_fn) : M unit :=
  q ← gets w_sched;
  if bool_decide (i ∈ q) then ub
  else x ← get_work i; put_work i (mk_work (Some func) (wk_ticks x) false).

Definition add_work (i : work_id) : M unit :=
  x ← get_work i;
  if wk_attach x then skip
  else
    _ ← modify (fun w => set_w_sched (w_sched w ++ [i]) w);
    put_work i (mk_work (wk_func x) 0 true).

Definition schedule_work (i : work_id) : M unit := add_work i.

Definition schedule_delayed_work (i : work_id) (xTicks : Z) : M unit :=
  _ ← add_work i;
  now ← jiffies;
  x ← get_work i;
  _ ← put_work i (mk_work (wk_func x) (u32 (now + xTicks)) (wk_attach x));
  t ← get_timer T_delayed;
  if tm_max t =? 0 then restart T_delayed else skip.

Definition schedule_pause : M unit := modify (set_w_pause true).
Definition schedule_resume : M unit := modify (set_w_pause false).

(** Whether the schedule task skips the work at time [now]. *)
Definition work_waits (now : Z) (x : work) : bool :=
  truthy (wk_ticks x) && negb (time_after_eq now (wk_ticks x)).

(** The scan of the schedule task from the node after the [k] nodes it skipped;
    [run] calls [work->func].  Works that schedule themselves without a delay
    keep the scan running, [fuel] bounds the rounds. *)
Fixpoint schedule_scan (run : work_id -> work_fn -> M unit) (fuel : nat) (k : nat) : M unit :=
  q ← gets w_sched;
  match q !! k with
  | None => skip
  | Some i =>
      match fuel with
      | O => ub
      | S fuel =>
          now ← jiffies;
          x ← get_work i;
          if work_waits now x then schedule_scan run fuel (S k)
          else
            _ ← modify (set_w_sched (delete k q));
            _ ← put_work i (mk_work (wk_func x) (wk_ticks x) false);
            _ ← whenM (bool_decide (length q = 1%nat) && truthy (wk_ticks x))
                  (ksz_stop_timer T_delayed);
            f ← lift (wk_func x);
            _ ← run i f;
            schedule_scan run fuel k
      end
  end.

Definition init_schedule_sys : M unit :=
  _ ← modify (set_w_sched []); ksz_init_timer T_delayed 1 delayed_timer_func true.
Definition exit_schedule_sys : M unit :=
  _ ← ksz_stop_timer T_delayed; ksz_exit_timer T_delayed.
