(* ===== verification/Config.v ===== *)
(** * Profile settings and data sets (ptp_config.c)

    The choices the profile makes, and the initial data sets of a clock and
    of a port. *)

From stdpp Require Import base list numbers option.
From Stdlib Require Import ZArith Lia.
From S2P Require Import Prelude Types ConfigStore World.

Definition ptp_config_get_gptp_mode : M Z := gv G.ptp_stack_gptp.
Definition ptp_config_get_slave_port : M Z := gv G.ptp_stack_slave_port.
Definition ptp_config_using_p2p : M bool :=
  gptp ← gv G.ptp_stack_gptp;
  if gptp >? 0 then mret true else v ← gv G.ptp_stack_p2p; mret (truthy v).
Definition ptp_config_using_e2e : M bool :=
  p2p ← ptp_config_using_p2p;
  if p2p : bool then mret false else v ← gv G.ptp_stack_e2e; mret (truthy v).
Definition ptp_config_using_two_step : M bool :=
  gptp ← gv G.ptp_stack_gptp;
  if gptp >? 0 then mret true else v ← gv G.ptp_stack_2step; mret (truthy v).

(** A value of the configuration store, or the one given when it has none. *)
Definition cfg_or {A} (f : config -> option A) (d : A) : M A :=
  c ← gets w_cfg; mret (default d (f c)).

Definition ptp_init_config_ds (index : Z) : M default_ds :=
  '(class, accuracy, variance) ←
    cfg_or (fun c => gptp_profile_get_clock_prop c index) (248, 33, 0);
  gptp ← gv G.ptp_stack_gptp;
  let prio := if truthy gptp then (246, 248) else (128, 128) in
  '(prio1, prio2) ← cfg_or (fun c => gptp_profile_get_clock_prio c index) prio;
  _ ← whenM (truthy gptp && (prio1 =? 255)) (gset G.ptp_stack_gm_capable 0);
  gm ← gv G.ptp_stack_gm_capable;
  two_step ← gv G.ptp_stack_2step;
  let flags := if truthy gm then 0 else DDS_SLAVE_ONLY in
  let flags := if truthy two_step then Z.lor flags DDS_TWO_STEP_FLAG else flags in
  let class := if truthy (Z.land flags DDS_SLAVE_ONLY) then 255 else class in
  mret (mk_dds flags 0 prio1 (mk_quality class accuracy variance) prio2 (replicate 8 0) 0).

(** The settings of a port are looked up under its own index. *)
Definition ptp_init_port_ds (p : pref) : M unit :=
  _ ← pclock p;
  _ ← mod_port p (set_p_portState PTP_S_DISABLED);
  _ ← pset p P.ds_logMinDelayReqInterval 0;
  _ ← pset p P.ds_peerMeanPathDelay 0;
  _ ← pset p P.ds_logAnnounceInterval 1;
  _ ← pset p P.ds_announceReceiptTimeout 3;
  _ ← pset p P.ds_logSyncInterval 0;
  _ ← pset p P.ds_logMinPdelayReqInterval 0;
  gptp ← pb p P.gptp;
  _ ← whenM gptp (_ ← pset p P.ds_logAnnounceInterval 0; pset p P.ds_logSyncInterval (-3));
  _ ← pset p P.ds_versionNumber 2;
  index ← pv p P.index;
  sync ← pv p P.ds_logSyncInterval;
  '(sync, _) ← cfg_or (fun c => gptp_port_profile_get_sync c index) (sync, 0);
  _ ← pset p P.ds_logSyncInterval sync;
  ann ← pv p P.ds_logAnnounceInterval;
  timeout ← pv p P.ds_announceReceiptTimeout;
  '(ann, timeout) ← cfg_or (fun c => gptp_port_profile_get_announce c index) (ann, timeout);
  _ ← pset p P.ds_logAnnounceInterval ann;
  _ ← pset p P.ds_announceReceiptTimeout timeout;
  delay ← pv p P.ds_logMinDelayReqInterval;
  delay ← cfg_or (fun c => gptp_port_profile_get_delay c index) delay;
  _ ← pset p P.ds_logMinDelayReqInterval delay;
  pdelay ← pv p P.ds_logMinPdelayReqInterval;
  pdelay ← cfg_or (fun c => gptp_port_profile_get_pdelay c index) pdelay;
  pset p P.ds_logMinPdelayReqInterval pdelay.

(** The data sets as they follow the grandmaster [f], or the clock itself. *)
Definition parent_of (dds : default_ds) (f : option foreign_dataset) (pds : parent_ds)
    : parent_ds :=
  match f with
  | Some f =>
      let d := fd_dataset f in
      mk_pds (ds_tx d) (ds_prio_1 d) (ds_quality d) (ds_prio_2 d) (ds_id d)
  | None =>
      mk_pds (mk_pid (dds_clockIdentity dds) 0) (dds_priority1 dds) (dds_quality dds)
        (dds_priority2 dds) (dds_clockIdentity dds)
  end.
Definition current_of (f : option foreign_dataset) (cur : current_ds) : current_ds :=
  match f with
  | Some f =>
      mk_cur (u16 (ds_steps_removed (fd_dataset f) + 1)) (cur_offsetFromMaster cur)
        (cur_meanPathDelay cur)
  | None => mk_cur 0 0 0
  end.
Definition ptp_update_parent_ds (c : nat) (f : option foreign_dataset) : M unit :=
  mod_clock c (fun k =>
    set_c_pds (parent_of (c_dds k) f (c_pds k)) (set_c_cur (current_of f (c_cur k)) k)).
