(* ===== verification/PortFsm.v ===== *)
(** * Port state machine (ptp_port.c: [port_event], [host_event])

    The next state of a port on an event, as a function of the state, of the
    clock class and of the profile. *)

From stdpp Require Import base list numbers option.
From Stdlib Require Import ZArith Lia.
From S2P Require Import Prelude Types World.

(** [class] is [clock_class(p->c)]. *)
Definition port_next (gptp : bool) (class : Z) (s : ptp_state) (e : ptp_event) : ptp_state :=
  let ready := if gptp then PTP_S_MASTER else PTP_S_PRE_MASTER in
  match s with
  | PTP_S_INITIALIZING =>
      match e with
      | EVENT_INIT_COMPLETE => PTP_S_LISTENING
      | EVENT_FAULT_SET => PTP_S_FAULTY
      | EVENT_DISABLE => PTP_S_DISABLED
      | _ => s
      end
  | PTP_S_FAULTY =>
      match e with
      | EVENT_FAULT_CLEAR => PTP_S_INITIALIZING
      | EVENT_DISABLE => PTP_S_DISABLED
      | _ => s
      end
  | PTP_S_DISABLED =>
      match e with EVENT_ENABLE => PTP_S_INITIALIZING | _ => s end
  | PTP_S_LISTENING =>
      match e with
      | EVENT_FAULT_SET => PTP_S_FAULTY
      | EVENT_DISABLE => PTP_S_DISABLED
      | EVENT_ANNOUNCE_TIMEOUT => if negb (class =? 255) then ready else s
      | EVENT_BECOME_SLAVE => PTP_S_UNCALIBRATED
      | EVENT_READY_MASTER => ready
      | EVENT_BECOME_MASTER => PTP_S_MASTER
      | EVENT_BECOME_PASSIVE => PTP_S_PASSIVE
      | _ => s
      end
  | PTP_S_PRE_MASTER =>
      match e with
      | EVENT_FAULT_SET => PTP_S_FAULTY
      | EVENT_DISABLE => PTP_S_DISABLED
      | EVENT_BECOME_SLAVE => PTP_S_UNCALIBRATED
      | EVENT_QUALIFICATION_TIMEOUT | EVENT_BECOME_MASTER => PTP_S_MASTER
      | EVENT_BECOME_PASSIVE => PTP_S_PASSIVE
      | _ => s
      end
  | PTP_S_MASTER =>
      match e with
      | EVENT_FAULT_SET => PTP_S_FAULTY
      | EVENT_DISABLE => PTP_S_DISABLED
      | EVENT_BECOME_SLAVE => PTP_S_UNCALIBRATED
      | EVENT_BECOME_PASSIVE => PTP_S_PASSIVE
      | _ => s
      end
  | PTP_S_PASSIVE =>
      match e with
      | EVENT_FAULT_SET => PTP_S_FAULTY
      | EVENT_DISABLE => PTP_S_DISABLED
      | EVENT_BECOME_SLAVE => PTP_S_UNCALIBRATED
      | EVENT_ANNOUNCE_TIMEOUT => PTP_S_MASTER
      | EVENT_READY_MASTER => ready
      | EVENT_BECOME_MASTER => PTP_S_MASTER
      | _ => s
      end
  | PTP_S_UNCALIBRATED | PTP_S_SLAVE =>
      match e with
      | EVENT_FAULT_SET => PTP_S_FAULTY
      | EVENT_DISABLE => PTP_S_DISABLED
      | EVENT_ANNOUNCE_TIMEOUT => if negb (class =? 255) then PTP_S_MASTER else PTP_S_LISTENING
      | EVENT_READY_MASTER => ready
      | EVENT_BECOME_MASTER => PTP_S_MASTER
      | EVENT_BECOME_PASSIVE => PTP_S_PASSIVE
      | EVENT_CLOCK_STABLE => if bool_decide (s = PTP_S_UNCALIBRATED) then PTP_S_SLAVE else s
      | EVENT_CLOCK_UNSTABLE => if bool_decide (s = PTP_S_SLAVE) then PTP_S_UNCALIBRATED else s
      | _ => s
      end
  | PTP_S_INIT => s
  end.

(** [all_faulty]: no port of the clock is in another state than faulty. *)
Definition host_next (all_faulty : bool) (class : Z) (s : ptp_state) (e : ptp_event)
    : ptp_state :=
  match e with
  | EVENT_BECOME_PASSIVE => if all_faulty then PTP_S_LISTENING else PTP_S_PASSIVE
  | _ =>
      match s with
      | PTP_S_INITIALIZING =>
          match e with EVENT_INIT_COMPLETE => PTP_S_LISTENING | _ => s end
      | PTP_S_LISTENING | PTP_S_PASSIVE =>
          match e with
          | EVENT_ANNOUNCE_TIMEOUT => if negb (class =? 255) then PTP_S_MASTER else s
          | EVENT_BECOME_SLAVE => PTP_S_SLAVE
          | EVENT_BECOME_MASTER => PTP_S_MASTER
          | _ => s
          end
      | PTP_S_MASTER =>
          match e with EVENT_BECOME_SLAVE => PTP_S_SLAVE | _ => s end
      | PTP_S_SLAVE =>
          match e with
          | EVENT_ANNOUNCE_TIMEOUT =>
              if negb (class =? 255) then PTP_S_MASTER else PTP_S_LISTENING
          | EVENT_BECOME_MASTER => PTP_S_MASTER
          | _ => s
          end
      | _ => s
      end
  end.

Definition clock_class (c : nat) : M Z :=
  k ← get_clock c; mret (clockClass (dds_quality (c_dds k))).
Definition clock_steps (c : nat) : M Z := k ← get_clock c; mret (cur_stepsRemoved (c_cur k)).

(** [for (n = 1; n <= c->cnt; n++) if (q->state != PTP_S_FAULTY) break;] *)
Fixpoint all_faulty_from (c : nat) (l : list nat) : M bool :=
  match l with
  | [] => mret true
  | n :: l =>
      q ← ptp_port_of c n;
      s ← pstate q;
      if bool_decide (s = PTP_S_FAULTY) then all_faulty_from c l else mret false
  end.

(** The states whose transition on an event looks at the class of the clock. *)
Definition class_used (l : list ptp_state) (s : ptp_state) (e : ptp_event) : bool :=
  bool_decide (e = EVENT_ANNOUNCE_TIMEOUT) && bool_decide (s ∈ l).
Definition class_if (used : bool) (q : port) : M Z :=
  if used then c ← lift (p_c q); clock_class c else mret 0.

Definition port_event (p : pref) (e : ptp_event) : M ptp_state :=
  q ← get_port p;
  class ← class_if (class_used [PTP_S_LISTENING; PTP_S_UNCALIBRATED; PTP_S_SLAVE]
                      (p_state q) e) q;
  mret (port_next (truthy (p_num q P.gptp)) class (p_state q) e).

Definition host_event (p : pref) (e : ptp_event) : M ptp_state :=
  q ← get_port p;
  class ← class_if (class_used [PTP_S_LISTENING; PTP_S_PASSIVE; PTP_S_SLAVE]
                      (p_state q) e) q;
  all_faulty ←
    (if bool_decide (e = EVENT_BECOME_PASSIVE) then
       c ← lift (p_c q);
       cnt ← cv c C.cnt;
       all_faulty_from c (seq 1 (Z.to_nat cnt))
     else mret false);
  mret (host_next all_faulty class (p_state q) e).

(** ** asCapable *)

(** The conditions of 802.1AS, in the order the code tests them. *)
Definition port_check_capable (p : pref) : M unit :=
  q ← get_port p;
  lost ← gv G.allowed_lost_responses;
  let info := p_pdelay q in
  let capable :=
    if p_num q P.resp_missing >=? lost then false
    else if s32 (pi_delay info) >? p_num q P.neighborDelayThresh then false
    else if truthy (p_num q P.mult_resp) then false
    else if negb (truthy (p_num q P.peer_valid)) then false
    else nr_valid (pi_nrate info) in
  _ ← whenM capable (pset p P.as_capable_err 0);
  pset p P.as_capable (b2z capable).

Definition port_capable (p : pref) : M bool :=
  q ← get_port p;
  mret (if truthy (p_num q P.no_capable) || truthy (p_num q P.as_capable_set) then true
        else truthy (p_num q P.as_capable)).

Definition port_set_capable (p : pref) (capable : bool) : M unit :=
  pset p P.as_capable (b2z capable).
Definition port_is_aed (p : pref) : M bool := v ← pv p P.gptp_auto; mret (v =? 1).
Definition port_is_aed_master (p : pref) : M bool :=
  a ← pv p P.gptp_auto; s ← pv p P.gptp_slave; mret ((a =? 1) && (s =? 0)).
