(* ===== verification/ClockOps.v ===== *)
(** * Timers and data sets of a clock (ptp_clock.c) *)

From stdpp Require Import base list numbers option.
From Stdlib Require Import ZArith Lia.
From S2P Require Import Prelude Types Interval World Timers PortFsm.

(** A product of two [int], undefined when it overflows. *)
Definition mulM (a b : Z) : M Z := if s32 (a * b) =? a * b then mret (a * b) else ub.

Definition MAX_PTP_CLOCKS : nat := 3.
Definition SYNC_MISS_MARGIN : Z := 4.

Fixpoint find_clock (l : list clock) (i : nat) (domain : Z) : option nat :=
  match l with
  | [] => None
  | k :: l => if c_num k C.domain =? domain then Some i else find_clock l (S i) domain
  end.
Definition get_ptp_clock (domain : Z) : M (option nat) :=
  gets (fun w => find_clock (w_clocks w) 0 domain).

Definition clock_enable_port (c : nat) (p : pref) (enable : bool) : M unit :=
  index ← pv p P.index;
  ports ← shl1M (index - 1);
  let ports := u16 ports in
  live ← cv c C.live_ports;
  _ ← cset c C.live_ports (if enable then Z.lor live ports else Z.land live (Z.lnot ports));
  portmap ← cv c C.portmap;
  live ← cv c C.live_ports;
  pset (Host c) P.portmap (Z.land portmap live).

(** The dataset of the clock itself; [rx.port] is not written. *)
Definition default_dataset (dds : default_ds) (ds : bmc_dataset) : bmc_dataset :=
  mk_ds (dds_priority1 dds) (dds_priority2 dds) 0 (dds_clockIdentity dds) (dds_quality dds)
    (mk_pid (dds_clockIdentity dds) (pid_port (ds_rx ds))) (mk_pid (dds_clockIdentity dds) 0).
Definition clock_default_ds (c : nat) : M unit :=
  mod_clock c (fun k => set_c_dataset (default_dataset (c_dds k) (c_dataset k)) k).

(** [*c->best]: the entry of a port's table. *)
Definition clock_best_entry (c : nat) : M (option foreign_dataset) :=
  k ← get_clock c;
  match c_best k with
  | None => mret None
  | Some (p, i) => q ← get_port p; f ← lift (p_foreign q !! i); mret (Some f)
  end.
Definition clock_best_ds (c : nat) : M (option bmc_dataset) :=
  f ← clock_best_entry c; mret (fd_dataset <$> f).
Definition clock_best_port (c : nat) : M (option pref) :=
  f ← clock_best_entry c; mret (f ≫= fd_port).
Definition clock_slave_port (c : nat) : M (option pref) := k ← get_clock c; mret (c_slave_port k).
Definition clock_set_slave_port (c : nat) (p : pref) : M unit :=
  mod_clock c (set_c_slave_port (Some p)).

Definition clock_update_grandmaster (c : nat) : M unit :=
  mod_clock c (fun k =>
    let dds := c_dds k in
    set_c_pds (mk_pds (mk_pid (dds_clockIdentity dds) 0) (dds_priority1 dds) (dds_quality dds)
                 (dds_priority2 dds) (dds_clockIdentity dds))
      (set_c_cur (mk_cur 0 0 0) k)).

(** ** The Sync timer *)

(** The counts of Sync and Announce per timer period, and the interval of the
    timer. *)
Definition set_counts (c : nat) : M Z :=
  sync ← cv c C.logSyncInterval;
  ann ← cv c C.logAnnounceInterval;
  if sync <=? ann then
    _ ← cset c C.sync_max 0;
    n ← shl1M (ann - sync);
    _ ← cset c C.ann_max (n - 1);
    mret sync
  else
    _ ← cset c C.ann_max 0;
    n ← shl1M (sync - ann);
    _ ← cset c C.sync_max (n - 1);
    mret ann.

Definition cap_count (c : nat) (cnt max : C.t) : M unit :=
  n ← cv c cnt; m ← cv c max; whenM (n >? m) (cset c cnt m).

Definition clock_change_sync_timer (c : nat) (interval : Z) : M unit :=
  sync ← cv c C.logSyncInterval;
  if interval =? sync then skip
  else
    _ ← cset c C.logSyncInterval interval;
    delay ← set_counts c;
    _ ← cap_count c C.sync_cnt C.sync_max;
    _ ← cap_count c C.ann_cnt C.ann_max;
    let ticks := u32 (ptp_interval_to_ms delay) in
    t ← get_timer (T_sync c);
    if tm_period t =? ticks then skip
    else
      last ← cv c C.last_sync_time_jiffies;
      now ← jiffies;
      let next :=
        if last >? 1 then
          let diff := time_delta last now in
          if diff <? ticks then u32 (ticks - diff) else 10
        else ticks in
      _ ← cset c C.last_sync_time_jiffies 1;
      _ ← set_period (T_sync c) ticks;
      t ← get_timer (T_sync c);
      whenM (truthy (tm_max t)) (ksz_change_timer (T_sync c) next ticks).

Definition clock_start_sync_timer (c : nat) : M unit :=
  t ← get_timer (T_sync c);
  let next := tm_period t in
  armed ← cb c C.tx_sync;
  if armed : bool then skip
  else
    ann_max ← cv c C.ann_max;
    _ ← cset c C.ann_cnt ann_max;
    _ ← cset c C.sync_cnt 0;
    timeout ← cb c C.sync_timeout;
    _ ← whenM timeout
          (_ ← cset c C.ann_cnt 0; sync_max ← cv c C.sync_max; cset c C.sync_cnt sync_max);
    _ ← cset c C.tx_sync 1;
    _ ← cset c C.last_sync_time_jiffies 0;
    ready ← cb c C.sync_timeout_ready;
    f ← get_timer (T_fup_timeout c);
    let faster := ready && (tm_period f <? tm_period t) in
    _ ← whenM faster (cset c C.last_sync_time_jiffies 1);
    let next := if faster : bool then u32 (next - tm_period f) else next in
    _ ← restart (T_sync c);
    t ← get_timer (T_sync c);
    whenM (tm_repeat t) (ksz_change_timer (T_sync c) next (tm_period t)).

Definition clock_stop_sync_timer (c : nat) : M unit :=
  _ ← ksz_stop_timer (T_sync c);
  _ ← cset c C.miss_sync 0;
  _ ← cset c C.sync_timeout 0;
  _ ← cset c C.sync_timeout_ready 0;
  cset c C.tx_sync 0.

(** ** The signaling timer *)

Definition clock_start_signaling_timer (c : nat) (oper : bool) : M unit :=
  t ← get_timer (T_signaling c);
  next ←
    (if oper then
       s ← clock_slave_port c;
       match s with
       | None => mret None
       | Some p => wait ← pv p P.waitSyncInterval; mret (Some (u32 (wait * 1000)))
       end
     else _ ← cset c C.req_interval 1; mret (Some (tm_period t)));
  match next with
  | None => skip
  | Some next =>
      s ← get_timer (T_sync c);
      _ ← (if truthy (tm_max t) then ksz_change_timer (T_signaling c) next (tm_period s)
           else ksz_start_timer (T_signaling c) next);
      cset c C.signaling 1
  end.

Definition clock_stop_signaling_timer (c : nat) : M unit :=
  _ ← ksz_stop_timer (T_signaling c);
  _ ← cset c C.oper_sync_jiffies 0;
  _ ← cset c C.req_interval 0;
  cset c C.signaling 0.

(** ** Interval and timeouts of received Sync and Follow_Up *)

Definition clock_set_sync_interval (c : nat) : M unit :=
  log ← pv (Host c) P.logSyncInterval;
  let delay := ptp_interval_to_ms log in
  s ← get_timer (T_sync c);
  if truthy (tm_max s) then skip
  else
    let ticks := u32 delay in
    _ ← set_period (T_interval c) ticks;
    let ticks := u32 (ticks + SYNC_MISS_MARGIN) in
    t ← get_timer (T_interval c);
    _ ← whenM (tm_max t =? 0) (restart (T_interval c));
    t ← get_timer (T_interval c);
    whenM (tm_repeat t) (ksz_change_timer (T_interval c) ticks (tm_period t)).

Definition clock_stop_sync_interval (c : nat) : M unit := ksz_stop_timer (T_interval c).

Definition clock_set_initial_sync_timeout (c : nat) (delay : Z) : M unit :=
  _ ← cset c C.sync_timeout 0;
  start_with (T_sync_timeout c) delay.

Definition clock_set_sync_timeout (c : nat) : M unit :=
  log ← pv (Host c) P.logSyncInterval;
  let delay := ptp_interval_to_ms log in
  timeout ← cb c C.sync_timeout;
  _ ← whenM timeout (clock_stop_sync_timer c);
  n ← cv c C.syncReceiptTimeout;
  if n =? 0 then skip
  else
    delay ← mulM delay n;
    _ ← start_with (T_sync_timeout c) delay;
    time_save c C.set_sync_timeout_jiffies 0.

Definition clock_set_fup_timeout (c : nat) : M unit :=
  s ← get_timer (T_sync c);
  if truthy (tm_max s) then skip
  else
    f ← get_timer (T_fup_timeout c);
    if truthy (tm_max f) then skip
    else
      delay ← cv c C.fupReceiptTimeout;
      start_with (T_fup_timeout c) delay.

Definition clock_stop_sync_timeout (c : nat) : M unit := ksz_stop_timer (T_sync_timeout c).
Definition clock_stop_fup_timeout (c : nat) : M unit := ksz_stop_timer (T_fup_timeout c).
