(* ===== verification/Sync.v ===== *)
(** * From timestamps to clock adjustments (ptp_sync.c)

    The path delay, the neighbour rate ratio and the synchronisation of the
    clock, up to the calls of the hardware clock. *)

From stdpp Require Import base list numbers option.
From Stdlib Require Import ZArith Lia SpecFloat.
From S2P Require Import Prelude Ptu Filter Servo Types World PortFsm ClockOps.

Definition ptp_timestamp_to_scaled (t : ptp_timestamp) : ptu :=
  mk_ptu (s64 (Z.lor (Z.shiftl (ts_hi t) 32) (ts_lo t)))
    (s64 (Z.shiftl (ts_nsec t) SCALED_NANOSEC_S)).
Definition ptp_utime_to_scaled (t : ptp_utime) : ptu :=
  mk_ptu (ut_sec t) (s64 (Z.shiftl (ut_nsec t) SCALED_NANOSEC_S)).
Definition ptp_correction_to_scaled (s : Z) : ptu :=
  mk_ptu (Z.quot s SCALED_NANOSEC_IN_SEC) (Z.rem s SCALED_NANOSEC_IN_SEC).
(** [(int) u.sec] and [(int)(u.nsec >> SCALED_NANOSEC_S)] *)
Definition ptu_int_parts (u : ptu) : Z * Z :=
  (s32 (u_sec u), s32 (Z.shiftr (u_nsec u) SCALED_NANOSEC_S)).
(** A time kept with an offset taken away. *)
Definition shift_utime (t : ptp_utime) (offset : ptu) : ptp_utime :=
  let '(sec, nsec) := ptu_int_parts (ptu_sub (ptp_utime_to_scaled t) offset) in
  mk_utime (u32 sec) (u32 nsec).

Section sync.
Context {env : Env}.

Definition adj_freq (sec nsec freq interval : Z) (c : nat) : M Z :=
  index ← cv c C.index;
  n ← next_step;
  _ ← emit (O_adj_freq sec nsec freq interval index);
  mret (env_adj_freq n).

Definition clock_set_freq (c : nat) (freq : Z) : M unit :=
  _ ← adj_freq 0 0 freq NANOSEC_IN_SEC c; skip.

Definition mod_servo (c : nat) (f : ptp_servo -> ptp_servo) : M unit :=
  mod_clock c (fun k => set_c_servo (f (c_servo k)) k).
Definition shift_rx (m : mref) (offset : ptu) : M unit :=
  mod_msg m (fun x => set_m_rx (shift_utime (m_rx x) offset) x).

Definition clock_adj_freq (c : nat) (offset : ptu) (freq : Z) : M unit :=
  let '(sec, nsec) := ptu_int_parts offset in
  rc ← adj_freq (s32 (- sec)) (s32 (- nsec)) freq NANOSEC_IN_SEC c;
  if negb (rc =? 0) then skip
  else
    _ ← mod_servo c (fun s => servo_adj_ingress s offset);
    last ← cslot c S.last_sync;
    _ ← match last with Some m => shift_rx m offset | None => skip end;
    base ← cslot c S.base_sync;
    match base with
    | None => skip
    | Some b =>
        _ ← whenM (negb (bool_decide (base = last))) (shift_rx b offset);
        x ← get_msg b;
        mod_clock c (set_c_last_sync_rx (m_rx x))
    end.

Definition clock_adj (c : nat) (offset : ptu) : M unit :=
  let '(sec, nsec) := ptu_int_parts offset in
  rc ← adj_freq (s32 (- sec)) (s32 (- nsec)) 0 0 c;
  whenM (rc =? 0) (mod_servo c (fun s => servo_adj_ingress s offset)).

Definition port_set_latency (p : pref) : M unit :=
  q ← get_port p;
  emit (O_set_delays (p_num q P.index) (p_num q P.rx_latency) (p_num q P.tx_latency)
          (p_num q P.asym_delay)).
Definition port_set_peer_delay (p : pref) : M unit :=
  q ← get_port p;
  emit (O_set_peer_delay (p_num q P.index) (s32 (pi_delay (p_pdelay q)))).

(** ** Access to the delay information of a port *)

Definition pdelay_of (p : pref) : M pdelay_info := q ← get_port p; mret (p_pdelay q).
Definition set_pdelay (p : pref) (i : pdelay_info) : M unit := mod_port p (set_p_pdelay i).
Definition mod_filter (p : pref) (f : ptp_filter -> ptp_filter) : M unit :=
  mod_port p (fun q => set_p_pdelay (set_pi_filter (f (pi_filter (p_pdelay q))) (p_pdelay q)) q).
(** [filter_update_delay(&info->filter, &info->delay, &info->raw_delay)] *)
Definition update_delay (p : pref) : M Z :=
  i ← pdelay_of p;
  '(rc, d, f) ← lift (filter_update_delay (pi_filter i));
  _ ← set_pdelay p
        (match d with
         | Some (d, raw) => set_pi_delay d (set_pi_raw_delay raw (set_pi_filter f i))
         | None => set_pi_filter f i
         end);
  mret rc.
(** [filter_update_offset(&info->filter, &c->offset)] for the host port *)
Definition update_offset (c : nat) : M Z :=
  i ← pdelay_of (Host c);
  let '(rc, o) := filter_update_offset (pi_filter i) in
  _ ← match o with Some o => mod_clock c (set_c_offset o) | None => skip end;
  mret rc.
Definition set_meanPathDelay (c : nat) (delay : Z) : M unit :=
  mod_clock c (fun k =>
    set_c_cur (mk_cur (cur_stepsRemoved (c_cur k)) (cur_offsetFromMaster (c_cur k))
                 (s64 (Z.shiftl delay SCALED_NANOSEC_S))) k).

(** ** Path delay *)

Definition clock_path_delay (c : nat) (tx rx : ptu) : M unit :=
  _ ← mod_filter (Host c) (fun f => filter_set_t3_t4 f tx rx);
  rc ← update_delay (Host c);
  if negb (rc =? 0) then skip
  else
    i ← pdelay_of (Host c);
    _ ← set_meanPathDelay c (pi_delay i);
    k ← get_clock c;
    if bool_decide (c_servo_state k = SERVO_LOCKING) then
      rc ← update_offset c;
      if negb (rc =? 0) then skip
      else
        k ← get_clock c;
        _ ← clock_adj c (c_offset k);
        _ ← mod_clock c (set_c_servo_state SERVO_JUMP);
        mod_filter (Host c) (fun f => filter_reset f false)
    else skip.

Definition clock_peer_delay (c : nat) (info : pdelay_info) : M unit :=
  h ← pdelay_of (Host c);
  f ← lift (filter_set_delay (pi_filter h) (d_of_Z (pi_delay info)));
  _ ← set_pdelay (Host c)
        (mk_pdelay (pi_delay info) (pi_raw_delay info)
           (set_nr_ratio (nr_ratio (pi_nrate info)) (pi_nrate h)) f);
  set_meanPathDelay c (pi_delay info).

Definition port_path_delay (p : pref) (egress : ptp_utime) (receive : ptp_timestamp)
    (corr_resp : Z) : M unit :=
  let t3 := ptp_utime_to_scaled egress in
  let t4 := ptp_timestamp_to_scaled receive in
  let c3 := ptp_correction_to_scaled corr_resp in
  c ← pclock p;
  clock_path_delay c t3 (ptu_sub t4 c3).

(** The rate of the neighbour from two pairs of timestamps. *)
Definition port_calc_nrate (n : nrate_info) (tx rx : ptu) : nrate_info :=
  if u_sec (nr_rx1 n) =? 0 then mk_nrate (nr_ratio n) tx tx rx rx (nr_valid n)
  else
    let own := ptu_sub rx (nr_rx2 n) in
    let other := ptu_sub tx (nr_tx2 n) in
    let diff_nsec := ptu_get_nsec (ptu_sub own other) in
    if Z.abs diff_nsec >? NANOSEC_IN_SEC / 16 then
      mk_nrate d_one tx tx rx rx (nr_valid n)
    else
      let other := ptu_sub tx (nr_tx1 n) in
      let own := ptu_sub rx (nr_rx1 n) in
      mk_nrate (ptu_div_ratio other own) tx tx rx rx true.

Definition receiving (s : ptp_state) : bool :=
  bool_decide (s = PTP_S_UNCALIBRATED) || bool_decide (s = PTP_S_SLAVE).

(** [info] is the path delay of the port itself. *)
Definition port_assign_peer_delay (p : pref) : M unit :=
  s ← pstate p;
  i ← pdelay_of p;
  _ ← whenM (receiving s) (c ← pclock p; clock_peer_delay c i);
  pset p P.ds_peerMeanPathDelay (Z.shiftl (pi_delay i) SCALED_NANOSEC_S).

Definition port_peer_delay (p : pref) (egress ingress : ptp_utime) (receive : ptp_timestamp)
    (corr_resp : Z) (transmit : option ptp_timestamp) (corr_fup : Z) : M unit :=
  let t1 := ptp_utime_to_scaled egress in
  let t4 := ptp_utime_to_scaled ingress in
  let c1 := ptp_correction_to_scaled corr_resp in
  let '(t2, t3, c2, c3) :=
    match transmit with
    | None => (ptu_zero, ptu_zero, ptu_zero, t1)
    | Some transmit =>
        (ptp_timestamp_to_scaled receive, ptp_timestamp_to_scaled transmit,
         ptp_correction_to_scaled corr_fup, ptu_zero)
    end in
  let c12 := ptu_add c1 c2 in
  let t3c := ptu_add t3 c12 in
  let c12 := ptu_add t3c c3 in
  i ← pdelay_of p;
  let nrate := port_calc_nrate (pi_nrate i) c12 t4 in
  let f := filter_set_clock_ratio (pi_filter i) (nr_ratio nrate) in
  let f := filter_set_t1_t2 (filter_set_t3_t4 f t1 t2) t3c t4 in
  _ ← set_pdelay p (set_pi_filter f (set_pi_nrate nrate i));
  rc ← update_delay p;
  if negb (rc =? 0) then skip
  else
    i ← pdelay_of p;
    s ← pstate p;
    _ ← whenM (receiving s) (c ← pclock p; clock_peer_delay c i);
    _ ← pset p P.ds_peerMeanPathDelay (Z.shiftl (pi_delay i) SCALED_NANOSEC_S);
    _ ← port_set_peer_delay p;
    port_check_capable p.

(** ** Synchronisation *)

(** The new state of the servo is kept unless a sample is not used. *)
Definition clock_sync (c : nat) (ingress origin : ptu) : M servo_state :=
  k ← get_clock c;
  let state := c_servo_state k in
  _ ← mod_filter (Host c) (fun f => filter_set_t1_t2 f origin ingress);
  rc ← update_offset c;
  if negb (rc =? 0) then mret state
  else
    k ← get_clock c;
    let offset := c_offset k in
    _ ← mod_clock c (fun k =>
          set_c_cur (mk_cur (cur_stepsRemoved (c_cur k))
                       (s64 (Z.shiftl (ptu_get_nsec offset) SCALED_NANOSEC_S))
                       (cur_meanPathDelay (c_cur k))) k);
    '(rc, s, adj, state) ← lift (servo_sample (c_servo k) offset ingress 0 state);
    _ ← mod_clock c (set_c_servo s);
    if negb (rc =? 0) then mret state
    else
      i ← pdelay_of (Host c);
      let state :=
        if bool_decide (state = SERVO_JUMP) && negb (f_delay_valid (pi_filter i))
        then SERVO_LOCKING else state in
      _ ← match state with
          | SERVO_JUMP_LONG | SERVO_JUMP =>
              _ ← clock_adj_freq c offset adj;
              _ ← mod_filter (Host c) (fun f => filter_reset f true);
              if bool_decide (c_delay_mechanism k = DELAY_NONE) then
                i ← pdelay_of (Host c);
                f ← lift (filter_set_delay (pi_filter i) (d_of_Z 0));
                mod_filter (Host c) (fun _ => f)
              else skip
          | SERVO_LOCKING | SERVO_LOCKED => clock_set_freq c adj
          | SERVO_UNLOCKED => skip
          end;
      _ ← mod_clock c (set_c_servo_state state);
      mret state.

End sync.
