(* ===== verification/Tx.v ===== *)
(** * Messages the stack sends (ptp_protocol.c, ptp_forward.c)

    The templates, the messages of a port, and the forwarding of Sync,
    Follow_Up and Announce from the slave port to the master ports. *)

From stdpp Require Import base list numbers option.
From Stdlib Require Import ZArith Lia.
From S2P Require Import Prelude Types Wire Tlv Interval World Msgs Timers PortFsm ClockOps.

(** ** Templates *)

Definition CTL_SYNC : Z := 0.
Definition CTL_DELAY_REQ : Z := 1.
Definition CTL_FOLLOW_UP : Z := 2.
Definition CTL_DELAY_RESP : Z := 3.
Definition CTL_MANAGEMENT : Z := 4.
Definition CTL_OTHER : Z := 5.

(** [sizeof(struct ptp_msg)] *)
Definition SIZE_ptp_msg : nat := 64.

Definition ptp_prep_hdr (b : buf) (transport message len domain ctrl interval : Z)
    (id : clock_identity) : option buf :=
  let len := len + Z.of_nat SIZE_hdr in
  b ← put b 0 (replicate SIZE_hdr 0);
  b ← set_transportSpecific b transport;
  b ← set_messageType b message;
  b ← set_versionPTP b 2;
  b ← set_messageLength b len;
  b ← set_domainNumber b domain;
  b ← set_ptpTimescale b 1;
  b ← set_source_clock b id;
  b ← set_controlField b ctrl;
  set_logMessageInterval b interval.

(** The header of a template of the clock. *)
Definition prep_hdr (c : clock) (b : buf) (message len ctrl interval : Z) : option buf :=
  ptp_prep_hdr b (c_num c C.specific) message len (c_num c C.domain) ctrl interval (c_id c).
Definition set_own_port (c : clock) (b : buf) : option buf :=
  set_source_port b (c_num c C.cnt + 1).

Definition ptp_init_announce (c : clock) (b : buf) : option buf :=
  let pds := c_pds c in
  b ← prep_hdr c b ANNOUNCE_MSG SIZE_msg_announce CTL_OTHER (c_num c C.logAnnounceInterval);
  b ← (if truthy (c_num c C.utc_offset) then set_utcOffsetValid b 1 else Some b);
  b ← set_own_port c b;
  b ← put b DATA (replicate SIZE_timestamp 0);
  b ← wr b ANN_utc 2 (c_num c C.utc_offset);
  b ← wr b 46 1 0;
  b ← wr b 47 1 (pds_grandmasterPriority1 pds);
  let q := pds_grandmasterClockQuality pds in
  b ← wr b 48 1 (clockClass q);
  b ← wr b 49 1 (clockAccuracy q);
  b ← wr b ANN_variance 2 (offsetScaledLogVariance q);
  b ← wr b 52 1 (pds_grandmasterPriority2 pds);
  b ← put b 53 (pds_grandmasterIdentity pds);
  b ← wr b ANN_steps 2 0;
  wr b 63 1 (c_num c C.time_source).

Definition ptp_init_sync (c : clock) (b : buf) : option buf :=
  b ← prep_hdr c b SYNC_MSG SIZE_msg_sync CTL_SYNC (c_num c C.logSyncInterval);
  b ← set_own_port c b;
  put b DATA (replicate SIZE_timestamp 0).
Definition ptp_init_follow_up (c : clock) (b : buf) : option buf :=
  b ← prep_hdr c b FOLLOW_UP_MSG SIZE_msg_sync CTL_FOLLOW_UP (c_num c C.logSyncInterval);
  set_own_port c b.
Definition ptp_init_delay_req (c : clock) (b : buf) : option buf :=
  b ← prep_hdr c b DELAY_REQ_MSG SIZE_msg_sync CTL_DELAY_REQ 127;
  put b DATA (replicate SIZE_timestamp 0).
Definition ptp_init_delay_resp (c : clock) (b : buf) : option buf :=
  b ← prep_hdr c b DELAY_RESP_MSG SIZE_msg_delay_resp CTL_DELAY_RESP 0;
  set_own_port c b.
Definition ptp_init_pdelay_req (c : clock) (b : buf) : option buf :=
  b ← prep_hdr c b PDELAY_REQ_MSG SIZE_msg_pdelay_req CTL_OTHER 127;
  put b DATA (replicate 20 0).
Definition ptp_init_manage (c : clock) (b : buf) : option buf :=
  b ← prep_hdr c b MANAGEMENT_MSG (SIZE_msg_management_base + 13) CTL_MANAGEMENT 127;
  b ← set_own_port c b;
  b ← put b DATA (replicate 14 0);
  b ← put b DATA (replicate SIZE_port_identity 255);
  put b 48 (replicate 13 0).
Definition ptp_init_signal (c : clock) (b : buf) : option buf :=
  b ← prep_hdr c b SIGNALING_MSG (Z.of_nat SIZE_port_identity) CTL_OTHER 127;
  b ← set_own_port c b;
  put b DATA (replicate SIZE_port_identity 255).

Definition init_template (t : T.t) : clock -> buf -> option buf :=
  match t with
  | T.ann_template => ptp_init_announce
  | T.sync_template => ptp_init_sync
  | T.fup_template => ptp_init_follow_up
  | T.delay_req_template => ptp_init_delay_req
  | T.delay_resp_template => ptp_init_delay_resp
  | T.pdelay_req_template => ptp_init_pdelay_req
  | T.manage_template => ptp_init_manage
  | T.signal_template => ptp_init_signal
  end.
Definition clock_setup_ptp_msg (c : nat) : M unit :=
  iterM (fun t =>
    k ← get_clock c;
    b ← lift (init_template t k (c_template k t));
    mod_clock c (fun k => set_c_template (upd (c_template k) t b) k)) T.all.

Definition ptp_utime_to_timestamp (sec : Z) (u : ptp_utime) : ptp_timestamp :=
  mk_ts sec (ut_sec u) (ut_nsec u).

(** ** Sending *)

Section tx.
Context {env : Env}.

(** [x->f++] on an unsigned field: the value before. *)
Definition pinc (p : pref) (f : P.t) : M Z := v ← pv p f; _ ← pset p f (v + 1); mret v.
Definition pdec (p : pref) (f : P.t) : M unit := v ← pv p f; pset p f (v - 1).

(** [1 << (p->index - 1)] *)
Definition port_bit (p : pref) : M Z := index ← pv p P.index; shl1M (index - 1).

(** The call of [ptp_save_tx_msg] of every message: queue 7, no time. *)
Definition save_tx (p : pref) (m : mref) (portmap : Z) : M unit :=
  index ← pv p P.index;
  c ← pclock p;
  transport ← cv c C.transport;
  vid ← cv c C.vid;
  ptp_save_tx_msg m index portmap 7 transport vid 0 0.
Definition tx_now (p : pref) (m : mref) (portmap sec nsec : Z) (dest : option (list Z)) : M unit :=
  index ← pv p P.index;
  c ← pclock p;
  transport ← cv c C.transport;
  vid ← cv c C.vid;
  ptp_tx_msg m index portmap 7 (truthy transport) vid sec nsec dest.

Definition port_tx_delay_req (p : pref) : M unit :=
  o ← alloc_msg None 100 None;
  match o with
  | None => skip
  | Some m =>
      c ← pclock p;
      m ← new_msg c DELAY_REQ_MSG (Some m);
      seq ← pinc p P.seqid_delay_req;
      _ ← mwr m (fun b => set_sequenceId b seq);
      id ← pv p P.id;
      _ ← mwr m (fun b => set_source_port b id);
      _ ← pinfo_save p I.tx_delay_req m None;
      _ ← mwr m ptp_msg_tx;
      bit ← port_bit p;
      save_tx p m bit
  end.

Definition clear_pdelay_req (p : pref) : M unit :=
  _ ← pinfo_clear p I.tx_delay_req;
  _ ← pinfo_clear p I.rx_delay_resp;
  pinfo_clear p I.rx_pdelay_fup.

Definition port_tx_pdelay_req (p : pref) : M unit :=
  req ← pinfo p I.tx_delay_req;
  _ ← whenM (msg_info_valid req && negb (mi_resp req))
        (n ← pv p P.resp_missing;
         _ ← whenM (n <? 10) (pset p P.resp_missing (n + 1));
         _ ← pset p P.report_resp 1;
         port_check_capable p);
  n ← pv p P.resp_cnt;
  m ← pv p P.mult_resp_cnt;
  _ ← whenM ((n <=? 1) && truthy m) (pset p P.mult_resp_cnt (m - 1));
  _ ← pset p P.resp_cnt 0;
  _ ← pset p P.resp_fup_cnt 0;
  _ ← pset p P.mult_resp 0;
  _ ← clear_pdelay_req p;
  o ← alloc_msg None 100 None;
  match o with
  | None => skip
  | Some m =>
      c ← pclock p;
      m ← new_msg c PDELAY_REQ_MSG (Some m);
      gptp ← pb p P.gptp;
      _ ← whenM gptp (log ← pv p P.ds_logMinPdelayReqInterval;
                      mwr m (fun b => set_logMessageInterval b log));
      seq ← pinc p P.seqid_delay_req;
      _ ← mwr m (fun b => set_sequenceId b seq);
      id ← pv p P.id;
      _ ← mwr m (fun b => set_source_port b id);
      _ ← pinfo_save p I.tx_delay_req m None;
      _ ← mwr m ptp_msg_tx;
      bit ← port_bit p;
      save_tx p m bit
  end.

(** [stepsRemoved] of an Announce, in host order. *)
Definition add_step (b : buf) : option buf := n ← rd b ANN_steps 2; wr b ANN_steps 2 (n + 1).

Definition add_path_trace (p : pref) (m : mref) : M unit :=
  trace ← pb p P.path_trace;
  whenM trace
    (c ← pclock p; k ← get_clock c; mwr m (clock_add_path_trace (c_id k))).

Definition port_fwd_announce (p : pref) (m : mref) : M unit :=
  c ← pclock p;
  ann ← clock_get_msg c m None;
  _ ← mwr ann add_step;
  _ ← add_path_trace p ann;
  _ ← mwr ann ptp_msg_tx;
  portmap ← pv p P.portmap;
  tx_now p ann portmap 0 0 None.

Definition port_tx_announce (p : pref) : M unit :=
  s ← pstate p;
  if negb (bool_decide (s = PTP_S_MASTER)) then skip
  else
    capable ← port_capable p;
    if negb capable then skip
    else
      o ← alloc_msg None 100 None;
      match o with
      | None => skip
      | Some m =>
          c ← pclock p;
          m ← new_msg c ANNOUNCE_MSG (Some m);
          seq ← pinc p P.seqid_ann;
          _ ← mwr m (fun b => set_sequenceId b seq);
          keep ← pb p P.no_id_replace;
          _ ← whenM (negb keep) (id ← pv p P.id; mwr m (fun b => set_source_port b id));
          _ ← add_path_trace p m;
          _ ← mwr m ptp_msg_tx;
          portmap ← pv p P.portmap;
          save_tx p m portmap
      end.

(** One of [max_sync_tx] Syncs is sent; whether this one is. *)
Definition count_sync (p : pref) : M bool :=
  n ← pv p P.cnt_sync_tx;
  if n =? 0 then mret true
  else
    _ ← pset p P.cnt_sync_tx (n - 1);
    n ← pv p P.cnt_sync_tx;
    max ← pv p P.max_sync_tx;
    _ ← whenM (n =? 0) (pset p P.cnt_sync_tx max);
    n ← pv p P.cnt_sync_tx;
    mret (n =? max).

Definition port_fwd_sync (p : pref) (m : mref) : M unit :=
  now ← count_sync p;
  if negb now then skip
  else
    c ← pclock p;
    sync ← clock_get_msg c m None;
    id ← pv p P.id;
    _ ← mwr sync (fun b => set_source_port b id);
    log ← pv p P.logSyncInterval;
    _ ← mwr sync (fun b => set_logMessageInterval b log);
    _ ← pinfo_save p I.tx_sync sync None;
    _ ← mwr sync ptp_msg_tx;
    bit ← port_bit p;
    tx_now p sync bit 0 0 None.

Definition port_fwd_fup (p : pref) (m : mref) (residence : Z) : M unit :=
  c ← pclock p;
  fup ← clock_get_msg c m None;
  rx ← mrd fup hdr_correctionField;
  let rx := s64 (rx + residence) in
  _ ← mwr fup (fun b => set_correctionField b rx);
  log ← pv p P.logSyncInterval;
  _ ← mwr fup (fun b => set_logMessageInterval b log);
  id ← pv p P.id;
  _ ← mwr fup (fun b => set_source_port b id);
  _ ← pinfo_clear p I.tx_sync;
  _ ← mwr fup ptp_msg_tx;
  bit ← port_bit p;
  tx_now p fup bit 0 0 None.

Definition port_tx_sync (p : pref) : M unit :=
  s ← pstate p;
  if negb (bool_decide (s = PTP_S_MASTER)) then skip
  else
    capable ← port_capable p;
    if negb capable then skip
    else
      index ← pv p P.index;
      now ← (if truthy index then count_sync p else mret true);
      if negb now then skip
      else
        o ← alloc_msg None 100 None;
        match o with
        | None => skip
        | Some m =>
            c ← pclock p;
            m ← new_msg c SYNC_MSG (Some m);
            seq ← pinc p P.seqid_sync;
            _ ← mwr m (fun b => set_sequenceId b seq);
            keep ← pb p P.no_id_replace;
            _ ← whenM (negb keep)
                  (id ← pv p P.id;
                   _ ← mwr m (fun b => set_source_port b id);
                   log ← pv p P.logSyncInterval;
                   mwr m (fun b => set_logMessageInterval b log));
            two_step ← pb p P.sync_two_step;
            _ ← whenM two_step
                  (_ ← mwr m (fun b => set_twoStepFlag b 1); pinfo_save p I.tx_sync m None);
            _ ← mwr m ptp_msg_tx;
            portmap ← pv p P.portmap;
            save_tx p m portmap
        end.

Definition port_tx_fup (p : pref) (m : mref) : M unit :=
  o ← alloc_msg None 100 None;
  match o with
  | None => skip
  | Some fup =>
      c ← pclock p;
      fup ← new_msg c FOLLOW_UP_MSG (Some fup);
      seq ← mrd m hdr_sequenceId;
      _ ← mwr fup (fun b => set_sequenceId b seq);
      keep ← pb p P.no_id_replace;
      _ ← whenM (negb keep)
            (id ← pv p P.id;
             _ ← mwr fup (fun b => set_source_port b id);
             log ← pv p P.logSyncInterval;
             mwr fup (fun b => set_logMessageInterval b log));
      x ← get_msg m;
      _ ← mwr fup (fun b => wr_timestamp b DATA (ptp_utime_to_timestamp 0 (m_rx x)));
      tlv ← pb p P.follow_up_tlv;
      _ ← whenM tlv (mwr fup clock_add_follow_up);
      _ ← pinfo_clear p I.tx_sync;
      _ ← mwr fup ptp_msg_tx;
      bit ← port_bit p;
      save_tx p fup bit
  end.

Definition port_tx_signal (p : pref) (id : option port_identity) (signal : option mref)
    : M mref :=
  c ← pclock p;
  signal ← new_msg c SIGNALING_MSG signal;
  seq ← pinc p P.seqid_signal;
  _ ← mwr signal (fun b => set_sequenceId b seq);
  keep ← pb p P.no_id_replace;
  _ ← whenM (negb keep) (id ← pv p P.id; mwr signal (fun b => set_source_port b id));
  _ ← match id with Some id => mwr signal (fun b => wr_port_id b DATA id) | None => skip end;
  mret signal.

(** The message interval request TLV of a Signaling message. *)
Definition SIG_tlv : nat := 44.
Definition add_interval_tlv (delay sync ann : Z) (b : buf) : option buf :=
  b ← ptp_set_org_ext_tlv b SIG_tlv 2;
  let data := (SIG_tlv + 10)%nat in
  b ← wr b data 1 delay;
  b ← wr b (data + 1) 1 sync;
  b ← wr b (data + 2) 1 ann;
  b ← wr b (data + 3) 1 3;
  b ← wr b (data + 4) 2 0;
  messageLength ← hdr_messageLength b;
  '(b, _, messageLength) ←
    ptp_add_tlv b SIG_tlv (data + SIZE_data_2) TLV_ORGANIZATION_EXTENSION
      (u16 (SIZE_org_ext - 1 + Z.of_nat SIZE_data_2)) messageLength;
  set_messageLength b messageLength.

Definition port_tx_signal_interval (p : pref) (delay sync ann : Z) (m : option mref) : M unit :=
  signal ← port_tx_signal p None m;
  _ ← mwr signal (add_interval_tlv delay sync ann);
  _ ← mwr signal ptp_msg_tx;
  bit ← port_bit p;
  match m with
  | Some _ => save_tx p signal bit
  | None => tx_now p signal bit 0 0 None
  end.

Definition port_tx_delay_resp (p : pref) (m : mref) : M unit :=
  c ← pclock p;
  rsp ← new_msg c DELAY_RESP_MSG None;
  domain ← mrd m hdr_domainNumber;
  _ ← mwr rsp (fun b => set_domainNumber b domain);
  seq ← mrd m hdr_sequenceId;
  _ ← mwr rsp (fun b => set_sequenceId b seq);
  keep ← pb p P.no_id_replace;
  _ ← whenM (negb keep) (id ← pv p P.id; mwr rsp (fun b => set_source_port b id));
  corr ← mrd m hdr_correctionField;
  _ ← mwr rsp (fun b => set_correctionField b corr);
  x ← get_msg m;
  _ ← mwr rsp (fun b => wr_timestamp b DATA (ptp_utime_to_timestamp 0 (m_rx x)));
  src ← mrd m hdr_sourcePortIdentity;
  _ ← mwr rsp (fun b => wr_port_id b SECOND_id src);
  _ ← mwr rsp ptp_msg_tx;
  bit ← port_bit p;
  tx_now p rsp bit 0 0 None.

(** The unicast address of the peer, if it is known. *)
Definition peer_dest (p : pref) (m : mref) : M (option (list Z)) :=
  n ← pv p P.peer_index;
  q ← get_port p;
  if truthy n && negb (bool_decide (head (p_peer_addr q) = Some 255)) then
    _ ← mwr m (fun b => set_unicastFlag b 1); mret (Some (p_peer_addr q))
  else mret None.

Definition port_tx_pdelay_resp (p : pref) (m : mref) : M unit :=
  c ← pclock p;
  rsp ← new_msg c PDELAY_RESP_MSG None;
  domain ← mrd m hdr_domainNumber;
  _ ← mwr rsp (fun b => set_domainNumber b domain);
  seq ← mrd m hdr_sequenceId;
  _ ← mwr rsp (fun b => set_sequenceId b seq);
  id ← pv p P.id;
  _ ← mwr rsp (fun b => set_source_port b id);
  corr ← mrd m hdr_correctionField;
  _ ← mwr rsp (fun b => set_correctionField b corr);
  x ← get_msg m;
  two_step ← pb p P.p2p_two_step;
  _ ← whenM two_step
        (_ ← mwr rsp (fun b => set_twoStepFlag b 1);
         mwr rsp (fun b => wr_timestamp b DATA (ptp_utime_to_timestamp 0 (m_rx x))));
  let '(sec, nsec) :=
    if two_step : bool then (0, 0) else (ut_sec (m_rx x), ut_nsec (m_rx x)) in
  addr ← peer_dest p rsp;
  src ← mrd m hdr_sourcePortIdentity;
  _ ← mwr rsp (fun b => wr_port_id b SECOND_id src);
  _ ← pinfo_save p I.tx_pdelay_resp rsp None;
  _ ← mwr rsp ptp_msg_tx;
  bit ← port_bit p;
  tx_now p rsp bit sec nsec addr.

(** ** Forwarding *)

Definition MAX_ALLOWED_CORRECTION_SEC : Z := 28800.

(** Offset of [sec.lo] of the timestamp of a Sync or Follow_Up. *)
Definition ORIGIN_lo : nat := 36.
Definition inc_seqid (b : buf) : option buf :=
  n ← hdr_sequenceId b; set_sequenceId b (n + 1).
(** [msg_save(&c->dst, c->src)] *)
Definition save_slot (c : nat) (dst src : S.t) : M unit :=
  o ← cslot c src; m ← lift o; msg_save c dst m.

Definition ptp_check_residence (c : nat) : M unit :=
  residence ← cv c C.residence;
  last ← cslot c S.last_sync;
  base ← cslot c S.base_sync;
  _ ← whenM (negb (bool_decide (last = base))) (save_slot c S.last_sync S.base_sync);
  lastf ← cslot c S.last_fup;
  basef ← cslot c S.base_fup;
  _ ← whenM (negb (bool_decide (lastf = basef)))
        (o ← cslot c S.base_sync;
         b ← lift o;
         x ← get_msg b;
         _ ← mod_clock c (set_c_last_sync_rx (m_rx x));
         _ ← save_slot c S.last_fup S.base_fup;
         save_slot c S.last_rx_fup S.base_fup);
  let residence_sec := Z.quot (s64 (residence + 120000000)) 1000000000 in
  _ ← whenM (residence_sec >=? MAX_ALLOWED_CORRECTION_SEC)
        (_ ← mod_clock c (fun k =>
               let t := c_last_sync_rx k in
               set_c_last_sync_rx
                 (mk_utime (u32 (ut_sec t + MAX_ALLOWED_CORRECTION_SEC)) (ut_nsec t)) k);
         o ← cslot c S.last_sync;
         s ← lift o;
         _ ← mwr s (fun b =>
               n ← rd b ORIGIN_lo 4;
               if n =? 0 then Some b else wr b ORIGIN_lo 4 (n + MAX_ALLOWED_CORRECTION_SEC));
         o ← cslot c S.last_fup;
         f ← lift o;
         _ ← mwr f (fun b =>
               n ← rd b ORIGIN_lo 4; wr b ORIGIN_lo 4 (n + MAX_ALLOWED_CORRECTION_SEC));
         cset c C.residence 0);
  o ← cslot c S.last_sync;
  s ← lift o;
  _ ← mwr s inc_seqid;
  o ← cslot c S.last_fup;
  f ← lift o;
  mwr f inc_seqid.

Definition utime_nsec (t : ptp_utime) : Z := s64 (ut_sec t * 1000000000 + ut_nsec t).

(** Residence time of the Sync the port forwarded, with the path delay, in
    scaled nanoseconds; nothing when the Sync left before it came. *)
Definition fwd_residence (rx tx meanPathDelay : Z) : option (Z * Z) :=
  if tx <? rx then None
  else
    let residence := s64 (s64 (tx - rx) + Z.shiftr meanPathDelay 16) in
    Some (residence, s64 (Z.shiftl residence 16)).

Definition ptp_fwd_fup (p : pref) : M unit :=
  c ← pclock p;
  sync ← pinfo p I.tx_sync;
  k ← get_clock c;
  let first := ut_sec (c_first_sync_tx k) =? 0 in
  _ ← whenM first
        (_ ← mod_clock c (set_c_first_sync_tx (mi_hw_time sync));
         let t := c_last_sync_rx k in
         whenM ((ut_sec t =? 0) && (ut_nsec t =? 0))
           (o ← cslot c S.last_fup;
            f ← lift o;
            _ ← mod_clock c (set_c_last_sync_rx (mi_hw_time sync));
            mwr f (fun b => wr_timestamp b DATA (ptp_utime_to_timestamp 0 (mi_hw_time sync)))));
  k ← get_clock c;
  match fwd_residence (utime_nsec (c_last_sync_rx k)) (utime_nsec (mi_hw_time sync))
          (cur_meanPathDelay (c_cur k)) with
  | None => skip
  | Some (residence, scaled) =>
      _ ← whenM first (cset c C.residence residence);
      o ← cslot c S.last_fup;
      f ← lift o;
      port_fwd_fup p f scaled
  end.

Definition ptp_save_sync (c : nat) (m : mref) : M unit := msg_save c S.base_sync m.
Definition ptp_save_fup (c : nat) (m : mref) : M unit := msg_save c S.base_fup m.

(** What [ptp_forward] remembers of the message. *)
Definition forward_save (c : nat) (type : Z) (m : mref) : M unit :=
  if type =? SYNC_MSG then
    _ ← mod_clock c (fun k =>
          set_c_first_sync_tx (mk_utime 0 (ut_nsec (c_first_sync_tx k))) k);
    _ ← msg_clear c S.last_fup;
    msg_save c S.last_sync m
  else if type =? FOLLOW_UP_MSG then
    o ← cslot c S.last_sync;
    _ ← match o with
        | Some s => x ← get_msg s; mod_clock c (set_c_last_sync_rx (m_rx x))
        | None => skip
        end;
    _ ← msg_save c S.last_fup m;
    msg_save c S.last_rx_fup m
  else if type =? ANNOUNCE_MSG then
    _ ← cset c C.ann_cnt 0;
    msg_save c S.last_ann m
  else skip.

Definition forward_to (c : nat) (type : Z) (m : mref) (p : pref) : M unit :=
  s ← pstate p;
  if negb (bool_decide (s = PTP_S_MASTER)) then skip
  else
    capable ← port_capable p;
    if negb capable then skip
    else if type =? SYNC_MSG then port_fwd_sync p m
    else if type =? FOLLOW_UP_MSG then
      sync ← pinfo p I.tx_sync;
      whenM (truthy (ut_sec (mi_hw_time sync))) (ptp_fwd_fup p)
    else if type =? ANNOUNCE_MSG then
      no ← cb c C.no_announce;
      whenM (negb no) (port_fwd_announce p m)
    else skip.

Definition ptp_forward (q : pref) (m : mref) : M unit :=
  c ← pclock q;
  type ← mrd m hdr_messageType;
  _ ← forward_save c type m;
  for_ports c (fun _ p => forward_to c type m p).

(** ** Message intervals *)

Definition ptp_setup_sync_interval (c : nat) : M unit :=
  interval ← cv c C.logSyncInterval;
  for_ports c (fun _ p =>
    s ← pstate p;
    if bool_decide (s = PTP_S_SLAVE) || bool_decide (s = PTP_S_UNCALIBRATED) then skip
    else
      log ← pv p P.logSyncInterval;
      let diff := Z.max 0 (log - interval) in
      n ← shl1M diff;
      max ← pv p P.max_sync_tx;
      if max =? n then skip
      else
        _ ← pset p P.max_sync_tx n;
        max ← pv p P.max_sync_tx;
        _ ← pset p P.cnt_sync_tx max;
        pset p P.cnt_fup_tx max).

Fixpoint fastest_from (c : nat) (l : list nat) (interval : Z) : M Z :=
  match l with
  | [] => mret interval
  | n :: l =>
      p ← ptp_port_of c n;
      s ← pstate p;
      log ← pv p P.logSyncInterval;
      fastest_from c l
        (if bool_decide (s = PTP_S_MASTER) && (log <? interval) then log else interval)
  end.
Definition ptp_get_fastest_interval (c : nat) (interval : Z) : M Z :=
  cnt ← cv c C.cnt; fastest_from c (seq 1 (Z.to_nat cnt)) interval.

(** Request an interval of the master in a new message. *)
Definition request_interval (p : pref) (interval : Z) : M unit :=
  o ← alloc_msg None 100 None;
  match o with
  | Some m => port_tx_signal_interval p 127 interval 127 (Some m)
  | None => skip
  end.
(** The slave port of the clock while it is in the slave state. *)
Definition slave_now (c : nat) : M (option pref) :=
  o ← clock_slave_port c;
  match o with
  | Some p => s ← pstate p; mret (if bool_decide (s = PTP_S_SLAVE) then Some p else None)
  | None => mret None
  end.

Definition ptp_set_sync_interval (c : nat) : M unit :=
  force ← cb c C.set_interval_force;
  aut ← pb (Host c) P.gptp_auto;
  if negb aut then skip
  else
    o ← clock_slave_port c;
    interval ← match o with Some p => pv p P.logSyncInterval | None => mret 1 end;
    interval ← ptp_get_fastest_interval c interval;
    hlog ← pv (Host c) P.logSyncInterval;
    force ←
      (if interval =? hlog then mret force
       else
         let slower := hlog <? interval in
         _ ← pset (Host c) P.logSyncInterval interval;
         hs ← pstate (Host c);
         timeout ← cb c C.sync_timeout;
         if bool_decide (hs = PTP_S_MASTER) || timeout then
           _ ← clock_change_sync_timer c interval; mret force
         else
           req ← cb c C.req_interval;
           o ← (if req : bool then mret None else slave_now c);
           match o with
           | None => mret force
           | Some p =>
               _ ← whenM slower (_ ← clock_stop_sync_interval c; clock_stop_sync_timeout c);
               _ ← request_interval p interval;
               _ ← clock_start_signaling_timer c false;
               mret false
           end);
    _ ← whenM force
          (o ← slave_now c;
           match o with Some p => request_interval p interval | None => skip end);
    ptp_setup_sync_interval c.

Definition ptp_change_master_interval (p : pref) (interval : Z) : M unit :=
  s ← pstate p;
  log ← pv p P.logSyncInterval;
  if negb (bool_decide (s = PTP_S_MASTER)) || (log =? interval) then skip
  else
    _ ← pset p P.logSyncInterval interval;
    _ ← pset p P.ds_logSyncInterval interval;
    c ← pclock p;
    _ ← cset c C.set_interval_force 0;
    schedule_delayed_work (W_update_interval c) 10.

Definition ptp_change_slave_interval (c : nat) (interval : Z) (now : bool) : M unit :=
  interval ← ptp_get_fastest_interval c interval;
  hlog ← pv (Host c) P.logSyncInterval;
  if negb (hlog =? interval) || now then
    o ← clock_slave_port c;
    match o with
    | None => skip
    | Some p =>
        _ ← whenM (hlog <? interval)
              (_ ← clock_stop_sync_interval c; clock_stop_sync_timeout c);
        _ ← pset (Host c) P.logSyncInterval interval;
        hlog ← pv (Host c) P.logSyncInterval;
        _ ← port_tx_signal_interval p 127 hlog 127 None;
        _ ← clock_start_signaling_timer c false;
        ptp_setup_sync_interval c
    end
  else ptp_setup_sync_interval c.

End tx.
