(* ===== verification/Port.v ===== *)
(** * Port operations and state changes (ptp_port.c) *)

From stdpp Require Import base list numbers option.
From Stdlib Require Import ZArith Lia.
From S2P Require Import Prelude Ptu Filter Types Bmca Interval ConfigStore World Msgs.
From S2P Require Import Timers Config PortFsm ClockOps Sync Tx.

Definition port_best_ds (q : port) : option bmc_dataset :=
  i ← p_best q; fd_dataset <$> (p_foreign q !! i).

(** ** Timeouts *)

(** The best master of the port is forgotten. *)
Definition port_announce_timeout (p : pref) : M unit :=
  mod_port p (fun q =>
    match p_best q with
    | None => q
    | Some i =>
        set_p_best None
          (set_p_foreign
             (alter (fun f => mk_fd (fd_dataset f) 0 false (fd_port f)) i (p_foreign q)) q)
    end).

Definition port_set_announce_timeout (p : pref) : M unit :=
  log ← pv p P.ds_logAnnounceInterval;
  n ← pv p P.ds_announceReceiptTimeout;
  delay ← mulM (ptp_interval_to_ms log) n;
  start_with (T_ann p) delay.
Definition port_stop_announce_timeout (p : pref) : M unit := ksz_stop_timer (T_ann p).

Definition port_set_qualification_timeout (p : pref) : M unit :=
  log ← pv p P.ds_logAnnounceInterval;
  c ← pclock p;
  steps ← clock_steps c;
  delay ← mulM (ptp_interval_to_ms log) (1 + steps);
  start_with (T_qual p) delay.
Definition port_stop_qualification_timeout (p : pref) : M unit := ksz_stop_timer (T_qual p).
Definition port_stop_fault_timeout (p : pref) : M unit := ksz_stop_timer (T_fault p).

Definition port_init (p : pref) : M unit :=
  index ← pv p P.index;
  if index =? 0 then skip
  else mod_port p (fun q => set_p_best None (set_p_foreign (replicate MAX_FOREIGN_MASTERS fd0) q)).

Definition port_start_p2p (p : pref) : M unit :=
  q ← get_port p;
  if negb (bool_decide (p_delayMechanism q = DELAY_P2P) && truthy (p_num q P.use_delay)) then skip
  else
    _ ← restart (T_delay p);
    aed ← port_is_aed p;
    _ ← whenM aed
          (cnt ← lift (ptp_interval_to_cnt (p_num q P.initialPdelayReqInterval)
                         (p_num q P.waitPdelayReqInterval));
           pset p P.cnt_delay_req cnt);
    _ ← pset p P.cnt_delay_resp (if truthy (p_num q P.gptp_auto) then 10 else 20);
    pset p P.p2p 1.

Definition port_stop_p2p (p : pref) : M unit :=
  q ← get_port p;
  if negb (bool_decide (p_delayMechanism q = DELAY_P2P) && truthy (p_num q P.p2p)) then skip
  else
    _ ← ksz_stop_timer (T_delay p);
    _ ← pset p P.p2p 0;
    let initial := p_num q P.initialPdelayReqInterval in
    _ ← pset p P.pdelay_req_interval initial;
    _ ← pset p P.ds_logMinPdelayReqInterval initial;
    set_period (T_delay p) (ptp_interval_to_ms initial).

Definition init_nrate_info (n : nrate_info) : nrate_info :=
  mk_nrate d_one ptu_zero ptu_zero ptu_zero ptu_zero false.

Section port.
Context {env : Env}.

(** The hardware runs one domain or two. *)
Definition set_hw_master (p : pref) (master : Z) : M unit :=
  c ← pclock p;
  k ← get_clock c;
  gptp ← pv p P.gptp;
  n ← next_step;
  let '(rc, two_domain) := env_two_domain n in
  whenM ((rc =? 0) && (two_domain =? 0))
    (emit (O_global_cfg master (Z.land (dds_flags (c_dds k)) DDS_TWO_STEP_FLAG)
             (b2z (bool_decide (c_delay_mechanism k = DELAY_P2P))) gptp)).

Definition port_start_sync_timer (p : pref) : M unit :=
  index ← pv p P.index;
  if truthy index then skip
  else _ ← set_hw_master p 1; c ← pclock p; clock_start_sync_timer c.
Definition port_stop_sync_timer (p : pref) : M unit :=
  index ← pv p P.index;
  if truthy index then skip
  else _ ← set_hw_master p 0; c ← pclock p; clock_stop_sync_timer c.

(** Ask for the update of the Sync interval in 5 ms. *)
Definition force_interval (c : nat) : M unit :=
  _ ← cset c C.set_interval_force 1;
  schedule_delayed_work (W_update_interval c) 5.

Definition port_to_master (p : pref) : M unit :=
  c ← pclock p;
  aed ← port_is_aed p;
  _ ← whenM aed (force_interval c);
  index ← pv p P.index;
  if index =? 0 then port_start_sync_timer p
  else
    gptp ← pb p P.gptp;
    one_way ← pb p P.use_one_way_resp;
    whenM (gptp && one_way) (_ ← pset p P.as_capable_set 1; port_stop_p2p p).

Definition port_to_slave (p : pref) : M unit :=
  c ← pclock p;
  index ← pv p P.index;
  if index =? 0 then
    _ ← cset c C.rx_sync_seqid 65536;
    cset c C.rx_fup_seqid 65536
  else
    tx ← cb c C.tx_sync;
    _ ← whenM tx (clock_stop_sync_timer c);
    aed ← port_is_aed p;
    gptp ← pb p P.gptp;
    _ ← (if aed : bool then
           n ← pv p P.initialSyncTimeout;
           clock_set_initial_sync_timeout c (n * 1000)
         else
           class ← clock_class c;
           _ ← whenM (negb (class =? 255)) (port_set_announce_timeout p);
           signaling ← cb c C.signaling;
           whenM (gptp && negb signaling) (clock_start_signaling_timer c false));
    one_way ← pb p P.use_one_way_resp;
    whenM (gptp && one_way) (_ ← pset p P.as_capable_set 0; port_start_p2p p).

(** [set_state] stands for [port_set_state], which is defined below. *)
Section with_set_state.
Variable set_state : pref -> ptp_state -> M unit.

Definition port_to_sync (p : pref) : M unit :=
  c ← pclock p;
  i ← pdelay_of p;
  _ ← clock_peer_delay c i;
  log ← pv p P.logSyncInterval;
  _ ← ptp_change_slave_interval c log false;
  set_state (Host c) PTP_S_SLAVE.

(** The settings of a hardware port at its start. *)
Definition port_reset (p : pref) (c : nat) : M unit :=
  initial ← pv p P.initialSyncInterval;
  _ ← pset p P.logSyncInterval initial;
  _ ← pset p P.neighborDelayThresh 800;
  _ ← pset p P.report_resp 1;
  no_capable ← pb p P.no_capable;
  lost ← gv G.allowed_lost_responses;
  _ ← whenM (negb no_capable) (pset p P.resp_missing (lost + 1));
  multi ← pb p P.allow_multi_resp;
  _ ← whenM (negb multi) (pset p P.peer_valid 0);
  _ ← pset p P.peer_resp 0;
  index ← pv p P.index;
  cfg ← gets w_cfg;
  _ ← whenM (bool_decide (gptp_port_get_use_delay cfg index = Some 0))
        (_ ← pset p P.as_capable_set 1; pset p P.use_delay 0);
  _ ← match gptp_port_get_latency cfg index with
      | Some (rx, tx, asym) =>
          _ ← pset p P.rx_latency rx;
          _ ← pset p P.tx_latency tx;
          _ ← pset p P.asym_delay asym;
          port_set_latency p
      | None => skip
      end;
  cfg_index ← cv c C.cfg_index;
  _ ← match gptp_port_profile_get_delay_thresh cfg cfg_index with
      | Some thresh => pset p P.neighborDelayThresh thresh
      | None => skip
      end;
  i ← pdelay_of p;
  let i := mk_pdelay 0 (pi_raw_delay i) (init_nrate_info (pi_nrate i))
             (filter_reset (pi_filter i) true) in
  _ ← set_pdelay p i;
  match gptp_port_get_peer_delay cfg index with
  | Some delay =>
      whenM (truthy delay)
        (_ ← set_pdelay p (set_pi_delay delay (set_pi_raw_delay delay i));
         _ ← pset p P.ds_peerMeanPathDelay (Z.shiftl delay SCALED_NANOSEC_S);
         port_set_peer_delay p)
  | None => skip
  end.

(** The state of a hardware port at its start. *)
Definition port_first_state (p : pref) (c : nat) : M unit :=
  no_link ← pb p P.no_link;
  if no_link : bool then mod_port p (set_p_state PTP_S_FAULTY)
  else
    _ ← mod_port p (set_p_state PTP_S_LISTENING);
    aed ← port_is_aed p;
    slave ← pb p P.gptp_slave;
    _ ← (if aed : bool then
           _ ← pset p P.report_announce 1;
           _ ← pset p P.report_mismatched 0;
           _ ← pset p P.report_pdelay 1;
           if slave : bool then
             _ ← mod_port p (set_p_state PTP_S_SLAVE);
             _ ← pset p P.report_signal 1;
             port_to_sync p
           else
             _ ← mod_port p (set_p_state PTP_S_MASTER);
             pset p P.report_sync 1
         else
           class ← clock_class c;
           fault ← pv p P.last_fault;
           whenM (negb (class =? 255) && (fault =? 0)) (port_set_announce_timeout p));
    _ ← clock_enable_port c p true;
    one_way ← pb p P.use_one_way_resp;
    gptp ← pb p P.gptp;
    s ← pstate p;
    _ ← whenM (negb one_way || (gptp && negb (bool_decide (s = PTP_S_MASTER))))
          (port_start_p2p p);
    s ← pstate p;
    match s with
    | PTP_S_MASTER => port_to_master p
    | PTP_S_SLAVE => port_to_slave p
    | _ => skip
    end.

Definition port_initialize (p : pref) : M unit :=
  _ ← ptp_init_port_ds p;
  index ← pv p P.index;
  if index =? 0 then mod_port p (set_p_state PTP_S_LISTENING)
  else
    c ← pclock p;
    _ ← port_reset p c;
    _ ← port_first_state p c;
    slave ← pb p P.gptp_slave;
    whenM slave
      (s ← pstate p;
       _ ← whenM (bool_decide (s = PTP_S_FAULTY))
             (n ← pv p P.initialSyncTimeout;
              clock_set_initial_sync_timeout c (n * 1000 * 2));
       clock_set_slave_port c p).

(** What the port gives up when it leaves its state for [state]. *)
Definition port_leave (p : pref) (from state : ptp_state) : M unit :=
  match from with
  | PTP_S_MASTER =>
      index ← pv p P.index;
      whenM (index =? 0) (port_stop_sync_timer p)
  | PTP_S_UNCALIBRATED | PTP_S_SLAVE =>
      gptp ← pb p P.gptp;
      _ ← (if gptp : bool then skip
           else
             c ← pclock p;
             timeout ← cb c C.sync_timeout;
             whenM timeout (_ ← cset c C.sync_timeout 0; clock_stop_sync_timer c));
      if receiving state then skip
      else
        index ← pv p P.index;
        aed ← port_is_aed p;
        whenM (truthy index && gptp && negb aed)
          (c ← pclock p; clock_stop_signaling_timer c)
  | _ => skip
  end.

(** What the port does in its new state. *)
Definition port_enter (p : pref) (from state : ptp_state) : M unit :=
  match state with
  | PTP_S_INITIALIZING => port_initialize p
  | PTP_S_FAULTY =>
      c ← pclock p;
      _ ← clock_enable_port c p false;
      _ ← port_stop_p2p p;
      aed ← port_is_aed p;
      whenM (aed && bool_decide (from = PTP_S_MASTER)) (force_interval c)
  | PTP_S_DISABLED =>
      c ← pclock p;
      _ ← clock_enable_port c p false;
      port_stop_p2p p
  | PTP_S_LISTENING =>
      index ← pv p P.index;
      gptp ← pb p P.gptp;
      _ ← whenM ((index =? 0) && gptp) (pset p P.logSyncInterval 8);
      if index =? 0 then skip
      else
        c ← pclock p;
        class ← clock_class c;
        whenM (negb (class =? 255)) (port_set_announce_timeout p)
  | PTP_S_PASSIVE =>
      index ← pv p P.index;
      if index =? 0 then skip
      else
        c ← pclock p;
        class ← clock_class c;
        whenM (negb (class =? 255)) (port_set_announce_timeout p)
  | PTP_S_UNCALIBRATED =>
      q ← get_port p;
      _ ← whenM (bool_decide (p_delayMechanism q = DELAY_P2P))
            (c ← pclock p; clock_peer_delay c (p_pdelay q));
      port_to_slave p
  | PTP_S_SLAVE => port_to_slave p
  | PTP_S_PRE_MASTER =>
      index ← pv p P.index;
      gptp ← pb p P.gptp;
      whenM (truthy index && negb gptp) (port_set_qualification_timeout p)
  | PTP_S_MASTER => port_to_master p
  | PTP_S_INIT => skip
  end.

Definition port_change_state (p : pref) (state : ptp_state) : M unit :=
  index ← pv p P.index;
  _ ← whenM (bool_decide (state = PTP_S_SLAVE) && (index =? 0)) (pset p P.cnt_sync_rx 20);
  from ← pstate p;
  if bool_decide (from = state) then skip
  else
    _ ← port_leave p from state;
    _ ← mod_port p (set_p_state state);
    _ ← port_enter p from state;
    mod_port p (fun q => set_p_portState (p_state q) (set_p_next_state (p_state q) q)).

End with_set_state.

(** The only call from within goes to the host port, for the slave state,
    which makes no further call. *)
Fixpoint port_set_state_n (depth : nat) (p : pref) (state : ptp_state) : M unit :=
  match depth with
  | O => ub
  | S depth => port_change_state (port_set_state_n depth) p state
  end.
Definition port_set_state : pref -> ptp_state -> M unit := port_set_state_n 2.

Definition port_set_fault_timeout (p : pref) (fault ms : Z) : M unit :=
  _ ← pset p P.last_fault fault;
  _ ← start_with (T_fault p) ms;
  s ← port_event p EVENT_FAULT_SET;
  port_set_state p s.

End port.
