(* ===== verification/Decision.v ===== *)
(** * Foreign masters and the state decision (ptp_protocol.c, ptp_bmca.c)

    Announce messages enter the foreign master table of their port; the state
    decision compares the tables, chooses the best master of the clock and
    moves every port. *)

From stdpp Require Import base list numbers option.
From Stdlib Require Import ZArith Lia.
From S2P Require Import Prelude Types Bmca Wire World Msgs Timers Config PortFsm.
From S2P Require Import ClockOps Sync Tx Port.

(** ** Foreign masters *)

(** Whether the compared part of two datasets differs. *)
Definition dataset_cmp (old new : bmc_dataset) : bool :=
  negb (bool_decide (ds_prio_1 old = ds_prio_1 new)) ||
  negb (bool_decide (ds_prio_2 old = ds_prio_2 new)) ||
  negb (bool_decide (ds_steps_removed old = ds_steps_removed new)) ||
  negb (bool_decide (ds_id old = ds_id new)) ||
  negb (bool_decide (ds_quality old = ds_quality new)).

Definition announce_to_dataset (b : buf) (id : clock_identity) (port_id : Z)
    : option bmc_dataset :=
  prio_1 ← rd b 47 1;
  prio_2 ← rd b 52 1;
  steps ← rd b ANN_steps 2;
  gm ← rd_clock_id b 53;
  class ← rd b 48 1;
  accuracy ← rd b 49 1;
  variance ← rd b ANN_variance 2;
  tx ← hdr_sourcePortIdentity b;
  Some (mk_ds prio_1 prio_2 steps gm (mk_quality class accuracy variance)
          (mk_pid id port_id) tx).

(** An entry after one more Announce of its transmitter: the entry, whether
    the threshold is met, whether its dataset changed. *)
Definition count_announce (p : pref) (threshold : Z) (ds : bmc_dataset) (f : foreign_dataset)
    : foreign_dataset * bool * bool :=
  let port := if fd_cnt f =? 0 then Some p else fd_port f in
  let meet := threshold - 1 =? fd_cnt f in
  let diff := (fd_cnt f >? 1) && dataset_cmp (fd_dataset f) ds in
  let cnt := if fd_valid f then fd_cnt f else u8 (fd_cnt f + 1) in
  (mk_fd (if diff then ds else fd_dataset f) cnt (fd_valid f || meet) port, meet, diff).

(** Whether the clock needs a decision. *)
Definition add_foreign_master (p : pref) (ds : bmc_dataset) : M bool :=
  gptp ← pb p P.gptp;
  let threshold := if gptp : bool then 1 else FOREIGN_MASTER_THRESHOLD in
  q ← get_port p;
  let '(o, masters) := find_foreign_master (p_foreign q) ds in
  match o with
  | None => mret false
  | Some i =>
      _ ← mod_port p (set_p_foreign masters);
      _ ← port_set_announce_timeout p;
      f ← lift (masters !! i);
      let '(f, meet, diff) := count_announce p threshold ds f in
      _ ← mod_port p (set_p_foreign (<[i := f]> masters));
      mret (meet || diff)
  end.

Definition update_current_master (p : pref) (ds : bmc_dataset) : M bool :=
  q ← get_port p;
  i ← lift (p_best q);
  f ← lift (p_foreign q !! i);
  if negb (same_port_id (ds_tx ds) (ds_tx (fd_dataset f))) then add_foreign_master p ds
  else
    _ ← port_set_announce_timeout p;
    c ← pclock p;
    _ ← whenM (negb (bool_decide (p_state q = PTP_S_PASSIVE)))
          (port_set_announce_timeout (Host c));
    if (fd_cnt f =? 0) || negb (dataset_cmp (fd_dataset f) ds) then mret false
    else
      let f := mk_fd ds (fd_cnt f) (fd_valid f) (fd_port f) in
      _ ← mod_port p (fun q => set_p_foreign (<[i := f]> (p_foreign q)) q);
      _ ← ptp_update_parent_ds c (Some f);
      mret true.

(** ** The decision *)

Definition bmca_decision (c : nat) (p : pref) : M ptp_state :=
  _ ← clock_default_ds c;
  clock_best ← clock_best_ds c;
  best_port ← clock_best_port c;
  q ← get_port p;
  _ ← mod_clock c (fun k =>
        let d := c_dataset k in
        set_c_dataset (mk_ds (ds_prio_1 d) (ds_prio_2 d) (ds_steps_removed d) (ds_id d)
          (ds_quality d) (ds_rx d) (mk_pid (pid_clock (ds_tx d)) (p_num q P.index))) k);
  class ← clock_class c;
  k ← get_clock c;
  mret (bmca_decide class (c_dataset k) clock_best best_port p (port_best_ds q) (p_state q)).

Definition decision_event (s : ptp_state) : ptp_event :=
  match s with
  | PTP_S_LISTENING => EVENT_NONE
  | PTP_S_PRE_MASTER => EVENT_READY_MASTER
  | PTP_S_MASTER => EVENT_BECOME_MASTER
  | PTP_S_PASSIVE => EVENT_BECOME_PASSIVE
  | PTP_S_SLAVE => EVENT_BECOME_SLAVE
  | _ => EVENT_FAULT_SET
  end.

(** The best entry of every port, and the best of them: its place and
    contents. *)
Fixpoint best_of_ports (c : nat) (l : list nat) (best : option (pref * nat * foreign_dataset))
    : M (option (pref * nat * foreign_dataset)) :=
  match l with
  | [] => mret best
  | n :: l =>
      p ← ptp_port_of c n;
      q ← get_port p;
      let o := find_best_master (p_foreign q) in
      _ ← mod_port p (set_p_best (fst <$> o));
      best_of_ports c l
        (match o with
         | None => best
         | Some (i, f) =>
             match best with
             | None => Some (p, i, f)
             | Some (_, _, b) =>
                 if bmca_better (Some (fd_dataset f)) (Some (fd_dataset b)) >? 0
                 then Some (p, i, f) else best
             end
         end)
  end.

(** The master of the clock: the best entry, unless the clock itself is. *)
Definition choose_master (c : nat) (best : option (pref * nat * foreign_dataset)) : M unit :=
  k ← get_clock c;
  let own := c_dataset k in
  let master :=
    match best with
    | Some (p, i, f) =>
        if bmca_better (Some (fd_dataset f)) (Some own) >? 0 then Some (p, i, f) else None
    | None => None
    end in
  _ ← mod_clock c (set_c_best (match master with Some (p, i, _) => Some (p, i) | None => None end));
  let best_id :=
    match master with
    | Some (_, _, f) => ds_id (fd_dataset f)
    | None => dds_clockIdentity (c_dds k)
    end in
  if memcmp best_id (c_best_id k) =? 0 then skip
  else
    _ ← mod_clock c (set_c_best_id best_id);
    f ← clock_best_entry c;
    _ ← ptp_update_parent_ds c f;
    _ ← cset c C.rx_sync_seqid 196608;
    cset c C.rx_fup_seqid 196609.

Section decision.
Context {env : Env}.

(** One port moves to the state decided for it; whether the clock has a slave
    and a master port so far. *)
Definition decide_port (c : nat) (p : pref) (have : bool * bool) : M (bool * bool) :=
  state ← bmca_decision c p;
  _ ← mod_port p (set_p_last_state state);
  next ← port_event p (decision_event state);
  _ ← port_set_state p next;
  s ← pstate p;
  mret (fst have || bool_decide (state = PTP_S_SLAVE),
        snd have || bool_decide (state = PTP_S_MASTER) || bool_decide (s = PTP_S_MASTER)).

Fixpoint decide_ports (c : nat) (l : list nat) (have : bool * bool) : M (bool * bool) :=
  match l with
  | [] => mret have
  | n :: l => p ← ptp_port_of c n; have ← decide_port c p have; decide_ports c l have
  end.

Definition host_decision (have : bool * bool) : ptp_event :=
  if fst have then EVENT_BECOME_SLAVE
  else if snd have then EVENT_BECOME_MASTER
  else EVENT_BECOME_PASSIVE.

Definition handle_state_decision (c : nat) : M unit :=
  _ ← clock_default_ds c;
  no ← cb c C.no_announce;
  if no : bool then skip
  else
    cnt ← cv c C.cnt;
    let ns := seq 1 (Z.to_nat cnt) in
    best ← best_of_ports c ns None;
    _ ← choose_master c best;
    have ← decide_ports c ns (false, false);
    p ← ptp_port_of c 0;
    s ← host_event p (host_decision have);
    port_set_state p s.

(** ** Announce *)

Definition handle_announce (p : pref) (m : mref) : M unit :=
  aed ← port_is_aed p;
  if aed : bool then
    report ← pb p P.report_announce;
    whenM report (pset p P.report_announce 0)
  else
    steps ← mrd m (fun b => rd b ANN_steps 2);
    if steps >=? 255 then skip
    else
      c ← pclock p;
      k ← get_clock c;
      src ← mrd m hdr_sourcePortIdentity;
      if same_clock_id (c_id k) (pid_clock src) then
        id ← pv p P.id;
        s ← pstate p;
        whenM (pid_port src <? id)
          (if bool_decide (s = PTP_S_PASSIVE) then port_set_announce_timeout p
           else port_set_state p PTP_S_PASSIVE)
      else
        found ← mrd m (Tlv.check_path_trace (c_id k));
        if found : bool then skip
        else
          gptp ← pb p P.gptp;
          _ ← whenM gptp (ptp_forward p m);
          ptp_save_rx_msg m.

Definition proc_announce (p : pref) (m : mref) : M unit :=
  c ← pclock p;
  k ← get_clock c;
  id ← pv p P.id;
  ds ← mrd m (fun b => announce_to_dataset b (c_id k) id);
  s ← pstate p;
  result ←
    match s with
    | PTP_S_INITIALIZING | PTP_S_FAULTY | PTP_S_DISABLED => mret false
    | PTP_S_PASSIVE | PTP_S_UNCALIBRATED | PTP_S_SLAVE => update_current_master p ds
    | _ => add_foreign_master p ds
    end;
  whenM result (handle_state_decision c).

End decision.
