(* ===== verification/Rx.v ===== *)
(** * Received messages and transmit timestamps (ptp_protocol.c, ptp_signal.c,
    [port_sync] of ptp_sync.c, the process task of ptp_stack.c)

    A [handle_] function runs in the receive task, when a message or the
    transmit timestamp of an own message ([delayed]) comes in; what takes
    longer is queued for the process task, which calls the [proc_] function of
    the message. *)

From stdpp Require Import base list numbers option.
From Stdlib Require Import ZArith Lia SpecFloat.
From S2P Require Import Prelude Ptu Filter Servo Types Wire Tlv Interval World Msgs.
From S2P Require Import Timers Config PortFsm ClockOps Sync Tx Port Decision.

(** An [int] result, undefined when it overflows. *)
Definition intM (z : Z) : M Z := if s32 z =? z then mret z else ub.

Definition MULT_RESP_FAULT_TIMEOUT : Z := 300000.
Definition ALLOWED_LOST_RESPONSES : Z := 3.
Definition AED_STATE_ETHERNET_READY : Z := 1.
Definition AED_STATE_AVB_SYNC : Z := 2.
Definition TLV_REQUEST_UNICAST_TRANSMISSION : Z := 4.

(** ** Which messages a port takes *)

(** [get_ptp_clock(msg->hdr.domainNumber)] *)
Definition clock_of_msg (m : mref) : M (option nat) :=
  domain ← mrd m hdr_domainNumber; get_ptp_clock domain.

Definition accept_domain_msg (p : pref) (m : mref) : M bool :=
  c ← clock_of_msg m;
  q ← get_port p;
  transport ← mrd m hdr_transportSpecific;
  mret (match c with
        | None => false
        | Some _ =>
            bool_decide (c = p_c q) &&
            negb (truthy (p_num q P.gptp) && negb (truthy transport))
        end).

Definition accept_slave_msg (p : pref) (m : mref) (chk : bool) : M bool :=
  o ← clock_of_msg m;
  q ← get_port p;
  match o with
  | None => mret false
  | Some c =>
      if negb (bool_decide (Some c = p_c q)) then mret false
      else if negb (receiving (p_state q)) then mret false
      else
        k ← get_clock c;
        src ← mrd m hdr_sourcePortIdentity;
        mret (negb (chk && negb (memcmp (c_best_id k) (pid_clock src) =? 0)))
  end.

(** ** Sync *)

Section rx.
Context {env : Env}.

Definition port_rx_sync (p : pref) : M unit :=
  q ← get_port p;
  if negb (bool_decide (p_delayMechanism q = DELAY_E2E)) then skip
  else
    c ← pclock p;
    k ← get_clock c;
    match c_servo_state k with
    | SERVO_UNLOCKED => skip
    | s => ksz_start_timer (T_delay p) (if bool_decide (s = SERVO_LOCKING) then 500 else 1)
    end.

(** [port_set_state(p, port_event(p, event))] *)
Definition port_on_event (p : pref) (e : ptp_event) : M unit :=
  s ← port_event p e; port_set_state p s.

(** The hardware clock. *)
Definition get_hw_clock : M (Z * Z) := n ← next_step; mret (env_get_clock n).

(** What the state of the servo means for the port. *)
Definition sync_state (p : pref) (state : servo_state) : M unit :=
  gptp ← pb p P.gptp;
  aut ← pb p P.gptp_auto;
  match state with
  | SERVO_JUMP_LONG =>
      _ ← whenM (negb gptp) (mod_filter p (fun f => filter_reset f true));
      whenM (negb aut) (port_on_event p EVENT_CLOCK_UNSTABLE)
  | SERVO_JUMP => whenM (negb aut) (port_on_event p EVENT_CLOCK_UNSTABLE)
  | SERVO_LOCKED =>
      s ← pstate p;
      whenM (negb (bool_decide (s = PTP_S_SLAVE))) (port_on_event p EVENT_CLOCK_STABLE)
  | SERVO_UNLOCKED | SERVO_LOCKING => skip
  end.

(** The first Sync is reported to the automotive test system. *)
Definition report_first_sync (p : pref) : M unit :=
  c ← pclock p;
  first ← cb c C.first_sync;
  '(sec, nsec) ←
    (if first : bool then mret (0, 0)
     else
       t ← get_hw_clock;
       _ ← cset c C.first_sync 1;
       _ ← cset c C.report_sync 1;
       mret t);
  report ← cb c C.report_sync;
  if negb report then skip
  else
    test ← gv G.automotive_test_mode;
    done ← pb p P.report_ready_done;
    if truthy test && done then
      '(sec, nsec) ←
        (if (sec =? 0) && (nsec =? 0) then get_hw_clock else mret (sec, nsec));
      let timestamp := uN 64 (uN 64 (sec * 1000000000) + nsec) in
      seqid ← gv G.avtpdu_seqid;
      _ ← gset G.avtpdu_seqid (seqid + 1);
      index ← pv p P.index;
      bit ← port_bit p;
      _ ← emit (O_aed (u16 (index - 1)) seqid timestamp AED_STATE_AVB_SYNC (u16 bit));
      cset c C.report_sync 0
    else whenM (negb (truthy test)) (cset c C.report_sync 0).

Definition port_sync (p : pref) (ingress : ptp_utime) (origin : ptp_timestamp)
    (cor_sync cor_fup : Z) : M unit :=
  let t1 := ptp_timestamp_to_scaled origin in
  let t2 := ptp_utime_to_scaled ingress in
  let c1 := ptp_correction_to_scaled cor_sync in
  let c2 := if truthy cor_fup then ptp_correction_to_scaled cor_fup else ptu_zero in
  let c12 := ptu_add c1 c2 in
  let t1c := ptu_add t1 c12 in
  c ← pclock p;
  state ← clock_sync c t2 t1c;
  _ ← sync_state p state;
  report_first_sync p.

(** The interval and the timers of a Sync of gPTP, and whether it is
    forwarded. *)
Definition gptp_sync (p : pref) (c : nat) (m : mref) : M unit :=
  last ← cv c C.last_sync_jiffies;
  _ ← cset c C.prev_sync_jiffies last;
  _ ← time_save c C.last_sync_jiffies 1;
  _ ← clock_set_sync_interval c;
  two_step ← mrd m flag_twoStep;
  seq ← mrd m hdr_sequenceId;
  _ ← (if two_step : bool then clock_set_fup_timeout c else cset c C.rx_fup_seqid seq);
  miss ← cb c C.miss_sync;
  tx ← cv c C.tx_sync_seqid;
  let forward := negb (miss && (tx =? seq)) in
  fup ← cv c C.rx_fup_seqid;
  sync ← cv c C.rx_sync_seqid;
  _ ← whenM (fup =? sync) (clock_set_sync_timeout c);
  timeout ← cb c C.sync_timeout;
  sending ← cb c C.tx_sync;
  let forward := forward && negb (timeout || sending) in
  _ ← cset c C.miss_fup (b2z (negb forward));
  _ ← whenM forward (ptp_forward p m);
  _ ← ptp_save_sync c m;
  timeout ← cb c C.sync_timeout;
  whenM (negb timeout) (cset c C.miss_sync 0).

(** [msg_info_save(&c->f, msg, hw_time)] for the two infos of a clock. *)
Definition clock_save_rx_sync (c : nat) (m : mref) : M unit :=
  k ← get_clock c;
  x ← get_msg m;
  i ← lift (msg_info_save (c_rx_sync k) (m_msg x) (Some (m_rx x)));
  mod_clock c (set_c_rx_sync i).
Definition clock_save_rx_fup (c : nat) (m : mref) : M unit :=
  k ← get_clock c;
  i ← mrd m (fun b => msg_info_save (c_rx_fup k) b None);
  mod_clock c (set_c_rx_fup i).

(** A message a master of the Automotive profile does not expect is reported
    once. *)
Definition report_once (p : pref) (f : P.t) : M unit :=
  r ← pb p f; whenM r (pset p f 0).

Definition handle_sync (p : pref) (m : mref) : M unit :=
  o ← clock_of_msg m;
  master ← port_is_aed_master p;
  if master : bool then report_once p P.report_sync
  else
    aed ← port_is_aed p;
    accept ← accept_slave_msg p m (negb aed);
    if negb accept then skip
    else
      c ← lift o;
      last ← cv c C.rx_sync_seqid;
      seq ← mrd m hdr_sequenceId;
      if negb (accept_seqid last seq) then skip
      else
        src ← mrd m hdr_sourcePortIdentity;
        _ ← whenM aed (mod_clock c (set_c_best_id (pid_clock src)));
        gptp ← pb p P.gptp;
        _ ← whenM gptp (gptp_sync p c m);
        _ ← cset c C.rx_sync_seqid seq;
        _ ← clock_save_rx_sync c m;
        ptp_save_rx_msg m.

(** A new Sync interval of the master. *)
Definition new_sync_interval (p : pref) (c : nat) (interval : Z) : M unit :=
  log ← cv c C.logSyncInterval;
  if log =? interval then skip
  else
    _ ← set_period (T_sync c) (ptp_interval_to_ms interval);
    _ ← cset c C.logSyncInterval interval;
    _ ← pset p P.cnt_sync_rx 0;
    _ ← pset (Host c) P.cnt_sync_rx 5;
    _ ← cset c C.first_sync 0;
    cset c C.report_sync 1.

(** The interval is the one asked for: the request ends, and the operational
    interval is asked for next. *)
Definition interval_matches (p : pref) (c : nat) : M unit :=
  aed ← port_is_aed p;
  req ← cb c C.req_interval;
  _ ← whenM (aed && req)
        (_ ← cset c C.req_interval 0;
         signaling ← cb c C.signaling;
         oper ← cv c C.oper_sync_jiffies;
         whenM (signaling && (oper =? 0)) (clock_stop_signaling_timer c));
  log ← pv p P.logSyncInterval;
  operlog ← pv p P.operSyncInterval;
  oper ← cv c C.oper_sync_jiffies;
  whenM (negb (log =? operlog) && (oper =? 0))
    (_ ← time_save c C.oper_sync_jiffies 1;
     signaling ← cb c C.signaling;
     whenM (negb signaling) (clock_start_signaling_timer c true)).

(** The interval of the message, or the measured one after two mismatches in a
    row. *)
Definition measured_interval (p : pref) (interval actual : Z) : M Z :=
  let ms := ptp_interval_to_ms interval in
  diff ← intM (s32 actual - ms);
  if Z.abs diff <=? Z.quot ms 4 then
    _ ← pset p P.report_mismatched 0; mret interval
  else
    n ← pv p P.report_mismatched;
    _ ← whenM (n <? 3) (pset p P.report_mismatched (n + 1));
    n ← pv p P.report_mismatched;
    if n >=? 2 then lift (us_to_ptp_interval (s32 actual)) else mret interval.

Definition proc_sync_interval (p : pref) (m : mref) : M unit :=
  c ← pclock p;
  interval ← mrd m hdr_logMessageInterval;
  prev ← cv c C.prev_sync_jiffies;
  if prev =? 0 then skip
  else
    last ← cv c C.last_sync_jiffies;
    interval ← measured_interval p interval (time_delta prev last);
    _ ← new_sync_interval p c interval;
    hlog ← pv (Host c) P.logSyncInterval;
    if hlog =? interval then interval_matches p c
    else
      signaling ← cb c C.signaling;
      whenM (negb signaling)
        (_ ← pset (Host c) P.logSyncInterval interval;
         ptp_change_slave_interval c hlog false).

Definition proc_sync (p : pref) (m : mref) : M unit :=
  o ← clock_of_msg m;
  aed ← port_is_aed p;
  _ ← whenM aed (proc_sync_interval p m);
  two_step ← mrd m flag_twoStep;
  x ← get_msg m;
  corr ← mrd m hdr_correctionField;
  if negb two_step then
    origin ← mrd m (fun b => rd_timestamp b DATA);
    _ ← port_sync p (m_rx x) origin corr 0;
    port_rx_sync p
  else
    c ← lift o;
    k ← get_clock c;
    let fup := c_rx_fup k in
    if negb (msg_info_valid fup) then clock_save_rx_sync c m
    else
      seq ← mrd m hdr_sequenceId;
      let found := mi_seqid fup =? seq in
      _ ← whenM found
            (_ ← port_sync p (m_rx x) (mi_ptp_time fup) corr (mi_correction fup);
             port_rx_sync p);
      _ ← mod_clock c (fun k => set_c_rx_fup (msg_info_clear (c_rx_fup k)) k);
      if found : bool then skip else clock_save_rx_sync c m.

(** ** Follow_Up *)

(** Whether a Follow_Up of gPTP is forwarded. *)
Definition gptp_fup (p : pref) (c : nat) (seq : Z) : M bool :=
  miss ← cb c C.miss_fup;
  sync ← cv c C.rx_sync_seqid;
  timeout ← cb c C.sync_timeout;
  sending ← cb c C.tx_sync;
  let forward := negb (miss || negb (sync =? seq)) && negb (timeout || sending) in
  set ← cv c C.set_sync_timeout_jiffies;
  now ← jiffies;
  let diff := time_delta set now in
  log ← pv p P.logSyncInterval;
  fup ← cv c C.rx_fup_seqid;
  _ ← whenM
        ((diff >=? u32 (2 * ptp_interval_to_ms log)) && (sync =? seq)
         || (fup >? 65535) && (sync =? 65536))
        (clock_set_sync_timeout c);
  mret forward.

Definition handle_fup (p : pref) (m : mref) : M unit :=
  o ← clock_of_msg m;
  master ← port_is_aed_master p;
  if master : bool then skip
  else
    accept ← accept_slave_msg p m true;
    if negb accept then skip
    else
      c ← lift o;
      last ← cv c C.rx_fup_seqid;
      seq ← mrd m hdr_sequenceId;
      if negb (accept_seqid last seq) then skip
      else
        gptp ← pb p P.gptp;
        k ← get_clock c;
        _ ← (if msg_info_valid (c_rx_sync k) && (mi_seqid (c_rx_sync k) =? seq)
             then whenM gptp (clock_stop_fup_timeout c)
             else clock_save_rx_fup c m);
        _ ← mrd m check_follow_up;
        forward ← (if gptp : bool then gptp_fup p c seq else mret false);
        _ ← cset c C.rx_fup_seqid seq;
        _ ← whenM forward (ptp_forward p m);
        _ ← whenM gptp (ptp_save_fup c m);
        _ ← cset c C.miss_fup 0;
        ptp_save_rx_msg m.

Definition proc_fup (p : pref) (m : mref) : M unit :=
  o ← clock_of_msg m;
  c ← lift o;
  k ← get_clock c;
  let sync := c_rx_sync k in
  if negb (msg_info_valid sync) then skip
  else
    seq ← mrd m hdr_sequenceId;
    _ ← whenM (mi_seqid sync =? seq)
          (origin ← mrd m (fun b => rd_timestamp b DATA);
           corr ← mrd m hdr_correctionField;
           _ ← port_sync p (mi_hw_time sync) origin (mi_correction sync) corr;
           port_rx_sync p);
    mod_clock c (fun k => set_c_rx_sync (msg_info_clear (c_rx_sync k)) k).

(** ** The transmit timestamp of a Sync *)

(** The port whose Sync the timestamp belongs to: the port, or the host port
    that sent for it. *)
Definition sync_sender (p : pref) : M (option pref) :=
  sync ← pinfo p I.tx_sync;
  if msg_info_valid sync then mret (Some p)
  else
    c ← pclock p;
    h ← get_port (Host c);
    mret (if bool_decide (p_state h = PTP_S_MASTER) && msg_info_valid (p_info h I.tx_sync)
          then Some (Host c) else None).

Definition take_timestamp (p : pref) (i : I.t) (m : mref) : M unit :=
  x ← get_msg m; mod_pinfo p i (set_mi_hw_time (m_rx x)).

Definition handle_delayed_sync (p : pref) (m : mref) : M unit :=
  o ← sync_sender p;
  two_step ← pb p P.sync_two_step;
  match o with
  | None => skip
  | Some h =>
      if negb two_step then skip
      else
        sync ← pinfo h I.tx_sync;
        seq ← mrd m hdr_sequenceId;
        if negb (mi_seqid sync =? seq) then skip
        else _ ← take_timestamp h I.tx_sync m; ptp_save_rx_msg m
  end.

Definition proc_delayed_sync (p : pref) (m : mref) : M unit :=
  o ← sync_sender p;
  two_step ← pb p P.sync_two_step;
  c ← pclock p;
  match o with
  | None => skip
  | Some h =>
      sync ← pinfo h I.tx_sync;
      seq ← mrd m hdr_sequenceId;
      let by_host := bool_decide (h = Host c) in
      if by_host && (negb two_step || negb (mi_seqid sync =? seq)) then skip
      else
        _ ← whenM by_host (take_timestamp h I.tx_sync m);
        hs ← pstate (Host c);
        if bool_decide (hs = PTP_S_MASTER) then port_tx_fup p m
        else
          fup ← cslot c S.last_fup;
          match fup with Some _ => ptp_fwd_fup p | None => skip end
  end.

(** ** Delay_Req and Delay_Resp *)

Definition handle_delay_req (p : pref) (m : mref) : M unit :=
  q ← get_port p;
  if negb (bool_decide (p_delayMechanism q = DELAY_E2E)) then skip
  else if negb (bool_decide (p_state q = PTP_S_MASTER)) then skip
  else ptp_save_rx_msg m.

Definition proc_delay_req (p : pref) (m : mref) : M unit := port_tx_delay_resp p m.

Definition proc_delay_response (p : pref) : M unit :=
  req ← pinfo p I.tx_delay_req;
  rsp ← pinfo p I.rx_delay_resp;
  _ ← port_path_delay p (mi_hw_time req) (mi_ptp_time rsp) (mi_correction rsp);
  _ ← pinfo_clear p I.tx_delay_req;
  pinfo_clear p I.rx_delay_resp.

(** Whether a response answers the request of the port. *)
Definition answers (req : msg_info) (m : mref) : M bool :=
  id ← mrd m (fun b => rd_port_id b SECOND_id);
  seq ← mrd m hdr_sequenceId;
  mret (same_port_id id (mi_id req) && (seq =? mi_seqid req)).

Definition handle_delay_resp (p : pref) (m : mref) : M unit :=
  req ← pinfo p I.tx_delay_req;
  if negb (msg_info_valid req) then skip
  else
    accept ← accept_slave_msg p m true;
    if negb accept then skip
    else
      mine ← answers req m;
      if negb mine then skip
      else
        log ← pv p P.ds_logMinDelayReqInterval;
        new ← mrd m hdr_logMessageInterval;
        unicast ← mrd m flag_unicast;
        _ ← whenM (negb (log =? new) && negb unicast && (new >? -4) && (new <? 8))
              (pset p P.ds_logMinDelayReqInterval new);
        _ ← pinfo_save p I.rx_delay_resp m None;
        whenM (msg_info_ts_valid req) (ptp_save_rx_msg m).

Definition proc_delay_resp (p : pref) (m : mref) : M unit := proc_delay_response p.

(** Whether the response to the request of the port is there. *)
Definition resp_there (req rsp : msg_info) : bool :=
  msg_info_valid rsp && (mi_seqid rsp =? mi_seqid req).

Definition handle_delayed_delay_req (p : pref) (m : mref) : M unit :=
  req ← pinfo p I.tx_delay_req;
  rsp ← pinfo p I.rx_delay_resp;
  if negb (msg_info_valid req) then skip
  else
    _ ← take_timestamp p I.tx_delay_req m;
    whenM (resp_there req rsp) (ptp_save_rx_msg m).

Definition proc_delayed_delay_req (p : pref) (m : mref) : M unit :=
  req ← pinfo p I.tx_delay_req;
  rsp ← pinfo p I.rx_delay_resp;
  whenM (resp_there req rsp) (proc_delay_response p).

(** ** Pdelay_Req and Pdelay_Resp *)

(** The address after [num] was added to its last byte. *)
Fixpoint add_carry (l : list nat) (num : Z) (addr : list Z) : list Z :=
  match l with
  | [] => addr
  | n :: l =>
      if num >? 255 then
        let addr := <[n := u8 (num - 255)]> addr in
        add_carry l (nth (n - 1) addr 0 + 1) addr
      else addr
  end.
Definition peer_mac (id : clock_identity) : list Z := take 3 id ++ drop 5 id.

(** The address of the peer, made from its identity; the first byte marks an
    address the frame did not come from. *)
Definition peer_address (src : list Z) (id : port_identity) : list Z :=
  let addr := peer_mac (pid_clock id) in
  let num := nth 5 addr 0 + pid_port id in
  let sent := add_carry [5; 4; 3]%nat num (<[5%nat := u8 num]> addr) in
  if memcmp sent src =? 0 then addr else 255 :: drop 1 addr.

(** The entry of the port in a peer information TLV: its number, the delay and
    the ratio. *)
Fixpoint find_peer (fuel : nat) (b : buf) (peer : nat) (i cnt : Z) (id : clock_identity)
    (port : Z) : option (option (Z * Z * Z)) :=
  if u32 i >=? Z.of_nat SIZE_peer then
    match fuel with
    | O => UB
    | S fuel =>
        x ← rd_port_id b peer;
        if (memcmp (pid_clock x) id =? 0) && (pid_port x =? port) then
          delay ← rd b (peer + 10) 4;
          ratio ← rd b (peer + 14) 4;
          Some (Some (cnt, delay, s32 ratio))
        else
          find_peer fuel b (peer + SIZE_peer) (s32 (i - Z.of_nat SIZE_peer)) (cnt + 1) id port
    end
  else Some None.

(** [sizeof(struct ptp_msg_hdr) + sizeof(struct ptp_msg_pdelay_req)] *)
Definition PDELAY_end : Z := 54.

Definition peer_entry (b : buf) (id : clock_identity) (port : Z)
    : option (option (Z * Z * Z)) :=
  len ← hdr_messageLength b;
  if len >? PDELAY_end then
    s ← ptp_find_tlv b (Z.to_nat PDELAY_end) TLV_ORGANIZATION_EXTENSION
          (u16 (len - PDELAY_end));
    match s_tlv s with
    | None => Some None
    | Some tlv =>
        organizationId ← bytes b (tlv + 4) 3;
        if bool_decide (organizationId = OUI_MICROCHIP) then
          lengthField ← tlv_lengthField b tlv;
          let i := s32 (lengthField + SIZE_tlv - (SIZE_org_ext - 1)) in
          find_peer (length b) b (tlv + 10) i 1 id port
        else Some None
    end
  else Some None.

Definition check_peer_info (p : pref) (m : mref) : M unit :=
  c ← pclock p;
  k ← get_clock c;
  port ← pv p P.id;
  e ← mrd m (fun b => peer_entry b (c_id k) port);
  match e with
  | None => skip
  | Some (cnt, delay, ratio) =>
      i ← pdelay_of p;
      _ ← set_pdelay p
            (set_pi_delay delay
               (set_pi_raw_delay delay
                  (set_pi_nrate (set_nr_ratio (ratio_to_float ratio) (pi_nrate i)) i)));
      _ ← pset p P.peer_index cnt;
      x ← get_msg m;
      src ← mrd m hdr_sourcePortIdentity;
      _ ← whenM (negb (nth 0 (m_src x) 0 =? 255))
            (mod_port p (set_p_peer_addr (peer_address (m_src x) src)));
      port_assign_peer_delay p
  end.

Definition handle_pdelay_req (p : pref) (m : mref) : M unit :=
  q ← get_port p;
  if negb (bool_decide (p_delayMechanism q = DELAY_P2P)) then skip
  else if truthy (p_num q P.use_one_way_resp) && receiving (p_state q) then skip
  else _ ← check_peer_info p m; ptp_save_rx_msg m.

(** The peer is the first that asks; another one makes the link invalid. *)
Definition remember_peer (src : port_identity) (q : port) : port :=
  if truthy (p_num q P.as_capable_set) then q
  else if truthy (p_num q P.peer_valid) && negb (truthy (p_num q P.no_id_check)) then
    if same_port_id src (p_peer_id q) then q else set_num P.peer_valid 0 q
  else if negb (truthy (p_num q P.peer_valid)) then
    set_p_peer_id src (set_num P.peer_valid 1 q)
  else q.

Definition proc_pdelay_req (p : pref) (m : mref) : M unit :=
  missing ← pv p P.resp_missing;
  cnt ← pv p P.cnt_delay_resp;
  _ ← whenM (truthy missing && (cnt =? 0)) (pset p P.cnt_delay_resp 5);
  src ← mrd m hdr_sourcePortIdentity;
  _ ← mod_port p (remember_peer src);
  port_tx_pdelay_resp p m.

(** The delay to the peer from one response. *)
Definition proc_each_pdelay_response (p : pref) : M unit :=
  req ← pinfo p I.tx_delay_req;
  rsp ← pinfo p I.rx_delay_resp;
  fup ← pinfo p I.rx_pdelay_fup;
  let '(transmit, corr) :=
    if mi_two_step rsp then (Some (mi_ptp_time fup), mi_correction fup) else (None, 0) in
  _ ← port_peer_delay p (mi_hw_time req) (mi_hw_time rsp) (mi_ptp_time rsp)
        (mi_correction rsp) transmit corr;
  _ ← mod_pinfo p I.rx_delay_resp (set_mi_resp true);
  mod_pinfo p I.rx_pdelay_fup (set_mi_resp true).

(** [n] is 0 without several responders, and the loop has one round. *)
Definition proc_pdelay_response (p : pref) : M unit :=
  rsp ← pinfo p I.rx_delay_resp;
  fup ← pinfo p I.rx_pdelay_fup;
  _ ← whenM (mi_valid rsp && negb (mi_resp rsp) &&
             (negb (mi_two_step rsp) || (mi_valid fup && negb (mi_resp fup))))
        (proc_each_pdelay_response p);
  req ← pinfo p I.tx_delay_req;
  cnt ← pv p P.cnt_delay_resp;
  _ ← whenM (negb (mi_resp req) && (cnt >? 0)) (pset p P.cnt_delay_resp (cnt - 1));
  _ ← mod_pinfo p I.tx_delay_req (set_mi_resp true);
  _ ← pset p P.resp_missing 0;
  _ ← pset p P.report_resp 0;
  _ ← pset p P.peer_resp 1;
  port_check_capable p.

(** Count one more response to the same request; whether the port goes on.  A
    port with too many of them becomes faulty. *)
Definition count_responses (p : pref) (cnt mult : P.t) (faults : Z) : M bool :=
  n ← pv p cnt;
  _ ← pset p cnt (n + 1);
  n ← pv p cnt;
  if n <=? 1 then mret true
  else
    multi ← pb p P.allow_multi_resp;
    _ ← whenM (negb multi) (pset p P.mult_resp 1);
    _ ← port_check_capable p;
    several ← pb p P.mult_resp;
    if negb several then mret true
    else
      n ← pv p mult;
      _ ← pset p mult (n + 1);
      n ← pv p mult;
      if n >=? faults then
        _ ← pset p P.mult_resp_cnt 0;
        _ ← pset p P.mult_resp_fup_cnt 0;
        _ ← port_set_fault_timeout p 1 MULT_RESP_FAULT_TIMEOUT;
        mret false
      else mret true.

Definition handle_pdelay_resp (p : pref) (m : mref) : M unit :=
  req ← pinfo p I.tx_delay_req;
  if negb (msg_info_valid req) then skip
  else
    mine ← answers req m;
    if negb mine then skip
    else
      faults ← gv G.allowed_pdelay_faults;
      go ← count_responses p P.resp_cnt P.mult_resp_cnt faults;
      if negb go then skip
      else
        x ← get_msg m;
        _ ← pinfo_save p I.rx_delay_resp m (Some (m_rx x));
        req ← pinfo p I.tx_delay_req;
        if negb (msg_info_ts_valid req) then skip
        else two_step ← mrd m flag_twoStep; whenM (negb two_step) (ptp_save_rx_msg m).

Definition proc_pdelay_resp (p : pref) (m : mref) : M unit :=
  req ← pinfo p I.tx_delay_req;
  if negb (msg_info_ts_valid req) then skip
  else two_step ← mrd m flag_twoStep; whenM (negb two_step) (proc_pdelay_response p).

Definition handle_pdelay_resp_fup (p : pref) (m : mref) : M unit :=
  req ← pinfo p I.tx_delay_req;
  if negb (msg_info_valid req) then skip
  else
    mine ← answers req m;
    if negb mine then skip
    else
      rsp ← pinfo p I.rx_delay_resp;
      src ← mrd m hdr_sourcePortIdentity;
      if negb (same_port_id src (mi_id rsp)) then skip
      else
        cnt ← pv p P.resp_fup_cnt;
        go ← count_responses p P.resp_fup_cnt P.mult_resp_fup_cnt 3;
        if negb go then skip
        else
          mult ← pv p P.mult_resp_fup_cnt;
          _ ← whenM ((u8 (cnt + 1) <=? 1) && truthy mult) (pset p P.mult_resp_fup_cnt (mult - 1));
          _ ← pinfo_save p I.rx_pdelay_fup m None;
          req ← pinfo p I.tx_delay_req;
          rsp ← pinfo p I.rx_delay_resp;
          whenM (msg_info_ts_valid req && msg_info_valid rsp) (ptp_save_rx_msg m).

Definition proc_pdelay_resp_fup (p : pref) (m : mref) : M unit :=
  req ← pinfo p I.tx_delay_req;
  rsp ← pinfo p I.rx_delay_resp;
  whenM (msg_info_ts_valid req && msg_info_valid rsp) (proc_pdelay_response p).

(** Whether the responses to the request of the port are there. *)
Definition pdelay_there (req rsp fup : msg_info) : bool :=
  resp_there req rsp && (negb (mi_two_step rsp) || msg_info_valid fup).

Definition handle_delayed_pdelay_req (p : pref) (m : mref) : M unit :=
  req ← pinfo p I.tx_delay_req;
  if negb (msg_info_valid req) then skip
  else
    _ ← take_timestamp p I.tx_delay_req m;
    rsp ← pinfo p I.rx_delay_resp;
    fup ← pinfo p I.rx_pdelay_fup;
    whenM (pdelay_there req rsp fup) (ptp_save_rx_msg m).

Definition proc_delayed_pdelay_req (p : pref) (m : mref) : M unit :=
  req ← pinfo p I.tx_delay_req;
  rsp ← pinfo p I.rx_delay_resp;
  fup ← pinfo p I.rx_pdelay_fup;
  whenM (pdelay_there req rsp fup) (proc_pdelay_response p).

Definition handle_delayed_pdelay_resp (p : pref) (m : mref) : M unit :=
  rsp ← pinfo p I.tx_pdelay_resp;
  if negb (msg_info_valid rsp) || negb (mi_two_step rsp) then skip
  else seq ← mrd m hdr_sequenceId; whenM (mi_seqid rsp =? seq) (ptp_save_rx_msg m).

(** The Pdelay_Resp_Follow_Up carries the transmit time of the response. *)
Definition proc_delayed_pdelay_resp (p : pref) (m : mref) : M unit :=
  c ← pclock p;
  fup ← new_msg c PDELAY_RESP_FOLLOW_UP_MSG None;
  rsp ← pinfo p I.tx_pdelay_resp;
  _ ← mwr fup (fun b => set_domainNumber b (mi_domain rsp));
  _ ← mwr fup (fun b => set_sequenceId b (mi_seqid rsp));
  id ← pv p P.id;
  _ ← mwr fup (fun b => set_source_port b id);
  _ ← mwr fup (fun b => wr_port_id b SECOND_id (mi_id rsp));
  addr ← peer_dest p fup;
  x ← get_msg m;
  _ ← mwr fup (fun b => wr_timestamp b DATA (ptp_utime_to_timestamp 0 (m_rx x)));
  _ ← pinfo_clear p I.tx_pdelay_resp;
  _ ← mwr fup ptp_msg_tx;
  bit ← port_bit p;
  tx_now p fup bit 0 0 addr.

(** ** Signaling *)

(** Applied by a master of the Automotive profile only. *)
Definition ptp_signal_interval (p : pref) (m : mref) (org : nat) : M bool :=
  organizationId ← mrd m (fun b => bytes b (org + 4) 3);
  organizationSubType ← mrd m (fun b => bytes b (org + 7) 3);
  if bool_decide (organizationId = OUI_8021) && bool_decide (organizationSubType = [0; 0; 2])
  then
    _ ← report_once p P.report_signal;
    master ← port_is_aed_master p;
    if negb master then mret true
    else
      timesync ← mrd m (fun b => s8 <$> rd b (org + 11) 1);
      log ← pv p P.logSyncInterval;
      _ ← whenM (negb (timesync =? 127) && negb (timesync =? 126) && negb (timesync =? log))
            (ptp_change_master_interval p timesync);
      mret true
  else mret false.

(** Whether the message is for the clock. *)
Definition signal_target (p : pref) (m : mref) : M bool :=
  c ← pclock p;
  k ← get_clock c;
  target ← mrd m (fun b => rd_clock_id b DATA);
  mret (same_clock_id (c_id k) target || broadcast_clock_id target).

Definition handle_signaling (p : pref) (m : mref) : M unit :=
  messageLength ← mrd m hdr_messageLength;
  if u16 (messageLength - Z.of_nat SIZE_hdr) <=? SIZE_msg_signaling_base then skip
  else target ← signal_target p m; whenM target (ptp_save_rx_msg m).

(** The TLVs of the message, up to the first that is not complete. *)
Fixpoint signal_loop (fuel : nat) (p : pref) (m : mref) (data : nat) (left : Z) : M unit :=
  match fuel with
  | O => ub
  | S fuel =>
      '(tlv, data, left) ← mrd m (fun b => ptp_next_tlv b data left);
      match tlv with
      | None => skip
      | Some tlv =>
          type ← mrd m (fun b => tlv_type b tlv);
          _ ← whenM (type =? TLV_ORGANIZATION_EXTENSION)
                (_ ← ptp_signal_interval p m tlv; skip);
          signal_loop fuel p m data left
      end
  end.

Definition proc_signaling (p : pref) (m : mref) : M unit :=
  messageLength ← mrd m hdr_messageLength;
  let left := u16 (u16 (messageLength - Z.of_nat SIZE_hdr) - SIZE_msg_signaling_base) in
  signal_loop (S (Z.to_nat left)) p m SIG_tlv left.

(** ** Dispatch *)

(** The port with an index. *)
Fixpoint find_port (l : list port) (i : nat) (index : Z) : option nat :=
  match l with
  | [] => None
  | q :: l => if p_num q P.index =? index then Some i else find_port l (S i) index
  end.
Definition get_ptp_port (index : Z) : M (option pref) :=
  gets (fun w => Hw <$> find_port (w_hw w) 0 index).

Section dispatch.
(** The management messages. *)
Variables handle_management proc_management : pref -> mref -> M unit.

Definition handle_msg (type : Z) (delayed : bool) : pref -> mref -> M unit :=
  if type =? SYNC_MSG then if delayed then handle_delayed_sync else handle_sync
  else if type =? FOLLOW_UP_MSG then handle_fup
  else if type =? ANNOUNCE_MSG then handle_announce
  else if type =? DELAY_REQ_MSG then
    if delayed then handle_delayed_delay_req else handle_delay_req
  else if type =? DELAY_RESP_MSG then handle_delay_resp
  else if type =? PDELAY_REQ_MSG then
    if delayed then handle_delayed_pdelay_req else handle_pdelay_req
  else if type =? PDELAY_RESP_MSG then
    if delayed then handle_delayed_pdelay_resp else handle_pdelay_resp
  else if type =? PDELAY_RESP_FOLLOW_UP_MSG then handle_pdelay_resp_fup
  else if type =? MANAGEMENT_MSG then handle_management
  else if type =? SIGNALING_MSG then handle_signaling
  else fun _ _ => skip.

Definition proc_msg (type : Z) (delayed : bool) : pref -> mref -> M unit :=
  if type =? SYNC_MSG then if delayed then proc_delayed_sync else proc_sync
  else if type =? FOLLOW_UP_MSG then proc_fup
  else if type =? ANNOUNCE_MSG then proc_announce
  else if type =? DELAY_REQ_MSG then
    if delayed then proc_delayed_delay_req else proc_delay_req
  else if type =? DELAY_RESP_MSG then proc_delay_resp
  else if type =? PDELAY_REQ_MSG then
    if delayed then proc_delayed_pdelay_req else proc_pdelay_req
  else if type =? PDELAY_RESP_MSG then
    if delayed then proc_delayed_pdelay_resp else proc_pdelay_resp
  else if type =? PDELAY_RESP_FOLLOW_UP_MSG then proc_pdelay_resp_fup
  else if type =? MANAGEMENT_MSG then proc_management
  else if type =? SIGNALING_MSG then proc_signaling
  else fun _ _ => skip.

(** [msg] is the frame as received, in network order. *)
Definition ptp_rx (p : pref) (msg : buf) (rx : option ptp_utime) (delayed : bool)
    (src : option (list Z)) : M unit :=
  q ← get_port p;
  specific ← lift (hdr_transportSpecific msg);
  if truthy (p_num q P.gptp) && negb (specific =? 1) then
    seen ← gv G.spec;
    _ ← whenM (negb (seen =? specific)) (pset p P.resp_missing (ALLOWED_LOST_RESPONSES - 1));
    gset G.spec specific
  else if state_num (p_state q) <=? state_num PTP_S_DISABLED then skip
  else
    match p_c q with
    | None => skip
    | Some c =>
        k ← get_clock c;
        domain ← lift (hdr_domainNumber msg);
        if negb (domain =? c_num k C.domain) || negb (specific =? c_num k C.specific) then skip
        else
          len ← lift (b ← swap msg 2 2; hdr_messageLength b);
          o ← alloc_msg (Some msg) len rx;
          match o with
          | None => skip
          | Some m =>
              _ ← match src with Some a => mod_msg m (set_m_src a) | None => skip end;
              _ ← mod_msg m (fun x =>
                    let s := m_save x in
                    set_m_port (Some p)
                      (set_m_save (mk_save delayed (sv_tx s) (sv_udp s) (sv_index s)
                         (sv_queue s) (sv_portmap s) (sv_vid s) (sv_sec s) (sv_nsec s)) x));
              type ← lift (hdr_messageType msg);
              _ ← handle_msg type delayed p m;
              msg_put m
          end
    end.

(** [p->c] is read before it is tested. *)
Definition ptp_setup_rx (msg : buf) (port sec nsec : Z) (delayed : bool)
    (src : option (list Z)) (raw : bool) (vid : Z) : M unit :=
  o ← get_ptp_port port;
  match o with
  | None => skip
  | Some p =>
      c ← pclock p;
      link ← cb c C.report_link;
      ready ← pb p P.report_ready;
      _ ← whenM (link && ready) (schedule_work (W_ethernet_ready c));
      cvid ← cv c C.vid;
      transport ← cv c C.transport;
      if negb delayed && (truthy vid && negb (vid =? Z.land cvid 4095)
                          || xorb raw (transport =? 0))
      then skip
      else
        ptp_rx p msg (if truthy nsec then Some (mk_utime sec nsec) else None) delayed src
  end.

Definition ptp_proc_rx (m : mref) : M unit :=
  x ← get_msg m;
  type ← mrd m hdr_messageType;
  p ← lift (m_port x);
  proc_msg type (sv_delayed (m_save x)) p m.

(** One round of [ptp_process_task]: the first message of the queue is sent or
    processed, and released. *)
Definition process_one : M unit :=
  q ← gets w_mq;
  match q with
  | [] => skip
  | m :: q =>
      _ ← modify (set_w_mq q);
      x ← get_msg m;
      let s := m_save x in
      _ ← (if sv_tx s then
             ptp_tx_msg m (sv_index s) (sv_portmap s) (sv_queue s) (sv_udp s) (sv_vid s)
               (sv_sec s) (sv_nsec s) None
           else ptp_proc_rx m);
      msg_put m
  end.

End dispatch.
End rx.
