(* ===== verification/Manage.v ===== *)
(** * Management messages (ptp_manage.c)

    A Management message reads the data sets of the clock and of its ports; a
    request that cannot be served is answered with an error. *)

From stdpp Require Import base list numbers option.
From Stdlib Require Import ZArith Lia.
From S2P Require Import Prelude Types Wire Tlv World Msgs PortFsm ClockOps Tx Rx.

(** ** The data sets as they are in memory *)

Definition quality_bytes (q : clock_quality) : list Z :=
  [clockClass q; clockAccuracy q] ++ le_bytes 2 (offsetScaledLogVariance q).
Definition bool_bytes (b : bool) : list Z := le_bytes 4 (b2z b).

(** [struct ptp_default_ds]; the reserved bytes are never written. *)
Definition default_ds_bytes (d : default_ds) : list Z :=
  [dds_flags d; 0] ++ le_bytes 2 (dds_numberPorts d) ++ [dds_priority1 d] ++
  quality_bytes (dds_quality d) ++ [dds_priority2 d] ++ dds_clockIdentity d ++
  [dds_domainNumber d; 0].
Definition current_ds_bytes (d : current_ds) : list Z :=
  le_bytes 2 (cur_stepsRemoved d) ++ le_bytes 8 (cur_offsetFromMaster d) ++
  le_bytes 8 (cur_meanPathDelay d).
(** The statistics of the parent, 8 bytes, are never written. *)
Definition parent_ds_bytes (d : parent_ds) : list Z :=
  pid_clock (pds_parentPortIdentity d) ++ le_bytes 2 (pid_port (pds_parentPortIdentity d)) ++
  replicate 8 0 ++ [pds_grandmasterPriority1 d] ++
  quality_bytes (pds_grandmasterClockQuality d) ++ [pds_grandmasterPriority2 d] ++
  pds_grandmasterIdentity d.
Definition delay_mech_num (m : delay_mech) : Z :=
  match m with DELAY_NONE => 254 | DELAY_E2E => 1 | DELAY_P2P => 2 end.
Definition port_ds_bytes (q : port) : list Z :=
  p_ds_clock q ++ le_bytes 2 (p_num q P.ds_port) ++ [state_num (p_portState q)] ++
  [u8 (p_num q P.ds_logMinDelayReqInterval)] ++ le_bytes 8 (p_num q P.ds_peerMeanPathDelay) ++
  [u8 (p_num q P.ds_logAnnounceInterval); p_num q P.ds_announceReceiptTimeout;
   u8 (p_num q P.ds_logSyncInterval); delay_mech_num (p_delayMechanism q);
   u8 (p_num q P.ds_logMinPdelayReqInterval); p_num q P.ds_versionNumber].

(** ** What a request reads or writes *)

Inductive manage_func :=
  | ptp_manage_get_default_ds | ptp_manage_set_default_ds | ptp_manage_get_current_ds
  | ptp_manage_get_parent_ds | ptp_manage_get_priority1 | ptp_manage_set_priority1
  | ptp_manage_get_priority2 | ptp_manage_set_priority2 | ptp_manage_get_domain
  | ptp_manage_get_port_ds | ptp_manage_get_ann_int | ptp_manage_get_ann_timeout
  | ptp_manage_get_sync_int | ptp_manage_get_version | ptp_manage_get_delay_mech
  | ptp_manage_get_pdelay_int | ptp_manage_get_port_ds_np.

(** A value of the clock or of the port; the clock may be null. *)
Definition of_clock (c : option nat) (f : clock -> list Z) : M (list Z) :=
  c ← lift c; k ← get_clock c; mret (f k).
Definition of_port (q : pref) (f : port -> list Z) : M (list Z) := x ← get_port q; mret (f x).
(** [struct ptp_management_data] *)
Definition one_value (v : Z) : list Z := [u8 v; 0].

(** The bytes written at [data]; every function returns their number. *)
Definition run_func (f : manage_func) (c : option nat) (q : pref) : M (list Z) :=
  match f with
  | ptp_manage_get_default_ds => of_clock c (fun k => default_ds_bytes (c_dds k))
  | ptp_manage_get_current_ds => of_clock c (fun k => current_ds_bytes (c_cur k))
  | ptp_manage_get_parent_ds => of_clock c (fun k => parent_ds_bytes (c_pds k))
  | ptp_manage_get_priority1 => of_clock c (fun k => one_value (dds_priority1 (c_dds k)))
  | ptp_manage_get_priority2 => of_clock c (fun k => one_value (dds_priority2 (c_dds k)))
  | ptp_manage_get_domain => of_clock c (fun k => one_value (dds_domainNumber (c_dds k)))
  | ptp_manage_set_default_ds | ptp_manage_set_priority1 | ptp_manage_set_priority2 => mret []
  | ptp_manage_get_port_ds => of_port q port_ds_bytes
  | ptp_manage_get_ann_int =>
      of_port q (fun x => one_value (p_num x P.ds_logAnnounceInterval))
  | ptp_manage_get_ann_timeout =>
      of_port q (fun x => one_value (p_num x P.ds_announceReceiptTimeout))
  | ptp_manage_get_sync_int => of_port q (fun x => one_value (p_num x P.ds_logSyncInterval))
  | ptp_manage_get_version => of_port q (fun x => one_value (p_num x P.ds_versionNumber))
  | ptp_manage_get_delay_mech =>
      of_port q (fun x => one_value (delay_mech_num (p_delayMechanism x)))
  | ptp_manage_get_pdelay_int =>
      of_port q (fun x => one_value (p_num x P.ds_logMinPdelayReqInterval))
  | ptp_manage_get_port_ds_np =>
      thresh ← pv q P.neighborDelayThresh;
      capable ← port_capable q;
      mret (le_bytes 4 (u32 thresh) ++ bool_bytes capable)
  end.

(** ** Answers *)

Definition MANAGEMENT_GET : Z := 0.
Definition MANAGEMENT_SET : Z := 1.
Definition MANAGEMENT_RESPONSE : Z := 2.
Definition MANAGEMENT_COMMAND : Z := 3.
Definition MANAGEMENT_ACKNOWLEDGE : Z := 4.
Definition M_NO_SUCH_ID : Z := 2.
Definition M_WRONG_LENGTH : Z := 3.
Definition M_WRONG_VALUE : Z := 4.
Definition M_NOT_SUPPORTED : Z := 6.

(** The identifiers that occur here only. *)
Definition M_PRIORITY1 : Z := 8197.
Definition M_PRIORITY2 : Z := 8198.
Definition M_DOMAIN : Z := 8199.
Definition M_SLAVE_ONLY : Z := 8200.
Definition M_LOG_ANNOUNCE_INTERVAL : Z := 8201.
Definition M_ANNOUNCE_RECEIPT_TIMEOUT : Z := 8202.
Definition M_LOG_SYNC_INTERVAL : Z := 8203.
Definition M_VERSION_NUMBER : Z := 8204.
Definition M_ENABLE_PORT : Z := 8205.
Definition M_DISABLE_PORT : Z := 8206.
Definition M_TIME : Z := 8207.
Definition M_DELAY_MECHANISM : Z := 24576.
Definition M_LOG_MIN_PDELAY_REQ_INTERVAL : Z := 24577.

(** The first TLV, its identifier, its data, and the action field. *)
Definition MAN_tlv : nat := 48.
Definition MAN_id : nat := 52.
Definition MAN_data : nat := 54.
Definition MAN_action : nat := 46.
Definition MAN_target_port : nat := 42.

Definition action_of (b : buf) : option Z := (fun x => Z.land x 15) <$> rd b MAN_action 1.

Section manage.
Context {env : Env}.

(** The common part of the answers: the message with the header and the base
    set; [id] is the port that answers. *)
Definition manage_head (p : pref) (m : mref) (action id : Z) : M mref :=
  c ← pclock p;
  msg ← new_msg c MANAGEMENT_MSG None;
  _ ← mwr msg (fun b => set_messageLength b (Z.of_nat SIZE_hdr + SIZE_msg_management_base));
  seq ← mrd m hdr_sequenceId;
  _ ← mwr msg (fun b => set_sequenceId b seq);
  keep ← pb p P.no_id_replace;
  _ ← whenM (negb keep) (mwr msg (fun b => set_source_port b id));
  src ← mrd m hdr_sourcePortIdentity;
  _ ← mwr msg (fun b => wr_port_id b DATA src);
  _ ← mwr msg (fun b => set_byte_bits b MAN_action 0 4 action);
  mret msg.

(** The TLV at [MAN_tlv] is closed, and the message is sent. *)
Definition manage_send (p : pref) (msg : mref) (tlv_end : nat) (type len : Z) : M unit :=
  _ ← mwr msg (fun b =>
        messageLength ← hdr_messageLength b;
        '(b, _, messageLength) ← ptp_add_tlv b MAN_tlv tlv_end type len messageLength;
        set_messageLength b messageLength);
  _ ← mwr msg ptp_msg_tx;
  bit ← port_bit p;
  tx_now p msg bit 0 0 None.

Definition port_tx_manage_error (p : pref) (m : mref) (action id err_id : Z) : M unit :=
  own ← pv p P.id;
  msg ← manage_head p m action own;
  _ ← mwr msg (fun b => b ← wr b 52 2 err_id; wr b 54 2 id);
  manage_send p msg 60 TLV_MANAGEMENT_ERROR_STATUS 12.

(** [func] null answers without data. *)
Definition port_tx_manage (p : pref) (m : mref) (action id : Z)
    (func : option (manage_func * option nat * pref)) : M unit :=
  let q := match func with Some (_, _, q) => q | None => p end in
  own ← pv q P.id;
  msg ← manage_head p m action own;
  _ ← mwr msg (fun b => wr b MAN_id 2 id);
  data ← match func with Some (f, c, q) => run_func f c q | None => mret [] end;
  _ ← mwr msg (fun b => put b MAN_data data);
  let tlv_len := Z.of_nat (length data) in
  manage_send p msg (MAN_data + length data) TLV_MANAGEMENT (6 + tlv_len).

(** ** Requests *)

Definition handle_management (p : pref) (m : mref) : M unit :=
  messageLength ← mrd m hdr_messageLength;
  if u16 (messageLength - Z.of_nat SIZE_hdr) <=? SIZE_msg_management_base then skip
  else target ← signal_target p m; whenM target (ptp_save_rx_msg m).

Definition get_only (action : Z) (f : manage_func) : option manage_func :=
  if action =? MANAGEMENT_GET then Some f else None.
Definition get_set (action : Z) (f g : manage_func) : option manage_func :=
  if action =? MANAGEMENT_GET then Some f
  else if action =? MANAGEMENT_SET then Some g else None.

(** For information of the clock: the size a request to set it has, the
    function, and 1 when the identifier is not known. *)
Definition clock_func (action id : Z) : Z * option manage_func * Z :=
  if id =? M_DEFAULT_DATA_SET then
    (20, get_set action ptp_manage_get_default_ds ptp_manage_set_default_ds, 0)
  else if id =? M_CURRENT_DATA_SET then (18, get_only action ptp_manage_get_current_ds, 0)
  else if id =? M_PARENT_DATA_SET then (32, get_only action ptp_manage_get_parent_ds, 0)
  else if id =? M_PRIORITY1 then
    (2, get_set action ptp_manage_get_priority1 ptp_manage_set_priority1, 0)
  else if id =? M_PRIORITY2 then
    (2, get_set action ptp_manage_get_priority2 ptp_manage_set_priority2, 0)
  else if id =? M_DOMAIN then (0, get_only action ptp_manage_get_domain, 0)
  else if (id =? M_SLAVE_ONLY) || (id =? M_TIME) then (0, None, 0)
  else (0, None, 1).

(** For information of a port. *)
Definition port_func (action id : Z) : option manage_func * Z :=
  if id =? M_PORT_DATA_SET then (get_only action ptp_manage_get_port_ds, 0)
  else if id =? M_LOG_ANNOUNCE_INTERVAL then (get_only action ptp_manage_get_ann_int, 0)
  else if id =? M_ANNOUNCE_RECEIPT_TIMEOUT then (get_only action ptp_manage_get_ann_timeout, 0)
  else if id =? M_LOG_SYNC_INTERVAL then (get_only action ptp_manage_get_sync_int, 0)
  else if id =? M_VERSION_NUMBER then (get_only action ptp_manage_get_version, 0)
  else if id =? M_DELAY_MECHANISM then (get_only action ptp_manage_get_delay_mech, 0)
  else if id =? M_LOG_MIN_PDELAY_REQ_INTERVAL then (get_only action ptp_manage_get_pdelay_int, 0)
  else if id =? M_PORT_DATA_SET_NP then (get_only action ptp_manage_get_port_ds_np, 0)
  else if (id =? M_ENABLE_PORT) || (id =? M_DISABLE_PORT) then (None, 0)
  else (None, 1).

(** [c->ptp_ports[i]], which may be null. *)
Definition port_at (c : option nat) (i : nat) : M (option pref) :=
  c ← lift c; k ← get_clock c; lift (c_ports k !! i).

(** The rounds of the loop over the ports from round [i] with port [q]; the
    number of answers. *)
Fixpoint answer_ports (p : pref) (m : mref) (resp id : Z) (f : manage_func) (c : option nat)
    (target : Z) (n i : nat) (q : option pref) (proc : Z) : M Z :=
  match n with
  | O => mret proc
  | S n =>
      q ← lift q;
      own ← pv q P.id;
      let match_ := (own =? target) || (target =? 65535) in
      _ ← whenM match_ (port_tx_manage p m resp id (Some (f, c, q)));
      next ← port_at c (S i);
      answer_ports p m resp id f c target n (S i) next (if match_ then proc + 1 else proc)
  end.

(** What the request is about: the function, how many ports it looks at, the
    first of them, the number of the port it is for, and how often its
    identifier was not known. *)
Definition find_func (p : pref) (m : mref) (c : option nat) (action id : Z)
    : M (Z * option manage_func * Z * option pref * Z * Z) :=
  let '(size, func, no_id) := clock_func action id in
  match func with
  | Some f => mret (size, Some f, 1, Some p, 65535, no_id)
  | None =>
      own ← lift c;
      k ← get_clock own;
      q ← port_at c 1;
      target ← mrd m (fun b => rd b MAN_target_port 2);
      let '(func, no_id') := port_func action id in
      mret (size, func, c_num k C.cnt, q, target, no_id + no_id')
  end.

(** One management TLV; [manage] is the first TLV of the message. *)
Definition manage_tlv (p : pref) (m : mref) (c : option nat) (action resp : Z) (tlv : nat)
    : M unit :=
  id ← mrd m (fun b => rd b MAN_id 2);
  '(size, func, cnt, q, target, no_id) ← find_func p m c action id;
  lengthField ← mrd m (fun b => tlv_lengthField b tlv);
  if (action =? MANAGEMENT_SET) && (lengthField <? size + 2) then
    port_tx_manage_error p m resp id M_WRONG_LENGTH
  else
    match func with
    | None =>
        port_tx_manage_error p m resp id (if no_id =? 2 then M_NO_SUCH_ID else M_NOT_SUPPORTED)
    | Some f =>
        if action =? MANAGEMENT_GET then
          proc ← answer_ports p m resp id f c target (Nat.max 1 (Z.to_nat cnt)) 1 q 0;
          whenM (proc =? 0) (port_tx_manage_error p m resp id M_WRONG_VALUE)
        else
          q ← lift q;
          data ← run_func f c q;
          _ ← mwr m (fun b => put b MAN_data data);
          let ret := Z.of_nat (length data) in
          if truthy ret then port_tx_manage_error p m resp id ret
          else port_tx_manage p m resp id None
    end.

Fixpoint manage_loop (fuel : nat) (p : pref) (m : mref) (c : option nat) (action resp : Z)
    (data : nat) (left : Z) : M unit :=
  match fuel with
  | O => ub
  | S fuel =>
      '(tlv, data, left) ← mrd m (fun b => ptp_next_tlv b data left);
      match tlv with
      | None => skip
      | Some tlv =>
          type ← mrd m (fun b => tlv_type b tlv);
          _ ← whenM (type =? TLV_MANAGEMENT) (manage_tlv p m c action resp tlv);
          manage_loop fuel p m c action resp data left
      end
  end.

Definition proc_management (p : pref) (m : mref) : M unit :=
  target ← signal_target p m;
  pc ← pclock p;
  action ← mrd m action_of;
  let resp :=
    if (action =? MANAGEMENT_GET) || (action =? MANAGEMENT_SET) then MANAGEMENT_RESPONSE
    else MANAGEMENT_ACKNOWLEDGE in
  messageLength ← mrd m hdr_messageLength;
  let left := u16 (u16 (messageLength - Z.of_nat SIZE_hdr) - SIZE_msg_management_base) in
  manage_loop (S (Z.to_nat left)) p m (if target : bool then Some pc else None) action resp
    MAN_tlv left.

End manage.
