(* ===== verification/ClockWork.v ===== *)
(** * Deferred work of the clocks and ports, and the callbacks of their timers
    (ptp_clock.c, ptp_port.c)

    A timer calls its [_func], which schedules a work; the schedule task calls
    the [_work] function. *)

From stdpp Require Import base list numbers option.
From Stdlib Require Import ZArith Lia.
From S2P Require Import Prelude Types Wire Tlv Interval World Msgs Timers PortFsm.
From S2P Require Import ClockOps Sync Tx Port Decision Rx.

Section clock_work.
Context {env : Env}.

(** ** Announce and Sync of the timer *)

(** [for (n = 1; n <= c->cnt; n++) if (p->state == PTP_S_MASTER) body(p);] *)
Definition for_masters (c : nat) (body : pref -> M unit) : M unit :=
  for_ports c (fun _ p =>
    s ← pstate p; whenM (bool_decide (s = PTP_S_MASTER)) (body p)).
(** The same with [if (!port_capable(p)) continue;]. *)
Definition for_capable_masters (c : nat) (body : pref -> M unit) : M unit :=
  for_masters c (fun p => capable ← port_capable p; whenM capable (body p)).

(** The message of a pointer the code uses without a test. *)
Definition slot_msg (c : nat) (s : S.t) : M mref := o ← cslot c s; lift o.

Definition clock_tx_announce (c : nat) : M unit :=
  no ← cb c C.no_announce;
  if no : bool then skip
  else
    h ← get_port (Host c);
    if negb (truthy (p_num h P.gptp)) then port_tx_announce (Host c)
    else if bool_decide (p_state h = PTP_S_MASTER) then for_masters c port_tx_announce
    else
      a ← slot_msg c S.last_ann;
      _ ← mwr a inc_seqid;
      for_capable_masters c (fun p => a ← slot_msg c S.last_ann; port_fwd_announce p a).

Definition clock_tx_sync (c : nat) : M unit :=
  h ← get_port (Host c);
  if negb (truthy (p_num h P.gptp)) then port_tx_sync (Host c)
  else if bool_decide (p_state h = PTP_S_MASTER) then for_masters c port_tx_sync
  else
    sync ← cslot c S.last_sync;
    fup ← cslot c S.last_fup;
    match sync, fup with
    | Some _, Some _ =>
        _ ← mod_clock c (fun k =>
              set_c_first_sync_tx (mk_utime 0 (ut_nsec (c_first_sync_tx k))) k);
        _ ← ptp_check_residence c;
        for_capable_masters c (fun p =>
          s ← slot_msg c S.last_sync;
          seq ← mrd s hdr_sequenceId;
          _ ← cset c C.tx_sync_seqid seq;
          _ ← cset c C.tx_fup_seqid seq;
          port_fwd_sync p s)
    | _, _ => skip
    end.

(** [x++; x &= max;], and whether it is zero then. *)
Definition count_round (c : nat) (cnt max : C.t) : M bool :=
  n ← cv c cnt;
  _ ← cset c cnt (n + 1);
  n ← cv c cnt;
  m ← cv c max;
  _ ← cset c cnt (Z.land n m);
  n ← cv c cnt;
  mret (n =? 0).

Definition do_clock_sync_work (c : nat) : M unit :=
  live ← cv c C.live_ports;
  if live =? 0 then skip
  else
    ann ← count_round c C.ann_cnt C.ann_max;
    _ ← whenM ann (clock_tx_announce c);
    sync ← count_round c C.sync_cnt C.sync_max;
    _ ← whenM sync (clock_tx_sync c);
    n ← cv c C.time_cnt;
    _ ← cset c C.time_cnt (n + 1);
    n ← cv c C.time_cnt;
    whenM (n mod 100 =? 0)
      (for_ports c (fun _ p =>
         p2p ← pb p P.p2p;
         cnt ← pv p P.cnt_delay_resp;
         whenM (p2p && (cnt =? 0)) (pset p P.cnt_delay_resp 10))).

Definition do_clock_sync_func (c : nat) : M unit :=
  last ← cv c C.last_sync_time_jiffies;
  t ← get_timer (T_sync c);
  _ ← whenM (last =? 1) (ksz_change_timer (T_sync c) (tm_period t) (tm_period t));
  _ ← schedule_work (W_sync c);
  time_save c C.last_sync_time_jiffies 2.

(** ** Timeouts of Sync and Follow_Up *)

(** The length of a Follow_Up with its information TLV. *)
Definition fup_length (len : Z) : Z := len + SIZE_org_ext + Z.of_nat SIZE_data_1 - 1.

(** A message made from a template, with the identity of the master. *)
Definition own_message (c : nat) (t : T.t) (len : Z -> Z) : M (option mref) :=
  k ← get_clock c;
  let temp := c_template k t in
  n ← lift (hdr_messageLength temp);
  o ← alloc_msg None (len n) None;
  match o with
  | None => mret None
  | Some m =>
      _ ← copy_msg m temp n;
      no ← cb c C.no_announce;
      _ ← whenM (negb no) (mwr m (fun b => set_source_clock b (c_best_id k)));
      _ ← mwr m (fun b => set_sequenceId b 65535);
      mret (Some m)
  end.

Definition clock_sync_timeout (c : nat) : M unit :=
  _ ← get_hw_clock;
  _ ← cset c C.first_sync 0;
  _ ← cset c C.report_sync 1;
  _ ← cset c C.prev_sync_jiffies 0;
  _ ← cset c C.rx_sync_seqid 131072;
  _ ← cset c C.rx_fup_seqid 131073;
  k ← get_clock c;
  if truthy (ut_sec (c_last_sync_rx k)) then
    fup ← slot_msg c S.last_rx_fup;
    sync ← slot_msg c S.last_sync;
    seq ← mrd sync hdr_sequenceId;
    _ ← mwr fup (fun b => set_sequenceId b seq);
    msg_save c S.last_fup fup
  else
    class ← clock_class c;
    if class =? 255 then skip
    else
      _ ← iterM (msg_clear c)
            [S.last_sync; S.last_fup; S.last_rx_fup; S.base_sync; S.base_fup];
      o ← own_message c T.sync_template (fun n => n);
      match o with
      | None => skip
      | Some sync =>
          _ ← mwr sync (fun b => set_twoStepFlag b 1);
          _ ← set_cslot c S.last_sync (Some sync);
          _ ← msg_save c S.base_sync sync;
          o ← own_message c T.fup_template fup_length;
          match o with
          | None => skip
          | Some fup =>
              _ ← mwr fup clock_add_follow_up;
              _ ← set_cslot c S.last_fup (Some fup);
              _ ← msg_save c S.last_rx_fup fup;
              msg_save c S.base_fup fup
          end
      end.

(** A Follow_Up to send when the master never sent one; whether there is one
    now. *)
Definition make_follow_up (c : nat) : M bool :=
  rx ← cslot c S.last_rx_fup;
  match rx with
  | Some _ => mret true
  | None =>
      k ← get_clock c;
      let temp := c_template k T.fup_template in
      n ← lift (hdr_messageLength temp);
      o ← alloc_msg None (fup_length n) None;
      match o with
      | None => mret false
      | Some fup =>
          _ ← copy_msg fup temp n;
          sync ← slot_msg c S.last_sync;
          src ← mrd sync hdr_sourcePortIdentity;
          _ ← mwr fup (fun b => wr_port_id b 20 src);
          _ ← mwr fup clock_add_follow_up;
          _ ← set_cslot c S.last_rx_fup (Some fup);
          mret true
      end
  end.

Definition clock_fup_timeout (c : nat) : M unit :=
  last ← cslot c S.last_fup;
  match last with
  | Some _ => skip
  | None =>
      there ← make_follow_up c;
      if negb there then skip
      else
        sync ← slot_msg c S.last_sync;
        seq ← mrd sync hdr_sequenceId;
        rx ← slot_msg c S.last_rx_fup;
        _ ← mwr rx (fun b => set_sequenceId b seq);
        _ ← msg_save c S.last_fup rx;
        _ ← msg_save c S.base_fup rx;
        _ ← cset c C.miss_fup 1;
        seq ← mrd rx hdr_sequenceId;
        _ ← cset c C.tx_fup_seqid seq;
        _ ← mod_clock c (fun k =>
              set_c_first_sync_tx (mk_utime 0 (ut_nsec (c_first_sync_tx k))) k);
        for_capable_masters c (fun p =>
          sync ← pinfo p I.tx_sync;
          whenM (truthy (ut_sec (mi_hw_time sync))) (ptp_fwd_fup p))
  end.

Definition do_clock_sync_timeout_work (c : nat) : M unit :=
  set ← cv c C.set_sync_timeout_jiffies;
  now ← jiffies;
  if time_delta set now <=? 1 then cset c C.sync_timeout_ready 1
  else
    _ ← ksz_stop_timer (T_interval c);
    t ← get_timer (T_fup_timeout c);
    let fup_timeout := truthy (tm_max t) in
    _ ← ksz_stop_timer (T_fup_timeout c);
    signaling ← cb c C.signaling;
    _ ← whenM signaling (clock_stop_signaling_timer c);
    _ ← cset c C.miss_sync 1;
    _ ← cset c C.miss_fup 0;
    _ ← whenM fup_timeout (clock_fup_timeout c);
    _ ← clock_sync_timeout c;
    _ ← cset c C.sync_timeout 1;
    sync ← cslot c S.last_sync;
    fup ← cslot c S.last_fup;
    match sync, fup with
    | Some _, Some _ =>
        _ ← clock_start_sync_timer c;
        hlog ← pv (Host c) P.logSyncInterval;
        _ ← clock_change_sync_timer c hlog;
        last ← cv c C.last_sync_jiffies;
        whenM (time_delta last now >=? ptp_interval_to_ms hlog) (schedule_work (W_sync c))
    | _, _ => skip
    end.

Definition do_clock_fup_timeout_work (c : nat) : M unit :=
  _ ← clock_fup_timeout c;
  ready ← cb c C.sync_timeout_ready;
  whenM ready (schedule_delayed_work (W_sync_timeout c) 0).

(** [if (h->state == PTP_S_DISABLED) return; schedule_delayed_work(work, 0);] *)
Definition func_unless_disabled (p : pref) (i : work_id) : M unit :=
  s ← pstate p;
  if bool_decide (s = PTP_S_DISABLED) then skip else schedule_delayed_work i 0.

Definition do_clock_sync_timeout_func (c : nat) : M unit :=
  func_unless_disabled (Host c) (W_sync_timeout c).
Definition do_clock_fup_timeout_func (c : nat) : M unit :=
  _ ← mod_timer (T_fup_timeout c) (fun t => if tm_repeat t then t else set_tm_max 0 t);
  func_unless_disabled (Host c) (W_fup_timeout c).

(** ** The interval and signaling timers *)

(** The Sync is overdue: the last one is forwarded again. *)
Definition do_clock_interval_work (c : nat) : M unit :=
  last ← cv c C.last_sync_jiffies;
  now ← jiffies;
  sync ← cslot c S.last_sync;
  fup ← cslot c S.last_fup;
  let diff := match sync, fup with Some _, Some _ => time_delta last now | _, _ => 0 end in
  t ← get_timer (T_interval c);
  if diff >=? tm_period t then
    _ ← cset c C.miss_sync 1;
    _ ← cset c C.miss_fup 1;
    _ ← cset c C.ann_cnt 0;
    max ← cv c C.sync_max;
    _ ← cset c C.sync_cnt max;
    schedule_work (W_sync c)
  else skip.

Definition do_clock_interval_func (c : nat) : M unit :=
  t ← get_timer (T_interval c);
  _ ← whenM (tm_repeat t) (ksz_change_timer (T_interval c) (tm_period t) (tm_period t));
  schedule_work (W_interval c).

(** The operational interval is asked for when its time has come. *)
Definition oper_interval (c : nat) (p : pref) : M unit :=
  oper ← cv c C.oper_sync_jiffies;
  wait ← pv p P.waitSyncInterval;
  now ← jiffies;
  if truthy oper && (time_delta oper now >=? u32 (wait * 1000)) then
    _ ← cset c C.oper_sync_jiffies 0;
    log ← pv p P.logSyncInterval;
    operlog ← pv p P.operSyncInterval;
    _ ← whenM (negb (log =? operlog))
          (_ ← pset p P.logSyncInterval operlog;
           _ ← pset p P.ds_logSyncInterval operlog;
           ptp_change_slave_interval c operlog false);
    req ← cb c C.req_interval;
    whenM (negb req) (clock_stop_signaling_timer c)
  else skip.

Definition do_clock_signaling_work (c : nat) : M unit :=
  o ← clock_slave_port c;
  match o with
  | None => skip
  | Some p =>
      s ← pstate p;
      if negb (receiving s) then skip
      else
        req ← cb c C.req_interval;
        go ←
          (if req : bool then
             a ← alloc_msg None 100 None;
             match a with
             | None => mret false
             | Some m =>
                 no ← cb c C.no_announce;
                 log ← cv c C.logAnnounceInterval;
                 hlog ← pv (Host c) P.logSyncInterval;
                 _ ← port_tx_signal_interval p 127 hlog
                       (if no : bool then 127 else log) (Some m);
                 mret true
             end
           else mret true);
        if negb go then skip
        else
          _ ← oper_interval c p;
          aed ← port_is_aed p;
          first ← cb c C.first_sync;
          whenM (aed && negb first) (clock_stop_signaling_timer c)
  end.

Definition do_clock_signaling_func (c : nat) : M unit :=
  func_unless_disabled (Host c) (W_signaling c).

Definition do_clock_update_interval_work (c : nat) : M unit := ptp_set_sync_interval c.

Definition do_clock_ethernet_ready_work (c : nat) : M unit :=
  test ← gv G.automotive_test_mode;
  if test =? 0 then skip
  else
    _ ← for_ports c (fun _ p =>
          ready ← pb p P.report_ready;
          whenM ready
            (_ ← pset p P.report_ready 0;
             _ ← pset p P.report_ready_done 1;
             seqid ← gv G.avtpdu_seqid;
             _ ← gset G.avtpdu_seqid (seqid + 1);
             index ← pv p P.index;
             bit ← port_bit p;
             emit (O_aed (u16 (index - 1)) seqid 0 AED_STATE_ETHERNET_READY (u16 bit))));
    cset c C.report_link 0.

(** ** Ports *)

Definition do_port_delay_req_func (p : pref) : M unit :=
  s ← pstate p;
  if bool_decide (s = PTP_S_DISABLED) then skip else schedule_work (W_delay_req p).

(** The interval of the next request: the operational one once the peer has
    answered often enough. *)
Definition next_pdelay_interval (p : pref) : M Z :=
  cnt ← pv p P.cnt_delay_req;
  resp ← pb p P.peer_resp;
  _ ← whenM ((cnt >? 0) && resp)
        (_ ← pset p P.cnt_delay_req (cnt - 1);
         cnt ← pv p P.cnt_delay_req;
         oper ← pv p P.operPdelayReqInterval;
         interval ← pv p P.pdelay_req_interval;
         whenM ((cnt =? 0) && negb (oper =? interval))
           (_ ← pset p P.pdelay_req_interval oper;
            pset p P.ds_logMinPdelayReqInterval oper));
  pv p P.pdelay_req_interval.

Definition do_port_pdelay_req_func (p : pref) : M unit :=
  s ← pstate p;
  if bool_decide (s = PTP_S_DISABLED) then skip
  else
    interval ← next_pdelay_interval p;
    n ← next_step;
    ms ← lift (ptp_random_ms (env_rand n) (ptp_interval_to_ms interval) 10);
    _ ← start_with (T_delay p) ms;
    schedule_work (W_delay_req p).

Definition do_port_ann_timeout_work (p : pref) : M unit :=
  _ ← port_announce_timeout p;
  index ← pv p P.index;
  _ ← (if truthy index then port_on_event p EVENT_ANNOUNCE_TIMEOUT
       else s ← host_event p EVENT_ANNOUNCE_TIMEOUT; mod_port p (set_p_next_state s));
  c ← pclock p;
  handle_state_decision c.

Definition do_port_qual_timeout_work (p : pref) : M unit :=
  index ← pv p P.index;
  if index =? 0 then skip
  else
    _ ← port_on_event p EVENT_QUALIFICATION_TIMEOUT;
    c ← pclock p;
    handle_state_decision c.

Definition do_port_fault_timeout_work (p : pref) : M unit :=
  _ ← pset p P.last_fault 0;
  index ← pv p P.index;
  no_link ← pb p P.no_link;
  if truthy index && negb no_link then
    _ ← port_on_event p EVENT_FAULT_CLEAR;
    c ← pclock p;
    handle_state_decision c
  else skip.

(** ** Calls through the pointers of timers and works *)

(** The clock or the port a timer or work belongs to. *)
Definition on_clock (o : option nat) (f : nat -> M unit) : M unit :=
  match o with Some c => f c | None => ub end.
Definition on_port (o : option pref) (f : pref -> M unit) : M unit :=
  match o with Some p => f p | None => ub end.

Definition work_clock (i : work_id) : option nat :=
  match i with
  | W_sync c | W_interval c | W_sync_timeout c | W_fup_timeout c | W_signaling c
  | W_update_interval c | W_ethernet_ready c => Some c
  | _ => None
  end.
Definition work_port (i : work_id) : option pref :=
  match i with
  | W_delay_req p | W_ann_timeout p | W_qual_timeout p | W_fault_timeout p => Some p
  | _ => None
  end.

(** [work->func(work)] *)
Definition run_work (i : work_id) (f : work_fn) : M unit :=
  match f with
  | port_delay_req_work => on_port (work_port i) port_tx_delay_req
  | port_pdelay_req_work => on_port (work_port i) port_tx_pdelay_req
  | port_ann_timeout_work => on_port (work_port i) do_port_ann_timeout_work
  | port_qual_timeout_work => on_port (work_port i) do_port_qual_timeout_work
  | port_fault_timeout_work => on_port (work_port i) do_port_fault_timeout_work
  | clock_sync_work => on_clock (work_clock i) do_clock_sync_work
  | clock_sync_timeout_work => on_clock (work_clock i) do_clock_sync_timeout_work
  | clock_fup_timeout_work => on_clock (work_clock i) do_clock_fup_timeout_work
  | clock_interval_work => on_clock (work_clock i) do_clock_interval_work
  | clock_signaling_work => on_clock (work_clock i) do_clock_signaling_work
  | clock_update_interval_work => on_clock (work_clock i) do_clock_update_interval_work
  | clock_ethernet_ready_work => on_clock (work_clock i) do_clock_ethernet_ready_work
  end.

Definition timer_clock (i : timer_id) : option nat :=
  match i with
  | T_sync c | T_interval c | T_sync_timeout c | T_fup_timeout c | T_signaling c => Some c
  | _ => None
  end.
Definition timer_port (i : timer_id) : option pref :=
  match i with T_delay p | T_ann p | T_qual p | T_fault p => Some p | _ => None end.

(** The callback with its parameter; the timer of the delayed works only wakes
    the schedule task. *)
Definition run_callback (i : timer_id) (f : timer_fn) : M unit :=
  match f with
  | port_delay_req_func => on_port (timer_port i) do_port_delay_req_func
  | port_pdelay_req_func => on_port (timer_port i) do_port_pdelay_req_func
  | port_ann_timeout_func =>
      on_port (timer_port i) (fun p => func_unless_disabled p (W_ann_timeout p))
  | port_qual_timeout_func =>
      on_port (timer_port i) (fun p => func_unless_disabled p (W_qual_timeout p))
  | port_fault_timeout_func =>
      on_port (timer_port i) (fun p => func_unless_disabled p (W_fault_timeout p))
  | clock_sync_func => on_clock (timer_clock i) do_clock_sync_func
  | clock_sync_timeout_func => on_clock (timer_clock i) do_clock_sync_timeout_func
  | clock_fup_timeout_func => on_clock (timer_clock i) do_clock_fup_timeout_func
  | clock_interval_func => on_clock (timer_clock i) do_clock_interval_func
  | clock_signaling_func => on_clock (timer_clock i) do_clock_signaling_func
  | delayed_timer_func => skip
  end.

(** [timer->callback(xTimer)]: every callback finds its timer by the
    descriptor, in the table. *)
Definition fire_timer (i : timer_id) (f : timer_fn) : M unit :=
  o ← pcTimerGetName i;
  match o with Some _ => run_callback i f | None => ub end.

End clock_work.
