(* ===== verification/Setup.v ===== *)
(** * Creation, start and stop of the clocks, and the events of the driver
    (ptp_clock.c, ptp_port.c, ptp_stack.c) *)

From stdpp Require Import base list numbers option.
From Stdlib Require Import ZArith Lia SpecFloat.
From S2P Require Import Prelude Ptu Filter Servo Types Wire Interval ConfigStore World.
From S2P Require Import Msgs Timers Config PortFsm ClockOps Sync Tx Port Decision Rx.

Definition MAX_PTP_PORTS : nat := 13.

Section setup.
Context {env : Env}.

(** ** Profile and hardware of a port *)

(** The works and timers of a port; [delay] is the interval of its delay
    requests. *)
Definition init_delay_timer (p : pref) (mech : delay_mech) (delay : Z) : M unit :=
  match mech with
  | DELAY_E2E =>
      _ ← init_work (W_delay_req p) port_delay_req_work;
      ksz_init_timer (T_delay p) (ptp_interval_to_ms delay) port_delay_req_func false
  | DELAY_P2P =>
      _ ← init_work (W_delay_req p) port_pdelay_req_work;
      ksz_init_timer (T_delay p) (ptp_interval_to_ms delay) port_pdelay_req_func false
  | DELAY_NONE => skip
  end.

Definition init_port_timers (p : pref) (delay : Z) : M unit :=
  let ms := ptp_interval_to_ms delay in
  _ ← init_work (W_ann_timeout p) port_ann_timeout_work;
  _ ← ksz_init_timer (T_ann p) ms port_ann_timeout_func false;
  _ ← init_work (W_qual_timeout p) port_qual_timeout_work;
  _ ← ksz_init_timer (T_qual p) ms port_qual_timeout_func false;
  _ ← init_work (W_fault_timeout p) port_fault_timeout_work;
  ksz_init_timer (T_fault p) 300000 port_fault_timeout_func false.

(** What the port does in IEEE 1588, in gPTP and in its Automotive profile. *)
Definition port_mode (two_step : bool) (gptp slave_port : Z) (q : port) : port :=
  let f (x : P.t) (v : Z) := set_num x v in
  let q := f P.sync_two_step (b2z two_step) (f P.p2p_two_step (b2z two_step) q) in
  let q := f P.gptp 0 (f P.gptp_auto 0 (f P.no_id_check 0 (f P.no_id_replace 1 q))) in
  let q := f P.path_trace 0 (f P.follow_up_tlv 0 (f P.as_capable 0 q)) in
  let q := f P.as_capable_set 0 (f P.no_capable 1 (f P.use_delay 1 (f P.gptp_slave 0 q))) in
  if gptp >? 0 then
    let q := f P.gptp 1 (f P.no_id_replace 0 (f P.path_trace 1 q)) in
    let q := f P.follow_up_tlv 1 (f P.no_capable 0 q) in
    if gptp >? 1 then
      let q := f P.gptp_auto 1 (f P.no_id_check 1 (f P.no_capable 1 q)) in
      if truthy (p_num q P.index) && (p_num q P.index =? slave_port)
      then f P.gptp_slave 1 q else q
    else q
  else q.

(** Intervals and waiting times of the port. *)
Definition init_port_intervals (p : pref) (mech : delay_mech) (delay : Z) : M unit :=
  c ← pclock p;
  log ← cv c C.logSyncInterval;
  _ ← pset p P.logSyncInterval log;
  index ← pv p P.index;
  _ ← whenM (truthy index)
        (_ ← ptp_init_port_ds p; log ← pv p P.ds_logSyncInterval; pset p P.logSyncInterval log);
  log ← pv p P.logSyncInterval;
  _ ← pset p P.initialSyncInterval log;
  _ ← pset p P.operSyncInterval (log + 1);
  _ ← mod_port p (set_p_delayMechanism mech);
  _ ← pset p P.delay_interval delay;
  _ ← pset p P.initialPdelayReqInterval delay;
  _ ← pset p P.operPdelayReqInterval (delay + 1);
  initial ← pv p P.initialPdelayReqInterval;
  _ ← pset p P.pdelay_req_interval initial;
  cfg_index ← cv c C.cfg_index;
  osync ← pv p P.operSyncInterval;
  opdelay ← pv p P.operPdelayReqInterval;
  '(osync, opdelay) ← cfg_or (fun c => gptp_port_profile_get_oper c cfg_index) (osync, opdelay);
  _ ← pset p P.operSyncInterval osync;
  _ ← pset p P.operPdelayReqInterval opdelay;
  cfg ← gets w_cfg;
  let '(initial, sync, pdelay) := gptp_get_initial_wait cfg in
  _ ← pset p P.initialSyncTimeout initial;
  _ ← pset p P.waitSyncInterval sync;
  pset p P.waitPdelayReqInterval pdelay.

Definition init_ptp_port_profile (p : pref) (mech : delay_mech) (two_step : Z) (delay : Z)
    : M unit :=
  twos ← ptp_config_using_two_step;
  gptp ← ptp_config_get_gptp_mode;
  slave_port ← ptp_config_get_slave_port;
  _ ← mod_port p (port_mode twos gptp slave_port);
  _ ← init_port_intervals p mech delay;
  _ ← init_delay_timer p mech delay;
  _ ← init_port_timers p delay;
  index ← pv p P.index;
  whenM (index >? 0)
    (emit (O_port_cfg index two_step (b2z (bool_decide (mech = DELAY_P2P))))).

Definition exit_ptp_port_profile (p : pref) : M unit :=
  _ ← iterM (pinfo_clear p)
        [I.tx_sync; I.tx_delay_req; I.tx_pdelay_resp; I.rx_delay_resp; I.rx_pdelay_fup];
  _ ← ksz_exit_timer (T_delay p);
  _ ← iterM ksz_stop_timer [T_ann p; T_qual p; T_fault p];
  iterM ksz_exit_timer [T_ann p; T_qual p; T_fault p].

Definition exit_ptp_port_hw (p : pref) : M unit := mod_filter p exit_ptp_filter.

Definition init_ptp_port_hw (p : pref) (id index : Z) : M unit :=
  _ ← pset p P.ds_port id;
  _ ← pset p P.id id;
  _ ← pset p P.index index;
  _ ← mod_port p (set_p_state PTP_S_INIT);
  _ ← pset p P.no_link 1;
  _ ← whenM (index >? 0)
        (_ ← mod_port p (set_p_state PTP_S_DISABLED);
         bit ← shl1M (index - 1);
         pset p P.portmap bit);
  n ← next_step;
  mod_filter p (fun f => init_ptp_filter f (env_filter_mem n)).

(** ** A clock *)

(** The hardware ports of the clock get the numbers 1, 2, ... in order; the
    host port comes after them.  The count so far goes through the loop. *)
Fixpoint setup_hw_ports (c : nat) (ports : Z) (l : list nat) (cnt : Z) : M Z :=
  match l with
  | [] => mret cnt
  | i :: l =>
      if negb (Z.testbit ports (Z.of_nat i)) then setup_hw_ports c ports l cnt
      else
        let id := u16 (cnt + 1) in
        _ ← mod_clock c (fun k =>
              set_c_ports (<[Z.to_nat id := Some (Hw i)]> (c_ports k)) k);
        _ ← mod_port (Hw i) (set_p_c (Some c));
        _ ← init_ptp_port_hw (Hw i) id (Z.of_nat i + 1);
        setup_hw_ports c ports l (u8 (cnt + 1))
  end.

Definition setup_ptp_ports (c : nat) (ports : Z) : M unit :=
  cnt ← setup_hw_ports c ports (seq 0 MAX_PTP_PORTS) 0;
  _ ← cset c C.ports ports;
  _ ← mod_clock c (fun k => set_c_ports (<[0%nat := Some (Host c)]> (c_ports k)) k);
  _ ← mod_port (Host c) (set_p_c (Some c));
  _ ← init_ptp_port_hw (Host c) (cnt + 1) 0;
  _ ← cset c C.portmap ports;
  _ ← pset (Host c) P.portmap ports;
  cset c C.cnt cnt.

Definition clock_delete_ptp_msg (c : nat) : M unit :=
  iterM (msg_clear c)
    [S.last_sync; S.last_fup; S.last_rx_fup; S.last_ann; S.base_sync; S.base_fup].

(** Two fields of the clock from the configuration, if it has the profile. *)
Definition cset2_cfg (c : nat) (f : config -> option (Z * Z)) (x y : C.t) : M unit :=
  cfg ← gets w_cfg;
  match f cfg with
  | Some (a, b) => _ ← cset c x a; cset c y b
  | None => skip
  end.
Definition gset_cfg (f : config -> option Z) (g : G.t) : M unit :=
  cfg ← gets w_cfg;
  match f cfg with Some v => gset g v | None => skip end.

(** The profile of the stack: the global settings. *)
Definition load_profile (index : Z) : M unit :=
  _ ← gset_cfg (fun cfg => gptp_profile_get_profile cfg index) G.ptp_stack_gptp;
  _ ← gset_cfg (fun cfg => fst <$> gptp_profile_get_e2e_p2p cfg index) G.ptp_stack_e2e;
  _ ← gset_cfg (fun cfg => snd <$> gptp_profile_get_e2e_p2p cfg index) G.ptp_stack_p2p;
  _ ← gset_cfg (fun cfg => gptp_profile_get_gm_capable cfg index) G.ptp_stack_gm_capable;
  gset_cfg (fun cfg => gptp_profile_get_two_step cfg index) G.ptp_stack_2step.

Definition clock_init_profile (c : nat) : M unit :=
  _ ← cset c C.specific 0;
  _ ← cset c C.transport 0;
  _ ← cset c C.logAnnounceInterval 1;
  _ ← cset c C.announceReceiptTimeout 3;
  _ ← cset c C.logSyncInterval 0;
  _ ← cset c C.syncReceiptTimeout 0;
  _ ← cset c C.no_announce 0;
  cfg ← gets w_cfg;
  _ ← cset c C.fupReceiptTimeout (Z.min 25 (u8 (gptp_get_follow_up_timeout cfg)));
  index ← cv c C.cfg_index;
  _ ← load_profile index;
  gptp ← ptp_config_get_gptp_mode;
  _ ← whenM (gptp >? 0)
        (_ ← cset c C.specific 1;
         _ ← cset c C.logAnnounceInterval 0;
         _ ← cset c C.logSyncInterval (-3);
         cset c C.syncReceiptTimeout 3);
  p2p ← ptp_config_using_p2p;
  e2e ← ptp_config_using_e2e;
  _ ← (if p2p : bool then mod_clock c (set_c_delay_mechanism DELAY_P2P)
       else whenM e2e (mod_clock c (set_c_delay_mechanism DELAY_E2E)));
  _ ← cset2_cfg c (fun cfg => gptp_port_profile_get_sync cfg index)
        C.logSyncInterval C.syncReceiptTimeout;
  _ ← cset2_cfg c (fun cfg => gptp_port_profile_get_announce cfg index)
        C.logAnnounceInterval C.announceReceiptTimeout;
  specific ← cv c C.specific;
  specific ← cfg_or (fun cfg => fst <$> gptp_profile_get_sdoid cfg index) specific;
  _ ← cset c C.specific specific;
  transport ← cv c C.transport;
  transport ← cfg_or (fun cfg => gptp_profile_get_transport cfg index) transport;
  _ ← cset c C.transport transport;
  gptp ← ptp_config_get_gptp_mode;
  whenM (gptp >? 1) (_ ← cset c C.no_announce 1; cset c C.logAnnounceInterval 4).

Definition set_dds_id (id : clock_identity) (d : default_ds) : default_ds :=
  mk_dds (dds_flags d) (dds_numberPorts d) (dds_priority1 d) (dds_quality d)
    (dds_priority2 d) id (dds_domainNumber d).
Definition clock_init_default_ds (c : nat) : M unit :=
  index ← cv c C.cfg_index;
  d ← ptp_init_config_ds index;
  mod_clock c (fun k => set_c_dds (set_dds_id (c_id k) d) k).

(** The slave port of the Automotive profile, from the setting of port [p], the
    [i]-th of the clock. *)
Definition find_slave_port (i : nat) (p : pref) : M unit :=
  index ← pv p P.index;
  cfg ← gets w_cfg;
  match gptp_port_get_master cfg index with
  | None => skip
  | Some master =>
      _ ← whenM (bool_decide (i = 1%nat)) (gset G.ptp_stack_slave_port 0);
      slave ← gv G.ptp_stack_slave_port;
      whenM ((master =? 0) && (slave =? 0)) (gset G.ptp_stack_slave_port index)
  end.

Definition setup_ptp_port_profile (c : nat) : M unit :=
  _ ← clock_setup_ptp_msg c;
  k ← get_clock c;
  let two_step := b2z (truthy (Z.land (dds_flags (c_dds k)) DDS_TWO_STEP_FLAG)) in
  let mech := c_delay_mechanism k in
  p2p ← ptp_config_using_p2p;
  let index := c_num k C.cfg_index in
  delay ← cfg_or (fun cfg =>
            if p2p : bool then gptp_port_profile_get_pdelay cfg index
            else gptp_port_profile_get_delay cfg index) 0;
  _ ← init_ptp_port_profile (Host c) DELAY_NONE two_step delay;
  _ ← for_ports c (fun i p =>
        _ ← find_slave_port i p;
        _ ← init_ptp_port_profile p mech two_step delay;
        k ← get_clock c;
        mod_port p (set_p_ds_clock (dds_clockIdentity (c_dds k))));
  if bool_decide (mech = DELAY_NONE) then
    h ← pdelay_of (Host c);
    f ← lift (filter_set_delay (pi_filter h) (d_of_Z 0));
    mod_filter (Host c) (fun _ => f)
  else skip.

Definition setup_ptp_hw_clock (c : nat) : M unit :=
  n ← next_step;
  let '(rc, drift) := env_get_freq n in
  if negb (rc =? 0) then skip
  else
    drift ← mulM drift 1000;
    mod_servo c (fun s =>
      mk_servo (sv_last_offset s) (sv_last_ingress s) (sv_last_interval s)
        (sv_last_dbg_ingress s) (sv_kp s) (sv_ki s) drift (sv_freq_diff s) (sv_last_freq s)
        (sv_drift_valid s)).

Definition setup_ptp_clock (c : nat) (ports : Z) : M unit :=
  _ ← clock_init_profile c;
  _ ← clock_init_default_ds c;
  _ ← clock_update_grandmaster c;
  old ← cv c C.ports;
  _ ← whenM (negb (old =? ports)) (setup_ptp_ports c ports);
  _ ← setup_ptp_port_profile c;
  _ ← setup_ptp_hw_clock c;
  _ ← mod_clock c (fun k =>
        let d := c_dds k in
        set_c_dds (mk_dds (dds_flags d) (c_num k C.cnt) (dds_priority1 d) (dds_quality d)
          (dds_priority2 d) (dds_clockIdentity d) (c_num k C.domain)) k);
  _ ← ptp_update_parent_ds c None;
  cset c C.setup 1.

(** The clock of the index if it is free, or the first free one. *)
Definition create_ptp_clock (index domain ports vid : Z) : M (option nat) :=
  own ← cv (Z.to_nat (index - 1)) C.domain;
  free ← get_ptp_clock 255;
  match (if own =? 255 then Some (Z.to_nat (index - 1)) else free) with
  | None => mret None
  | Some c =>
      _ ← cset c C.cfg_index index;
      _ ← cset c C.domain domain;
      _ ← cset c C.vid vid;
      _ ← setup_ptp_clock c ports;
      mret (Some c)
  end.

(** The last three bytes of the address, as one number. *)
Definition inc_mac_id (addr : list Z) (inc : Z) : list Z :=
  match addr with
  | [a0; a1; a2] =>
      let b2 := u8 (a2 + inc) in
      if b2 <? a2 then
        let b1 := u8 (a1 + 1) in
        if b1 <? a1 then [u8 (a0 + 1); b1; b2] else [a0; b1; b2]
      else [a0; a1; b2]
  | _ => addr
  end.

(** The identity of a clock: the address with 0xFFFE in its middle, and its
    index added. *)
Definition clock_identity_of (macaddr : list Z) (index : Z) : clock_identity :=
  take 3 macaddr ++ [255; 254] ++ inc_mac_id (take 3 (drop 3 macaddr)) index.

Definition init_ptp_clock (c : nat) (macaddr : list Z) : M unit :=
  index ← cv c C.index;
  _ ← mod_clock c (fun k =>
        set_c_id (clock_identity_of macaddr index)
          (set_c_servo_state SERVO_UNLOCKED
             (set_c_servo (init_ptp_servo (c_servo k))
                (set_c_delay_mechanism DELAY_NONE k))));
  _ ← cset c C.domain 255;
  _ ← cset c C.time_source 160;
  cfg ← gets w_cfg;
  _ ← cset c C.utc_offset (u8 (gptp_get_utc cfg));
  _ ← init_work (W_sync c) clock_sync_work;
  _ ← init_work (W_sync_timeout c) clock_sync_timeout_work;
  _ ← init_work (W_fup_timeout c) clock_fup_timeout_work;
  _ ← init_work (W_interval c) clock_interval_work;
  _ ← init_work (W_signaling c) clock_signaling_work;
  _ ← init_work (W_update_interval c) clock_update_interval_work;
  init_work (W_ethernet_ready c) clock_ethernet_ready_work.

Definition init_ptp_clocks (macaddr : list Z) : M unit :=
  iterM (fun i => _ ← cset i C.index (Z.of_nat i); init_ptp_clock i macaddr)
    (seq 0 MAX_PTP_CLOCKS).

(** ** Start and stop *)

(** [for (i = 0; i <= c->cnt; i++) body(c->ptp_ports[i]);] *)
Definition for_all_ports (c : nat) (body : pref -> M unit) : M unit :=
  cnt ← cv c C.cnt;
  iterM (fun n => p ← ptp_port_of c n; body p) (seq 0 (S (Z.to_nat cnt))).

Definition init_clock_timers (c : nat) (delay : Z) : M unit :=
  let ms := ptp_interval_to_ms delay in
  fup ← cv c C.fupReceiptTimeout;
  _ ← ksz_init_timer (T_sync c) ms clock_sync_func true;
  _ ← ksz_init_timer (T_sync_timeout c) ms clock_sync_timeout_func false;
  _ ← ksz_init_timer (T_fup_timeout c) fup clock_fup_timeout_func false;
  _ ← ksz_init_timer (T_interval c) (ms + SYNC_MISS_MARGIN) clock_interval_func true;
  ksz_init_timer (T_signaling c) 1000 clock_signaling_func true.

(** The state of the host port without Announce messages. *)
Fixpoint any_slave (c : nat) (l : list nat) : M bool :=
  match l with
  | [] => mret false
  | n :: l =>
      p ← ptp_port_of c n;
      slave ← pb p P.gptp_slave;
      if slave : bool then mret true else any_slave c l
  end.
Definition auto_host_state (c : nat) : M ptp_state :=
  class ← clock_class c;
  cnt ← cv c C.cnt;
  slave ← any_slave c (seq 1 (Z.to_nat cnt));
  mret (if slave : bool then PTP_S_SLAVE
        else if class =? 255 then PTP_S_PRE_MASTER else PTP_S_MASTER).

Definition clock_start (c : nat) : M unit :=
  stop ← cb c C.stop;
  _ ← whenM stop
        (_ ← cset c C.stop 0;
         setup ← cb c C.setup;
         whenM (negb setup) (ports ← cv c C.ports; setup_ptp_clock c ports));
  delay ← set_counts c;
  max ← cv c C.ann_max;
  _ ← cset c C.ann_cnt max;
  _ ← cset c C.sync_cnt 0;
  _ ← init_clock_timers c delay;
  _ ← for_all_ports c (fun p => _ ← port_init p; port_set_state p PTP_S_INITIALIZING);
  no ← cb c C.no_announce;
  _ ← whenM no (s ← auto_host_state c; port_set_state (Host c) s);
  handle_state_decision c.

Definition clock_stop (c : nat) : M unit :=
  _ ← clock_stop_sync_timer c;
  _ ← iterM ksz_stop_timer [T_sync_timeout c; T_fup_timeout c; T_interval c];
  _ ← for_all_ports c (fun p => port_set_state p PTP_S_DISABLED);
  signaling ← cb c C.signaling;
  _ ← whenM signaling (clock_stop_signaling_timer c);
  _ ← iterM ksz_exit_timer
        [T_sync c; T_sync_timeout c; T_fup_timeout c; T_interval c; T_signaling c];
  _ ← mod_clock c (set_c_last_sync_rx utime0);
  _ ← cset c C.last_sync_jiffies 0;
  _ ← cset c C.stop 1;
  cset c C.setup 0.

Definition delete_ptp_clock (c : nat) : M unit :=
  _ ← clock_delete_ptp_msg c;
  for_all_ports c (fun p => _ ← exit_ptp_port_profile p; exit_ptp_port_hw p).

Definition reset_ptp_clock (c : nat) : M unit :=
  _ ← clock_delete_ptp_msg c;
  _ ← for_all_ports c exit_ptp_port_profile;
  mod_clock c (set_c_best_id (replicate 8 0)).

(** ** Events of the driver *)

(** The link of a port went up or down; [status] has a bit per speed and one
    for half duplex. *)
Definition proc_link_status (port status : Z) : M unit :=
  let speed := negb (Z.land status 7 =? 0) in
  let half_duplex := Z.testbit status 7 in
  o ← get_ptp_port port;
  match o with
  | None => skip
  | Some p =>
      event ←
        (if speed then
           use_delay ← pb p P.use_delay;
           _ ← whenM (half_duplex && use_delay) (pset p P.use_one_way_resp 1);
           _ ← pset p P.report_ready 1;
           _ ← pset p P.no_link 0;
           fault ← pv p P.last_fault;
           mret (if truthy fault then EVENT_NONE else EVENT_FAULT_CLEAR)
         else
           _ ← pset p P.no_link 1;
           _ ← pset p P.report_ready_done 0;
           mret EVENT_FAULT_SET);
      _ ← port_on_event p event;
      q ← get_port p;
      _ ← match p_c q with
          | None => skip
          | Some c => stop ← cb c C.stop; whenM (negb stop) (handle_state_decision c)
          end;
      test ← gv G.automotive_test_mode;
      ready ← pb p P.report_ready;
      whenM (truthy test && ready)
        (c ← pclock p;
         _ ← cset c C.report_link 1;
         schedule_delayed_work (W_ethernet_ready c) 10)
  end.

(** The transmit timestamp of an own message becomes a received header.  [mem]
    is the memory of the message on the stack, [id] the bytes of the source
    port identity. *)
Definition timestamp_msg (mem : buf) (id : list Z) (type seqid domain specific : Z)
    : option buf :=
  b ← put mem 20 id;
  b ← set_messageType b type;
  b ← set_sequenceId b seqid;
  b ← set_domainNumber b domain;
  b ← set_messageLength b (Z.of_nat SIZE_hdr * 256);
  b ← set_correctionField b 0;
  set_transportSpecific b specific.
Definition proc_tx_timestamp (handle_management : pref -> mref -> M unit) (mem : buf)
    (id : list Z) (type seqid domain specific port sec nsec : Z) : M unit :=
  b ← lift (timestamp_msg mem id type seqid domain specific);
  ptp_setup_rx handle_management b port sec nsec true None false 0.

(** ** Reading the data sets *)

Definition ptp_get_port_ds_np (port : Z) : M (option (Z * Z)) :=
  o ← get_ptp_port port;
  match o with
  | None => mret None
  | Some p =>
      q ← get_port p;
      mret (Some (u32 (p_num q P.neighborDelayThresh),
                  if negb (truthy (p_num q P.no_capable)) &&
                     negb (truthy (p_num q P.as_capable_set))
                  then p_num q P.as_capable else 1))
  end.

(** A data set of the clock of a port, for those who know the clock; [None]
    inside stands for the zeros the caller sees otherwise. *)
Definition get_clock_ds {A} (f : clock -> A) (port : Z) (clk_id : clock_identity)
    : M (option (option A)) :=
  o ← get_ptp_port port;
  match o with
  | None => mret None
  | Some p =>
      c ← pclock p;
      k ← get_clock c;
      mret (Some (if same_clock_id (c_id k) clk_id || broadcast_clock_id clk_id
                  then Some (f k) else None))
  end.
Definition ptp_get_parent_ds := get_clock_ds c_pds.
Definition ptp_get_def_ds := get_clock_ds c_dds.
Definition ptp_get_curr_ds := get_clock_ds c_cur.

End setup.
