(* ===== verification/Stack.v ===== *)
(** * The stack as a whole (ptp_main.c: [init_stack]; ptp_stack.c)

    The clocks that are configured, the hardware settings they share, and
    their start and stop.  The arguments [ptrs] are the pointers of the array
    [ptp_clock_ptr] that are set. *)

From stdpp Require Import base list numbers option.
From Stdlib Require Import ZArith Lia.
From S2P Require Import Prelude Types ConfigStore World Msgs Timers ClockOps Setup.

Section stack.
Context {env : Env}.

(** ** Creation *)

(** The clocks of the profiles [l], with the ports no clock has taken yet. *)
Fixpoint create_clocks (l : list Z) (ports_left : Z) (ptrs : list nat) : M (list nat) :=
  match l with
  | [] => mret ptrs
  | j :: l =>
      cfg ← gets w_cfg;
      match gptp_profile_get_domain cfg j with
      | None => create_clocks l ports_left ptrs
      | Some (domain, ports, vid) =>
          let ports := Z.land ports ports_left in
          if ports =? 0 then create_clocks l ports_left ptrs
          else
            o ← create_ptp_clock j domain ports vid;
            match o with
            | None => create_clocks l ports_left ptrs
            | Some c =>
                taken ← cv c C.ports;
                _ ← cset c C.stop 1;
                create_clocks l (Z.land ports_left (Z.lnot taken)) (ptrs ++ [c])
            end
      end
  end.

(** [gptp_get_allowed(&allowed_lost_responses, &allowed_pdelay_faults)] *)
Definition get_allowed : M unit :=
  cfg ← gets w_cfg;
  let '(lost, faults) := gptp_get_allowed cfg in
  _ ← gset G.allowed_lost_responses lost;
  gset G.allowed_pdelay_faults faults.

Definition init_stack (hwaddr : list Z) (ptp_ports : Z) : M (list nat) :=
  _ ← tx_msg_init;
  _ ← init_ptp_clocks hwaddr;
  _ ← get_allowed;
  n ← shl1M ptp_ports;
  create_clocks [1; 2; 3] (u16 (n - 1)) [].

(** ** Hardware *)

(** The clocks that have ports. *)
Fixpoint with_ports (l : list nat) : M (list nat) :=
  match l with
  | [] => mret []
  | c :: l => ports ← cv c C.ports; l ← with_ports l; mret (if truthy ports then c :: l else l)
  end.

(** [ptp_domain[c->index] = c->domain;] for the clocks of the list. *)
Fixpoint hw_domains (l : list nat) (ptp_domain : list Z) : M (list Z) :=
  match l with
  | [] => mret ptp_domain
  | c :: l =>
      index ← cv c C.index;
      domain ← cv c C.domain;
      if index <? Z.of_nat (length ptp_domain)
      then hw_domains l (<[Z.to_nat index := domain]> ptp_domain)
      else ub
  end.

(** The delay mechanism, the two-step flag and gPTP of the first clock. *)
Definition hw_mode (f : list nat) : M (Z * Z * Z) :=
  match f with
  | [] => mret (0, 1, 0)
  | c :: _ =>
      k ← get_clock c;
      mret (b2z (truthy (Z.land (dds_flags (c_dds k)) DDS_TWO_STEP_FLAG)),
            b2z (bool_decide (c_delay_mechanism k = DELAY_P2P)),
            b2z (truthy (p_num (c_host k) P.gptp)))
  end.

Definition setup_ptp_hw (ptrs : list nat) : M unit :=
  n ← next_step;
  let '(ptp_clk, ptp_domain) := env_clk_domain n in
  f ← with_ports ptrs;
  ptp_domain ← hw_domains f ([3; 5; 6] ++ drop 3 ptp_domain);
  _ ← emit (O_clk_domain ptp_clk ptp_domain);
  _ ← emit (O_two_domain (b2z (1 <? length f)%nat));
  '(two_step, p2p, as_) ← hw_mode f;
  _ ← emit (O_global_cfg 0 two_step p2p as_);
  _ ← iterM (fun c => stop ← cb c C.stop; whenM stop (clock_start c)) ptrs;
  emit (O_notify 1).

(** ** Start, stop and exit *)

Definition ptp_stack_start_clock (ptrs : list nat) : M unit :=
  match ptrs with
  | [] => skip
  | _ => _ ← get_allowed; setup_ptp_hw ptrs
  end.

Definition ptp_stack_stop_clock (ptrs : list nat) : M unit :=
  _ ← iterM (fun c =>
        ports ← cv c C.ports;
        whenM (truthy ports) (_ ← clock_stop c; reset_ptp_clock c)) ptrs;
  ksz_cleanup_timers.

Definition exit_stack (ptrs : list nat) : M unit :=
  _ ← iterM (fun c =>
        ports ← cv c C.ports;
        whenM (truthy ports) (_ ← clock_stop c; delete_ptp_clock c)) ptrs;
  o ← gets w_tx_msg;
  m ← lift o;
  free_msg m.

End stack.
