(* ===== verification/Boot.v ===== *)
(** * The stack at its start

    The static variables of the program before [init_stack], and an environment
    whose memory is zero and whose hardware accepts everything: what the
    handlers do can be computed from here. *)

From stdpp Require Import base list numbers option gmap.
From Stdlib Require Import ZArith Lia SpecFloat.
From S2P Require Import Prelude Ptu Filter Servo Types Bmca Wire ConfigStore World Msgs.
From S2P Require Import Timers ClockOps Rx Manage Setup Stack.

(** ** Static variables *)

Definition filter0 : ptp_filter :=
  mk_filter ptu_zero ptu_zero ptu_zero ptu_zero (S754_zero false) 0 false (mk_mm 0 0 0 []).
Definition nrate0 : nrate_info :=
  mk_nrate (S754_zero false) ptu_zero ptu_zero ptu_zero ptu_zero false.
Definition port0 : port :=
  mk_port (fun _ => 0) PTP_S_INIT PTP_S_INIT PTP_S_INIT PTP_S_INIT DELAY_NONE (replicate 8 0)
    pid0 (replicate 6 0) None (replicate MAX_FOREIGN_MASTERS fd0) (fun _ => info0) None
    (mk_pdelay 0 0 nrate0 filter0).
Definition servo0 : ptp_servo :=
  mk_servo ptu_zero ptu_zero ptu_zero ptu_zero 0 0 0 0 0 false.
Definition clock0 : clock :=
  mk_clock (fun _ => 0) DELAY_NONE port0 (replicate (S MAX_PTP_PORTS) None) None (replicate 8 0)
    ds0 None (replicate 8 0) (mk_dds 0 0 0 (mk_quality 0 0 0) 0 (replicate 8 0) 0)
    (mk_cur 0 0 0) (mk_pds pid0 0 (mk_quality 0 0 0) 0 (replicate 8 0)) SERVO_UNLOCKED ptu_zero
    servo0 utime0 utime0 (fun _ => None) info0 info0 (fun _ => replicate 64 0).
Definition globals0 (g : G.t) : Z :=
  match g with
  | G.ptp_stack_gptp | G.ptp_stack_gm_capable | G.ptp_stack_2step | G.ptp_stack_p2p => 1
  | _ => 0
  end.
Definition world0 : world :=
  mk_world (replicate MAX_PTP_CLOCKS clock0) (replicate MAX_PTP_PORTS port0) ∅ None
    (fun _ => mk_timer None false 0 0 false None false) [] (fun _ => work0) [] false [] []
    config0 globals0 1000 0.

(** ** An environment *)

Definition zero_env : Env := {|
  env_malloc _ n := Some (replicate n 0);
  env_filter_mem _ := Some (replicate 10 (mk_md 0 0));
  env_rand _ := 0;
  env_adj_freq _ := 0;
  env_get_clock _ := (1, 0);
  env_get_freq _ := (0, 0);
  env_two_domain _ := (0, 0);
  env_clk_domain _ := (0, replicate 8 0) |}.

#[export] Instance zero_env_ok : EnvOk zero_env.
Proof.
  split.
  - intros n s l [= <-]. apply length_replicate.
  - intros n s l [= <-]. apply Forall_replicate. lia.
Qed.

Definition mac0 : list Z := [0; 16; 161; 1; 2; 3].
Definition run {A} (f : M A) (w : world) : world :=
  match f w with Some (_, w) => w | None => w end.
Definition runs {A} (f : M A) (w : world) : bool :=
  match f w with Some _ => true | None => false end.

Lemma runs_spec {A} (f : M A) w : runs f w = true -> exists a, f w = Some (a, run f w).
Proof. unfold runs, run. destruct (f w) as [[a w']|]; [by exists a | done]. Qed.

Section boot.
#[local] Existing Instance zero_env.

(** The stack with its clock of five ports, started. *)
Definition booted : world := run (init_stack mac0 5) world0.
Definition started : world := run (ptp_stack_start_clock [0%nat]) booted.

(** The link of the first port is up: it listens. *)
Definition linked : world := run (proc_link_status 1 1) started.

(** A request for the data set of the ports, for all ports, from another
    clock. *)
Definition get_port_ds_frame : buf :=
  [13; 2; 0; 54; 0; 0; 0; 0] ++ replicate 12 0 ++ [1; 2; 3; 255; 254; 4; 5; 6; 0; 1] ++
  [0; 7; 4; 127] ++ replicate 10 255 ++ [0; 0; 0; 0] ++ [0; 1; 0; 2; 32; 4].
Definition asked_world : world :=
  run (ptp_setup_rx handle_management get_port_ds_frame 1 0 1 false None false 0) linked.
End boot.
