(* ===== verification/Reach.v ===== *)
(** * The states the stack can reach

    The stack starts with [init_stack] and then reacts to events: each event is
    one call of a handler by a task, a timer or a command.  The last part shows
    which handlers only read the state. *)

From stdpp Require Import base list numbers option gmap relations.
From Stdlib Require Import ZArith Lia.
From S2P Require Import Prelude Types Wire World Keeps Msgs Timers PortFsm ClockOps Sync Tx.
From S2P Require Import Port Decision Rx Manage ClockWork Setup Stack Boot.

(** ** Typed states *)

Definition in_type (t : cty) (z : Z) : Prop :=
  match t with CU w => 0 <= z < 2 ^ w | CS w => - 2 ^ (w - 1) <= z < 2 ^ (w - 1) end.
Definition port_typed (q : port) : Prop := forall x, in_type (P.ty x) (p_num q x).
Definition clock_typed (k : clock) : Prop :=
  (forall x, in_type (C.ty x) (c_num k x)) /\ port_typed (c_host k).
(** Every integer field of a port or a clock and every global variable has a
    value of its C type. *)
Record Typed (w : world) : Prop := mk_typed {
  typed_hw : Forall port_typed (w_hw w);
  typed_clocks : Forall clock_typed (w_clocks w);
  typed_glob : forall g, in_type (G.ty g) (w_glob w g) }.

Section reach.
Context {env : Env}.

(** ** Events *)

(** The static variables before [init_stack]: no messages and
    no works yet. *)
Record Unused (w : world) : Prop := mk_unused {
  unused_heap : w_heap w = ∅;
  unused_mq : w_mq w = [];
  unused_tx : w_tx_msg w = None;
  unused_clocks : length (w_clocks w) = MAX_PTP_CLOCKS;
  unused_slots : Forall (fun k => forall s, c_msg k s = None) (w_clocks w);
  unused_sched : w_sched w = [];
  unused_works : forall i, wk_attach (w_works w i) = false;
  unused_typed : Typed w }.

(** An input: a frame comes in, a transmit timestamp, a scan of the schedule
    task, a timer, a change of a link, the commands to start and stop the
    clocks, time that passes, a change of the settings. *)
Inductive input (w : world) : world -> Prop :=
  | in_rx b p s n src raw vid u w' :
      ptp_setup_rx handle_management b p s n false src raw vid w = Some (u, w') -> input w w'
  | in_timestamp b i t q d sp p s n u w' :
      proc_tx_timestamp handle_management b i t q d sp p s n w = Some (u, w') -> input w w'
  | in_schedule fuel u w' : schedule_scan run_work fuel 0 w = Some (u, w') -> input w w'
  | in_timer i f u w' :
      tm_callback (w_timers w i) = Some f -> fire_timer i f w = Some (u, w') -> input w w'
  | in_link p s u w' : proc_link_status p s w = Some (u, w') -> input w w'
  | in_start ptrs u w' : ptp_stack_start_clock ptrs w = Some (u, w') -> input w w'
  | in_stop ptrs u w' : ptp_stack_stop_clock ptrs w = Some (u, w') -> input w w'
  | in_time t : input w (set_w_now t w)
  | in_settings c : input w (set_w_cfg c w).

(** One event: an input, or a round of the process task. *)
Inductive event (w : world) : world -> Prop :=
  | ev_input w' : input w w' -> event w w'
  | ev_process u w' : process_one proc_management w = Some (u, w') -> event w w'.

Inductive reachable : world -> Prop :=
  | reach_init a n w l w' : Unused w -> init_stack a n w = Some (l, w') -> reachable w'
  | reach_event w w' : reachable w -> event w w' -> reachable w'.

Lemma inputs_reachable w w' : rtc input w w' -> reachable w -> reachable w'.
Proof.
  induction 1 as [|w w1 w' Hi _ IH]; [done|]. intros Hw. apply IH.
  eapply reach_event; [exact Hw|by apply ev_input].
Qed.

End reach.

(** ** A state that is reached *)

Section example.
#[local] Existing Instance zero_env.

Lemma world0_unused : Unused world0.
Proof.
  assert (H : port_typed port0) by (intros []; by vm_compute).
  split; [done..|by apply Forall_replicate|done|done|]. constructor.
  - by apply Forall_replicate.
  - apply Forall_replicate. split; [intros []; by vm_compute | exact H].
  - intros []; by vm_compute.
Qed.
Lemma reach_run {A} (f : M A) w :
  reachable w -> runs f w = true -> (forall u w', f w = Some (u, w') -> event w w') ->
  reachable (run f w).
Proof. intros H [u E]%runs_spec He. eapply reach_event; [exact H | by eapply He]. Qed.
Lemma reach_start a n w :
  Unused w -> runs (init_stack a n) w = true -> reachable (run (init_stack a n) w).
Proof. intros H [l E]%runs_spec. by eapply reach_init. Qed.
(** A clock is started, the link of a port comes up, and a frame is received
    and queued. *)
Lemma asked_reachable : reachable asked_world.
Proof.
  apply reach_run; [|by vm_compute | intros u w' E; by eapply ev_input, in_rx].
  apply reach_run; [|by vm_compute | intros u w' E; by eapply ev_input, in_link].
  apply reach_run; [|by vm_compute | intros u w' E; by eapply ev_input, in_start].
  unfold booted. apply reach_start; [apply world0_unused | by vm_compute].
Qed.

(** The timers of that port for peer delay requests and Announce expire: two
    works wait. *)
Definition timed_world : world :=
  run (fire_timer (T_ann (Hw 0)) port_ann_timeout_func)
    (run (fire_timer (T_delay (Hw 0)) port_pdelay_req_func) asked_world).
Lemma timed_reachable : reachable timed_world.
Proof.
  apply reach_run; [|by vm_compute|
    intros u w' E; eapply ev_input, in_timer; [|exact E]; by vm_compute].
  apply reach_run; [apply asked_reachable|by vm_compute|
    intros u w' E; eapply ev_input, in_timer; [|exact E]; by vm_compute].
Qed.

End example.

(** ** Handlers that only read: the loops over ports and clocks *)

Lemma all_faulty_reads c l : Reads (all_faulty_from c l).
Proof. induction l; simpl; reads. Qed.
Lemma fastest_reads c l i : Reads (fastest_from c l i).
Proof. revert i. induction l as [|n l IH]; intros i; simpl; reads. Qed.
Lemma any_slave_reads c l : Reads (any_slave c l).
Proof. induction l as [|n l IH]; simpl; reads. Qed.
Lemma with_ports_reads l : Reads (with_ports l).
Proof. induction l as [|c l IH]; simpl; reads. Qed.
Lemma hw_domains_reads l d : Reads (hw_domains l d).
Proof. revert d. induction l as [|c l IH]; intros d; simpl; reads. Qed.
#[export] Hint Resolve all_faulty_reads fastest_reads any_slave_reads with_ports_reads
  hw_domains_reads : keeps.
Lemma run_func_reads f c q : Reads (run_func f c q).
Proof. destruct f; reads. Qed.
Lemma port_event_reads p e : Reads (port_event p e).
Proof. reads. Qed.
Lemma host_event_reads p e : Reads (host_event p e).
Proof. reads. Qed.
#[export] Hint Resolve run_func_reads port_event_reads host_event_reads : keeps.
