(* ===== verification/ManageProofs.v ===== *)
(** * Management requests are answered, and change nothing

    Each TLV is answered by every port it is for, or by one message; a whole
    Management message leaves everything but the messages as it was. *)

From stdpp Require Import base list numbers option gmap.
From Stdlib Require Import ZArith Lia.
From S2P Require Import Prelude Types Wire Tlv World Keeps Msgs PortFsm ClockOps Tx Rx Manage Boot Reach.

(** ** What a request leaves as it is *)

(** Only messages and the output differ. *)
Record ReadOnly (w w' : world) : Prop := mk_read_only {
  ro_clocks : w_clocks w' = w_clocks w;
  ro_hw : w_hw w' = w_hw w;
  ro_timers : w_timers w' = w_timers w;
  ro_works : w_works w' = w_works w;
  ro_sched : w_sched w' = w_sched w;
  ro_mq : w_mq w' = w_mq w;
  ro_cfg : w_cfg w' = w_cfg w;
  ro_glob : w_glob w' = w_glob w }.
#[export] Instance read_only_preorder : PreOrder ReadOnly.
Proof. split; [by intros w; constructor|]. intros ??? [] []. constructor; congruence. Qed.

Definition is_send (o : output) : Prop := match o with O_send _ _ _ _ _ _ _ _ _ => True | _ => False end.
(** Between [lo] and [hi] frames were sent, and nothing else was done to the
    environment. *)
Definition Answers (lo hi : nat) (w w' : world) : Prop :=
  ReadOnly w w' /\
  exists l, w_out w' = w_out w ++ l /\ Forall is_send l /\ (lo <= length l <= hi)%nat.
Abbreviation Quiet := (Answers 0 0).

Lemma answers_trans a b c d w w1 w' :
  Answers a b w w1 -> Answers c d w1 w' -> Answers (a + c) (b + d) w w'.
Proof.
  intros [R1 (l1 & E1 & F1 & L1)] [R2 (l2 & E2 & F2 & L2)]. split; [by etrans|].
  exists (l1 ++ l2). rewrite E2, E1, <- app_assoc, length_app. split; [done|].
  split; [by apply Forall_app | lia].
Qed.
Lemma answers_weaken a b c d w w' :
  (c <= a)%nat -> (b <= d)%nat -> Answers a b w w' -> Answers c d w w'.
Proof. intros ?? [R (l & E & F & L)]. split; [done|]. exists l. split_and!; [done|done|lia..]. Qed.
#[export] Instance quiet_preorder : PreOrder Quiet.
Proof.
  split; [|intros ???; apply answers_trans].
  intros w. split; [done|]. exists []. by rewrite app_nil_r.
Qed.
#[export] Instance absorbs_quiet a b : Absorbs Quiet (Answers a b).
Proof. intros x y z. apply (answers_trans 0 0). Qed.

Lemma quiet_mod_msg m f : Keeps Quiet (mod_msg m f).
Proof.
  intros w a w'. unfold mod_msg, get_msg, mbind, M_bind. destruct (w_heap w !! m); [|done].
  intros [= <- <-]. split; [done|]. exists []. by rewrite app_nil_r.
Qed.
Lemma emit_send b udp i pm q vid s n d : Keeps (Answers 1 1) (emit (O_send b udp i pm q vid s n d)).
Proof.
  intros w a w' [= <- <-]. split; [done|]. eexists. split; [done|]. split; [|done].
  by constructor.
Qed.
#[local] Hint Resolve quiet_mod_msg emit_send : keeps.

Section manage.
Context {env : Env}.

Lemma tx_now_answers p m b s n d : Keeps (Answers 1 1) (tx_now p m b s n d).
Proof. keeps (Answers 0 0). Qed.
#[local] Hint Resolve tx_now_answers : keeps.
Lemma send_answers p m e t l : Keeps (Answers 1 1) (manage_send p m e t l).
Proof. keeps (Answers 0 0). Qed.
Lemma head_quiet p m a i : Keeps Quiet (manage_head p m a i).
Proof. keeps (Answers 0 0). Qed.
#[local] Hint Resolve send_answers head_quiet run_func_reads : keeps.
Lemma error_answers p m a i e : Keeps (Answers 1 1) (port_tx_manage_error p m a i e).
Proof. keeps (Answers 0 0). Qed.
Lemma manage_answers p m a i f : Keeps (Answers 1 1) (port_tx_manage p m a i f).
Proof. keeps (Answers 0 0). Qed.
#[local] Hint Resolve error_answers manage_answers : keeps.

(** ** Which ports answer *)

Definition port_of (w : world) (q : pref) : option port :=
  match q with Host c => c_host <$> w_clocks w !! c | Hw i => w_hw w !! i end.
(** The [i]-th port of the clock is asked by a request for port [target]. *)
Definition asked (w : world) (k : clock) (target : Z) (i : nat) : bool :=
  match c_ports k !! i with
  | Some (Some q) =>
      match port_of w q with
      | Some x => (p_num x P.id =? target) || (target =? 65535)
      | None => false
      end
  | _ => false
  end.
Definition asked_ports (w : world) (k : clock) (target : Z) (i n : nat) : nat :=
  length (List.filter (asked w k target) (seq i n)).

Lemma get_port_spec q w : get_port q w = (fun x => (x, w)) <$> port_of w q.
Proof. destruct q as [c|i]; simpl; by destruct (_ !! _). Qed.
Lemma asked_read_only w w' k t i : ReadOnly w w' -> asked w' k t i = asked w k t i.
Proof.
  intros []. unfold asked, port_of. destruct (c_ports k !! i) as [[[]|]|]; try done.
  - by rewrite ro_clocks0.
  - by rewrite ro_hw0.
Qed.
Lemma asked_ports_read_only w w' k t i n :
  ReadOnly w w' -> asked_ports w' k t i n = asked_ports w k t i n.
Proof.
  intros H. unfold asked_ports. f_equal. apply filter_ext. intros j. by apply asked_read_only.
Qed.
Lemma port_at_spec c i w a w' k :
  w_clocks w !! c = Some k -> port_at (Some c) i w = Some (a, w') ->
  w' = w /\ c_ports k !! i = Some a.
Proof.
  intros Ek. unfold port_at, lift, get_clock, mbind, M_bind. rewrite Ek.
  destruct (c_ports k !! i); [|done]. by intros [= <- <-].
Qed.

Lemma answer_ports_count p m resp id f c k target n i q proc w r w' :
  w_clocks w !! c = Some k -> c_ports k !! i = Some q ->
  answer_ports p m resp id f (Some c) target n i q proc w = Some (r, w') ->
  let l := asked_ports w k target i n in
  r = proc + Z.of_nat l /\ Answers l l w w'.
Proof.
  revert i q proc w. induction n as [|n IH]; intros i q proc w Ek Eq.
  { intros [= <- <-]. split; [unfold asked_ports; simpl; lia|]. unfold asked_ports. simpl. reflexivity. }
  simpl answer_ports. intros (q' & w0 & Eq' & E)%bind_inv.
  destruct q as [q|]; [|done]. injection Eq' as <- <-.
  apply bind_inv in E as (own & w0 & E0 & E).
  assert (H0 : exists x, port_of w q = Some x /\ own = p_num x P.id /\ w0 = w).
  { apply bind_inv in E0 as (x & w1 & E1 & [= <- <-]). rewrite get_port_spec in E1.
    destruct (port_of w q) as [y|]; simplify_eq/=. by exists x. }
  destruct H0 as (x & Ex & -> & ->). set (b := _ || _) in E.
  apply bind_inv in E as (u & w1 & E1 & E). apply bind_inv in E as (nx & w2 & E2 & E).
  assert (A1 : Answers (if b then 1 else 0) (if b then 1 else 0) w w1).
  { destruct b; [by eapply manage_answers in E1 | by injection E1 as <- <-]. }
  assert (Ek1 : w_clocks w1 !! c = Some k) by (destruct A1 as [[] _]; congruence).
  destruct (port_at_spec _ _ _ _ _ _ Ek1 E2) as [-> En].
  destruct (IH _ _ _ _ Ek1 En E) as [Hr HA]. pose proof (proj1 A1) as RO1.
  rewrite (asked_ports_read_only w w1) in Hr, HA by done.
  assert (El : asked_ports w k target i (S n) =
               ((if b then 1 else 0) + asked_ports w k target (S i) n)%nat).
  { unfold asked_ports. simpl. unfold asked at 1. rewrite Eq, Ex. fold b. by destruct b. }
  rewrite El. split; [destruct b; lia | by eapply answers_trans].
Qed.

(** ** A request *)

(** The number of answers to a request with an action about an identifier. *)
Definition expected (w : world) (k : clock) (action id target : Z) : nat :=
  match (clock_func action id).1.2, (port_func action id).1 with
  | None, Some _ => Nat.max 1 (asked_ports w k target 1 (Nat.max 1 (Z.to_nat (c_num k C.cnt))))
  | _, _ => 1%nat
  end.

Lemma port_func_get action id f n : port_func action id = (Some f, n) -> action = MANAGEMENT_GET.
Proof.
  unfold port_func, get_only. destruct (Z.eqb_spec action MANAGEMENT_GET); [done|].
  repeat case_match; congruence.
Qed.

Lemma find_func_spec p m c k action id target x w r w' :
  w_clocks w !! c = Some k -> w_heap w !! m = Some x ->
  rd (m_msg x) MAN_target_port 2 = Some target ->
  find_func p m (Some c) action id w = Some (r, w') ->
  w' = w /\
  match (clock_func action id).1.2 with
  | Some f => exists size no_id, r = (size, Some f, 1, Some p, 65535, no_id)
  | None => exists size no_id q, c_ports k !! 1%nat = Some q /\
      r = (size, (port_func action id).1, c_num k C.cnt, q, target, no_id)
  end.
Proof.
  intros Ek Ex Et. unfold find_func. destruct (clock_func action id) as [[size [f|]] no_id].
  - intros [= <- <-]. split; [done|]. by exists size, no_id.
  - intros (c' & w1 & [= <- <-] & E)%bind_inv.
    apply bind_inv in E as (k' & w2 & [-> Ek']%get_clock_inv & E).
    assert (k' = k) as -> by congruence.
    apply bind_inv in E as (q & w2 & [-> Eq]%(port_at_spec _ _ _ _ _ _ Ek) & E).
    apply bind_inv in E as (t & w2 & [-> Et']%(mrd_inv _ _ _ _ _ _ Ex) & E).
    assert (t = target) as -> by congruence.
    destruct (port_func action id) as [func no_id']. injection E as <- <-.
    split; [done|]. by exists size, (no_id + no_id'), q.
Qed.

(** A request for information of the clock is answered once. *)
Lemma answer_once p m resp id f c w r w' :
  answer_ports p m resp id f (Some c) 65535 1 1 (Some p) 0 w = Some (r, w') ->
  r = 1 /\ Answers 1 1 w w'.
Proof.
  simpl answer_ports. intros (q & w0 & [= <- <-] & E)%bind_inv.
  apply bind_inv in E as (own & w0 & ->%reads_inv & E); [|apply reads_pv].
  rewrite orb_true_r in E. apply bind_inv in E as (u & w1 & E1 & E).
  apply bind_inv in E as (nx & w2 & ->%reads_inv & E); [|unfold port_at; reads].
  injection E as <- <-. split; [done|]. by eapply manage_answers in E1.
Qed.

Ltac answered E :=
  match type of E with
  | ?h ?w = _ =>
      let K := fresh in assert (K : Keeps (Answers 1 1) h) by keeps (Answers 0 0);
      exact (K _ _ _ E)
  end.

(** C23: Every management TLV is answered: a request for information of a port by
    each port of the clock it is for, or by one error when there is none; every
    other request by one message, an error when it is not supported or too short.
    Nothing is changed but messages. *)
Theorem management_answers p m c k action resp tlv w u w' x id target :
  w_clocks w !! c = Some k ->
  w_heap w !! m = Some x -> rd (m_msg x) MAN_id 2 = Some id ->
  rd (m_msg x) MAN_target_port 2 = Some target ->
  manage_tlv p m (Some c) action resp tlv w = Some (u, w') ->
  let n := expected w k action id target in Answers n n w w'.
Proof.
  intros Ek Ex Eid Et. unfold manage_tlv.
  intros (id' & w1 & [-> Eid']%(mrd_inv _ _ _ _ _ _ Ex) & E)%bind_inv.
  assert (id' = id) as -> by congruence.
  apply bind_inv in E as (r & w1 & [-> Hr]%(find_func_spec _ _ _ _ _ _ _ _ _ _ _ Ek Ex Et) & E).
  unfold expected. destruct (clock_func action id) as [[sz [f|]] no] eqn:Ec; simpl in Hr |- *.
  - destruct Hr as (size & no_id & ->). apply bind_inv in E as (len & w1 & ->%reads_inv & E);
      [|apply reads_mrd].
    destruct (_ && _); [by eapply error_answers in E|].
    destruct (action =? MANAGEMENT_GET).
    + apply bind_inv in E as (pr & w1 & [-> A]%answer_once & E). by injection E as <- <-.
    + by answered E.
  - destruct Hr as (size & no_id & q & Eq & ->).
    apply bind_inv in E as (len & w1 & ->%reads_inv & E); [|apply reads_mrd].
    destruct (port_func action id) as [[f|] no'] eqn:Ep; simpl in E |- *.
    + apply port_func_get in Ep as ->. simpl in E.
      apply bind_inv in E as (pr & w1 & E1 & E).
      destruct (answer_ports_count _ _ _ _ _ _ _ _ _ _ _ _ _ _ _ Ek Eq E1) as [-> A].
      set (l := asked_ports _ _ _ _ _) in *. destruct l as [|l].
      * apply error_answers in E. by apply (answers_trans _ _ _ _ _ _ _ A E).
      * by injection E as <- <-.
    + destruct (_ && _); by answered E.
Qed.
(** ** A whole message *)

(** Nothing but frames and messages. *)
Definition Talks (w w' : world) : Prop := exists n, Answers 0 n w w'.
#[local] Instance talks_preorder : PreOrder Talks.
Proof.
  split; [intros w; exists 0%nat; reflexivity|]. intros x y z [a A] [b B].
  exists (a + b)%nat. by eapply (answers_trans 0 a 0 b).
Qed.
#[local] Instance talks_answers a b : Covers (Answers a b) Talks.
Proof. intros w w' A. exists b. eapply answers_weaken; [..|exact A]; lia. Qed.

Lemma error_talks p m a i e : Keeps Talks (port_tx_manage_error p m a i e).
Proof. apply (keeps_cover (R:=Answers 1 1) Talks), error_answers. Qed.
Lemma manage_talks p m a i f : Keeps Talks (port_tx_manage p m a i f).
Proof. apply (keeps_cover (R:=Answers 1 1) Talks), manage_answers. Qed.
Lemma mod_msg_talks m f : Keeps Talks (mod_msg m f).
Proof. apply (keeps_cover (R:=Answers 0 0) Talks), quiet_mod_msg. Qed.
#[local] Hint Resolve error_talks manage_talks mod_msg_talks : keeps.
Lemma answer_ports_talks p m r id f c t n i q pr :
  Keeps Talks (answer_ports p m r id f c t n i q pr).
Proof. revert i q pr. induction n as [|n IH]; intros i q pr; simpl; keeps Talks. Qed.
#[local] Hint Resolve answer_ports_talks : keeps.
Lemma manage_loop_talks n p m c a r d l : Keeps Talks (manage_loop n p m c a r d l).
Proof. revert d l. induction n as [|n IH]; intros d l; simpl; keeps Talks. Qed.
#[local] Hint Resolve manage_loop_talks : keeps.

(** C24: A management message, also one that asks to set a value, changes no
    clock, no port, no timer and no setting: all it does is send frames. *)
Theorem management_read_only p m w u w' :
  proc_management p m w = Some (u, w') ->
  ReadOnly w w' /\ exists l, w_out w' = w_out w ++ l /\ Forall is_send l.
Proof.
  assert (K : Keeps Talks (proc_management p m)) by keeps Talks.
  intros [n [RO (l & E & F & _)]]%K. split; [done|]. by exists l.
Qed.

End manage.

(** ** Witnesses *)

(** The request for all ports of a clock with five ports: five answers. *)
Lemma management_answers_witness :
  let k := default clock0 (w_clocks asked_world !! 0%nat) in
  let f := manage_tlv (Hw 0) 9%nat (Some 0%nat) MANAGEMENT_GET
             MANAGEMENT_RESPONSE MAN_tlv in
  expected asked_world k MANAGEMENT_GET M_PORT_DATA_SET 65535 = 5%nat /\
  Answers 5 5 asked_world (run f asked_world).
Proof.
  intros k f. split; [by vm_compute|].
  destruct (runs_spec f asked_world) as [u E]; [by vm_compute|].
  pose (x := default (mk_message 0 None utime0 save0 [] []) (w_heap asked_world !! 9%nat)).
  assert (Ek : w_clocks asked_world !! 0%nat = Some k) by by vm_compute.
  assert (Ex : w_heap asked_world !! 9%nat = Some x) by by vm_compute.
  assert (Ei : rd (m_msg x) MAN_id 2 = Some M_PORT_DATA_SET) by by vm_compute.
  assert (Et : rd (m_msg x) MAN_target_port 2 = Some 65535) by by vm_compute.
  exact (management_answers (Hw 0) 9 0 k MANAGEMENT_GET MANAGEMENT_RESPONSE MAN_tlv
           asked_world u _ x M_PORT_DATA_SET 65535 Ek Ex Ei Et E).
Defined.
Lemma management_read_only_witness :
  let f := proc_management (Hw 0) 9%nat in
  length (w_out (run f asked_world)) = (5 + length (w_out asked_world))%nat /\
  ReadOnly asked_world (run f asked_world).
Proof.
  intros f. split; [by vm_compute|].
  destruct (runs_spec f asked_world) as [u E]; [by vm_compute|].
  exact (proj1 (management_read_only (Hw 0) 9 asked_world u _ E)).
Defined.
