(* ===== verification/Plain.v ===== *)
(** * Handlers that leave the messages where they are

    [Plain R]: the primitives that change no reference count, no queue and no
    message pointer keep [R].  Every handler made of them alone keeps [R] too,
    whatever [R] is: it is proved once here, and used for the ownership of the
    messages and for the invariants of the state. *)

From stdpp Require Import base list numbers option gmap.
From Stdlib Require Import ZArith Lia.
From S2P Require Import Prelude Types Wire World Keeps Msgs Reach Timers Config PortFsm.
From S2P Require Import ClockOps Sync Tx Port Decision Rx Manage ClockWork Setup Stack.

(** ** The changes of a port and of a clock *)

(** An integer field has its value converted to its type, or the old one. *)
Definition PortUpd (f : port -> port) : Prop :=
  forall q x, p_num (f q) x = p_num q x \/ exists v, p_num (f q) x = conv (P.ty x) v.
Definition ClockUpd (f : clock -> clock) : Prop :=
  forall k, c_msg (f k) = c_msg k /\ c_host (f k) = c_host k /\
    forall x, c_num (f k) x = c_num k x \/ exists v, c_num (f k) x = conv (C.ty x) v.
(** The state the handlers share, without the timers, the settings, the time
    and the output. *)
Definition same_core (w w' : world) : Prop :=
  (w_clocks w', w_hw w', w_works w', w_sched w', w_glob w') =
  (w_clocks w, w_hw w, w_works w, w_sched w, w_glob w) /\
  (w_heap w', w_mq w', w_tx_msg w', w_step w') = (w_heap w, w_mq w, w_tx_msg w, w_step w).

Class Plain (R : relation world) : Prop := {
  plain_pre : PreOrder R;
  plain_port p f : PortUpd f -> Keeps R (mod_port p f);
  plain_clock c f : ClockUpd f -> Keeps R (mod_clock c f);
  plain_msg m f : (forall x, m_refcnt (f x) = m_refcnt x) -> Keeps R (mod_msg m f);
  plain_modify f : (forall w, same_core w (f w)) -> Keeps R (modify f);
  plain_step : Keeps R next_step;
  plain_gset g v : Keeps R (gset g v);
  plain_init_work i f : Keeps R (init_work i f);
  plain_add_work i : Keeps R (add_work i);
  plain_delayed i n : Keeps R (schedule_delayed_work i n) }.

(** ** Which changes there are *)

Lemma port_upd_num a v : PortUpd (set_num a v).
Proof.
  intros q x. simpl. unfold upd. case_decide as E; [right; exists v; by rewrite E | by left].
Qed.
Lemma port_upd_comp f g : PortUpd f -> PortUpd g -> PortUpd (fun q => f (g q)).
Proof.
  intros Hf Hg q x. destruct (Hf (g q) x) as [->|?]; [|by right]. apply Hg.
Qed.
Lemma clock_upd_num a v : ClockUpd (set_cnum a v).
Proof.
  intros k. split; [done|]. split; [done|]. intros x. simpl. unfold upd.
  case_decide as E; [right; exists v; by rewrite E | by left].
Qed.
Lemma port_upd_mode b g s : PortUpd (port_mode b g s).
Proof.
  unfold port_mode. cbv zeta. destruct (g >? 0); [destruct (g >? 1)|].
  - intros q. match goal with |- context [if ?c then _ else _] => destruct c end; revert q;
      repeat first [apply port_upd_num | apply port_upd_comp; [apply port_upd_num|]].
  - repeat first [apply port_upd_num | apply port_upd_comp; [apply port_upd_num|]].
  - repeat first [apply port_upd_num | apply port_upd_comp; [apply port_upd_num|]].
Qed.
Lemma port_upd_remember src : PortUpd (remember_peer src).
Proof.
  intros q x. unfold remember_peer. repeat case_match; first [by left | apply port_upd_num].
Qed.

#[export] Hint Resolve plain_port plain_clock plain_msg plain_modify plain_step plain_gset
  plain_init_work plain_add_work plain_delayed port_upd_num clock_upd_num port_upd_mode
  port_upd_remember : keeps.
#[export] Hint Extern 0 (Plain _) => typeclasses eauto : keeps.
(** Changes of other fields. *)
#[export] Hint Extern 2 (PortUpd _) => intros ??; left; repeat case_match; reflexivity : keeps.
#[export] Hint Extern 2 (ClockUpd _) =>
  intros ?; try case_match; (split; [|split; [|intros ?; left]]); reflexivity : keeps.
#[export] Hint Extern 2 (forall _, same_core _ _) => intros ?; split; reflexivity : keeps.

Section plain.
Context {env : Env}.
Context (R : relation world) `{HR : !Plain R}.
#[local] Existing Instance plain_pre.
#[local] Ltac plain := keeps R.

(** ** Timers and works *)

Lemma exit_timer_keeps i : Keeps R (ksz_exit_timer i).
Proof. plain. Qed.
Lemma init_timer_keeps i n f b : Keeps R (ksz_init_timer i n f b).
Proof. plain. Qed.
Lemma stop_timer_keeps i : Keeps R (ksz_stop_timer i).
Proof. plain. Qed.
Lemma start_with_keeps i n : Keeps R (start_with i n).
Proof. plain. Qed.
#[local] Hint Resolve exit_timer_keeps init_timer_keeps stop_timer_keeps start_with_keeps :
  keeps.

(** ** Ports and clocks *)

Lemma check_capable_keeps p : Keeps R (port_check_capable p).
Proof. plain. Qed.
Lemma enable_port_keeps c p b : Keeps R (clock_enable_port c p b).
Proof. plain. Qed.
Lemma start_sync_timer_keeps c : Keeps R (clock_start_sync_timer c).
Proof. plain. Qed.
Lemma stop_sync_timer_keeps c : Keeps R (clock_stop_sync_timer c).
Proof. plain. Qed.
Lemma change_sync_timer_keeps c i : Keeps R (clock_change_sync_timer c i).
Proof. plain. Qed.
Lemma start_signaling_keeps c b : Keeps R (clock_start_signaling_timer c b).
Proof. plain. Qed.
Lemma stop_signaling_keeps c : Keeps R (clock_stop_signaling_timer c).
Proof. plain. Qed.
Lemma set_sync_interval_keeps c : Keeps R (clock_set_sync_interval c).
Proof. plain. Qed.
Lemma mod_filter_keeps p f : Keeps R (mod_filter p f).
Proof. plain. Qed.
#[local] Hint Resolve check_capable_keeps enable_port_keeps start_sync_timer_keeps
  stop_sync_timer_keeps change_sync_timer_keeps start_signaling_keeps stop_signaling_keeps
  set_sync_interval_keeps mod_filter_keeps : keeps.

Lemma set_sync_timeout_keeps c : Keeps R (clock_set_sync_timeout c).
Proof. plain. Qed.
Lemma clock_adj_freq_keeps c o f : Keeps R (clock_adj_freq c o f).
Proof. plain. Qed.
Lemma clock_peer_delay_keeps c i : Keeps R (clock_peer_delay c i).
Proof. plain. Qed.
Lemma clock_path_delay_keeps c t r : Keeps R (clock_path_delay c t r).
Proof. plain. Qed.
#[local] Hint Resolve set_sync_timeout_keeps clock_adj_freq_keeps clock_peer_delay_keeps
  clock_path_delay_keeps : keeps.

Lemma clock_sync_keeps c t r : Keeps R (clock_sync c t r).
Proof. plain. Qed.
Lemma port_peer_delay_keeps p e i r x t y : Keeps R (port_peer_delay p e i r x t y).
Proof. plain. Qed.
#[local] Hint Resolve clock_sync_keeps port_peer_delay_keeps : keeps.

(** ** Messages in the transmit buffer *)

Lemma tx_now_keeps p m b x y d : Keeps R (tx_now p m b x y d).
Proof. plain. Qed.
Lemma new_msg_keeps c t m : Keeps R (new_msg c t m).
Proof. plain. Qed.
Lemma get_msg_keeps c m o : Keeps R (clock_get_msg c m o).
Proof. plain. Qed.
Lemma count_sync_keeps p : Keeps R (count_sync p).
Proof. plain. Qed.
#[local] Hint Resolve tx_now_keeps new_msg_keeps get_msg_keeps count_sync_keeps : keeps.

Lemma tx_delay_resp_keeps p m : Keeps R (port_tx_delay_resp p m).
Proof. plain. Qed.
Lemma tx_pdelay_resp_keeps p m : Keeps R (port_tx_pdelay_resp p m).
Proof. plain. Qed.
Lemma tx_signal_keeps p i m : Keeps R (port_tx_signal p i m).
Proof. plain. Qed.
#[local] Hint Resolve tx_delay_resp_keeps tx_pdelay_resp_keeps tx_signal_keeps : keeps.

Lemma tx_interval_keeps p a b d : Keeps R (port_tx_signal_interval p a b d None).
Proof. plain. Qed.
Lemma fwd_sync_keeps p m : Keeps R (port_fwd_sync p m).
Proof. plain. Qed.
Lemma fwd_announce_keeps p m : Keeps R (port_fwd_announce p m).
Proof. plain. Qed.
Lemma fwd_fup_keeps p : Keeps R (ptp_fwd_fup p).
Proof. plain. Qed.
Lemma setup_interval_keeps c : Keeps R (ptp_setup_sync_interval c).
Proof. plain. Qed.
#[local] Hint Resolve tx_interval_keeps fwd_sync_keeps fwd_announce_keeps fwd_fup_keeps
  setup_interval_keeps : keeps.

Lemma slave_interval_keeps c i b : Keeps R (ptp_change_slave_interval c i b).
Proof. plain. Qed.
Lemma master_interval_keeps p i : Keeps R (ptp_change_master_interval p i).
Proof. plain. Qed.
#[local] Hint Resolve slave_interval_keeps master_interval_keeps : keeps.

(** ** States of the ports *)

Lemma start_p2p_keeps p : Keeps R (port_start_p2p p).
Proof. plain. Qed.
Lemma stop_p2p_keeps p : Keeps R (port_stop_p2p p).
Proof. plain. Qed.
Lemma hw_master_keeps p v : Keeps R (set_hw_master p v).
Proof. plain. Qed.
Lemma announce_timeout_keeps p : Keeps R (port_set_announce_timeout p).
Proof. plain. Qed.
Lemma init_port_ds_keeps p : Keeps R (ptp_init_port_ds p).
Proof. plain. Qed.
#[local] Hint Resolve start_p2p_keeps stop_p2p_keeps hw_master_keeps announce_timeout_keeps
  init_port_ds_keeps : keeps.

Lemma to_master_keeps p : Keeps R (port_to_master p).
Proof. plain. Qed.
Lemma to_slave_keeps p : Keeps R (port_to_slave p).
Proof. plain. Qed.
Lemma leave_keeps p a b : Keeps R (port_leave p a b).
Proof. plain. Qed.
Lemma reset_keeps p c : Keeps R (port_reset p c).
Proof. plain. Qed.
#[local] Hint Resolve to_master_keeps to_slave_keeps leave_keeps reset_keeps : keeps.

Lemma to_sync_keeps set_state p : (forall q t, Keeps R (set_state q t)) -> Keeps R (port_to_sync set_state p).
Proof. plain. Qed.
#[local] Hint Resolve to_sync_keeps : keeps.

Lemma first_state_keeps set_state p c : (forall q t, Keeps R (set_state q t)) -> Keeps R (port_first_state set_state p c).
Proof. plain. Qed.
#[local] Hint Resolve first_state_keeps : keeps.

Lemma initialize_keeps set_state p : (forall q t, Keeps R (set_state q t)) -> Keeps R (port_initialize set_state p).
Proof. plain. Qed.
#[local] Hint Resolve initialize_keeps : keeps.

Lemma enter_keeps set_state p a b : (forall q t, Keeps R (set_state q t)) -> Keeps R (port_enter set_state p a b).
Proof. plain. Qed.
#[local] Hint Resolve enter_keeps : keeps.

Lemma change_state_keeps set_state p b : (forall q t, Keeps R (set_state q t)) -> Keeps R (port_change_state set_state p b).
Proof. plain. Qed.
#[local] Hint Resolve change_state_keeps : keeps.

Lemma set_state_keeps p s : Keeps R (port_set_state p s).
Proof.
  unfold port_set_state. generalize 2%nat as depth. intros depth. revert p s.
  induction depth as [|d IH]; intros p s; simpl; [apply keeps_ub | by apply change_state_keeps].
Qed.
#[local] Hint Resolve set_state_keeps : keeps.

Lemma on_event_keeps p e : Keeps R (port_on_event p e).
Proof. plain. Qed.
Lemma fault_timeout_keeps p f ms : Keeps R (port_set_fault_timeout p f ms).
Proof. plain. Qed.
#[local] Hint Resolve on_event_keeps fault_timeout_keeps : keeps.

(** ** The state decision *)

Lemma best_of_ports_keeps c l b : Keeps R (best_of_ports c l b).
Proof. revert b. induction l as [|n l IH]; intros b; simpl; plain. Qed.
Lemma decide_ports_keeps c l h : Keeps R (decide_ports c l h).
Proof. revert h. induction l as [|n l IH]; intros h; simpl; plain. Qed.
#[local] Hint Resolve best_of_ports_keeps decide_ports_keeps : keeps.

Lemma decision_keeps c : Keeps R (handle_state_decision c).
Proof. plain. Qed.
Lemma update_master_keeps p ds : Keeps R (update_current_master p ds).
Proof. plain. Qed.
Lemma foreign_keeps p ds : Keeps R (add_foreign_master p ds).
Proof. plain. Qed.
#[local] Hint Resolve decision_keeps update_master_keeps foreign_keeps : keeps.

(** ** Received messages *)

Lemma proc_announce_keeps p m : Keeps R (proc_announce p m).
Proof. plain. Qed.
Lemma sync_state_keeps p s : Keeps R (sync_state p s).
Proof. plain. Qed.
Lemma first_sync_keeps p : Keeps R (report_first_sync p).
Proof. plain. Qed.
Lemma rx_sync_keeps p : Keeps R (port_rx_sync p).
Proof. plain. Qed.
#[local] Hint Resolve proc_announce_keeps sync_state_keeps first_sync_keeps rx_sync_keeps :
  keeps.

Lemma port_sync_keeps p i o a b : Keeps R (port_sync p i o a b).
Proof. plain. Qed.
#[local] Hint Resolve port_sync_keeps : keeps.

Lemma sync_msg_interval_keeps p m : Keeps R (proc_sync_interval p m).
Proof. plain. Qed.
Lemma count_resp_keeps p a b n : Keeps R (count_responses p a b n).
Proof. plain. Qed.
Lemma peer_info_keeps p m : Keeps R (check_peer_info p m).
Proof. plain. Qed.
Lemma pdelay_response_keeps p : Keeps R (proc_pdelay_response p).
Proof. plain. Qed.
#[local] Hint Resolve sync_msg_interval_keeps count_resp_keeps peer_info_keeps
  pdelay_response_keeps : keeps.

Lemma proc_sync_keeps p m : Keeps R (proc_sync p m).
Proof. plain. Qed.
Lemma proc_fup_keeps p m : Keeps R (proc_fup p m).
Proof. plain. Qed.
Lemma proc_delay_req_keeps p m : Keeps R (proc_delay_req p m).
Proof. plain. Qed.
Lemma proc_delay_resp_keeps p m : Keeps R (proc_delay_resp p m).
Proof. plain. Qed.
Lemma proc_delayed_delay_req_keeps p m : Keeps R (proc_delayed_delay_req p m).
Proof. plain. Qed.
Lemma proc_pdelay_req_keeps p m : Keeps R (proc_pdelay_req p m).
Proof. plain. Qed.
Lemma proc_pdelay_resp_keeps p m : Keeps R (proc_pdelay_resp p m).
Proof. plain. Qed.
Lemma proc_pdelay_resp_fup_keeps p m : Keeps R (proc_pdelay_resp_fup p m).
Proof. plain. Qed.
Lemma proc_delayed_pdelay_req_keeps p m : Keeps R (proc_delayed_pdelay_req p m).
Proof. plain. Qed.
Lemma proc_delayed_pdelay_resp_keeps p m : Keeps R (proc_delayed_pdelay_resp p m).
Proof. plain. Qed.
Lemma signal_loop_keeps n p m d l : Keeps R (signal_loop n p m d l).
Proof. revert d l. induction n as [|n IH]; intros d l; simpl; plain. Qed.
#[local] Hint Resolve proc_sync_keeps proc_fup_keeps proc_delay_req_keeps
  proc_delay_resp_keeps proc_delayed_delay_req_keeps proc_pdelay_req_keeps
  proc_pdelay_resp_keeps proc_pdelay_resp_fup_keeps proc_delayed_pdelay_req_keeps
  proc_delayed_pdelay_resp_keeps signal_loop_keeps : keeps.

Lemma proc_signaling_keeps p m : Keeps R (proc_signaling p m).
Proof. plain. Qed.
#[local] Hint Resolve proc_signaling_keeps : keeps.

(** ** Management messages *)

Lemma manage_error_keeps p m a i e : Keeps R (port_tx_manage_error p m a i e).
Proof. plain. Qed.
Lemma tx_manage_keeps p m a i f : Keeps R (port_tx_manage p m a i f).
Proof. plain. Qed.
#[local] Hint Resolve manage_error_keeps tx_manage_keeps : keeps.

Lemma answer_ports_keeps p m r id f c t n i q pr : Keeps R (answer_ports p m r id f c t n i q pr).
Proof. revert i q pr. induction n as [|n IH]; intros i q pr; simpl; plain. Qed.
#[local] Hint Resolve answer_ports_keeps : keeps.

Lemma manage_tlv_keeps p m c a r t : Keeps R (manage_tlv p m c a r t).
Proof. plain. Qed.
#[local] Hint Resolve manage_tlv_keeps : keeps.

Lemma manage_loop_keeps n p m c a r d l : Keeps R (manage_loop n p m c a r d l).
Proof. revert d l. induction n as [|n IH]; intros d l; simpl; plain. Qed.
#[local] Hint Resolve manage_loop_keeps : keeps.

Lemma proc_management_keeps p m : Keeps R (proc_management p m).
Proof. plain. Qed.
#[local] Hint Resolve proc_management_keeps : keeps.

(** ** Works and timers *)

Lemma interval_work_keeps c : Keeps R (do_clock_interval_work c).
Proof. plain. Qed.
Lemma ethernet_work_keeps c : Keeps R (do_clock_ethernet_ready_work c).
Proof. plain. Qed.
Lemma ann_work_keeps p : Keeps R (do_port_ann_timeout_work p).
Proof. plain. Qed.
Lemma qual_work_keeps p : Keeps R (do_port_qual_timeout_work p).
Proof. plain. Qed.
Lemma fault_work_keeps p : Keeps R (do_port_fault_timeout_work p).
Proof. plain. Qed.
Lemma fire_timer_keeps i f : Keeps R (fire_timer i f).
Proof. plain. Qed.
#[local] Hint Resolve interval_work_keeps ethernet_work_keeps ann_work_keeps qual_work_keeps
  fault_work_keeps fire_timer_keeps : keeps.

(** ** Setup, start and stop *)

Lemma port_profile_keeps p a b d : Keeps R (init_ptp_port_profile p a b d).
Proof. plain. Qed.
Lemma exit_profile_keeps p : Keeps R (exit_ptp_port_profile p).
Proof. plain. Qed.
Lemma port_hw_keeps p i n : Keeps R (init_ptp_port_hw p i n).
Proof. plain. Qed.
#[local] Hint Resolve port_profile_keeps exit_profile_keeps port_hw_keeps : keeps.

Lemma hw_ports_keeps c ports l n : Keeps R (setup_hw_ports c ports l n).
Proof. revert n. induction l as [|i l IH]; intros n; simpl; plain. Qed.
#[local] Hint Resolve hw_ports_keeps : keeps.

Lemma setup_ports_keeps c p : Keeps R (setup_ptp_ports c p).
Proof. plain. Qed.
Lemma init_profile_keeps c : Keeps R (clock_init_profile c).
Proof. plain. Qed.
Lemma setup_profile_keeps c : Keeps R (setup_ptp_port_profile c).
Proof. plain. Qed.
#[local] Hint Resolve setup_ports_keeps init_profile_keeps setup_profile_keeps : keeps.

Lemma setup_clock_keeps c p : Keeps R (setup_ptp_clock c p).
Proof. plain. Qed.
#[local] Hint Resolve setup_clock_keeps : keeps.

Lemma create_keeps i d p v : Keeps R (create_ptp_clock i d p v).
Proof. plain. Qed.
Lemma init_clocks_keeps a : Keeps R (init_ptp_clocks a).
Proof. plain. Qed.
Lemma clock_start_keeps c : Keeps R (clock_start c).
Proof. plain. Qed.
Lemma clock_stop_keeps c : Keeps R (clock_stop c).
Proof. plain. Qed.
Lemma link_keeps p s : Keeps R (proc_link_status p s).
Proof. plain. Qed.
#[local] Hint Resolve create_keeps init_clocks_keeps clock_start_keeps clock_stop_keeps
  link_keeps : keeps.

Lemma create_clocks_keeps l p t : Keeps R (create_clocks l p t).
Proof. revert p t. induction l as [|j l IH]; intros p t; simpl; plain. Qed.
Lemma setup_hw_keeps l : Keeps R (setup_ptp_hw l).
Proof. plain. Qed.
#[local] Hint Resolve create_clocks_keeps setup_hw_keeps : keeps.

Lemma start_keeps l : Keeps R (ptp_stack_start_clock l).
Proof. plain. Qed.
#[local] Hint Resolve start_keeps : keeps.

End plain.

#[export] Hint Resolve exit_timer_keeps init_timer_keeps stop_timer_keeps start_with_keeps
  check_capable_keeps enable_port_keeps start_sync_timer_keeps stop_sync_timer_keeps
  change_sync_timer_keeps start_signaling_keeps stop_signaling_keeps set_sync_interval_keeps
  mod_filter_keeps set_sync_timeout_keeps clock_adj_freq_keeps clock_peer_delay_keeps
  clock_path_delay_keeps clock_sync_keeps port_peer_delay_keeps tx_now_keeps new_msg_keeps
  get_msg_keeps count_sync_keeps tx_delay_resp_keeps tx_pdelay_resp_keeps tx_signal_keeps
  tx_interval_keeps fwd_sync_keeps fwd_announce_keeps fwd_fup_keeps setup_interval_keeps
  slave_interval_keeps master_interval_keeps start_p2p_keeps stop_p2p_keeps hw_master_keeps
  announce_timeout_keeps init_port_ds_keeps to_master_keeps to_slave_keeps leave_keeps
  reset_keeps to_sync_keeps first_state_keeps initialize_keeps enter_keeps
  change_state_keeps set_state_keeps on_event_keeps fault_timeout_keeps best_of_ports_keeps
  decide_ports_keeps decision_keeps update_master_keeps foreign_keeps proc_announce_keeps
  sync_state_keeps first_sync_keeps rx_sync_keeps port_sync_keeps sync_msg_interval_keeps
  count_resp_keeps peer_info_keeps pdelay_response_keeps proc_sync_keeps proc_fup_keeps
  proc_delay_req_keeps proc_delay_resp_keeps proc_delayed_delay_req_keeps
  proc_pdelay_req_keeps proc_pdelay_resp_keeps proc_pdelay_resp_fup_keeps
  proc_delayed_pdelay_req_keeps proc_delayed_pdelay_resp_keeps signal_loop_keeps
  proc_signaling_keeps manage_error_keeps tx_manage_keeps answer_ports_keeps
  manage_tlv_keeps manage_loop_keeps proc_management_keeps interval_work_keeps
  ethernet_work_keeps ann_work_keeps qual_work_keeps fault_work_keeps fire_timer_keeps
  port_profile_keeps exit_profile_keeps port_hw_keeps hw_ports_keeps setup_ports_keeps
  init_profile_keeps setup_profile_keeps setup_clock_keeps create_keeps init_clocks_keeps
  clock_start_keeps clock_stop_keeps link_keeps create_clocks_keeps setup_hw_keeps
  start_keeps : keeps.
