(* ===== verification/Stable.v ===== *)
(** * What every event keeps

    [Stable R]: besides the handlers of [Plain], allocation, release and the
    message pointers keep [R], and the schedule task may take a work from its
    queue.  Then every handler and every event does, whatever [R] is: an
    invariant of the reachable states needs the primitives alone. *)

From stdpp Require Import base list numbers option gmap.
From Stdlib Require Import ZArith Lia.
From S2P Require Import Prelude Types Wire World Keeps Msgs Timers Config PortFsm.
From S2P Require Import ClockOps Sync Tx Port Decision Rx Manage ClockWork Setup Stack Boot Plain.
From S2P Require Import Reach.

(** Everything but the messages and the transmit buffer, as in [same_core]. *)
Definition same_state (w w' : world) : Prop :=
  (w_clocks w', w_hw w', w_works w', w_sched w', w_glob w', w_mq w') =
  (w_clocks w, w_hw w, w_works w, w_sched w, w_glob w, w_mq w).

Class Stable (R : relation world) : Prop := {
  stable_plain :: Plain R;
  stable_msg m f : Keeps R (mod_msg m f);
  stable_messages f : (forall w, same_state w (f w)) -> Keeps R (modify f);
  stable_send m : Keeps R (queue_send m);
  stable_slot c s o : Keeps R (set_cslot c s o);
  stable_unlink w k i f t : w_sched w !! k = Some i ->
    R w (set_w_works (upd (w_works w) i (mk_work f t false)) (set_w_sched (delete k (w_sched w)) w));
  stable_time w t : R w (set_w_now t w);
  stable_settings w c : R w (set_w_cfg c w) }.
(** The process task takes the first message. *)
Class Lasting (R : relation world) : Prop := {
  lasting_stable :: Stable R;
  lasting_receive w m q : w_mq w = m :: q -> R w (set_w_mq q w) }.

#[export] Hint Resolve stable_msg stable_messages stable_send stable_slot : keeps.
#[export] Hint Extern 0 (Stable _) => typeclasses eauto : keeps.
#[export] Hint Extern 2 (forall _, same_state _ _) => reflexivity : keeps.

Section stable.
Context {env : Env}.
Context (R : relation world) `{HR : !Stable R}.
#[local] Existing Instance plain_pre.
#[local] Ltac stable :=
  repeat first [progress keeps R | match goal with |- Keeps _ (match ?x with _ => _ end _) => destruct x end].

(** ** Messages *)

Lemma alloc_stable m n r : Keeps R (alloc_msg m n r).
Proof. stable. Qed.
Lemma free_stable m : Keeps R (free_msg m).
Proof. stable. Qed.
Lemma get_stable m : Keeps R (msg_get m).
Proof. stable. Qed.
#[local] Hint Resolve alloc_stable free_stable get_stable : keeps.

Lemma put_stable m : Keeps R (msg_put m).
Proof. stable. Qed.
#[local] Hint Resolve put_stable : keeps.

Lemma clear_stable c s : Keeps R (msg_clear c s).
Proof. stable. Qed.
Lemma save_stable c s m : Keeps R (msg_save c s m).
Proof. stable. Qed.
Lemma rx_save_stable m : Keeps R (ptp_save_rx_msg m).
Proof. stable. Qed.
Lemma tx_save_stable m a b c d e f g : Keeps R (ptp_save_tx_msg m a b c d e f g).
Proof. stable. Qed.
Lemma tx_init_stable : Keeps R (tx_msg_init).
Proof. stable. Qed.
#[local] Hint Resolve clear_stable save_stable rx_save_stable tx_save_stable tx_init_stable
  : keeps.

Lemma save_tx_stable p m b : Keeps R (save_tx p m b).
Proof. stable. Qed.
Lemma interval_stable p a b d o : Keeps R (port_tx_signal_interval p a b d o).
Proof. stable. Qed.
#[local] Hint Resolve save_tx_stable interval_stable : keeps.

Lemma tx_delay_req_stable p : Keeps R (port_tx_delay_req p).
Proof. stable. Qed.
Lemma tx_pdelay_req_stable p : Keeps R (port_tx_pdelay_req p).
Proof. stable. Qed.
Lemma tx_announce_stable p : Keeps R (port_tx_announce p).
Proof. stable. Qed.
Lemma tx_sync_stable p : Keeps R (port_tx_sync p).
Proof. stable. Qed.
Lemma tx_fup_stable p m : Keeps R (port_tx_fup p m).
Proof. stable. Qed.
#[local] Hint Resolve tx_delay_req_stable tx_pdelay_req_stable tx_announce_stable
  tx_sync_stable tx_fup_stable : keeps.

Lemma residence_stable c : Keeps R (ptp_check_residence c).
Proof. stable. Qed.
#[local] Hint Resolve residence_stable : keeps.

Lemma forward_stable p m : Keeps R (ptp_forward p m).
Proof. stable. Qed.
Lemma request_interval_stable p i : Keeps R (request_interval p i).
Proof. stable. Qed.
#[local] Hint Resolve forward_stable request_interval_stable : keeps.

Lemma set_interval_stable c : Keeps R (ptp_set_sync_interval c).
Proof. stable. Qed.
#[local] Hint Resolve set_interval_stable : keeps.

(** ** Received messages *)

Lemma handle_announce_stable p m : Keeps R (handle_announce p m).
Proof. stable. Qed.
Lemma gptp_sync_stable p c m : Keeps R (gptp_sync p c m).
Proof. stable. Qed.
#[local] Hint Resolve handle_announce_stable gptp_sync_stable : keeps.

Lemma handle_sync_stable p m : Keeps R (handle_sync p m).
Proof. stable. Qed.
Lemma handle_fup_stable p m : Keeps R (handle_fup p m).
Proof. stable. Qed.
Lemma handle_delayed_sync_stable p m : Keeps R (handle_delayed_sync p m).
Proof. stable. Qed.
Lemma handle_delay_req_stable p m : Keeps R (handle_delay_req p m).
Proof. stable. Qed.
Lemma handle_delay_resp_stable p m : Keeps R (handle_delay_resp p m).
Proof. stable. Qed.
Lemma handle_delayed_delay_req_stable p m : Keeps R (handle_delayed_delay_req p m).
Proof. stable. Qed.
Lemma handle_pdelay_req_stable p m : Keeps R (handle_pdelay_req p m).
Proof. stable. Qed.
Lemma handle_pdelay_resp_stable p m : Keeps R (handle_pdelay_resp p m).
Proof. stable. Qed.
Lemma handle_pdelay_resp_fup_stable p m : Keeps R (handle_pdelay_resp_fup p m).
Proof. stable. Qed.
Lemma handle_delayed_pdelay_req_stable p m : Keeps R (handle_delayed_pdelay_req p m).
Proof. stable. Qed.
Lemma handle_delayed_pdelay_resp_stable p m : Keeps R (handle_delayed_pdelay_resp p m).
Proof. stable. Qed.
Lemma handle_signaling_stable p m : Keeps R (handle_signaling p m).
Proof. stable. Qed.
Lemma handle_management_stable p m : Keeps R (handle_management p m).
Proof. stable. Qed.
Lemma proc_delayed_sync_stable p m : Keeps R (proc_delayed_sync p m).
Proof. stable. Qed.
#[local] Hint Resolve handle_sync_stable handle_fup_stable handle_delayed_sync_stable
  handle_delay_req_stable handle_delay_resp_stable handle_delayed_delay_req_stable
  handle_pdelay_req_stable handle_pdelay_resp_stable handle_pdelay_resp_fup_stable
  handle_delayed_pdelay_req_stable handle_delayed_pdelay_resp_stable handle_signaling_stable
  handle_management_stable proc_delayed_sync_stable : keeps.

Lemma handle_msg_stable t d p m : Keeps R (handle_msg handle_management t d p m).
Proof. unfold handle_msg. repeat case_match; stable. Qed.
Lemma proc_msg_stable t d p m : Keeps R (proc_msg proc_management t d p m).
Proof. unfold proc_msg. repeat case_match; stable. Qed.
#[local] Hint Resolve handle_msg_stable proc_msg_stable : keeps.

Lemma ptp_rx_stable p b rx d src : Keeps R (ptp_rx handle_management p b rx d src).
Proof. stable. Qed.
#[local] Hint Resolve ptp_rx_stable : keeps.

Lemma setup_rx_stable b p s n d src r v : Keeps R (ptp_setup_rx handle_management b p s n d src r v).
Proof. stable. Qed.
#[local] Hint Resolve setup_rx_stable : keeps.

Lemma tx_timestamp_stable b i t q d sp p s n : Keeps R (proc_tx_timestamp handle_management b i t q d sp p s n).
Proof. stable. Qed.
(** What follows the removal of the message. *)
Lemma process_rest m q w a w' :
  w_mq w = m :: q -> process_one proc_management w = Some (a, w') -> R (set_w_mq q w) w'.
Proof.
  intros Eq (q' & w1 & [= <- <-] & E)%bind_inv. rewrite Eq in E.
  apply bind_inv in E as (u & w1 & [= <- <-] & E). revert E.
  generalize (set_w_mq q w). clear -HR. intros w. revert a w'.
  match goal with |- forall a w', ?h w = _ -> _ => cut (Keeps R h);
    [intros K a w' E; exact (K _ _ _ E)|] end.
  apply (keeps_bind R R); [keeps R|]. intros x. cbv zeta. keeps R.
Qed.
#[local] Hint Resolve tx_timestamp_stable process_rest : keeps.

(** ** Works *)

Lemma clock_announce_stable c : Keeps R (clock_tx_announce c).
Proof. stable. Qed.
Lemma clock_tx_sync_stable c : Keeps R (clock_tx_sync c).
Proof. stable. Qed.
Lemma follow_up_stable c : Keeps R (make_follow_up c).
Proof. stable. Qed.
Lemma own_message_stable c t n : Keeps R (own_message c t n).
Proof. stable. Qed.
#[local] Hint Resolve clock_announce_stable clock_tx_sync_stable follow_up_stable
  own_message_stable : keeps.

Lemma sync_work_stable c : Keeps R (do_clock_sync_work c).
Proof. stable. Qed.
Lemma signaling_work_stable c : Keeps R (do_clock_signaling_work c).
Proof. stable. Qed.
Lemma sync_timeout_stable c : Keeps R (clock_sync_timeout c).
Proof. stable. Qed.
#[local] Hint Resolve sync_work_stable signaling_work_stable sync_timeout_stable : keeps.

Lemma fup_timeout_stable c : Keeps R (clock_fup_timeout c).
Proof. stable. Qed.
#[local] Hint Resolve fup_timeout_stable : keeps.

Lemma run_work_stable i f : Keeps R (run_work i f).
Proof. stable. Qed.
#[local] Hint Resolve run_work_stable : keeps.

Lemma scan_stable fuel k : Keeps R (schedule_scan run_work fuel k).
Proof.
  revert k. induction fuel as [|fuel IH]; intros k w a w'; simpl;
    intros (q & w1 & [= <- <-] & E)%bind_inv;
    (destruct (w_sched w !! k) as [i|] eqn:Ek; [|by injection E as <- <-]); [done|].
  apply bind_inv in E as (now & w1 & [= <- <-] & E).
  apply bind_inv in E as (x & w1 & [= <- <-] & E).
  destruct (work_waits _ _); [by eapply IH|].
  apply bind_inv in E as (u & w1 & [= <- <-] & E).
  apply bind_inv in E as (u & w1 & [= <- <-] & E).
  etrans; [by apply (stable_unlink w k i (wk_func (w_works w i)) (wk_ticks (w_works w i))) |].
  revert E. generalize (w_sched w) (w_works w). intros q f.
  match goal with |- ?h ?v = _ -> _ => cut (Keeps R h); [intros K; exact (K _ _ _)|] end.
  keeps R.
Qed.
#[local] Hint Resolve scan_stable : keeps.

(** ** Commands *)

Lemma delete_stable c : Keeps R (delete_ptp_clock c).
Proof. stable. Qed.
Lemma reset_clock_stable c : Keeps R (reset_ptp_clock c).
Proof. stable. Qed.
#[local] Hint Resolve delete_stable reset_clock_stable : keeps.

Lemma stop_clock_stable l : Keeps R (ptp_stack_stop_clock l).
Proof. stable. Qed.
Lemma init_stack_stable a n : Keeps R (init_stack a n).
Proof. stable. Qed.
#[local] Hint Resolve stop_clock_stable init_stack_stable : keeps.

Lemma input_stable w w' : input w w' -> R w w'.
Proof.
  intros [| | | | | | | |].
  - by eapply setup_rx_stable.
  - by eapply tx_timestamp_stable.
  - by eapply scan_stable.
  - by eapply fire_timer_keeps; [apply _|].
  - by eapply link_keeps; [apply _|].
  - by eapply start_keeps; [apply _|].
  - by eapply stop_clock_stable.
  - apply stable_time.
  - apply stable_settings.
Qed.
(** A round of the process task takes the first message, if there is one. *)
Lemma process_stable w u w' : process_one proc_management w = Some (u, w') ->
  w_mq w = [] /\ w' = w \/ exists m q, w_mq w = m :: q /\ R (set_w_mq q w) w'.
Proof.
  intros E. destruct (w_mq w) as [|m q] eqn:Eq; [left|right; eauto using process_rest].
  split; [done|]. apply bind_inv in E as (q & w2 & [= <- <-] & E). rewrite Eq in E.
  by injection E.
Qed.

End stable.

(** An invariant holds in the unused state and is kept by every event. *)
Lemma reachable_invariant {env : Env} (Inv : world -> Prop)
    `{!Lasting (Carries Inv)} :
  (forall w, Unused w -> Inv w) -> forall w, reachable w -> Inv w.
Proof.
  intros H0 w. induction 1 as [a n w l w' HU E | w w' _ IH Hev].
  - eapply (init_stack_stable (Carries Inv)), H0, HU. exact E.
  - destruct Hev as [w' Hin | u w' Hp]; [exact (input_stable (Carries Inv) _ _ Hin IH)|].
    destruct (process_stable (Carries Inv) _ _ _ Hp) as [[_ ->]|(m & q & E & H)]; [done|].
    apply H. exact (lasting_receive (R:=Carries Inv) _ _ _ E IH).
Qed.
