(* ===== verification/Owners.v ===== *)
(** * Who owns the messages

    Every message of the heap is counted: its reference count is the number of
    message pointers of the clocks, entries of the queue, and local references
    of the handler that runs.  This file states the invariant, the relation a
    handler keeps, and what allocation, [msg_get], [msg_put] and the pointers
    do to it. *)

From stdpp Require Import base list numbers option gmap.
From Stdlib Require Import ZArith Lia.
From S2P Require Import Prelude Types Wire World Keeps Msgs.

(** ** The invariant *)

(** The message pointers of a clock, and all owners of the stack. *)
Definition slots (k : clock) : list mref := S.all ≫= (fun s => option_list (c_msg k s)).
Definition owners (w : world) : list mref :=
  (w_clocks w ≫= slots) ++ w_mq w ++ option_list (w_tx_msg w).

Abbreviation cnt m l := (count_occ Nat.eq_dec l m).

(** The messages of the heap are those with an owner in [l], with as many
    references as owners. *)
Definition counted (h : gmap mref message) (l : list mref) : Prop :=
  forall m, match h !! m with
            | Some x => m_refcnt x = Z.of_nat (cnt m l) /\ (0 < cnt m l)%nat
            | None => cnt m l = 0%nat
            end.

(** [L]: the local references. *)
Record Own (L : list mref) (w : world) : Prop := mk_own {
  own_counted : counted (w_heap w) (owners w ++ L);
  own_mq : NoDup (w_mq w);
  own_local : NoDup L;
  own_clocks : (length (w_clocks w) <= 3)%nat;
  own_fresh : forall m, is_Some (w_heap w !! m) -> (m < w_step w)%nat }.

(** ** Counting *)

Lemma cnt_pos_in m l : (0 < cnt m l)%nat <-> m ∈ l.
Proof. rewrite list_elem_of_In. by rewrite (count_occ_In Nat.eq_dec). Qed.
Lemma cnt_nodup m l : NoDup l -> (cnt m l <= 1)%nat.
Proof. rewrite NoDup_ListNoDup, (NoDup_count_occ Nat.eq_dec). auto. Qed.
Lemma cnt_length m l : (cnt m l <= length l)%nat.
Proof. apply count_occ_bound. Qed.
Lemma cnt_cons m x l : cnt m (x :: l) = ((if decide (x = m) then 1 else 0) + cnt m l)%nat.
Proof. case_decide; subst; [by rewrite count_occ_cons_eq | by rewrite count_occ_cons_neq]. Qed.
Lemma cnt_option_list m (o : option mref) :
  cnt m (option_list o) = if decide (o = Some m) then 1%nat else 0%nat.
Proof.
  destruct o as [x|]; simpl; [|done]. destruct (Nat.eq_dec x m), (decide (Some x = Some m)); naive_solver.
Qed.

Lemma counted_perm h l l' : (forall m, cnt m l = cnt m l') -> counted h l -> counted h l'.
Proof. intros E H m. specialize (H m). by rewrite <- E. Qed.

Lemma counted_in h l m : counted h l -> m ∈ l -> is_Some (h !! m).
Proof.
  intros H Hin%cnt_pos_in. specialize (H m). destruct (h !! m); [by eexists | lia].
Qed.

(** The heap of a change that keeps the reference counts. *)
Lemma counted_same h h' l : m_refcnt <$> h = m_refcnt <$> h' -> counted h l -> counted h' l.
Proof.
  intros E H m. specialize (H m).
  assert (E' : m_refcnt <$> h !! m = m_refcnt <$> h' !! m) by (rewrite <- !lookup_fmap; by rewrite E).
  destruct (h !! m) as [x|], (h' !! m) as [y|]; simpl in E'; try done.
  injection E' as E'. by rewrite <- E'.
Qed.

Lemma slots_length k : (length (slots k) <= 6)%nat.
Proof.
  unfold slots. cbn. rewrite !length_app.
  assert (forall o : option mref, (length (option_list o) <= 1)%nat) as H
    by (intros [?|]; simpl; lia).
  pose proof (H (c_msg k S.last_ann)). pose proof (H (c_msg k S.last_sync)).
  pose proof (H (c_msg k S.last_fup)). pose proof (H (c_msg k S.last_rx_fup)).
  pose proof (H (c_msg k S.base_sync)). pose proof (H (c_msg k S.base_fup)).
  simpl. lia.
Qed.
Lemma all_slots_length ks : (length (ks ≫= slots) <= 6 * length ks)%nat.
Proof.
  induction ks as [|k ks IH]; [simpl; lia|].
  rewrite bind_cons, length_app. pose proof (slots_length k). simpl length. lia.
Qed.

(** Never more than 21 owners: the counter of 8 bits does not wrap. *)
Lemma own_bound L w m : Own L w -> (cnt m (owners w ++ L) <= 21)%nat.
Proof.
  intros H. unfold owners. rewrite !count_occ_app.
  pose proof (cnt_nodup m _ (own_mq _ _ H)). pose proof (cnt_nodup m _ (own_local _ _ H)).
  pose proof (cnt_length m (w_clocks w ≫= slots)). pose proof (all_slots_length (w_clocks w)).
  pose proof (own_clocks _ _ H). rewrite cnt_option_list. case_decide; lia.
Qed.

(** Changing one pointer of one clock. *)
Lemma slots_upd k s o m :
  (cnt m (slots (set_c_msg (upd (c_msg k) s o) k)) + cnt m (option_list (c_msg k s)) =
   cnt m (slots k) + cnt m (option_list o))%nat.
Proof.
  unfold slots, set_c_msg, upd. destruct s; cbn -[count_occ option_list app];
    rewrite ?app_nil_r, !count_occ_app; repeat case_decide; try congruence; lia.
Qed.
Lemma slots_insert ks c k k' m :
  ks !! c = Some k ->
  (cnt m (<[c := k']> ks ≫= slots) + cnt m (slots k) = cnt m (ks ≫= slots) + cnt m (slots k'))%nat.
Proof.
  revert c. induction ks as [|x ks IH]; intros [|c]; simpl; try done.
  - intros [= ->]. rewrite !count_occ_app. lia.
  - intros H. specialize (IH c H). rewrite !count_occ_app. unfold mbind in IH. lia.
Qed.

(** ** What handlers keep *)

(** Nothing about messages changed but their contents. *)
Record Same (w w' : world) : Prop := mk_same {
  same_step : (w_step w <= w_step w')%nat;
  same_heap : m_refcnt <$> w_heap w = m_refcnt <$> w_heap w';
  same_slots : c_msg <$> w_clocks w = c_msg <$> w_clocks w';
  same_mq : w_mq w = w_mq w';
  same_tx : w_tx_msg w = w_tx_msg w' }.
#[export] Instance same_preorder : PreOrder Same.
Proof.
  split; [by intros w; constructor|].
  intros ??? [] []. constructor; [lia|congruence..].
Qed.

(** The queue has no message that was there before but those of [old] and
    [extra]. *)
Definition queue_grows (extra : list mref) (w w' : world) : Prop :=
  forall m, (m < w_step w)%nat -> m ∈ w_mq w' -> m ∈ w_mq w \/ m ∈ extra.

(** The counts stay right, and nothing known before is queued. *)
Definition Kept (w w' : world) : Prop :=
  (w_step w <= w_step w')%nat /\
  forall L, Own L w -> Own L w' /\ queue_grows [] w w'.
(** The local reference to [m] is given up; [m] may be queued. *)
Definition Gives (m : mref) (w w' : world) : Prop :=
  (w_step w <= w_step w')%nat /\
  forall L, Own (m :: L) w -> m ∉ w_mq w -> Own L w' /\ queue_grows [m] w w'.
(** [m] may be queued, in a reference of its own. *)
Definition Queues (m : mref) (w w' : world) : Prop :=
  (w_step w <= w_step w')%nat /\
  forall L, Own L w -> (m < w_step w)%nat -> m ∉ w_mq w -> Own L w' /\ queue_grows [m] w w'.

#[export] Instance kept_preorder : PreOrder Kept.
Proof.
  split.
  - intros w. split; [lia|]. intros L H. split; [done|]. intros m _ Hm. by left.
  - intros a b c [Sab Hab] [Sbc Hbc]. split; [lia|]. intros L H.
    destruct (Hab L H) as [H1 Q1], (Hbc L H1) as [H2 Q2]. split; [done|].
    intros m Hm Hin. destruct (Q2 m) as [?|?]; [lia|done| |by right]. by apply Q1.
Qed.

#[export] Instance absorbs_gives m : Absorbs Kept (Gives m).
Proof.
  intros a b c [Sab Hab] [Sbc Hbc]. split; [lia|]. intros L H Hm.
  destruct (Hab _ H) as [H1 Q1].
  assert (m < w_step a)%nat.
  { eapply own_fresh, counted_in; [done | by eapply own_counted | set_solver]. }
  destruct (Hbc L H1) as [H2 Q2].
  { intros Hin. destruct (Q1 m); [done..|]. set_solver. }
  split; [done|]. intros x Hx Hin. destruct (Q2 x) as [?|?]; [lia|done| |by right].
  destruct (Q1 x); [done..| |set_solver]. by left.
Qed.
#[export] Instance absorbs_queues m : Absorbs Kept (Queues m).
Proof.
  intros a b c [Sab Hab] [Sbc Hbc]. split; [lia|]. intros L H Hs Hm.
  destruct (Hab _ H) as [H1 Q1]. destruct (Hbc L H1) as [H2 Q2]; [lia| |].
  { intros Hin. destruct (Q1 m); [done..|]. set_solver. }
  split; [done|]. intros x Hx Hin. destruct (Q2 x) as [?|?]; [lia|done| |by right].
  destruct (Q1 x); [done..| |set_solver]. by left.
Qed.
#[export] Instance covers_queues m : Covers Kept (Queues m).
Proof.
  intros a b [S H]. split; [done|]. intros L HL _ _. destruct (H L HL) as [? Q].
  split; [done|]. intros x Hx Hin. destruct (Q x); [done..| |set_solver]. by left.
Qed.

Lemma owners_same w w' : Same w w' -> owners w = owners w'.
Proof.
  intros []. unfold owners. rewrite same_mq0, same_tx0. f_equal.
  revert same_slots0. generalize (w_clocks w') as ks'. generalize (w_clocks w) as ks.
  induction ks as [|k ks IH]; intros [|k' ks']; simpl; try done.
  intros [= E Es]. unfold mbind in IH. rewrite (IH _ Es). f_equal.
  unfold slots. by rewrite E.
Qed.
#[export] Instance covers_same_kept : Covers Same Kept.
Proof.
  intros w w' HS. pose proof (owners_same _ _ HS) as EO. destruct HS. split; [done|].
  intros L []. split; [|intros m _; rewrite <- same_mq0; by left].
  constructor; try done.
  - rewrite <- EO. by eapply counted_same.
  - by rewrite <- same_mq0.
  - rewrite <- (length_fmap c_msg), <- same_slots0, length_fmap. done.
  - intros m Hm. assert (is_Some (w_heap w !! m)) as Hm'%own_fresh0; [|lia].
    apply (fmap_is_Some m_refcnt). rewrite <- lookup_fmap, same_heap0, lookup_fmap.
    by apply fmap_is_Some.
Qed.
#[export] Instance covers_same_queues m : Covers Same (Queues m).
Proof. intros a b H. by apply covers, covers. Qed.

(** ** The primitives *)

Lemma list_fmap_insert_id {A B} (f : A -> B) (l : list A) i x y :
  l !! i = Some x -> f y = f x -> f <$> <[i := y]> l = f <$> l.
Proof.
  intros H E. rewrite list_fmap_insert, E. apply list_insert_id.
  by rewrite list_lookup_fmap, H.
Qed.

Lemma list_fmap_alter_id {A B} (f : A -> B) (g : A -> A) (l : list A) i :
  (forall x, f (g x) = f x) -> f <$> alter g i l = f <$> l.
Proof.
  intros H. apply list_eq. intros j. rewrite !list_lookup_fmap, list_lookup_alter.
  case_decide; subst; [|done]. destruct (l !! j); simpl; [by rewrite H | done].
Qed.

Section primitives.
Context (X : relation world) `{!Covers Same X}.

Lemma k_mod_port p f : Keeps X (mod_port p f).
Proof.
  apply (keeps_cover (R:=Same) X). intros w a w'. unfold mod_port, mbind, M_bind, get_port.
  destruct p as [c|i].
  - destruct (w_clocks w !! c) as [k|] eqn:E; [|done]. intros [= <- <-].
    constructor; try done. simpl. symmetry. by apply list_fmap_alter_id.
  - destruct (w_hw w !! i); [|done]. intros [= <- <-]. by constructor.
Qed.
Lemma k_mod_clock c f : (forall k, c_msg (f k) = c_msg k) -> Keeps X (mod_clock c f).
Proof.
  intros Hf. apply (keeps_cover (R:=Same) X). intros w a w'.
  unfold mod_clock, mbind, M_bind, get_clock.
  destruct (w_clocks w !! c) as [k|] eqn:E; [|done]. intros [= <- <-].
  constructor; try done. simpl. symmetry. by eapply list_fmap_insert_id.
Qed.
Lemma k_mod_msg m f : (forall x, m_refcnt (f x) = m_refcnt x) -> Keeps X (mod_msg m f).
Proof.
  intros Hf. apply (keeps_cover (R:=Same) X). intros w a w'.
  unfold mod_msg, mbind, M_bind, get_msg.
  destruct (w_heap w !! m) as [x|] eqn:E; [|done]. intros [= <- <-].
  constructor; try done. simpl. rewrite fmap_insert, Hf. symmetry. apply insert_id.
  by rewrite lookup_fmap, E.
Qed.
Lemma k_modify f : (forall w, Same w (f w)) -> Keeps X (modify f).
Proof. intros H. apply (keeps_cover (R:=Same) X). intros w a w' [= <- <-]. apply H. Qed.
Lemma k_next_step : Keeps X next_step.
Proof.
  apply (keeps_cover (R:=Same) X). intros w a w' [= <- <-]. constructor; try done. simpl. lia.
Qed.

End primitives.

#[export] Hint Extern 2 (Same _ _) => constructor; simpl; first [done | lia] : keeps.
#[export] Hint Extern 2 (forall _, c_msg _ = c_msg _) =>
  intros; repeat case_match; reflexivity : keeps.
#[export] Hint Extern 2 (forall _, m_refcnt _ = m_refcnt _) => reflexivity : keeps.
#[export] Hint Resolve k_mod_port k_mod_clock k_mod_msg k_modify k_next_step : keeps.

(** ** Reference counts *)

Lemma own_update L L' w w' :
  Own L w -> counted (w_heap w') (owners w' ++ L') -> w_mq w' = w_mq w -> NoDup L' ->
  length (w_clocks w') = length (w_clocks w) ->
  (forall m, is_Some (w_heap w' !! m) -> is_Some (w_heap w !! m)) ->
  (w_step w <= w_step w')%nat -> Own L' w'.
Proof.
  intros [] Hc Hq HL Hk Hh Hs. constructor; [done|congruence|done|lia|].
  intros m Hm%Hh%own_fresh0. lia.
Qed.

Lemma msg_put_spec m l w a w' :
  counted (w_heap w) (m :: l) -> (cnt m (m :: l) < 256)%nat -> msg_put m w = Some (a, w') ->
  exists h, w' = set_w_heap h w /\ counted h l /\
    forall x, is_Some (h !! x) -> is_Some (w_heap w !! x).
Proof.
  intros Hc Hb. pose proof (Hc m) as Hm. rewrite count_occ_cons_eq in Hb, Hm by done.
  unfold msg_put, mod_msg, get_msg, mbind, M_bind, modify. simpl.
  destruct (w_heap w !! m) as [x|] eqn:E; [|done]. destruct Hm as [Hr _]. simpl.
  rewrite lookup_insert_eq. simpl.
  assert (Hu : u8 (m_refcnt x - 1) = Z.of_nat (cnt m l)) by (rewrite u8_small; lia).
  rewrite Hu. destruct (Z.eqb_spec (Z.of_nat (cnt m l)) 0) as [E0|E0].
  - unfold free_msg, get_msg, mbind, M_bind, modify. simpl. rewrite lookup_insert_eq.
    intros [= <- <-]. eexists. split; [done|]. split.
    + intros y. destruct (decide (m = y)) as [<-|Hy].
      * rewrite lookup_delete_eq. lia.
      * rewrite lookup_delete_ne, lookup_insert_ne by done. specialize (Hc y).
        by rewrite count_occ_cons_neq in Hc.
    + intros y. destruct (decide (m = y)) as [<-|Hy]; [by rewrite lookup_delete_eq; intros []|].
      by rewrite lookup_delete_ne, lookup_insert_ne by done.
  - intros [= <- <-]. eexists. split; [done|]. split.
    + intros y. destruct (decide (m = y)) as [<-|Hy].
      * rewrite lookup_insert_eq. simpl. lia.
      * rewrite lookup_insert_ne by done. specialize (Hc y).
        by rewrite count_occ_cons_neq in Hc.
    + intros y. destruct (decide (m = y)) as [<-|Hy]; [by rewrite E|].
      by rewrite lookup_insert_ne by done.
Qed.

Lemma msg_get_spec m l w a w' :
  counted (w_heap w) l -> (cnt m l < 255)%nat -> msg_get m w = Some (a, w') ->
  exists h, w' = set_w_heap h w /\ counted h (m :: l) /\ is_Some (w_heap w !! m) /\
    forall x, is_Some (h !! x) -> is_Some (w_heap w !! x).
Proof.
  intros Hc Hb. pose proof (Hc m) as Hm.
  unfold msg_get, mod_msg, get_msg, mbind, M_bind, modify. simpl.
  destruct (w_heap w !! m) as [x|] eqn:E; [|done]. intros [= <- <-].
  eexists. split; [done|]. split; [|split; [done|]].
  - intros y. destruct (decide (m = y)) as [<-|Hy].
    + rewrite lookup_insert_eq, count_occ_cons_eq by done. simpl. rewrite u8_small; lia.
    + rewrite lookup_insert_ne by done. specialize (Hc y). by rewrite count_occ_cons_neq.
  - intros y. destruct (decide (m = y)) as [<-|Hy]; [by rewrite E|].
    by rewrite lookup_insert_ne by done.
Qed.

Lemma set_cslot_spec c s o w a w' :
  set_cslot c s o w = Some (a, w') ->
  exists k, w_clocks w !! c = Some k /\
    w' = set_w_clocks (<[c := set_c_msg (upd (c_msg k) s o) k]> (w_clocks w)) w.
Proof.
  unfold set_cslot, mod_clock, get_clock, mbind, M_bind, modify.
  destruct (w_clocks w !! c) as [k|] eqn:E; [|done]. intros [= <- <-]. by exists k.
Qed.
Lemma cslot_spec c s w o w' :
  cslot c s w = Some (o, w') -> w' = w /\ exists k, w_clocks w !! c = Some k /\ o = c_msg k s.
Proof.
  unfold cslot, get_clock, mbind, M_bind, mret, M_ret.
  destruct (w_clocks w !! c) as [k|] eqn:E; [|done]. intros [= <- <-]. naive_solver.
Qed.

(** The owners after a pointer changed. *)
Lemma owners_set_cslot w h c k s o m :
  w_clocks w !! c = Some k ->
  let w' := set_w_clocks (<[c := set_c_msg (upd (c_msg k) s o) k]> (w_clocks w)) (set_w_heap h w) in
  (cnt m (owners w') + cnt m (option_list (c_msg k s)) =
   cnt m (owners w) + cnt m (option_list o))%nat.
Proof.
  intros E w'. unfold owners. subst w'. simpl. rewrite !count_occ_app.
  pose proof (slots_insert _ _ _ (set_c_msg (upd (c_msg k) s o) k) m E).
  pose proof (slots_upd k s o m). lia.
Qed.

(** The references without those of one pointer. *)
Lemma take_old L w c k s :
  Own L w -> w_clocks w !! c = Some k ->
  exists l, (forall x, (cnt x (option_list (c_msg k s)) + cnt x l = cnt x (owners w ++ L))%nat) /\
    counted (w_heap w) (option_list (c_msg k s) ++ l).
Proof.
  intros H E.
  set (w1 := set_w_clocks (<[c := set_c_msg (upd (c_msg k) s None) k]> (w_clocks w)) w).
  exists (owners w1 ++ L).
  assert (E1 : forall x, (cnt x (option_list (c_msg k s)) + cnt x (owners w1 ++ L) =
                          cnt x (owners w ++ L))%nat).
  { intros x. pose proof (owners_set_cslot w (w_heap w) c k s None x E) as Ho.
    rewrite !count_occ_app. simpl in Ho. change (owners _) with (owners w1) in Ho at 1. lia. }
  split; [done|]. eapply counted_perm; [|apply H]. intros x.
  rewrite <- E1, !count_occ_app. lia.
Qed.

(** Give up the old reference of a pointer. *)
Definition put_old (o : option mref) : M unit :=
  match o with Some m => msg_put m | None => skip end.
Lemma put_old_spec o l w a w' :
  counted (w_heap w) (option_list o ++ l) -> (forall m, cnt m (option_list o ++ l) < 256)%nat ->
  put_old o w = Some (a, w') ->
  exists h, w' = set_w_heap h w /\ counted h l /\
    forall x, is_Some (h !! x) -> is_Some (w_heap w !! x).
Proof.
  intros Hc Hb. destruct o as [m|].
  - apply msg_put_spec; [done | apply Hb].
  - intros [= <- <-]. exists (w_heap w). split; [by destruct w|]. done.
Qed.

(** [msg_put] and [msg_get] change nothing but the heap. *)
Lemma put_old_frame o w a w' : put_old o w = Some (a, w') -> exists h, w' = set_w_heap h w.
Proof.
  destruct o as [m|]; simpl; [|intros [= <- <-]; exists (w_heap w); by destruct w].
  unfold msg_put, mod_msg, free_msg, get_msg, mbind, M_bind, modify.
  destruct (w_heap w !! m); [|done]. simpl. rewrite lookup_insert_eq. simpl.
  case_match; simpl; [rewrite lookup_insert_eq|]; intros [= <- <-]; by eexists.
Qed.
Lemma msg_get_frame m w a w' : msg_get m w = Some (a, w') -> exists h, w' = set_w_heap h w.
Proof.
  unfold msg_get, mod_msg, get_msg, mbind, M_bind, modify.
  destruct (w_heap w !! m); [|done]. intros [= <- <-]. by eexists.
Qed.

(** A pointer changed and the heap follows. *)
Lemma own_slot L w h c k s o :
  Own L w -> w_clocks w !! c = Some k ->
  (forall l, (forall x, (cnt x (option_list (c_msg k s)) + cnt x l = cnt x (owners w ++ L))%nat) ->
     counted h (option_list o ++ l)) ->
  (forall x, is_Some (h !! x) -> is_Some (w_heap w !! x)) ->
  Own L (set_w_clocks (<[c := set_c_msg (upd (c_msg k) s o) k]> (w_clocks w)) (set_w_heap h w)).
Proof.
  intros H E Hc Hh. destruct (take_old _ _ _ _ s H E) as (l & El & _).
  eapply own_update; [exact H| |done|apply H|simpl; by rewrite length_insert|done|done].
  simpl w_heap. eapply counted_perm; [|apply (Hc l El)]. intros x. specialize (El x).
  pose proof (owners_set_cslot w h c k s o x E) as Ho. cbv zeta in Ho.
  rewrite !count_occ_app in *. lia.
Qed.

(** The clocks and the heap of a world whose pointer [s] of clock [c] was
    written. *)
Definition slot_written (c : nat) (s : S.t) (o : option mref) (w w' : world) : Prop :=
  exists k h, w_clocks w !! c = Some k /\
    w' = set_w_clocks (<[c := set_c_msg (upd (c_msg k) s o) k]> (w_clocks w)) (set_w_heap h w).
Lemma msg_clear_frame c s w a w' : msg_clear c s w = Some (a, w') -> slot_written c s None w w'.
Proof.
  unfold msg_clear, mbind, M_bind. destruct (cslot c s w) as [[o w0]|] eqn:E0; [|done].
  apply cslot_spec in E0 as (-> & k & Ek & ->). fold (put_old (c_msg k s)).
  destruct (put_old _ w) as [[u w1]|] eqn:E1; [|done]. intros E2.
  destruct (put_old_frame _ _ _ _ E1) as [h ->].
  apply set_cslot_spec in E2 as (k' & Ek' & ->). by exists k', h.
Qed.
Lemma msg_save_frame c s m w a w' :
  msg_save c s m w = Some (a, w') -> slot_written c s (Some m) w w'.
Proof.
  unfold msg_save, mbind, M_bind. destruct (cslot c s w) as [[o w0]|] eqn:E0; [|done].
  apply cslot_spec in E0 as (-> & k & Ek & ->). fold (put_old (c_msg k s)).
  destruct (put_old _ w) as [[u w1]|] eqn:E1; [|done].
  destruct (msg_get m w1) as [[u' w2]|] eqn:E2; [|done]. intros E3.
  destruct (put_old_frame _ _ _ _ E1) as [h ->]. destruct (msg_get_frame _ _ _ _ E2) as [h2 ->].
  apply set_cslot_spec in E3 as (k' & Ek' & ->). by exists k', h2.
Qed.

Lemma msg_clear_kept c s : Keeps Kept (msg_clear c s).
Proof.
  intros w a w'. unfold msg_clear, mbind, M_bind.
  destruct (cslot c s w) as [[o w0]|] eqn:E0; [|done].
  apply cslot_spec in E0 as (-> & k & Ek & ->). fold (put_old (c_msg k s)).
  destruct (put_old _ w) as [[u w1]|] eqn:E1; [|done]. intros E2.
  destruct (put_old_frame _ _ _ _ E1) as [h ->].
  apply set_cslot_spec in E2 as (k' & Ek' & ->). simpl in Ek'. assert (k' = k) as -> by congruence.
  split; [simpl; lia|]. intros L H. split; [|intros m _; by left].
  destruct (take_old _ _ _ _ s H Ek) as (l & El & Hl).
  pose proof (fun m => own_bound _ _ m H) as Hb.
  destruct (put_old_spec _ _ _ _ _ Hl (fun m => ltac:(
    rewrite count_occ_app, El; specialize (Hb m); lia)) E1) as (h' & Eh & Hc & Hd).
  assert (h' = h) as -> by (apply (f_equal w_heap) in Eh; done).
  apply (own_slot L w h c k s None); [done..| |done]. intros l' El'. eapply counted_perm; [|exact Hc].
  intros x. specialize (El x). specialize (El' x). simpl. lia.
Qed.

Lemma msg_save_kept c s m : Keeps Kept (msg_save c s m).
Proof.
  intros w a w'. unfold msg_save, mbind, M_bind.
  destruct (cslot c s w) as [[o w0]|] eqn:E0; [|done].
  apply cslot_spec in E0 as (-> & k & Ek & ->). fold (put_old (c_msg k s)).
  destruct (put_old _ w) as [[u w1]|] eqn:E1; [|done].
  destruct (msg_get m w1) as [[u' w2]|] eqn:E2; [|done]. intros E3.
  destruct (put_old_frame _ _ _ _ E1) as [h ->]. destruct (msg_get_frame _ _ _ _ E2) as [h2 ->].
  apply set_cslot_spec in E3 as (k' & Ek' & ->). simpl in Ek'. assert (k' = k) as -> by congruence.
  split; [simpl; lia|]. intros L H. split; [|intros x _; by left].
  destruct (take_old _ _ _ _ s H Ek) as (l & El & Hl).
  pose proof (fun m => own_bound _ _ m H) as Hb.
  destruct (put_old_spec _ _ _ _ _ Hl (fun m => ltac:(
    rewrite count_occ_app, El; specialize (Hb m); lia)) E1) as (h' & Eh & Hc & Hd).
  assert (h' = h) as -> by (apply (f_equal w_heap) in Eh; done).
  assert (Hm : (cnt m l < 255)%nat) by (specialize (El m); specialize (Hb m); lia).
  destruct (msg_get_spec m l (set_w_heap h w) _ _ Hc Hm E2) as (h'' & Eh' & Hc' & _ & Hd').
  assert (h'' = h2) as -> by (apply (f_equal w_heap) in Eh'; done).
  apply (own_slot L w h2 c k s (Some m)); [done..| |naive_solver]. intros l' El'. eapply counted_perm; [|exact Hc'].
  intros x. specialize (El x). specialize (El' x).
  change (option_list (Some m) ++ l') with (m :: l'). rewrite !cnt_cons. lia.
Qed.

(** ** Allocation and the queue *)

Section alloc.
Context {env : Env}.

(** A new message belongs to the handler. *)
Lemma alloc_msg_spec msg len rx w o w' :
  alloc_msg msg len rx w = Some (o, w') ->
  (w_step w <= w_step w')%nat /\ w_mq w' = w_mq w /\ w_clocks w' = w_clocks w /\
  match o with
  | None => Kept w w'
  | Some m => (w_step w <= m < w_step w')%nat /\ forall L, Own L w -> Own (m :: L) w'
  end.
Proof.
  unfold alloc_msg, mbind, M_bind, next_step. simpl.
  set (w1 := set_w_step (S (w_step w)) w).
  assert (HS : Same w w1) by (constructor; simpl; [lia|done..]).
  destruct (env_malloc _ _) as [block|].
  2: { intros [= <- <-]. simpl. split; [lia|]. split; [done|]. split; [done|].
     by apply (covers w w1). }
  match goal with |- context [lift ?x w1] => destruct x as [b|]; [|done] end.
  intros [= <- <-]. split; [simpl; lia|]. split; [done|]. split; [done|]. split; [simpl; lia|]. intros L H.
  match goal with |- Own _ (set_w_heap (<[_ := ?v]> _) _) => set (v0 := v) end.
  set (m := w_step w).
  assert (Hm : w_heap w !! m = None).
  { destruct (w_heap w !! m) as [x|] eqn:E; [|done].
    pose proof (own_fresh _ _ H m) as Hf. rewrite E in Hf. specialize (Hf ltac:(by eexists)).
    unfold m in Hf. lia. }
  assert (H0 : cnt m (owners w ++ L) = 0%nat).
  { pose proof (own_counted _ _ H m) as Hc. by rewrite Hm in Hc. }
  constructor; simpl; [|apply H| |apply H|].
  - intros x. change (owners _) with (owners w).
    rewrite !count_occ_app, cnt_cons in *. destruct (decide (m = x)) as [<-|Hx].
    + rewrite lookup_insert_eq. simpl. lia.
    + rewrite lookup_insert_ne by done. pose proof (own_counted _ _ H x) as Hc.
      rewrite count_occ_app in Hc. case_match; simpl in *; lia.
  - constructor; [|apply H]. intros Hin. apply (cnt_pos_in m) in Hin.
    rewrite count_occ_app in H0. lia.
  - intros x. destruct (decide (m = x)) as [<-|Hx].
    + intros _. unfold m. lia.
    + rewrite lookup_insert_ne by done. intros Hx'%(own_fresh _ _ H). lia.
Qed.

End alloc.

Lemma own_local_alive m L w : Own (m :: L) w -> is_Some (w_heap w !! m) /\ (m < w_step w)%nat.
Proof.
  intros H. assert (Ha : is_Some (w_heap w !! m)).
  { eapply counted_in; [apply H|]. set_solver. }
  split; [done|]. by apply (own_fresh _ _ H).
Qed.

(** [m] goes from the handler to the queue. *)
Lemma queue_send_gives m : Keeps (Gives m) (queue_send m).
Proof.
  intros w a w' [= <- <-]. split; [simpl; lia|]. intros L H Hm. split.
  - pose proof (own_local _ _ H) as [_ HL]%NoDup_cons.
    constructor; [|simpl|done|apply H|apply H].
    + eapply counted_perm; [|apply H]. intros x. unfold owners. simpl.
      rewrite !count_occ_app, !cnt_cons. simpl. lia.
    + apply NoDup_app. split_and!; [apply H|set_solver|apply NoDup_singleton].
  - intros x _ Hx. simpl in Hx. set_solver.
Qed.

(** The reference of the handler is released. *)
Definition Releases (m : mref) (w w' : world) : Prop :=
  (w_step w <= w_step w')%nat /\ forall L, Own (m :: L) w -> Own L w' /\ w_mq w' = w_mq w.
Lemma msg_put_releases m : Keeps (Releases m) (msg_put m).
Proof.
  intros w a w' E. destruct (put_old_frame (Some m) _ _ _ E) as [h ->].
  split; [simpl; lia|]. intros L H. split; [|done].
  assert (Hc : counted (w_heap w) (m :: owners w ++ L)).
  { eapply counted_perm; [|apply H]. intros x. rewrite count_occ_app, !cnt_cons, count_occ_app. lia. }
  assert (Hb : (cnt m (m :: owners w ++ L) < 256)%nat).
  { pose proof (own_bound _ _ m H) as Hb. rewrite count_occ_app, cnt_cons in Hb.
    rewrite cnt_cons, count_occ_app. lia. }
  destruct (msg_put_spec m _ _ _ _ Hc Hb E) as (h' & Eh & Hc' & Hd).
  assert (h' = h) as -> by (apply (f_equal w_heap) in Eh; done).
  pose proof (own_local _ _ H) as [_ HL]%NoDup_cons.
  by eapply own_update.
Qed.

Lemma ptp_save_rx_msg_queues m : Keeps (Queues m) (ptp_save_rx_msg m).
Proof.
  unfold ptp_save_rx_msg. apply (keeps_bind Kept (Queues m)); [eauto 3 with keeps|]. intros [].
  intros w a w'. unfold mbind, M_bind. destruct (msg_get m w) as [[u w1]|] eqn:E; [|done].
  intros [= <- <-]. destruct (msg_get_frame _ _ _ _ E) as [h ->].
  split; [simpl; lia|]. intros L H Hs Hm. split; [|intros x _ Hx; simpl in Hx; set_solver].
  pose proof (own_bound _ _ m H) as Hb.
  assert (Hb' : (cnt m (owners w ++ L) < 255)%nat) by lia.
  destruct (msg_get_spec m _ _ _ _ (own_counted _ _ H) Hb' E) as (h' & Eh & Hc & _ & Hd).
  assert (h' = h) as -> by (apply (f_equal w_heap) in Eh; done).
  constructor; simpl; [|apply NoDup_app|apply H|apply H|].
  - eapply counted_perm; [|exact Hc]. intros x.
    change (owners (set_w_mq _ _)) with
      ((w_clocks w ≫= slots) ++ (w_mq w ++ [m]) ++ option_list (w_tx_msg w)).
    unfold owners. rewrite cnt_cons, !count_occ_app, cnt_cons. simpl. lia.
  - split_and!; [apply H|set_solver|apply NoDup_singleton].
  - intros x Hx. by apply (own_fresh _ _ H), Hd.
Qed.
