(* ===== verification/OwnersOps.v ===== *)
(** * Handlers that allocate, queue or release messages keep the counts

    Those without messages are instances of [Plain]. *)

From stdpp Require Import base list numbers option gmap.
From Stdlib Require Import ZArith Lia.
From S2P Require Import Prelude Types Wire World Keeps Msgs Owners Timers Config PortFsm.
From S2P Require Import ClockOps Sync Tx Port Decision Rx ClockWork Setup Reach Plain.

(** ** New messages *)

(** [m] is new and belongs to the handler. *)
Record Allocs (m : mref) (w w' : world) : Prop := mk_allocs {
  allocs_fresh : (w_step w <= m < w_step w')%nat;
  allocs_mq : w_mq w' = w_mq w;
  allocs_slots : c_msg <$> w_clocks w = c_msg <$> w_clocks w';
  allocs_own : forall L, Own L w -> Own (m :: L) w' }.
(** The result of [f] is a new message, or there is none. *)
Definition Makes (f : M (option mref)) : Prop :=
  forall w o w', f w = Some (o, w') ->
    match o with
    | Some m => Allocs m w w'
    | None => Kept w w' /\ c_msg <$> w_clocks w = c_msg <$> w_clocks w'
    end.

Lemma allocs_same m a b c : Allocs m a b -> Same b c -> Allocs m a c.
Proof.
  intros [F Q SL O] HS. pose proof (covers (Covers:=covers_same_kept) _ _ HS) as [_ HK].
  destruct HS. constructor; [lia|congruence|congruence|]. intros L H. by apply HK, O.
Qed.
Lemma allocs_gives m a b c : Allocs m a b -> Gives m b c -> Kept a c.
Proof.
  intros [F Q SL O] [S HG]. split; [lia|]. intros L H. pose proof (O L H) as H1.
  assert (Hfresh : forall x, x ∈ w_mq b -> (x < w_step a)%nat).
  { intros x. rewrite Q. intros Hx. eapply own_fresh; [exact H|].
    eapply counted_in; [apply H|]. unfold owners. set_solver. }
  destruct (HG L H1) as [HL Hg]. { intros Hx%Hfresh. lia. }
  split; [done|]. intros x Hx Hin. destruct (Hg x) as [?|?]; [lia|done| |set_solver by lia].
  left. by rewrite <- Q.
Qed.
(** Releasing or keeping on after the handler gave its reference up. *)
Lemma gives_kept m a b c : Gives m a b -> Kept b c -> Gives m a c.
Proof.
  intros [Sab Hab] [Sbc Hbc]. split; [lia|]. intros L H Hm.
  destruct (Hab L H Hm) as [H1 Q1], (Hbc L H1) as [H2 Q2]. split; [done|].
  intros x Hx Hin. destruct (Q2 x) as [?|?]; [lia|done| |set_solver]. by apply Q1.
Qed.
Lemma queues_releases m a b c : Queues m a b -> Releases m b c -> Gives m a c.
Proof.
  intros [Sab Hab] [Sbc Hbc]. split; [lia|]. intros L H Hm.
  destruct (own_local_alive _ _ _ H) as [_ Hs].
  destruct (Hab _ H Hs Hm) as [H1 Q1], (Hbc L H1) as [H2 E2]. split; [done|].
  intros x Hx Hin. rewrite E2 in Hin. by apply Q1.
Qed.

Section new.
Context {env : Env}.

Lemma alloc_makes msg len rx : Makes (alloc_msg msg len rx).
Proof.
  intros w o w' E. destruct (alloc_msg_spec _ _ _ _ _ _ E) as (Hs & Hq & Hk & Ho).
  destruct o as [m|]; [|by rewrite Hk]. destruct Ho. constructor; by rewrite ?Hk.
Qed.
Lemma keeps_makes {A} f (g : option mref -> M A) :
  Makes f -> Keeps Kept (g None) -> (forall m, Keeps (Gives m) (g (Some m))) ->
  Keeps Kept (f ≫= g).
Proof.
  intros Hf HN HS w a w'. unfold mbind, M_bind. destruct (f w) as [[o w1]|] eqn:E; [|done].
  pose proof (Hf _ _ _ E) as Ho. destruct o as [m|]; intros E'.
  - eapply allocs_gives; [exact Ho | by eapply HS].
  - destruct Ho. etrans; [done | by eapply HN].
Qed.

Lemma keeps_give_bind {A B} m (f : M A) (g : A -> M B) :
  Keeps (Gives m) f -> (forall a, Keeps Kept (g a)) -> Keeps (Gives m) (f ≫= g).
Proof.
  intros Hf Hg w b w'. unfold mbind, M_bind. destruct (f w) as [[a w1]|] eqn:E; [|done].
  intros E'. eapply gives_kept; [by eapply Hf | by eapply Hg].
Qed.

(** [clock_new_msg] fills the buffer it is given. *)
Lemma new_msg_same c t m w m' w' : new_msg c t (Some m) w = Some (m', w') -> m' = m.
Proof.
  unfold new_msg, clock_new_msg, tx_buffer, mbind, M_bind, mret, M_ret.
  destruct (template_of t); [|done].
  destruct (get_clock c w) as [[k w1]|]; [|done].
  destruct (lift _ w1) as [[n w2]|]; [|done]. destruct (copy_msg _ _ _ w2) as [[u w3]|]; [|done].
  destruct (whenM _ _ w3) as [[u' w4]|]; [|done]. simpl. congruence.
Qed.
Lemma keeps_bind_same R X `{!Absorbs R X} {B} (m : mref) (f : M mref) (g : mref -> M B) :
  Keeps R f -> (forall w m' w', f w = Some (m', w') -> m' = m) -> Keeps X (g m) ->
  Keeps X (f ≫= g).
Proof.
  intros Hf Hm Hg w b w'. unfold mbind, M_bind. destruct (f w) as [[a w1]|] eqn:E; [|done].
  intros E'. rewrite (Hm _ _ _ E) in E'. eapply absorbs; [by eapply Hf | by eapply Hg].
Qed.
Lemma port_tx_signal_same p id m w m' w' :
  port_tx_signal p id (Some m) w = Some (m', w') -> m' = m.
Proof.
  unfold port_tx_signal, mbind, M_bind, mret, M_ret.
  destruct (pclock p w) as [[c w1]|]; [|done].
  destruct (new_msg c SIGNALING_MSG (Some m) w1) as [[m1 w2]|] eqn:E; [|done].
  apply new_msg_same in E as ->. repeat case_match; congruence.
Qed.

End new.

#[export] Hint Resolve msg_clear_kept msg_save_kept queue_send_gives ptp_save_rx_msg_queues
  msg_put_releases : keeps.

(** Leaves that change nothing; the relation may be any that [Kept] implies. *)
Lemma keeps_reads X `{!Covers Kept X} {A} (m : M A) : Reads m -> Keeps X m.
Proof. intros H. by apply (keeps_cover (R:=Kept) X), keeps_read; [apply _|]. Qed.

Ltac kept_bind :=
  match goal with
  | |- Keeps Kept (mbind _ (alloc_msg _ _ _)) => apply keeps_makes; [apply alloc_makes|..]
  | |- Keeps ?X (mbind _ (new_msg _ _ (Some ?m))) =>
      apply (keeps_bind_same Kept X m); [|by apply new_msg_same|]
  | |- Keeps ?X (mbind _ (port_tx_signal _ _ (Some ?m))) =>
      apply (keeps_bind_same Kept X m); [|by apply port_tx_signal_same|]
  | |- Keeps (Gives ?m) (mbind _ _) =>
      apply keeps_give_bind; [solve [eauto 3 with keeps] | intros ?]
  | |- Keeps ?X (mbind _ _) => apply (keeps_bind Kept X)
  | |- Keeps _ (whenM _ _) => apply keeps_whenM
  | |- Keeps _ (iterM _ _) => apply (keeps_iterM Kept)
  | |- Keeps _ (match ?x with _ => _ end) => destruct x
  | |- Keeps _ (match ?x with _ => _ end _) => destruct x
  end.
Ltac kept_leaf :=
  match goal with
  | |- Keeps _ _ => solve [eauto 3 with keeps]
  | |- Keeps ?X _ => apply (keeps_reads X); solve [reads]
  | |- Keeps ?X _ => apply (keeps_cover (R:=Kept) X); solve [eauto 3 with keeps]
  end.
Ltac kept_unfold := match goal with |- Keeps _ ?m => let h := get_head m in unfold h end.
Ltac kept :=
  intros;
  repeat first [ progress cbv zeta | progress intros | kept_bind | kept_leaf | kept_unfold ].

(** Handlers without messages keep the counts. *)
Lemma same_core_same w w' : same_core w w' -> Same w w'.
Proof. intros [E1 E2]. injection E1 as E _ _ _ _. injection E2 as E3 E4 E5 E6. constructor; congruence || lia. Qed.
#[export] Instance plain_kept : Plain Kept.
Proof.
  constructor; intros.
  - apply _.
  - apply (k_mod_port Kept).
  - apply (k_mod_clock Kept). intros k. by destruct (H k).
  - by apply (k_mod_msg Kept).
  - apply (k_modify Kept). auto using same_core_same.
  - apply (k_next_step Kept).
  - kept.
  - kept.
  - kept.
  - kept.
Qed.

Section ops.
Context {env : Env}.

(** ** Messages of the ports *)

Lemma save_tx_gives p m bits : Keeps (Gives m) (save_tx p m bits).
Proof. kept. Qed.
Lemma signal_gives p a b d m : Keeps (Gives m) (port_tx_signal_interval p a b d (Some m)).
Proof. kept. Qed.
#[local] Hint Resolve save_tx_gives signal_gives : keeps.

Lemma tx_delay_req_kept p : Keeps Kept (port_tx_delay_req p).
Proof. kept. Qed.
Lemma tx_pdelay_req_kept p : Keeps Kept (port_tx_pdelay_req p).
Proof. kept. Qed.
Lemma tx_announce_kept p : Keeps Kept (port_tx_announce p).
Proof. kept. Qed.
Lemma tx_sync_kept p : Keeps Kept (port_tx_sync p).
Proof. kept. Qed.
Lemma tx_fup_kept p m : Keeps Kept (port_tx_fup p m).
Proof. kept. Qed.
#[local] Hint Resolve tx_delay_req_kept tx_pdelay_req_kept tx_announce_kept tx_sync_kept
  tx_fup_kept : keeps.

(** ** Forwarding *)

Lemma residence_kept c : Keeps Kept (ptp_check_residence c).
Proof. kept. Qed.
#[local] Hint Resolve residence_kept : keeps.

Lemma forward_kept p m : Keeps Kept (ptp_forward p m).
Proof. kept. Qed.
Lemma request_interval_kept p i : Keeps Kept (request_interval p i).
Proof. kept. Qed.
#[local] Hint Resolve forward_kept request_interval_kept : keeps.

Lemma set_interval_kept c : Keeps Kept (ptp_set_sync_interval c).
Proof. kept. Qed.
#[local] Hint Resolve set_interval_kept : keeps.

(** ** The handlers of received messages *)

Lemma handle_announce_queues p m : Keeps (Queues m) (handle_announce p m).
Proof. kept. Qed.
Lemma gptp_sync_kept p c m : Keeps Kept (gptp_sync p c m).
Proof. kept. Qed.
#[local] Hint Resolve handle_announce_queues gptp_sync_kept : keeps.

Lemma handle_sync_queues p m : Keeps (Queues m) (handle_sync p m).
Proof. kept. Qed.
Lemma handle_fup_queues p m : Keeps (Queues m) (handle_fup p m).
Proof. kept. Qed.
Lemma handle_delayed_sync_queues p m : Keeps (Queues m) (handle_delayed_sync p m).
Proof. kept. Qed.
Lemma handle_delay_req_queues p m : Keeps (Queues m) (handle_delay_req p m).
Proof. kept. Qed.
Lemma handle_delay_resp_queues p m : Keeps (Queues m) (handle_delay_resp p m).
Proof. kept. Qed.
Lemma handle_delayed_delay_req_queues p m : Keeps (Queues m) (handle_delayed_delay_req p m).
Proof. kept. Qed.
Lemma handle_pdelay_req_queues p m : Keeps (Queues m) (handle_pdelay_req p m).
Proof. kept. Qed.
Lemma handle_pdelay_resp_queues p m : Keeps (Queues m) (handle_pdelay_resp p m).
Proof. kept. Qed.
Lemma handle_pdelay_resp_fup_queues p m : Keeps (Queues m) (handle_pdelay_resp_fup p m).
Proof. kept. Qed.
Lemma handle_delayed_pdelay_req_queues p m : Keeps (Queues m) (handle_delayed_pdelay_req p m).
Proof. kept. Qed.
Lemma handle_delayed_pdelay_resp_queues p m : Keeps (Queues m) (handle_delayed_pdelay_resp p m).
Proof. kept. Qed.
Lemma handle_signaling_queues p m : Keeps (Queues m) (handle_signaling p m).
Proof. kept. Qed.
Lemma proc_delayed_sync_kept p m : Keeps Kept (proc_delayed_sync p m).
Proof. kept. Qed.
#[local] Hint Resolve handle_sync_queues handle_fup_queues handle_delayed_sync_queues
  handle_delay_req_queues handle_delay_resp_queues handle_delayed_delay_req_queues
  handle_pdelay_req_queues handle_pdelay_resp_queues handle_pdelay_resp_fup_queues
  handle_delayed_pdelay_req_queues handle_delayed_pdelay_resp_queues handle_signaling_queues
  proc_delayed_sync_kept : keeps.

(** ** The works *)

Lemma clock_announce_kept c : Keeps Kept (clock_tx_announce c).
Proof. kept. Qed.
Lemma clock_tx_sync_kept c : Keeps Kept (clock_tx_sync c).
Proof. kept. Qed.
#[local] Hint Resolve clock_announce_kept clock_tx_sync_kept : keeps.

Lemma sync_work_kept c : Keeps Kept (do_clock_sync_work c).
Proof. kept. Qed.
Lemma signaling_work_kept c : Keeps Kept (do_clock_signaling_work c).
Proof. kept. Qed.
#[local] Hint Resolve sync_work_kept signaling_work_kept : keeps.

(** ** Clocks are deleted *)

Lemma delete_kept c : Keeps Kept (delete_ptp_clock c).
Proof. kept. Qed.
Lemma reset_clock_kept c : Keeps Kept (reset_ptp_clock c).
Proof. kept. Qed.
#[local] Hint Resolve delete_kept reset_clock_kept : keeps.

End ops.

#[export] Hint Resolve save_tx_gives signal_gives tx_delay_req_kept tx_pdelay_req_kept
  tx_announce_kept tx_sync_kept tx_fup_kept residence_kept forward_kept
  request_interval_kept set_interval_kept handle_announce_queues gptp_sync_kept
  handle_sync_queues handle_fup_queues handle_delayed_sync_queues handle_delay_req_queues
  handle_delay_resp_queues handle_delayed_delay_req_queues handle_pdelay_req_queues
  handle_pdelay_resp_queues handle_pdelay_resp_fup_queues handle_delayed_pdelay_req_queues
  handle_delayed_pdelay_resp_queues handle_signaling_queues proc_delayed_sync_kept
  clock_announce_kept clock_tx_sync_kept sync_work_kept signaling_work_kept delete_kept
  reset_clock_kept : keeps.
