(* ===== verification/OwnersStack.v ===== *)
(** * No message is leaked or used after its release

    The handlers that move a new message into a pointer of the clock, the
    receive and process tasks, and the reachable states of the whole stack:
    every one keeps the reference counts. *)

From stdpp Require Import base list numbers option gmap.
From Stdlib Require Import ZArith Lia.
From S2P Require Import Prelude Types Wire World Keeps Msgs Timers.
From S2P Require Import PortFsm ClockOps Sync Tx Port Decision Rx Manage ClockWork Setup Stack Boot.
From S2P Require Import Plain Reach Owners OwnersOps.

(** ** Pointers that are known to be null *)

Definition Empty (c : nat) (ss : list S.t) (w : world) : Prop :=
  forall k s, w_clocks w !! c = Some k -> s ∈ ss -> c_msg k s = None.
(** [X], if [P] holds before. *)
Definition Under (P : world -> Prop) (X : relation world) : relation world :=
  fun a b => P a -> X a b.
Definition Still (P : world -> Prop) : relation world := fun a b => Kept a b /\ (P a -> P b).

#[export] Instance still_preorder P : PreOrder (Still P).
Proof.
  split; [by intros w|]. intros a b c [K1 H1] [K2 H2]. split; [by etrans | naive_solver].
Qed.
#[export] Instance absorbs_under P X `{!Absorbs Kept X} : Absorbs (Still P) (Under P X).
Proof. intros a b c [K H] HX HP. eapply absorbs; [exact K | by apply HX, H]. Qed.
#[export] Instance covers_under P X : Covers X (Under P X).
Proof. by intros a b HX _. Qed.

Lemma empty_slots c ss a b :
  c_msg <$> w_clocks a = c_msg <$> w_clocks b -> Empty c ss a -> Empty c ss b.
Proof.
  intros E H k s Ek Hs. assert (E' : c_msg <$> w_clocks a !! c = Some (c_msg k)).
  { rewrite <- list_lookup_fmap, E, list_lookup_fmap, Ek. done. }
  destruct (w_clocks a !! c) as [k'|] eqn:Ea; [|done]. injection E' as E'.
  rewrite <- E'. by apply (H k').
Qed.
#[export] Instance covers_same_still c ss : Covers Same (Still (Empty c ss)).
Proof. intros a b HS. split; [by apply covers | by apply empty_slots, HS]. Qed.

Lemma empty_written c s o ss a b :
  slot_written c s o a b -> (s ∈ ss -> o = None) -> Empty c ss a -> Empty c ss b.
Proof.
  intros (k & h & Ek & ->) Ho H k' s' Ek' Hs. simpl in Ek'.
  rewrite list_lookup_insert_eq in Ek' by by eapply lookup_lt_Some. injection Ek' as <-.
  unfold set_c_msg, upd. simpl. case_decide as E; [subst; by apply Ho | by apply (H k)].
Qed.
Lemma written_empty c s a b : slot_written c s None a b -> Empty c [s] b.
Proof.
  intros (k & h & Ek & ->) k' s' Ek' Hs%list_elem_of_singleton. subst s'. simpl in Ek'.
  rewrite list_lookup_insert_eq in Ek' by by eapply lookup_lt_Some. injection Ek' as <-.
  unfold set_c_msg, upd. simpl. by rewrite decide_True.
Qed.

Lemma clear_still c s ss : Keeps (Still (Empty c ss)) (msg_clear c s).
Proof.
  intros w a w' E. split; [by eapply msg_clear_kept|].
  eapply empty_written; [by eapply msg_clear_frame | done].
Qed.
Lemma save_still c s m ss : s ∉ ss -> Keeps (Still (Empty c ss)) (msg_save c s m).
Proof.
  intros Hs w a w' E. split; [by eapply msg_save_kept|].
  eapply empty_written; [by eapply msg_save_frame | done].
Qed.
Lemma clear_all_empty c l w a w' : iterM (msg_clear c) l w = Some (a, w') -> Empty c l w'.
Proof.
  enough (H : forall ss, Empty c ss w -> iterM (msg_clear c) l w = Some (a, w') ->
                Empty c (l ++ ss) w').
  { intros E. specialize (H [] ltac:(intros ???; set_solver) E). by rewrite app_nil_r in H. }
  revert w. induction l as [|s l IH]; simpl; intros w ss H.
  - by intros [= <- <-].
  - unfold mbind, M_bind. destruct (msg_clear c s w) as [[u w1]|] eqn:E; [|done]. intros E'.
    assert (H1 : Empty c (s :: ss) w1).
    { intros k x Ek [->|Hx]%elem_of_cons.
      - by apply (written_empty c s w w1 (msg_clear_frame _ _ _ _ _ E) k); [|set_solver].
      - eapply (clear_still c s ss); [exact E | exact H | exact Ek | exact Hx]. }
    intros k x Ek Hx. apply (IH w1 (s :: ss) H1 E' k x Ek). set_solver.
Qed.

(** ** A new message moves into a null pointer *)

Lemma set_slot_gives c s m ss w a w' :
  s ∉ ss -> Empty c (s :: ss) w -> set_cslot c s (Some m) w = Some (a, w') ->
  Gives m w w' /\ Empty c ss w'.
Proof.
  intros Hs He E. apply set_cslot_spec in E as (k & Ek & ->). split.
  - split; [simpl; lia|]. intros L H Hm. split; [|intros x _; by left].
    pose proof (own_local _ _ H) as [_ HL]%NoDup_cons.
    eapply own_update; [exact H| |done|done|simpl; by rewrite length_insert|done|done].
    eapply counted_perm; [|apply H]. intros x. simpl w_heap.
    pose proof (owners_set_cslot w (w_heap w) c k s (Some m) x Ek) as Ho. cbv zeta in Ho.
    rewrite (He k s Ek) in Ho by set_solver. rewrite !count_occ_app, cnt_cons.
    rewrite !cnt_option_list in Ho. simpl in Ho.
    change (owners (set_w_clocks ?l (set_w_heap (w_heap w) w))) with (owners (set_w_clocks l w)) in Ho.
    repeat case_decide; simplify_eq; lia.
  - apply (empty_written c s (Some m) ss w); [|done|].
    + exists k, (w_heap w). split; [done | by destruct w].
    + intros k' x Ek' Hx. apply (He k' x Ek'). set_solver.
Qed.
Lemma keeps_slot {A} c s m ss (g : unit -> M A) :
  s ∉ ss -> (forall u, Keeps (Under (Empty c ss) Kept) (g u)) ->
  Keeps (Under (Empty c (s :: ss)) (Gives m)) (set_cslot c s (Some m) ≫= g).
Proof.
  intros Hs Hg w a w'. unfold mbind, M_bind.
  destruct (set_cslot c s (Some m) w) as [[u w1]|] eqn:E; [|done]. intros E' He.
  destruct (set_slot_gives _ _ _ _ _ _ _ Hs He E) as [HG H1].
  eapply gives_kept; [exact HG | by eapply Hg].
Qed.

Lemma keeps_makes_under {A} c ss f (g : option mref -> M A) :
  Makes f -> Keeps Kept (g None) -> (forall m, Keeps (Under (Empty c ss) (Gives m)) (g (Some m))) ->
  Keeps (Under (Empty c ss) Kept) (f ≫= g).
Proof.
  intros Hf HN HS w a w'. unfold mbind, M_bind. destruct (f w) as [[o w1]|] eqn:E; [|done].
  pose proof (Hf _ _ _ E) as Ho. destruct o as [m|]; intros E' He.
  - eapply allocs_gives; [exact Ho|]. eapply HS; [exact E'|].
    eapply empty_slots; [apply Ho | exact He].
  - destruct Ho. etrans; [done | by eapply HN].
Qed.
(** The branch of a null pointer. *)
Lemma keeps_cslot {A} c s (f : mref -> M A) (g : M A) :
  (forall m, Keeps Kept (f m)) -> Keeps (Under (Empty c [s]) Kept) g ->
  Keeps Kept (o ← cslot c s; match o with Some m => f m | None => g end).
Proof.
  intros Hf Hg w a w'. unfold mbind, M_bind.
  destruct (cslot c s w) as [[o w0]|] eqn:E; [|done].
  apply cslot_spec in E as (-> & k & Ek & ->).
  destruct (c_msg k s) as [m|] eqn:Es; intros E'; [by eapply Hf|].
  eapply Hg; [exact E'|]. intros k' s' Ek' Hs'%list_elem_of_singleton. congruence.
Qed.

(** ** Messages the clock makes for itself *)

(** The handler gives back [a], and changes the contents of messages only. *)
Definition Yields {A} (a : A) (f : M A) : Prop :=
  forall w b w', f w = Some (b, w') -> Same w w' /\ b = a.
Lemma yields_bind {A B} (b : B) (f : M A) (g : A -> M B) :
  Keeps Same f -> (forall a, Yields b (g a)) -> Yields b (f ≫= g).
Proof.
  intros Hf Hg w b' w'. unfold mbind, M_bind. destruct (f w) as [[a w1]|] eqn:E; [|done].
  intros [HS ->]%Hg. split; [|done]. etrans; [by eapply Hf | done].
Qed.
Lemma yields_ret {A} (a : A) : Yields a (mret a).
Proof. by intros w b w' [= <- <-]. Qed.
Lemma makes_fill f (g : mref -> M (option mref)) :
  Makes f -> (forall m, Yields (Some m) (g m)) ->
  Makes (o ← f; match o with Some m => g m | None => mret None end).
Proof.
  intros Hf Hg w o w'. unfold mbind, M_bind. destruct (f w) as [[o1 w1]|] eqn:E; [|done].
  pose proof (Hf _ _ _ E) as Ho. destruct o1 as [m|].
  - intros [HS ->]%Hg. by eapply allocs_same.
  - by intros [= <- <-].
Qed.
Lemma makes_read {A} (f : M A) g : Reads f -> (forall a, Makes (g a)) -> Makes (f ≫= g).
Proof.
  intros Hf Hg w o w'. unfold mbind, M_bind. destruct (Hf w) as [->|[a ->]]; [done|].
  apply Hg.
Qed.

(** Follow the part of a handler that keeps the pointers of [R] null. *)
Ltac still R :=
  repeat (apply (keeps_bind R _); [first [solve [keeps R] | by apply save_still; set_solver]|];
          intros ?; cbv zeta).

Section messages.
Context {env : Env}.

Lemma own_message_makes c t len : Makes (own_message c t len).
Proof.
  unfold own_message. apply makes_read; [reads|]. intros k. cbv zeta.
  apply makes_read; [reads|]. intros n.
  apply (makes_fill (alloc_msg None (len n) None) (fun m => _)); [apply alloc_makes|]. intros m.
  apply yields_bind; [keeps Same|]. intros _. apply yields_bind; [keeps Same|]. intros no.
  apply yields_bind; [keeps Same|]. intros _. apply yields_bind; [keeps Same|]. intros _.
  apply yields_ret.
Qed.

(** A Sync and a Follow_Up of the clock itself. *)
Lemma make_follow_up_kept c : Keeps Kept (make_follow_up c).
Proof.
  unfold make_follow_up. apply (keeps_cslot c S.last_rx_fup (fun _ => mret true)).
  { intros _. kept. }
  set (R := Still (Empty c [S.last_rx_fup])). still R.
  apply keeps_makes_under; [apply alloc_makes | kept | intros fup]. still R.
  apply keeps_slot; [set_solver|]. intros _. apply (keeps_cover (R:=Kept) _). kept.
Qed.
Lemma keeps_cleared {A} c l ss (g : unit -> M A) :
  (forall s, s ∈ ss -> s ∈ l) -> (forall u, Keeps (Under (Empty c ss) Kept) (g u)) ->
  Keeps Kept (iterM (msg_clear c) l ≫= g).
Proof.
  intros Hs Hg w a w'. unfold mbind, M_bind.
  destruct (iterM (msg_clear c) l w) as [[u w1]|] eqn:E; [|done]. intros E'. etrans.
  - eapply (keeps_iterM Kept (msg_clear c)); [intros; apply msg_clear_kept | exact E].
  - eapply Hg; [exact E'|]. intros k s Ek Hin. eapply clear_all_empty; eauto.
Qed.
Lemma sync_timeout_kept c : Keeps Kept (clock_sync_timeout c).
Proof.
  unfold clock_sync_timeout. do 7 (apply (keeps_bind Kept _); [kept|]; intros ?).
  cbv beta.
  destruct (truthy _); [kept|]. apply (keeps_bind Kept _); [kept|]. intros class.
  destruct (class =? 255); [kept|].
  apply (keeps_cleared c _ [S.last_sync; S.last_fup]); [set_solver|]. intros _.
  apply keeps_makes_under; [apply own_message_makes | kept | intros sync].
  set (R := Still (Empty c [S.last_sync; S.last_fup])). still R.
  apply keeps_slot; [set_solver|]. intros _.
  set (R1 := Still (Empty c [S.last_fup])). still R1.
  apply keeps_makes_under; [apply own_message_makes | kept | intros fup]. still R1.
  apply keeps_slot; [set_solver|]. intros _. apply (keeps_cover (R:=Kept) _). kept.
Qed.
#[local] Hint Resolve make_follow_up_kept sync_timeout_kept : keeps.
Lemma fup_timeout_kept c : Keeps Kept (clock_fup_timeout c).
Proof. kept. Qed.
#[local] Hint Resolve fup_timeout_kept : keeps.
Lemma sync_timeout_work_kept c : Keeps Kept (do_clock_sync_timeout_work c).
Proof. kept. Qed.
Lemma fup_timeout_work_kept c : Keeps Kept (do_clock_fup_timeout_work c).
Proof. kept. Qed.
#[local] Hint Resolve sync_timeout_work_kept fup_timeout_work_kept : keeps.
Lemma run_work_kept i f : Keeps Kept (run_work i f).
Proof. kept. Qed.
#[local] Hint Resolve run_work_kept : keeps.
Lemma scan_kept fuel k : Keeps Kept (schedule_scan run_work fuel k).
Proof. revert k. induction fuel as [|fuel IH]; intros k; simpl; kept. Qed.

(** ** Management messages *)

Lemma handle_management_queues p m : Keeps (Queues m) (handle_management p m).
Proof. kept. Qed.
#[local] Hint Resolve handle_management_queues : keeps.

(** ** The receive and process tasks *)

Lemma handle_msg_queues t d p m : Keeps (Queues m) (handle_msg handle_management t d p m).
Proof. unfold handle_msg. repeat case_match; kept_leaf. Qed.
Lemma proc_msg_kept t d p m : Keeps Kept (proc_msg proc_management t d p m).
Proof. unfold proc_msg. repeat case_match; kept_leaf. Qed.
#[local] Hint Resolve proc_msg_kept : keeps.

(** A handler that may queue the message, then its release. *)
Lemma keeps_handled {A} m (f : M A) (g : A -> M unit) :
  Keeps (Queues m) f -> (forall a, Keeps (Releases m) (g a)) -> Keeps (Gives m) (f ≫= g).
Proof.
  intros Hf Hg w b w'. unfold mbind, M_bind. destruct (f w) as [[a w1]|] eqn:E; [|done].
  intros E'. eapply queues_releases; [by eapply Hf | by eapply Hg].
Qed.
Lemma ptp_rx_kept p b rx d src : Keeps Kept (ptp_rx handle_management p b rx d src).
Proof.
  unfold ptp_rx. repeat first [progress intros | progress cbv zeta
    | apply keeps_handled; [apply handle_msg_queues | intros; apply msg_put_releases]
    | kept_bind | kept_leaf | kept_unfold].
Qed.
#[local] Hint Resolve ptp_rx_kept : keeps.
Lemma setup_rx_kept b p s n d src r v :
  Keeps Kept (ptp_setup_rx handle_management b p s n d src r v).
Proof. kept. Qed.
#[local] Hint Resolve setup_rx_kept : keeps.
Lemma tx_timestamp_kept b i t q d sp p s n :
  Keeps Kept (proc_tx_timestamp handle_management b i t q d sp p s n).
Proof. kept. Qed.

(** The reference of the handler is given up. *)
Definition Drops (m : mref) (w w' : world) : Prop := forall L, Own (m :: L) w -> Own L w'.
#[local] Instance absorbs_drops m : Absorbs Kept (Drops m).
Proof. intros a b c [_ HK] HD L H. by apply HD, HK. Qed.
#[local] Instance covers_releases_drops m : Covers (Releases m) (Drops m).
Proof. intros a b [_ H] L HL. by apply H. Qed.

Lemma own_dequeue w m q : Own [] w -> w_mq w = m :: q -> Own [m] (set_w_mq q w).
Proof.
  intros H E. pose proof (own_mq _ _ H) as HN. rewrite E in HN. apply NoDup_cons in HN as [Hm HN].
  constructor; simpl; [|done|apply NoDup_singleton|apply H|apply H].
  eapply counted_perm; [|apply H]. intros x. unfold owners. simpl. rewrite E.
  rewrite !count_occ_app, !cnt_cons. simpl. lia.
Qed.
Lemma process_one_own w u w' : Own [] w -> process_one proc_management w = Some (u, w') -> Own [] w'.
Proof.
  intros H. unfold process_one. intros (q & w1 & [= <- <-] & E)%bind_inv.
  destruct (w_mq w) as [|m q] eqn:Eq; [by injection E as <- <-|].
  apply bind_inv in E as (u1 & w1 & [= <- <-] & E).
  pose proof (own_dequeue _ _ _ H Eq) as H1. revert E.
  match goal with |- ?h _ = _ -> _ => assert (K : Keeps (Drops m) h) end.
  { apply (keeps_bind Kept _); [kept|]. intros x. cbv zeta.
    apply (keeps_bind Kept _); [destruct (sv_tx _); kept|]. intros _.
    apply (keeps_cover (R:=Releases m) _), msg_put_releases. }
  intros E. exact (K _ _ _ E [] H1).
Qed.

(** ** Start of the stack *)

Lemma stop_kept l : Keeps Kept (ptp_stack_stop_clock l).
Proof. kept. Qed.

(** The transmit buffer is allocated once. *)
Lemma alloc_tx msg len rx w o w' : alloc_msg msg len rx w = Some (o, w') -> w_tx_msg w' = w_tx_msg w.
Proof.
  unfold alloc_msg. intros (n & w1 & [= <- <-] & E)%bind_inv.
  destruct (env_malloc _ _); [|by injection E as <- <-].
  apply bind_inv in E as (b & w1 & ->%reads_inv & E); [|apply reads_lift].
  apply bind_inv in E as (u & w1 & [= <- <-] & E). by injection E as <- <-.
Qed.
Lemma tx_init_own w u w' :
  Own [] w -> w_tx_msg w = None -> tx_msg_init w = Some (u, w') -> Own [] w'.
Proof.
  intros H Ht (o & w1 & E & [= <- <-])%bind_inv.
  pose proof (alloc_makes _ _ _ _ _ _ E) as Ho.
  assert (Ht1 : w_tx_msg w1 = None) by (by rewrite (alloc_tx _ _ _ _ _ _ E)).
  assert (H1 : Own (option_list o) w1) by (destruct o; [by apply Ho | by apply Ho]).
  constructor; simpl; [|apply H1|constructor|apply H1|apply H1].
  eapply counted_perm; [|apply H1]. intros x. unfold owners. simpl. rewrite Ht1.
  rewrite !count_occ_app. simpl. lia.
Qed.
Lemma init_stack_own a n w l w' :
  Own [] w -> w_tx_msg w = None -> init_stack a n w = Some (l, w') -> Own [] w'.
Proof.
  intros H Ht (u & w1 & E1 & E)%bind_inv. pose proof (tx_init_own _ _ _ H Ht E1) as H1.
  revert E. match goal with |- ?h _ = _ -> _ => assert (K : Keeps Kept h) end.
  { repeat first [progress intros | apply create_clocks_kept | kept_bind | kept_leaf | kept_unfold]. }
  intros E. by apply (K _ _ _ E).
Qed.

(** ** The reachable states *)

Lemma unused_own w : Unused w -> Own [] w.
Proof.
  intros [Hh Hq Ht Hl Hs _ _ _]. assert (E : owners w = []).
  { unfold owners. rewrite Hq, Ht. simpl. rewrite app_nil_r.
    clear -Hs. induction Hs as [|k ks Hk _ IH]; [done|].
    rewrite bind_cons, IH, app_nil_r. unfold slots. simpl. by rewrite !Hk. }
  constructor; rewrite ?E, ?Hh, ?Hq; [|constructor..|rewrite Hl; done|].
  - intros m. by rewrite lookup_empty.
  - intros m. rewrite lookup_empty. by intros [].
Qed.
Lemma input_own w w' : input w w' -> Own [] w -> Own [] w'.
Proof.
  intros Hin H. destruct Hin as [| | | | | | | |].
  - by eapply setup_rx_kept.
  - by eapply tx_timestamp_kept.
  - by eapply scan_kept.
  - by eapply (fire_timer_keeps Kept).
  - by eapply (link_keeps Kept).
  - by eapply (start_keeps Kept).
  - by eapply stop_kept.
  - by destruct H.
  - by destruct H.
Qed.
Lemma event_own w w' : event w w' -> Own [] w -> Own [] w'.
Proof. intros [? Hin | u ? E] H; [by eapply input_own | by eapply process_one_own]. Qed.
Lemma reachable_own w : reachable w -> Own [] w.
Proof.
  induction 1 as [a n w l w' HU E | w w' _ IH Hev]; [|by eapply event_own].
  eapply init_stack_own; [by apply unused_own | apply HU | exact E].
Qed.

(** C1: Message ownership: in every state the stack can reach, a message of the
    heap has exactly as many references as there are pointers of the clocks,
    entries of the queue and transmit buffers that hold it, and at least one; a
    pointer never holds a message that was released; no message is queued twice. *)
Theorem message_ownership w : reachable w ->
  (forall m x, w_heap w !! m = Some x ->
     m_refcnt x = Z.of_nat (cnt m (owners w)) /\ (0 < cnt m (owners w))%nat) /\
  (forall m, m ∈ owners w -> is_Some (w_heap w !! m)) /\ NoDup (w_mq w).
Proof.
  intros H%reachable_own. pose proof (own_counted _ _ H) as Hc. rewrite app_nil_r in Hc.
  split_and!; [|intros m Hm; by eapply counted_in|apply H].
  intros m x Ex. specialize (Hc m). by rewrite Ex in Hc.
Qed.

(** C16: No message is leaked: besides the messages of the queue there are never
    more than 19, six for each of the three clocks and the transmit buffer. *)
Theorem no_message_leak w : reachable w -> (size (w_heap w) <= 19 + length (w_mq w))%nat.
Proof.
  intros H%reachable_own. pose proof (own_counted _ _ H) as Hc. rewrite app_nil_r in Hc.
  assert (HL : (length (owners w) <= 19 + length (w_mq w))%nat).
  { unfold owners. rewrite !length_app. pose proof (all_slots_length (w_clocks w)).
    pose proof (own_clocks _ _ H). destruct (w_tx_msg w); simpl; lia. }
  etrans; [|exact HL]. rewrite <- length_map_to_list, <- (length_fmap fst).
  apply NoDup_incl_length; [apply NoDup_ListNoDup, NoDup_fst_map_to_list|].
  intros m Hm%list_elem_of_In. apply list_elem_of_fmap in Hm as ([m' x] & -> & Hx).
  apply elem_of_map_to_list in Hx. specialize (Hc m'). rewrite Hx in Hc.
  apply (count_occ_In Nat.eq_dec). by apply Hc.
Qed.

End messages.

(** ** Witnesses *)

Section witness.
#[local] Existing Instance zero_env.

Lemma message_ownership_witness :
  w_mq asked_world = [9%nat] /\ (forall m, m ∈ owners asked_world -> is_Some (w_heap asked_world !! m)).
Proof.
  split; [by vm_compute|]. exact (proj1 (proj2 (message_ownership asked_world asked_reachable))).
Defined.
Lemma no_message_leak_witness : (size (w_heap asked_world) <= 20)%nat.
Proof. exact (no_message_leak asked_world asked_reachable). Defined.

End witness.
