(* ===== verification/Fifo.v ===== *)
(** * The order of the messages

    The receive task and the handlers put messages at the end of the queue, the
    process task takes the first. *)

From stdpp Require Import base list numbers option gmap.
From Stdlib Require Import ZArith Lia.
From S2P Require Import Prelude Types Wire World Keeps Msgs Timers Config PortFsm ClockOps Tx.
From S2P Require Import Port Decision Rx Manage ClockWork Setup Stack Boot Plain Reach Stable.

(** ** Handlers add to the end *)

Definition Extends (w w' : world) : Prop := w_mq w `prefix_of` w_mq w'.
#[export] Instance extends_preorder : PreOrder Extends.
Proof. split; [by intros w; unfold Extends | intros a b c; unfold Extends; by apply transitivity]. Qed.

Lemma extends_alike w w' : w_mq w' = w_mq w -> Extends w w'.
Proof. unfold Extends. by intros ->. Qed.
Lemma modify_extends f : (forall w, w_mq (f w) = w_mq w) -> Keeps Extends (modify f).
Proof. intros H w a w' [= <- <-]. by apply extends_alike. Qed.
Lemma mod_port_extends p f : Keeps Extends (mod_port p f).
Proof.
  intros w a w' (q & w1 & E & [= <- <-])%bind_inv. apply reads_inv in E as ->; [|reads].
  apply extends_alike. by destruct p.
Qed.
#[local] Hint Resolve modify_extends : keeps.
#[local] Hint Extern 2 (forall _, w_mq _ = w_mq _) => intros; reflexivity : keeps.

#[export] Instance plain_extends : Plain Extends.
Proof.
  constructor.
  - apply _.
  - intros. apply mod_port_extends.
  - intros. keeps Extends.
  - intros. keeps Extends.
  - intros f Hf. apply modify_extends. intros w. by destruct (Hf w) as [_ [= ]].
  - intros w a w' [= <- <-]. by apply extends_alike.
  - intros. keeps Extends.
  - intros. keeps Extends.
  - intros. keeps Extends.
  - intros. keeps Extends.
Qed.
#[export] Instance stable_extends : Stable Extends.
Proof.
  constructor.
  - apply _.
  - intros. keeps Extends.
  - intros f Hf. apply modify_extends. intros w. by pose proof (Hf w) as [= ].
  - intros m w a w' [= <- <-]. by apply prefix_app_r.
  - intros. keeps Extends.
  - intros. by apply extends_alike.
  - intros. by apply extends_alike.
  - intros. by apply extends_alike.
Qed.

(** ** Runs *)

Section runs.
Context {env : Env}.

(** Inputs, and [n] rounds of the process task. *)
Inductive after : nat -> world -> world -> Prop :=
  | after_none w : after 0 w w
  | after_process n w u w1 w' :
      process_one proc_management w = Some (u, w1) -> after n w1 w' -> after (S n) w w'
  | after_input n w w1 w' : input w w1 -> after n w1 w' -> after n w w'.

Lemma process_pops w u w' :
  process_one proc_management w = Some (u, w') -> tail (w_mq w) `prefix_of` w_mq w'.
Proof.
  intros [[E ->]|(m & q & E & H)]%(process_stable Extends); rewrite E; [apply prefix_nil | exact H].
Qed.

(** C12: Messages are processed in the order they were queued, and each comes to
    its turn: whatever comes in meanwhile, a message that has [k] others before
    it is [n] places nearer to the head after [n] rounds of the process task,
    with the same messages before it, and first after [k] rounds. *)
Theorem queue_order n w w' : after n w w' -> drop n (w_mq w) `prefix_of` w_mq w'.
Proof.
  induction 1 as [w | n w u w1 w' E _ IH | n w w1 w' E%(input_stable Extends) _ IH].
  - done.
  - apply process_pops in E. destruct (w_mq w) as [|m q]; simpl in *.
    { apply prefix_nil. }
    etrans; [|exact IH]. destruct E as [l ->]. rewrite drop_app. by apply prefix_app_r.
  - etrans; [|exact IH]. destruct E as [l ->]. rewrite drop_app. by apply prefix_app_r.
Qed.

End runs.

(** ** Witness *)

Section witness.
#[local] Existing Instance zero_env.

(** The same request is queued twice, then the first is processed. *)
Definition twice_world : world :=
  run (ptp_setup_rx handle_management get_port_ds_frame 1 0 1 false None false 0) asked_world.
Lemma queue_order_witness : exists m1 m2 w',
  w_mq twice_world = [m1; m2] /\ m1 <> m2 /\ after 1 twice_world w' /\ [m2] `prefix_of` w_mq w'.
Proof.
  assert (E : runs (process_one proc_management) twice_world = true) by by vm_compute.
  apply runs_spec in E as [u E].
  assert (H : after 1 twice_world (run (process_one proc_management) twice_world)).
  { eapply after_process; [exact E | apply after_none]. }
  eexists _, _, _. split_and!; [by vm_compute | by vm_compute | exact H |].
  exact (queue_order _ _ _ H).
Defined.

End witness.
