(* ===== verification/SyncProofs.v ===== *)
(** * The offset from the master

    What [port_sync] computes from a Sync, as exact arithmetic on scaled
    nanoseconds. *)

From stdpp Require Import base list numbers option.
From Stdlib Require Import ZArith Lia SpecFloat.
From S2P Require Import Prelude Ptu Filter FilterProofs Types World Keeps Sync Stack Boot.

(** ** The times of a message *)

(** Scaled nanoseconds of a timestamp. *)
Definition ts_val (t : ptp_timestamp) : Z :=
  ((ts_hi t * 2 ^ 32 + ts_lo t) * NANOSEC_IN_SEC + ts_nsec t) * 65536.
Definition ut_val (t : ptp_utime) : Z := (ut_sec t * NANOSEC_IN_SEC + ut_nsec t) * 65536.
Definition ts_ok (t : ptp_timestamp) : Prop :=
  0 <= ts_hi t < 2 ^ 16 /\ 0 <= ts_lo t < 2 ^ 32 /\ 0 <= ts_nsec t < NANOSEC_IN_SEC.
Definition ut_ok (t : ptp_utime) : Prop :=
  0 <= ut_sec t < 2 ^ 32 /\ 0 <= ut_nsec t < NANOSEC_IN_SEC.
Definition fits64 (z : Z) : Prop := - 2 ^ 63 <= z < 2 ^ 63.

(** A normalised time of few seconds, with its value. *)
Record Exact (u : ptu) (b v : Z) : Prop := mk_exact {
  exact_wf : ptu_wf u; exact_sec : Z.abs (u_sec u) <= b; exact_val : ptu_val u = v }.

Lemma exact_small u b v : Exact u b v -> b < 2 ^ 62 -> ptu_small u.
Proof. intros [_ H _] Hb. unfold ptu_small. lia. Qed.
Lemma exact_add u1 u2 b1 b2 v1 v2 : Exact u1 b1 v1 -> Exact u2 b2 v2 ->
  b1 < 2 ^ 62 -> b2 < 2 ^ 62 -> Exact (ptu_add u1 u2) (b1 + b2 + 2) (v1 + v2).
Proof.
  intros H1 H2 B1 B2.
  destruct (ptu_add_spec u1 u2) as [W V]; eauto using exact_small, exact_wf.
  split; [done| |by rewrite V, (exact_val _ _ _ H1), (exact_val _ _ _ H2)].
  etrans; [eapply (small_sum u1 u2); eauto using exact_wf|].
  destruct H1, H2. lia.
Qed.
Lemma exact_sub u1 u2 b1 b2 v1 v2 : Exact u1 b1 v1 -> Exact u2 b2 v2 ->
  b1 < 2 ^ 62 -> b2 < 2 ^ 62 -> Exact (ptu_sub u1 u2) (b1 + b2 + 2) (v1 - v2).
Proof.
  intros H1 H2 B1 B2.
  destruct (ptu_sub_spec u1 u2) as [W V]; eauto using exact_small, exact_wf.
  split; [done| |by rewrite V, (exact_val _ _ _ H1), (exact_val _ _ _ H2)].
  etrans; [eapply (small_diff u1 u2); eauto using exact_wf|].
  destruct H1, H2. lia.
Qed.

Lemma exact_timestamp t : ts_ok t -> Exact (ptp_timestamp_to_scaled t) (2 ^ 48) (ts_val t).
Proof.
  intros (Hh & Hl & Hn). unfold ptp_timestamp_to_scaled, ts_val. rewrite lor_shift by lia.
  unfold SCALED_NANOSEC_S. rewrite Z.shiftl_mul_pow2 by lia. unfold NANOSEC_IN_SEC in *.
  rewrite !s64_small by lia. split; ptu_unfold; lia.
Qed.
Lemma exact_utime t : ut_ok t -> Exact (ptp_utime_to_scaled t) (2 ^ 32) (ut_val t).
Proof.
  intros (Hs & Hn). unfold ptp_utime_to_scaled, ut_val.
  unfold SCALED_NANOSEC_S. rewrite Z.shiftl_mul_pow2 by lia. unfold NANOSEC_IN_SEC in *.
  rewrite !s64_small by lia. split; ptu_unfold; lia.
Qed.
Lemma exact_correction s : fits64 s -> Exact (ptp_correction_to_scaled s) (2 ^ 18) s.
Proof.
  unfold fits64, ptp_correction_to_scaled. rewrite SCALED_NANOSEC_IN_SEC_val. intros H.
  pose proof (Z.quot_rem' s 65536000000000).
  split; ptu_unfold; Z.to_euclidean_division_equations; lia.
Qed.
Lemma exact_zero : Exact ptu_zero 0 0.
Proof. split; ptu_unfold; simpl; lia. Qed.
Lemma exact_nonzero u b v : Exact u b v -> ptu_empty u = (v =? 0).
Proof.
  destruct u as [s n]. intros [W _ <-]. unfold ptu_empty. ptu_unfold.
  destruct (Z.eqb_spec s 0), (Z.eqb_spec n 0); simpl; symmetry; apply Z.eqb_eq || apply Z.eqb_neq; lia.
Qed.
Lemma exact_delay d : - NANOSEC_IN_SEC < d < NANOSEC_IN_SEC ->
  Exact (mk_ptu 0 (s64 (Z.shiftl d SCALED_NANOSEC_S))) 0 (d * 65536).
Proof.
  unfold SCALED_NANOSEC_S, NANOSEC_IN_SEC. intros H. rewrite Z.shiftl_mul_pow2 by lia.
  rewrite s64_small by lia. split; ptu_unfold; lia.
Qed.

(** ** The offset *)

Definition path_delay (f : ptp_filter) : Z := if f_delay_valid f then f_delay f * 65536 else 0.

Lemma filter_offset f t1 t2 v1 v2 :
  Exact t1 (2 ^ 50) v1 -> Exact t2 (2 ^ 50) v2 -> v1 <> 0 -> v2 <> 0 ->
  - NANOSEC_IN_SEC < f_delay f < NANOSEC_IN_SEC ->
  exists o, filter_update_offset (filter_set_t1_t2 f t1 t2) = (0, Some o) /\
    ptu_wf o /\ ptu_val o = v2 - v1 - path_delay f.
Proof.
  intros H1 H2 N1 N2 Hd. unfold filter_update_offset, filter_set_t1_t2, path_delay.
  cbn [f_t1 f_t2 f_delay_valid f_delay].
  rewrite (exact_nonzero _ _ _ H1), (exact_nonzero _ _ _ H2).
  rewrite (proj2 (Z.eqb_neq _ _) N1), (proj2 (Z.eqb_neq _ _) N2). simpl orb.
  pose proof (exact_sub _ _ _ _ _ _ H2 H1 ltac:(lia) ltac:(lia)) as H12.
  destruct (f_delay_valid f); eexists; (split; [done|]).
  - destruct (exact_sub _ _ _ _ _ _ H12 (exact_delay _ Hd) ltac:(lia) ltac:(lia)). by split.
  - destruct H12. split; [done|lia].
Qed.

Lemma sync_origin origin cor_sync cor_fup :
  ts_ok origin -> fits64 cor_sync -> fits64 cor_fup ->
  Exact (ptu_add (ptp_timestamp_to_scaled origin)
           (ptu_add (ptp_correction_to_scaled cor_sync)
              (if truthy cor_fup then ptp_correction_to_scaled cor_fup else ptu_zero)))
    (2 ^ 50) (ts_val origin + (cor_sync + cor_fup)).
Proof.
  intros Ho Hs Hf.
  assert (H2 : Exact (if truthy cor_fup then ptp_correction_to_scaled cor_fup else ptu_zero)
    (2 ^ 18) cor_fup).
  { unfold truthy. destruct (Z.eqb_spec cor_fup 0) as [->|_]; simpl; [|by apply exact_correction].
    destruct exact_zero. by split; [|lia|]. }
  pose proof (exact_add _ _ _ _ _ _ (exact_correction _ Hs) H2 ltac:(lia) ltac:(lia)) as H12.
  pose proof (exact_add _ _ _ _ _ _ (exact_timestamp _ Ho) H12 ltac:(lia) ltac:(lia)) as [? B ?].
  by split; [|lia|].
Qed.

Section offset.
Context {env : Env}.


End offset.

