(* ===== verification/ForeignProofs.v ===== *)
(** * When a foreign master is taken into account

    The Announce messages of one transmitter, from the first on: the entry of
    the table counts them, and the state decision is asked for once, when their
    number reaches the threshold. *)

From stdpp Require Import base list numbers option.
From Stdlib Require Import ZArith Lia.
From S2P Require Import Prelude Types Bmca Interval World Keeps Timers ClockOps Tx Port Decision.
From S2P Require Import Setup Stack Boot Reach.

Definition threshold_of (gptp : bool) : Z := if gptp then 1 else FOREIGN_MASTER_THRESHOLD.

(** ** The table *)

(** What [add_foreign_master] does to the table, with its answer. *)
Definition announce_table (p : pref) (gptp : bool) (ds : bmc_dataset) (l : list foreign_dataset)
    : bool * list foreign_dataset :=
  let '(o, l') := find_foreign_master l ds in
  match o with
  | None => (false, l)
  | Some i =>
      match l' !! i with
      | None => (false, l)
      | Some f =>
          let '(f, meet, diff) := count_announce p (threshold_of gptp) ds f in
          (meet || diff, <[i := f]> l')
      end
  end.

(** The entry of another transmitter, or of none. *)
Definition other (ds : bmc_dataset) (f : foreign_dataset) : Prop :=
  fd_cnt f = 0 \/ same_port_id (ds_tx ds) (ds_tx (fd_dataset f)) = false.
(** The entry after [k] messages. *)
Definition counted_entry (p : pref) (gptp : bool) (ds : bmc_dataset) (k : Z) : foreign_dataset :=
  mk_fd ds (k `min` threshold_of gptp) (threshold_of gptp <=? k) (Some p).
(** The transmitter is not known, and there is room for it. *)
Definition unknown (ds : bmc_dataset) (l : list foreign_dataset) : Prop :=
  Forall (other ds) l /\ Forall (fun f => fd_cnt f = 0 -> fd_valid f = false) l /\
  Exists (fun f => fd_cnt f = 0) l.
Definition known (p : pref) (gptp : bool) (ds : bmc_dataset) (k : Z) (l : list foreign_dataset)
    : Prop :=
  exists j, l !! j = Some (counted_entry p gptp ds k) /\
    forall i f, i <> j -> l !! i = Some f -> other ds f.

Lemma same_port_id_refl h : same_port_id h h = true.
Proof. unfold same_port_id. by rewrite memcmp_refl. Qed.
Lemma dataset_cmp_refl ds : dataset_cmp ds ds = false.
Proof. unfold dataset_cmp. by rewrite !bool_decide_true. Qed.
Lemma threshold_range gptp : 1 <= threshold_of gptp <= 3.
Proof. by destruct gptp. Qed.

Lemma count_step p gptp ds k : 0 < k ->
  count_announce p (threshold_of gptp) ds (counted_entry p gptp ds k) =
  (counted_entry p gptp ds (k + 1), k + 1 =? threshold_of gptp, false).
Proof.
  intros Hk. pose proof (threshold_range gptp) as Ht. unfold count_announce, counted_entry. simpl.
  rewrite dataset_cmp_refl, andb_false_r.
  assert (k `min` threshold_of gptp =? 0 = false) as -> by (apply Z.eqb_neq; lia).
  assert ((threshold_of gptp - 1 =? k `min` threshold_of gptp) = (k + 1 =? threshold_of gptp)) as ->.
  { apply eq_true_iff_eq. rewrite !Z.eqb_eq. lia. }
  f_equal. f_equal. f_equal.
  - destruct (threshold_of gptp <=? k) eqn:E; bools; [lia|]. rewrite (uN_small 8) by lia. lia.
  - apply eq_true_iff_eq. rewrite orb_true_iff, Z.eqb_eq, !Z.leb_le. lia.
Qed.
Lemma count_first p gptp ds f : fd_cnt f = 0 -> fd_valid f = false ->
  count_announce p (threshold_of gptp) ds (mk_fd ds (fd_cnt f) (fd_valid f) (fd_port f)) =
  (counted_entry p gptp ds 1, 1 =? threshold_of gptp, false).
Proof.
  intros Hc Hv. unfold count_announce, counted_entry. simpl. rewrite Hc, Hv. by destruct gptp.
Qed.

Lemma first_announce p gptp ds l : unknown ds l ->
  let r := announce_table p gptp ds l in
  fst r = (1 =? threshold_of gptp) /\ known p gptp ds 1 (snd r).
Proof.
  intros (Hn & Hv & Hf). unfold announce_table. pose proof (find_foreign_found l ds) as H.
  destruct (find_foreign_master l ds) as [[i|] l']; cbn in H.
  - destruct H as (f & Ef & [(Hc & Hs & _)|(Hc & _ & ->)]).
    { destruct (Forall_lookup_1 _ _ _ _ Hn Ef) as [?|?]; [done|congruence]. }
    pose proof (lookup_lt_Some _ _ _ Ef) as Hi.
    rewrite list_lookup_insert_eq by done.
    rewrite count_first by (done || by apply (Forall_lookup_1 _ _ _ _ Hv Ef)).
    simpl. rewrite orb_false_r. split; [done|]. exists i. split.
    + by rewrite list_lookup_insert_eq by by rewrite length_insert.
    + intros j g Hj. rewrite !list_lookup_insert_ne by done. by apply (Forall_lookup_1 _ _ _ _ Hn).
  - destruct H as [_ H]. exfalso. apply Exists_exists in Hf as (f & Hin & Hc).
    rewrite Forall_forall in H. by destruct (H f Hin).
Qed.

Lemma next_announce p gptp ds k l : 0 < k -> known p gptp ds k l ->
  let r := announce_table p gptp ds l in
  fst r = (k + 1 =? threshold_of gptp) /\ known p gptp ds (k + 1) (snd r).
Proof.
  intros Hk (j & Ej & Hoth). unfold announce_table. pose proof (find_foreign_found l ds) as H.
  assert (Hj : ~ other ds (counted_entry p gptp ds k)).
  { pose proof (threshold_range gptp). unfold other, counted_entry. simpl.
    rewrite same_port_id_refl. intros [?|?]; [lia|done]. }
  destruct (find_foreign_master l ds) as [[i|] l']; cbn in H.
  - destruct H as (f & Ef & [(Hc & Hs & ->)|(_ & Hall & _)]).
    + assert (i = j) as ->.
      { destruct (decide (i = j)) as [->|Hi]; [done|].
        destruct (Hoth i f Hi Ef) as [?|?]; [done|congruence]. }
      rewrite Ej, count_step by done. simpl. rewrite orb_false_r. split; [done|].
      exists j. rewrite list_lookup_insert_eq by by eapply lookup_lt_Some. split; [done|].
      intros i g Hi. rewrite list_lookup_insert_ne by done. by apply Hoth.
    + destruct Hj. by apply (Forall_lookup_1 _ _ _ _ Hall Ej).
  - destruct H as [_ H]. destruct (Forall_lookup_1 _ _ _ _ H Ej) as [_ H2].
    destruct Hj. by right.
Qed.

(** ** The handler *)

Lemma interval_ms_range i : -128 <= i < 128 -> 1 <= ptp_interval_to_ms i <= 256000.
Proof.
  intros Hi. rewrite ptp_interval_to_ms_closed by lia. destruct (i >=? 0) eqn:E; bools.
  - pose proof (Z.pow_pos_nonneg 2 (i `min` 8)). pose proof (Z.pow_le_mono_r 2 (i `min` 8) 8). lia.
  - assert (0 < 2 ^ (- i - 1)) by (apply Z.pow_pos_nonneg; lia).
    assert (500 / 2 ^ (- i - 1) <= 500) by (apply Z.div_le_upper_bound; nia). lia.
Qed.

(** One step of a run. *)
Lemma bind_run {A B} (f : M A) (g : A -> M B) w a w1 : f w = Some (a, w1) -> (f ≫= g) w = g a w1.
Proof. intros E. unfold mbind, M_bind. by rewrite E. Qed.
Lemma hw_run i w q : w_hw w !! i = Some q -> get_port (Hw i) w = Some (q, w).
Proof. intros E. unfold get_port. by rewrite E. Qed.
Lemma mod_hw_run i f w q : w_hw w !! i = Some q ->
  mod_port (Hw i) f w = Some (tt, set_w_hw (<[i := f q]> (w_hw w)) w).
Proof. intros E. unfold mod_port. by rewrite (bind_run _ _ _ _ _ (hw_run _ _ _ E)). Qed.

Section handler.
Context {env : Env}.

Lemma announce_timeout_runs i q w : w_hw w !! i = Some q -> port_typed q ->
  exists w', port_set_announce_timeout (Hw i) w = Some (tt, w') /\ w_hw w' = w_hw w.
Proof.
  intros Hq Ht. pose proof (Ht P.ds_logAnnounceInterval) as H1.
  pose proof (Ht P.ds_announceReceiptTimeout) as H2. simpl in H1, H2.
  pose proof (interval_ms_range (p_num q P.ds_logAnnounceInterval) ltac:(lia)) as Hms.
  unfold port_set_announce_timeout, pv, mulM, mbind, M_bind, get_port. rewrite Hq. simpl. rewrite Hq.
  simpl. rewrite (s32_small (_ * _)) by nia. rewrite Z.eqb_refl. by eexists.
Qed.

Lemma add_foreign_runs i ds q w : w_hw w !! i = Some q -> port_typed q ->
  let r := announce_table (Hw i) (truthy (p_num q P.gptp)) ds (p_foreign q) in
  exists w', add_foreign_master (Hw i) ds w = Some (fst r, w') /\
    w_hw w' !! i = Some (set_p_foreign (snd r) q).
Proof.
  intros Hq Ht. pose proof (lookup_lt_Some _ _ _ Hq) as Hi. unfold announce_table.
  assert (Eb : pb (Hw i) P.gptp w = Some (truthy (p_num q P.gptp), w)).
  { unfold pb, pv, mbind, M_bind. by rewrite (hw_run _ _ _ Hq). }
  unfold add_foreign_master. rewrite (bind_run _ _ _ _ _ Eb), (bind_run _ _ _ _ _ (hw_run _ _ _ Hq)).
  fold (threshold_of (truthy (p_num q P.gptp))).
  pose proof (find_foreign_found (p_foreign q) ds) as HF.
  destruct (find_foreign_master (p_foreign q) ds) as [[j|] l]; cbn in HF.
  2: { exists w. split; [done|]. simpl. rewrite Hq. f_equal. by destruct q. }
  destruct HF as (f0 & Ef0 & HF).
  assert (is_Some (l !! j)) as [f Ef].
  { destruct HF as [(_ & _ & ->)|(_ & _ & ->)]; [by eexists|].
    by rewrite list_lookup_insert_eq by by eapply lookup_lt_Some. }
  rewrite (bind_run _ _ _ _ _ (mod_hw_run i (set_p_foreign l) w q Hq)), Ef.
  set (w1 := set_w_hw (<[i:=set_p_foreign l q]> (w_hw w)) w).
  assert (H1 : w_hw w1 !! i = Some (set_p_foreign l q)) by (by apply list_lookup_insert_eq).
  destruct (announce_timeout_runs i _ w1 H1) as (w2 & E2 & Hhw); [exact Ht|].
  rewrite (bind_run _ _ _ _ _ E2). rewrite <- Hhw in H1.
  rewrite (bind_run _ _ w2 f w2) by done.
  destruct (count_announce _ _ _ _) as [[f1 meet] diff].
  rewrite (bind_run _ _ _ _ _ (mod_hw_run i _ w2 _ H1)). eexists. split; [done|].
  apply list_lookup_insert_eq. rewrite Hhw. simpl. by rewrite length_insert.
Qed.

(** The same dataset is announced [n] times; the answers. *)
Fixpoint announces (i : nat) (ds : bmc_dataset) (n : nat) : M (list bool) :=
  match n with
  | O => mret []
  | S n => b ← add_foreign_master (Hw i) ds; l ← announces i ds n; mret (b :: l)
  end.

(** The [k] messages are counted in the entry of the transmitter. *)
Definition counts (i : nat) (ds : bmc_dataset) (k : nat) (q : port) : Prop :=
  port_typed q /\
  match k with
  | O => unknown ds (p_foreign q)
  | S _ => known (Hw i) (truthy (p_num q P.gptp)) ds (Z.of_nat k) (p_foreign q)
  end.

Lemma counts_step i ds k q w : w_hw w !! i = Some q -> counts i ds k q ->
  exists q' w', w_hw w' !! i = Some q' /\ counts i ds (S k) q' /\ p_num q' = p_num q /\
    add_foreign_master (Hw i) ds w =
    Some (Z.of_nat (S k) =? threshold_of (truthy (p_num q P.gptp)), w').
Proof.
  intros Hq [Ht Hk]. destruct (add_foreign_runs i ds q w Hq Ht) as (w' & E & Hq').
  assert (Hr : let r := announce_table (Hw i) (truthy (p_num q P.gptp)) ds (p_foreign q) in
    fst r = (Z.of_nat (S k) =? threshold_of (truthy (p_num q P.gptp))) /\
    known (Hw i) (truthy (p_num q P.gptp)) ds (Z.of_nat (S k)) (snd r)).
  { destruct k as [|k]; [by apply first_announce|].
    replace (Z.of_nat (S (S k))) with (Z.of_nat (S k) + 1) by lia.
    apply next_announce; [lia | exact Hk]. }
  destruct Hr as [E1 K1]. eexists _, w'. split; [exact Hq'|]. split; [by split|].
  split; [done|]. by rewrite E, E1.
Qed.

(** C5: A foreign master is taken into account at its third Announce, the first
    in the gPTP profile: [n] messages with the dataset of a transmitter the port
    does not know, when there is room for it, ask for a state decision exactly
    once, at the threshold; from then on the entry is valid, and only then. *)
Theorem foreign_master_threshold i ds n q w
  (Hq : w_hw w !! i = Some q) (Ht : port_typed q) (Hu : unknown ds (p_foreign q)) :
  let t := if truthy (p_num q P.gptp) then 1 else FOREIGN_MASTER_THRESHOLD in
  exists w' q', announces i ds n w = Some ((fun k => k =? t) <$> seqZ 1 (Z.of_nat n), w') /\
    w_hw w' !! i = Some q' /\
    (0 < Z.of_nat n -> exists j, p_foreign q' !! j =
       Some (mk_fd ds (Z.of_nat n `min` t) (t <=? Z.of_nat n) (Some (Hw i)))).
Proof.
  intros t. change t with (threshold_of (truthy (p_num q P.gptp))). clear t.
  assert (G : forall k w q, w_hw w !! i = Some q -> counts i ds k q ->
    exists w' q', announces i ds n w = Some
      ((fun k => k =? threshold_of (truthy (p_num q P.gptp))) <$> seqZ (Z.of_nat k + 1) (Z.of_nat n), w') /\
      w_hw w' !! i = Some q' /\ counts i ds (k + n) q' /\ p_num q' = p_num q).
  { clear. induction n as [|n IH]; intros k w q Hq Hk.
    { exists w, q. rewrite Nat.add_0_r. by rewrite seqZ_nil by lia. }
    destruct (counts_step i ds k q w Hq Hk) as (q1 & w1 & Hq1 & Hk1 & En & E).
    destruct (IH (S k) w1 q1 Hq1 Hk1) as (w2 & q2 & E2 & Hq2 & Hk2 & En2).
    exists w2, q2. rewrite Nat.add_succ_r. split_and!; [|done|done|congruence].
    simpl. unfold mbind, M_bind. rewrite E, E2, En. rewrite (seqZ_cons (Z.of_nat k + 1)) by lia.
    rewrite fmap_cons. unfold mret, M_ret.
    replace (Z.succ (Z.of_nat k + 1)) with (Z.of_nat (S k) + 1) by lia.
    replace (Z.pred (Z.of_nat (S n))) with (Z.of_nat n) by lia.
    by replace (Z.of_nat (S k)) with (Z.of_nat k + 1) by lia. }
  destruct (G 0%nat w q Hq (conj Ht Hu)) as (w' & q' & E & Hq' & [_ Hk] & En).
  exists w', q'. split; [exact E|]. split; [done|]. intros Hn.
  destruct n as [|n]; [lia|]. destruct Hk as (j & Ej & _). exists j. by rewrite Ej, En.
Qed.
End handler.

(** A port that listens, in the default profile. *)
Section witness.
#[local] Existing Instance zero_env.
Definition announced : bmc_dataset :=
  mk_ds 128 128 1 [1; 2; 3; 255; 254; 4; 5; 6] (mk_quality 6 33 17258)
    (mk_pid (replicate 8 0) 1) (mk_pid [1; 2; 3; 255; 254; 4; 5; 6] 1).
Lemma lookup_default {A} (l : list A) i d : (i <? length l)%nat = true -> l !! i = Some (default d (l !! i)).
Proof. intros [x E]%Nat.ltb_lt%lookup_lt_is_Some. by rewrite E. Qed.
Lemma foreign_master_threshold_witness : exists w',
  announces 0 announced 4 linked = Some ([false; false; true; false], w').
Proof.
  pose (q := default port0 (w_hw linked !! 0%nat)).
  destruct (foreign_master_threshold 0 announced 4 q linked) as (w' & q' & E & _).
  - apply lookup_default. vm_compute. reflexivity.
  - intros []; vm_compute; split; congruence.
  - assert (Eq : p_foreign q = replicate 2 fd0) by (vm_compute; reflexivity). rewrite Eq.
    split; [|split]; [by repeat constructor; left|by repeat constructor|by constructor].
  - exists w'. rewrite E. repeat f_equal.
Defined.
End witness.
