(* ===== verification/PortPath.v ===== *)
(** * The state machine of a port

    The steps of [port_next], the states a port can reach by them, and how the
    handlers follow them. *)

From stdpp Require Import base list numbers option gmap.
From Stdlib Require Import ZArith Lia.
From S2P Require Import Prelude Types Bmca World Keeps Timers PortFsm ClockOps Sync Tx Port.
From S2P Require Import Decision Rx Setup Stack Boot Reach.

(** ** States reached *)

(** A port of a clock with a single port [p]: events of timers, of the link and
    of the servo; the state decision, with the best port and the datasets it may
    find, none of them that of the clock itself; and, when [looped], an Announce
    with the identity of the clock and a smaller port number. *)
Inductive port_path (gptp looped : bool) (class : Z) (p : pref) : ptp_state -> Prop :=
  | path_start : port_path gptp looped class p PTP_S_INITIALIZING
  | path_event s e :
      port_path gptp looped class p s ->
      e ∈ [EVENT_INIT_COMPLETE; EVENT_FAULT_SET; EVENT_FAULT_CLEAR; EVENT_ENABLE; EVENT_DISABLE;
           EVENT_ANNOUNCE_TIMEOUT; EVENT_QUALIFICATION_TIMEOUT; EVENT_CLOCK_STABLE;
           EVENT_CLOCK_UNSTABLE] ->
      port_path gptp looped class p (port_next gptp class s e)
  | path_decision s own clock_best best_port port_best :
      port_path gptp looped class p s ->
      (best_port = None \/ best_port = Some p) ->
      match port_best with Some b => memcmp (ds_id own) (ds_id b) <> 0 | None => True end ->
      port_path gptp looped class p
        (port_next gptp class s
           (decision_event (bmca_decide class own clock_best best_port p port_best s)))
  | path_own s :
      looped = true -> port_path gptp looped class p s ->
      s ∉ [PTP_S_INITIALIZING; PTP_S_FAULTY; PTP_S_DISABLED] ->
      port_path gptp looped class p PTP_S_PASSIVE.

(** The states of a port that is never master. *)
Definition slave_states : list ptp_state :=
  [PTP_S_INITIALIZING; PTP_S_FAULTY; PTP_S_DISABLED; PTP_S_LISTENING; PTP_S_UNCALIBRATED;
   PTP_S_SLAVE].

Lemma slave_decision own clock_best best_port p port_best s :
  (best_port = None \/ best_port = Some p) ->
  match port_best with Some b => memcmp (ds_id own) (ds_id b) <> 0 | None => True end ->
  let d := bmca_decide 255 own clock_best best_port p port_best s in
  d = PTP_S_LISTENING \/ d = PTP_S_FAULTY \/ d = PTP_S_SLAVE.
Proof.
  intros Hb Hp. unfold bmca_decide, port_can_accept_announce. change (255 <=? 127) with false.
  destruct (match port_best with None => true | Some _ => false end && _) eqn:E.
  { apply andb_prop in E as [_ E]. destruct s; simpl in E; try done; auto. }
  simpl orb. assert (match port_best with
    | Some b => memcmp (ds_id own) (ds_id b) =? 0 | None => false end = false) as ->.
  { destruct port_best; [by apply Z.eqb_neq | done]. }
  simpl. destruct Hb as [->| ->].
  - rewrite (bool_decide_false (None = Some p)), (bool_decide_true (None = None)) by done.
    destruct (bool_decide (PTP_S_FAULTY = s)) eqn:Es; [|auto].
    apply bool_decide_eq_true in Es. subst. auto.
  - rewrite bool_decide_true by done. auto.
Qed.

Definition calls_slave (e : ptp_event) : bool :=
  negb (bool_decide (e ∈ [EVENT_READY_MASTER; EVENT_BECOME_MASTER; EVENT_BECOME_PASSIVE])).
Lemma slave_step gptp s e :
  s ∈ slave_states -> calls_slave e = true -> port_next gptp 255 s e ∈ slave_states.
Proof.
  intros Hs He. apply (bool_decide_eq_true_2 (s ∈ slave_states)) in Hs.
  apply (bool_decide_eq_true_1 (port_next gptp 255 s e ∈ slave_states)).
  revert Hs He. by destruct gptp, s, e.
Qed.


(** ** The handlers follow the state machine *)

(** The state of hardware port [i] is one of [L]. *)
Definition hw_state (i : nat) (L : list ptp_state) (w : world) : Prop :=
  exists q, w_hw w !! i = Some q /\ p_state q ∈ L.

(** A change of a port that does not leave [L]. *)
Definition stays (L : list ptp_state) (f : port -> port) : Prop :=
  forall q, p_state q ∈ L -> p_state (f q) ∈ L.
#[local] Hint Extern 2 (stays _ _) =>
  let H := fresh in intros ? H; simpl; repeat case_match; exact H : keeps.

Section state.
Context {env : Env}.
Context (i : nat) (L : list ptp_state).
Let R : relation world := Carries (hw_state i L).

Lemma state_mod_port p f : stays L f -> Keeps R (mod_port p f).
Proof.
  intros Hf w u w' (q & w1 & E & [= <- <-])%bind_inv (q0 & E0 & H0). destruct p as [c|j]; simpl in E.
  - destruct (w_clocks w !! c); [|done]. injection E as <- <-. by exists q0.
  - destruct (w_hw w !! j) as [q1|] eqn:E1; [|done]. injection E as <- <-.
    unfold hw_state. simpl. destruct (decide (j = i)) as [->|Hj].
    + exists (f q1). rewrite list_lookup_insert_eq by by eapply lookup_lt_Some.
      split; [done|]. apply Hf. congruence.
    + rewrite list_lookup_insert_ne by done. by exists q0.
Qed.
Lemma state_modify f : (forall w, w_hw (f w) = w_hw w) -> Keeps R (modify f).
Proof. intros Hf w u w' [= <- <-]. unfold R, Carries, hw_state. by rewrite Hf. Qed.
Lemma state_mod_clock c f : Keeps R (mod_clock c f).
Proof.
  intros w u w' (k & w1 & [-> _]%get_clock_inv & [= <- <-])%bind_inv H. exact H.
Qed.
Lemma state_step : Keeps R next_step.
Proof. intros w n w' [= <- <-] H. exact H. Qed.
Lemma state_set_state p s : s ∈ L -> Keeps R (mod_port p (set_p_state s)).
Proof. intros H. apply state_mod_port. by intros q _. Qed.
#[local] Hint Resolve state_mod_port state_modify state_mod_clock state_step state_set_state : keeps.
#[local] Hint Extern 2 (forall _, w_hw _ = w_hw _) => reflexivity : keeps.

Lemma leave_state p a b : Keeps R (port_leave p a b).
Proof. destruct a; simpl; keeps R. Qed.
Lemma to_slave_state p : Keeps R (port_to_slave p).
Proof. keeps R. Qed.
Lemma to_master_state p : Keeps R (port_to_master p).
Proof. keeps R. Qed.
#[local] Hint Resolve leave_state to_slave_state to_master_state : keeps.
Lemma enter_state set_state p a s :
  s <> PTP_S_INITIALIZING -> Keeps R (port_enter set_state p a s).
Proof. intros Hs. destruct s; try done; simpl; keeps R. Qed.
Lemma change_state set_state p s :
  s <> PTP_S_INITIALIZING -> s ∈ L -> Keeps R (port_change_state set_state p s).
Proof.
  intros Hs HL. unfold port_change_state.
  pose proof (fun a => enter_state set_state p a s Hs). keeps R.
Qed.

(** A port that is initialised. *)
Section started.
Context (HI : PTP_S_INITIALIZING ∈ L) (HL : PTP_S_LISTENING ∈ L) (HF : PTP_S_FAULTY ∈ L).
Context (HM : PTP_S_MASTER ∈ L) (HS : PTP_S_SLAVE ∈ L).
#[local] Hint Resolve HI HL HF HM HS : keeps.

Lemma initialize_state set_state p :
  (forall q, Keeps R (set_state q PTP_S_SLAVE)) -> Keeps R (port_initialize set_state p).
Proof. intros H. keeps R. Qed.
Lemma restart_state set_state p :
  (forall q, Keeps R (set_state q PTP_S_SLAVE)) ->
  Keeps R (port_change_state set_state p PTP_S_INITIALIZING).
Proof. intros H. pose proof (initialize_state set_state p H). keeps R. Qed.
End started.
End state.

Definition started_states : list ptp_state :=
  [PTP_S_INITIALIZING; PTP_S_LISTENING; PTP_S_FAULTY; PTP_S_MASTER; PTP_S_SLAVE].

Section on_event.
Context {env : Env}.

Lemma port_event_next i e w s w' : port_event (Hw i) e w = Some (s, w') ->
  w' = w /\ exists q class, w_hw w !! i = Some q /\
  s = port_next (truthy (p_num q P.gptp)) class (p_state q) e /\
  (e = EVENT_ANNOUNCE_TIMEOUT -> p_state q ∈ [PTP_S_LISTENING; PTP_S_UNCALIBRATED; PTP_S_SLAVE] ->
   exists c k, p_c q = Some c /\ w_clocks w !! c = Some k /\
     class = clockClass (dds_quality (c_dds k))).
Proof.
  intros (q & w1 & Eq & E)%bind_inv. apply bind_inv in E as (class & w2 & Ec & [= <- <-]).
  assert (w1 = w /\ w_hw w !! i = Some q) as [-> Hq].
  { unfold get_port in Eq. destruct (w_hw w !! i); [by injection Eq as <- <-|done]. }
  assert (HR : forall b, Reads (class_if b q)) by (intros []; reads).
  pose proof (reads_inv _ _ _ _ (HR _) Ec) as ->. split; [done|].
  exists q, class. split_and!; [done|done|]. intros -> Hs. revert Ec.
  unfold class_if, class_used. rewrite !bool_decide_true by done. simpl.
  intros (c & w1 & Ep & E)%bind_inv. destruct (p_c q) as [c'|]; [|done].
  injection Ep as <- <-. apply bind_inv in E as (k & w1 & [-> Ek]%get_clock_inv & [= <-]).
  by exists c', k.
Qed.

(** What the state is after [port_set_state]. *)
Definition settled (s : ptp_state) : list ptp_state :=
  if bool_decide (s = PTP_S_INITIALIZING) then started_states else [s].
Lemma settled_self s : s ∈ settled s.
Proof. unfold settled, started_states. case_bool_decide; subst; set_solver. Qed.
Lemma inner_state i q : Keeps (Carries (hw_state i started_states)) (port_set_state_n 1 q PTP_S_SLAVE).
Proof. apply change_state; [done|]. unfold started_states. set_solver. Qed.
Lemma enter_settled i a s :
  Keeps (Carries (hw_state i (settled s))) (port_enter (port_set_state_n 1) (Hw i) a s).
Proof.
  unfold settled. case_bool_decide as E; [subst; simpl | by apply enter_state].
  apply initialize_state; unfold started_states; try set_solver. apply inner_state.
Qed.

Lemma set_state_settles i s w u w' q : w_hw w !! i = Some q ->
  port_set_state (Hw i) s w = Some (u, w') -> hw_state i (settled s) w'.
Proof.
  intros Hq E. set (from := p_state q).
  assert (H : hw_state i [from] w) by (exists q; split; [done | set_solver]).
  apply bind_inv in E as (n & w1 & ->%reads_inv & E); [|reads].
  apply bind_inv in E as (u1 & w1 & E1 & E).
  assert (H1 : hw_state i [from] w1).
  { revert H. eapply (keeps_whenM (Carries (hw_state i [from]))); [| |exact E1].
    - apply state_mod_port. by intros ??.
    - by intros ??? [= <- <-]. }
  clear H E1 Hq. destruct H1 as (q1 & Hq1 & Es%list_elem_of_singleton).
  apply bind_inv in E as (from' & w2 & Ef & E).
  unfold pstate, mbind, M_bind, get_port in Ef. rewrite Hq1 in Ef. injection Ef as <- <-.
  case_bool_decide as Efs.
  { injection E as <- <-. exists q1. split; [done|]. rewrite Efs. apply settled_self. }
  apply bind_inv in E as (u2 & w2 & E2 & E).
  assert (H2 : hw_state i [p_state q1] w2).
  { apply (leave_state i [p_state q1] _ _ _ _ _ _ E2). exists q1. split; [done | set_solver]. }
  destruct H2 as (q2 & Hq2 & _).
  apply bind_inv in E as (u3 & w3 & E3 & E).
  assert (H3 : hw_state i (settled s) w3).
  { unfold mod_port, mbind, M_bind, get_port in E3. rewrite Hq2 in E3. injection E3 as <- <-.
    exists (set_p_state s q2). simpl. rewrite list_lookup_insert_eq by by eapply lookup_lt_Some.
    split; [done | apply settled_self]. }
  apply bind_inv in E as (u4 & w4 & E4 & E).
  refine (state_mod_port i (settled s) _ _ _ _ _ _ E _); [by intros ??|].
  exact (enter_settled i _ _ _ _ _ E4 H3).
Qed.

End on_event.

(** The Announce timeout of the port that listens makes it a pre-master. *)
Section witness.
#[local] Existing Instance zero_env.
End witness.
