(* ===== verification/PortProofs.v ===== *)
(** * Port state changes: the recursion of [port_set_state], and a clock that
    is stopped *)

From stdpp Require Import base list numbers option.
From Stdlib Require Import ZArith Lia.
From S2P Require Import Prelude Types World Keeps Timers PortFsm ClockOps Sync Tx Port Setup Boot.

(** ** Handlers that do the same *)

Definition meq {A} (f g : M A) : Prop := forall w, f w = g w.
#[local] Infix "≈" := meq (at level 70).

#[export] Instance meq_equiv A : Equivalence (@meq A).
Proof. split; [intros f w; done|intros f g H w; done|intros f g h H1 H2 w; by rewrite H1]. Qed.
#[export] Instance bind_proper A B :
  Proper (pointwise_relation A meq ==> meq ==> meq) (@mbind M M_bind A B).
Proof.
  intros g g' Hg f f' Hf w. unfold mbind, M_bind. rewrite Hf. destruct (f' w) as [[a w']|]; [|done].
  apply Hg.
Qed.
#[export] Instance whenM_proper b : Proper (meq ==> meq) (whenM b).
Proof. intros f g H. by destruct b. Qed.

(** Two handlers of the same form are compared part by part. *)
Ltac same_form :=
  repeat first
    [ match goal with
      | |- ?x ≈ ?x => reflexivity
      | |- mbind _ _ ≈ mbind _ _ => apply bind_proper; [intros ?|]
      | |- whenM _ _ ≈ whenM _ _ => apply whenM_proper
      | |- (match ?x with _ => _ end) ≈ _ => destruct x
      end ].

Section set_state.
Context {env : Env}.

(** The inner calls move a host port to the slave state. *)
Definition agree (f g : pref -> ptp_state -> M unit) : Prop :=
  forall c, f (Host c) PTP_S_SLAVE ≈ g (Host c) PTP_S_SLAVE.

Lemma to_sync_agree f g p : agree f g -> port_to_sync f p ≈ port_to_sync g p.
Proof. intros H. unfold port_to_sync. same_form. apply H. Qed.
Lemma first_state_agree f g p c : agree f g -> port_first_state f p c ≈ port_first_state g p c.
Proof. intros H. unfold port_first_state. same_form. by apply to_sync_agree. Qed.
Lemma initialize_agree f g p : agree f g -> port_initialize f p ≈ port_initialize g p.
Proof. intros H. unfold port_initialize. same_form. by apply first_state_agree. Qed.
Lemma enter_agree f g p a s :
  (s = PTP_S_INITIALIZING -> agree f g) -> port_enter f p a s ≈ port_enter g p a s.
Proof. intros H. destruct s; try reflexivity. by apply initialize_agree, H. Qed.
Lemma change_state_agree f g p s :
  (s = PTP_S_INITIALIZING -> agree f g) -> port_change_state f p s ≈ port_change_state g p s.
Proof. intros H. unfold port_change_state. same_form. by apply enter_agree. Qed.


End set_state.

(** ** Stopping a clock *)

(** The host port of clock [c] is its first port and satisfies [P]. *)
Definition host_with (c : nat) (P : port -> Prop) (w : world) : Prop :=
  exists k, w_clocks w !! c = Some k /\ c_ports k !! 0%nat = Some (Some (Host c)) /\ P (c_host k).
Section stop.
Context {env : Env}.
Context (c : nat) (P : port -> Prop).
Let R : relation world := Carries (host_with c P).

Lemma host_mod_port p f : (forall q, P q -> P (f q)) -> Keeps R (mod_port p f).
Proof.
  intros Hf w u w'. unfold mod_port, mbind, M_bind. destruct p as [c'|i]; simpl.
  - destruct (w_clocks w !! c') as [k'|] eqn:E'; [|done]. intros [= <- <-] (k & E & E0 & HP).
    unfold host_with. simpl. rewrite list_lookup_alter. destruct (decide (c' = c)) as [->|Hc].
    + assert (k' = k) as -> by congruence. exists (set_c_host (f (c_host k)) k).
      rewrite E. split_and!; [done|done|by apply Hf].
    + by exists k.
  - destruct (w_hw w !! i); [|done]. intros [= <- <-] H. exact H.
Qed.
Lemma host_mod_clock c' f :
  (forall k, c_ports (f k) = c_ports k /\ c_host (f k) = c_host k) -> Keeps R (mod_clock c' f).
Proof.
  intros Hf w u w'. unfold mod_clock, get_clock, mbind, M_bind.
  destruct (w_clocks w !! c') as [k'|] eqn:E'; [|done]. intros [= <- <-] (k & E & E0 & HP).
  unfold host_with. simpl. destruct (decide (c' = c)) as [->|Hc].
  - exists (f k'). rewrite list_lookup_insert_eq by by eapply lookup_lt_Some.
    assert (k' = k) as -> by congruence. destruct (Hf k) as [-> ->]. done.
  - rewrite list_lookup_insert_ne by done. by exists k.
Qed.
Lemma host_modify f : (forall w, w_clocks (f w) = w_clocks w) -> Keeps R (modify f).
Proof. intros Hf w u w' [= <- <-]. unfold R, Carries, host_with. by rewrite Hf. Qed.
Lemma host_step : Keeps R next_step.
Proof. intros w n w' [= <- <-] H. exact H. Qed.

End stop.

#[export] Hint Extern 2 (forall _, c_ports _ = c_ports _ /\ _) =>
  intros; repeat case_match; split; reflexivity : keeps.
#[export] Hint Extern 2 (forall _, w_clocks _ = w_clocks _) => reflexivity : keeps.

Lemma undef_bind {A B} Q (f : M A) (g : A -> M B) w :
  Q w -> Keeps (Carries Q) f -> (forall a w, Q w -> g a w = UB) -> (f ≫= g) w = UB.
Proof.
  intros HQ Hf Hg. unfold mbind, M_bind. destruct (f w) as [[a w']|] eqn:E; [|done].
  by apply Hg, (Hf _ _ _ E).
Qed.

Lemma undef_first {A B} (f : M A) (g : A -> M B) w : f w = UB -> (f ≫= g) w = UB.
Proof. intros E. unfold mbind, M_bind. by rewrite E. Qed.
Lemma read_undef {A B} (f : M A) (g : A -> M B) w :
  Reads f -> (forall a, f w = Some (a, w) -> g a w = UB) -> (f ≫= g) w = UB.
Proof.
  intros Hf Hg. unfold mbind, M_bind. destruct (Hf w) as [E|[a E]]; rewrite E; [done | by apply Hg].
Qed.

Section clock_stop.
Context {env : Env}.
#[local] Hint Resolve host_mod_clock host_modify host_step : keeps.

Definition host_port (c : nat) (q : port) : Prop := p_num q P.index = 0 /\ p_c q = Some c.
Definition running_host (c : nat) (q : port) : Prop :=
  host_port c q /\ p_state q <> PTP_S_DISABLED.

(** The port of index 0 has no bit in the map of the live ports. *)
Lemma enter_disabled_undefined c p from f w :
  p = Host c -> host_with c (host_port c) w -> port_enter f p from PTP_S_DISABLED w = UB.
Proof.
  intros -> (k & E & _ & Hi & Hc). simpl. unfold clock_enable_port, pclock, pv.
  unfold mbind, M_bind, get_port. rewrite E. simpl. rewrite Hc. simpl. rewrite E. simpl.
  by rewrite Hi.
Qed.
Lemma host_state c w k s : w_clocks w !! c = Some k ->
  pstate (Host c) w = Some (s, w) -> s = p_state (c_host k).
Proof. intros E. unfold pstate, mbind, M_bind, get_port. rewrite E. by intros [= <-]. Qed.
Lemma running_host_port c w : host_with c (running_host c) w -> host_with c (host_port c) w.
Proof. intros (k & E & E0 & H & _). by exists k. Qed.

Lemma leave_host c from : Keeps (Carries (host_with c (host_port c)))
  (port_leave (Host c) from PTP_S_DISABLED).
Proof. keeps (Carries (host_with c (host_port c))). Qed.

Lemma disable_host_undefined c w :
  host_with c (running_host c) w -> port_set_state (Host c) PTP_S_DISABLED w = UB.
Proof.
  intros H. unfold port_set_state. simpl. unfold port_change_state.
  apply read_undef; [reads|]. intros index _. simpl whenM.
  apply read_undef; [reads|]. intros [] _. pose proof H as (k & E & E0 & _ & Hs).
  apply read_undef; [reads|]. intros from Ef%(host_state _ _ _ _ E).
  rewrite bool_decide_false by by rewrite Ef.
  apply (undef_bind (host_with c (host_port c))); [by apply running_host_port | apply leave_host |].
  intros [] w1 H1.
  apply (undef_bind (host_with c (host_port c))); [exact H1 | by apply host_mod_port |].
  intros [] w2 H2. by apply undef_first, (enter_disabled_undefined c).
Qed.

(** C27: Stopping a running clock shifts by a negative amount: the host port, the
    first that is disabled, has the index 0, and its bit is [1 << -1]. *)
Theorem clock_stop_undefined c w :
  host_with c (running_host c) w -> clock_stop c w = UB.
Proof.
  intros H. unfold clock_stop. set (Q := host_with c (running_host c)) in *.
  apply (undef_bind Q); [done | keeps (Carries Q) |]. intros [] w1 H1.
  apply (undef_bind Q); [done | keeps (Carries Q) |]. intros [] w2 H2.
  apply undef_first, read_undef; [reads|]. intros cnt _. simpl iterM.
  apply undef_first, read_undef; [reads|]. intros p Ep.
  assert (p = Host c) as ->.
  { destruct H2 as (k & Ek & E0 & _). unfold ptp_port_of, mbind, M_bind, get_clock, lift in Ep.
    rewrite Ek in Ep. rewrite E0 in Ep. simpl in Ep. congruence. }
  by apply disable_host_undefined.
Qed.

End clock_stop.

(** The clock that was just started. *)
Lemma clock_stop_undefined_witness :
  p_state (c_host (default clock0 (w_clocks started !! 0%nat))) = PTP_S_LISTENING /\
  @clock_stop zero_env 0 started = UB.
Proof.
  split; [by vm_compute|]. apply (@clock_stop_undefined zero_env 0 started).
  pose (k := default clock0 (w_clocks started !! 0%nat)). exists k.
  split; [by vm_compute|]. split; [by vm_compute|]. split; [split; by vm_compute|].
  assert (E : p_state (c_host k) = PTP_S_LISTENING) by by vm_compute. by rewrite E.
Defined.
