(* ===== verification/Driver.v ===== *)
(** * Requests to the kernel driver (lan937x_req.h, lan937x_ptp_api.c)

    A [struct ksz_request] has five [int] members and 200 bytes of parameters,
    which the calls read and write as packed structures.  The request is a
    local variable of each call; what it holds before the call fills it in is
    the argument [req] of the operations here.  The driver itself is not part
    of the sources: [ioctl] is a parameter. *)

From stdpp Require Import base list numbers option.
From Stdlib Require Import ZArith Lia.
From S2P Require Import Prelude Types Wire.

(** ** The request *)

Record ksz_request := mk_req {
  rq_size : Z; rq_cmd : Z; rq_subcmd : Z; rq_output : Z; rq_result : Z;
  rq_param : buf }.

Definition MAX_REQUEST_SIZE : nat := 200.
Definition SIZEOF_ksz_request : Z := 20.

Definition DEV_IOC_OK : Z := 0.
Definition DEV_IOC_INVALID_SIZE : Z := 1.
Definition DEV_IOC_INVALID_CMD : Z := 2.
Definition DEV_IOC_INVALID_LEN : Z := 3.
Definition DEV_CMD_INFO : Z := 0.
Definition DEV_CMD_GET : Z := 1.
Definition DEV_CMD_PUT : Z := 2.
Definition DEV_INFO_INIT : Z := 0.
Definition DEV_INFO_EXIT : Z := 1.
Definition DEV_INFO_NOTIFY : Z := 3.
Definition DEV_INFO_PORT : Z := 4.

Definition DEV_PTP_CFG : Z := 0.
Definition DEV_PTP_TEVT : Z := 1.
Definition DEV_PTP_TOUT : Z := 2.
Definition DEV_PTP_CLK : Z := 3.
Definition DEV_PTP_CASCADE : Z := 4.
Definition DEV_PTP_DELAY : Z := 5.
Definition DEV_PTP_REG : Z := 6.
Definition DEV_PTP_IDENTITY : Z := 7.
Definition DEV_PTP_PEER_DELAY : Z := 8.
Definition DEV_PTP_UTC_OFFSET : Z := 9.
Definition DEV_PTP_TIMESTAMP : Z := 10.
Definition DEV_PTP_MSG : Z := 11.
Definition DEV_PTP_PORT_CFG : Z := 12.
Definition DEV_PTP_CLK_DOMAIN : Z := 13.
Definition DEV_PTP_TAG : Z := 14.

(** Sizes of the parameters. *)
Definition SIZE_clk_options : Z := 16.
Definition SIZE_cfg_options : Z := 10.
Definition SIZE_delay_values : Z := 8.
Definition SIZE_clock_identity : Z := 8.
Definition SIZE_clk_domains : Z := 8.
Definition SIZE_ts_options : Z := 18.
Definition SIZE_msg_options : Z := 40.
Definition SIZE_msg_tag : Z := 21.
Definition SIZE_tsi_options : Z := 12.
Definition SIZE_tso_options : Z := 28.
Definition SIZE_tsi_info : Z := 8.

(** The four members a call sets, and those it sets when it leaves [output]
    as it is. *)
Definition fill (size cmd subcmd output : Z) (req : ksz_request) : ksz_request :=
  mk_req (SIZEOF_ksz_request + size) cmd subcmd (s32 output) (rq_result req) (rq_param req).
Definition fill_keep (size cmd subcmd : Z) (req : ksz_request) : ksz_request :=
  mk_req (SIZEOF_ksz_request + size) cmd subcmd (rq_output req) (rq_result req) (rq_param req).

(** Assignments to the parameters. *)
Definition param (f : buf -> option buf) (req : ksz_request) : option ksz_request :=
  b ← f (rq_param req);
  Some (mk_req (rq_size req) (rq_cmd req) (rq_subcmd req) (rq_output req) (rq_result req) b).

(** Members of a structure, one after the other: offset, width, value. *)
Definition fld (o n : nat) (v : Z) : nat * nat * Z := (o, n, v).
Fixpoint wrs (fs : list (nat * nat * Z)) (b : buf) : option buf :=
  match fs with
  | [] => Some b
  | (o, n, v) :: fs => b ← wr b o n v; wrs fs b
  end.
Definition zero (n : nat) (b : buf) : option buf := put b 0 (replicate n 0).

(** [clk_id << 16], undefined for a value that does not fit. *)
Definition clk_bits (clk_id : Z) : option Z :=
  if (0 <=? clk_id) && (clk_id <? 32768) then Some (Z.shiftl clk_id 16) else UB.

(** ** Requests *)

Definition exit_req (req : ksz_request) : ksz_request :=
  fill 0 DEV_CMD_INFO DEV_INFO_EXIT 0 req.

(** "1588v2" *)
Definition init_req (capability : Z) (req : ksz_request) : option ksz_request :=
  param (fun b => put b 0 [49; 53; 56; 56; 118; 50])
    (fill 8 DEV_CMD_INFO DEV_INFO_INIT capability req).

Definition get_freq_req (clk_id : Z) (req : ksz_request) : option ksz_request :=
  clk ← clk_bits clk_id;
  Some (fill SIZE_clk_options DEV_CMD_GET DEV_PTP_CLK (Z.lor 1 clk) req).

Definition adj_freq_req (sign sec nsec drift interval clk_id : Z) (req : ksz_request)
    : option ksz_request :=
  clk ← clk_bits clk_id;
  param (wrs [fld 0 4 sec; fld 4 4 nsec; fld 8 4 drift; fld 12 4 interval])
    (fill SIZE_clk_options DEV_CMD_PUT DEV_PTP_CLK (Z.lor sign clk) req).

Definition get_clock_req (clk_id : Z) (req : ksz_request) : option ksz_request :=
  clk ← clk_bits clk_id;
  Some (fill SIZE_clk_options DEV_CMD_GET DEV_PTP_CLK clk req).

Definition set_clock_req (sec nsec clk_id : Z) (req : ksz_request) : option ksz_request :=
  clk ← clk_bits clk_id;
  param (wrs [fld 0 4 sec; fld 4 4 nsec])
    (fill SIZE_clk_options DEV_CMD_PUT DEV_PTP_CLK clk req).

(** *** Configuration: an option and the bit that says it is set *)

Definition zero_cfg : buf -> option buf := zero 10.

Definition get_hw_cfg_req (req : ksz_request) : option ksz_request :=
  param zero_cfg (fill SIZE_cfg_options DEV_CMD_GET DEV_PTP_CFG 0 req).

(** The bit [lo] of the byte [o], and the same bit two bytes later. *)
Definition set_opt (o : nat) (lo : Z) (v : Z) (b : buf) : option buf :=
  b ← set_byte_bits b (o + 2) lo 1 1; set_byte_bits b o lo 1 (b2z (truthy v)).

Definition set_param_master : Z -> buf -> option buf := set_opt 0 0.
Definition set_param_2_step : Z -> buf -> option buf := set_opt 0 1.
Definition set_param_p2p : Z -> buf -> option buf := set_opt 0 2.
Definition set_param_as : Z -> buf -> option buf := set_opt 0 3.
Definition set_param_domain_check : Z -> buf -> option buf := set_opt 0 4.
Definition set_param_csum : Z -> buf -> option buf := set_opt 0 5.
Definition set_param_unicast : Z -> buf -> option buf := set_opt 0 6.
Definition set_param_alternate : Z -> buf -> option buf := set_opt 0 7.
Definition set_param_delay_assoc : Z -> buf -> option buf := set_opt 1 0.
Definition set_param_pdelay_assoc : Z -> buf -> option buf := set_opt 1 1.
Definition set_param_sync_assoc : Z -> buf -> option buf := set_opt 1 2.
Definition set_param_drop_sync : Z -> buf -> option buf := set_opt 1 3.
Definition set_param_priority : Z -> buf -> option buf := set_opt 1 4.
Definition set_param_domain (domain : Z) (b : buf) : option buf :=
  b ← set_byte_bits b 3 7 1 1; wr b 4 1 domain.

Definition set_hw_cfg_req (set_param : Z -> buf -> option buf) (set : Z) (req : ksz_request)
    : option ksz_request :=
  param (fun b => b ← zero_cfg b; set_param set b)
    (fill SIZE_cfg_options DEV_CMD_PUT DEV_PTP_CFG 0 req).

Definition set_cfg_req (master two_step p2p as_ : Z) (req : ksz_request)
    : option ksz_request :=
  param (fun b =>
    b ← zero_cfg b;
    b ← set_param_master master b;
    b ← set_param_2_step two_step b;
    b ← set_param_p2p p2p b;
    set_param_as as_ b)
    (fill SIZE_cfg_options DEV_CMD_PUT DEV_PTP_CFG 0 req).

Definition get_2_domain_cfg_req (port : Z) (req : ksz_request) : option ksz_request :=
  param zero_cfg (fill SIZE_cfg_options DEV_CMD_GET DEV_PTP_CFG port req).

Definition set_2_domain_cfg_req (domain : Z) (req : ksz_request) : option ksz_request :=
  param (fun b => b ← zero_cfg b; set_param_domain_check domain b)
    (fill SIZE_cfg_options DEV_CMD_PUT DEV_PTP_CFG (-1) req).

Definition set_2_domain_port_cfg_req (port two_step p2p : Z) (req : ksz_request)
    : option ksz_request :=
  param (fun b =>
    b ← zero_cfg b;
    b ← set_param_2_step two_step b;
    set_param_p2p p2p b)
    (fill SIZE_cfg_options DEV_CMD_PUT DEV_PTP_CFG port req).

(** *** Delays, registers, identities *)

Definition get_delays_req (port : Z) (req : ksz_request) : ksz_request :=
  fill SIZE_delay_values DEV_CMD_GET DEV_PTP_DELAY port req.

Definition set_delays_req (port rx tx asym : Z) (req : ksz_request) : option ksz_request :=
  param (wrs [fld 0 2 rx; fld 2 2 tx; fld 4 2 asym; fld 6 2 0])
    (fill SIZE_delay_values DEV_CMD_PUT DEV_PTP_DELAY port req).

Definition get_reg_req (version width reg : Z) (req : ksz_request) : option ksz_request :=
  if version >=? 2 then
    param (wrs [fld 0 4 width; fld 4 4 reg])
      (fill 12 DEV_CMD_GET DEV_PTP_REG 0 req)
  else Some (fill 0 DEV_CMD_GET DEV_PTP_REG reg req).

Definition set_reg_req (version width reg val : Z) (req : ksz_request) : option ksz_request :=
  if version >=? 2 then
    param (wrs [fld 0 4 width; fld 4 4 reg; fld 8 4 val])
      (fill 12 DEV_CMD_PUT DEV_PTP_REG 0 req)
  else
    Some (fill 0 DEV_CMD_PUT DEV_PTP_REG
            (Z.lor (Z.land reg 65535) (u32 (Z.shiftl val 16))) req).

Definition get_clock_ident_req (version master : Z) (req : ksz_request) : ksz_request :=
  fill SIZE_clock_identity DEV_CMD_GET DEV_PTP_IDENTITY
    (if version >=? 2 then master else 0) req.

Definition set_clock_ident_req (version master : Z) (id : clock_identity) (req : ksz_request)
    : option ksz_request :=
  param (fun b => put b 0 id)
    (fill SIZE_clock_identity DEV_CMD_PUT DEV_PTP_IDENTITY
       (if version >=? 2 then master else 0) req).

Definition get_peer_delay_req (port : Z) (req : ksz_request) : ksz_request :=
  fill SIZE_delay_values DEV_CMD_GET DEV_PTP_PEER_DELAY port req.

Definition set_peer_delay_req (version port delay : Z) (req : ksz_request)
    : option ksz_request :=
  param (fun b =>
    b ← wrs [fld 0 2 0; fld 2 2 0; fld 4 2 0; fld 6 2 delay] b;
    if version >=? 2 then wr b 0 2 (Z.shiftr delay 16) else Some b)
    (fill SIZE_delay_values DEV_CMD_PUT DEV_PTP_PEER_DELAY port req).

Definition PTP_PORT_ENABLED : Z := 1.
Definition PTP_PORT_ASCAPABLE : Z := 2.

Definition get_port_cfg_req (port : Z) (req : ksz_request) : ksz_request :=
  fill SIZE_delay_values DEV_CMD_GET DEV_PTP_PORT_CFG port req.

Definition set_port_cfg_req (port enable asCapable : Z) (req : ksz_request)
    : option ksz_request :=
  let reserved := if truthy enable then PTP_PORT_ENABLED else 0 in
  let reserved := if truthy asCapable then Z.lor reserved PTP_PORT_ASCAPABLE else reserved in
  param (fun b => wr b 6 2 reserved)
    (fill SIZE_delay_values DEV_CMD_PUT DEV_PTP_PORT_CFG port req).

Definition get_utc_offset_req (req : ksz_request) : ksz_request :=
  fill 0 DEV_CMD_GET DEV_PTP_UTC_OFFSET 0 req.
Definition set_utc_offset_req (offset : Z) (req : ksz_request) : ksz_request :=
  fill 0 DEV_CMD_PUT DEV_PTP_UTC_OFFSET offset req.

(** *** Domains of the clocks *)

Definition get_clk_domain_req (req : ksz_request) : ksz_request :=
  fill SIZE_clk_domains DEV_CMD_GET DEV_PTP_CLK_DOMAIN 0 req.
Definition get_clk_domain_ports_req (req : ksz_request) : ksz_request :=
  fill SIZE_clk_domains DEV_CMD_GET DEV_PTP_CLK_DOMAIN 1 req.

(** [clk] bytes of the caller's array; reading past its end is undefined. *)
Definition put_domains (clk : Z) (domains : list Z) (b : buf) : option buf :=
  b ← wr b 0 1 clk;
  if Z.of_nat (length domains) <? clk then UB
  else put b 1 (take (Z.to_nat clk) domains).

Definition set_clk_domain_req (clk : Z) (domains : list Z) (req : ksz_request)
    : option ksz_request :=
  param (put_domains clk domains)
    (fill SIZE_clk_domains DEV_CMD_PUT DEV_PTP_CLK_DOMAIN 0 req).
Definition set_clk_domain_ports_req (clk : Z) (ports : list Z) (req : ksz_request)
    : option ksz_request :=
  param (put_domains clk ports)
    (fill SIZE_clk_domains DEV_CMD_PUT DEV_PTP_CLK_DOMAIN 1 req).

(** *** Timestamps and messages *)

Definition get_timestamp_req (msg port seqid : Z) (mac : list Z) (timestamp : Z)
    (req : ksz_request) : option ksz_request :=
  mac0 ← mac !! 0%nat;
  mac1 ← mac !! 1%nat;
  param (wrs [fld 0 4 timestamp; fld 12 1 msg; fld 13 1 port; fld 14 2 seqid;
              fld 16 1 mac0; fld 17 1 mac1])
    (fill SIZE_ts_options DEV_CMD_GET DEV_PTP_TIMESTAMP 0 req).

(** What names a message: its source, type, sequence number and domain. *)
Definition put_msg_key (hdr : buf) (b : buf) : option buf :=
  id ← bytes hdr 20 10;
  messageType ← hdr_messageType hdr;
  sequenceId ← hdr_sequenceId hdr;
  domainNumber ← hdr_domainNumber hdr;
  b ← put b 0 id;
  wrs [fld 13 1 messageType; fld 10 2 sequenceId; fld 12 1 domainNumber] b.

Definition get_msg_info_req (hdr : buf) (tx : Z) (req : ksz_request) : option ksz_request :=
  param (put_msg_key hdr) (fill SIZE_msg_options DEV_CMD_GET DEV_PTP_MSG tx req).

Definition set_msg_info_req (hdr : buf) (port sec nsec : Z) (req : ksz_request)
    : option ksz_request :=
  param (fun b =>
    b ← put_msg_key hdr b;
    wrs [fld 16 4 port; fld 36 4 (Z.lor (u32 (Z.shiftl sec 30)) nsec);
         fld 28 4 sec; fld 32 4 nsec] b)
    (fill SIZE_msg_options DEV_CMD_PUT DEV_PTP_MSG 0 req).

(** Pointers are addresses of 32 bits. *)
Definition get_tail_tag_req (msg len tag tag_len : Z) (req : ksz_request)
    : option ksz_request :=
  param (wrs [fld 0 2 len; fld 2 2 tag_len; fld 4 4 0; fld 8 4 msg; fld 12 4 tag])
    (fill_keep SIZE_msg_tag DEV_CMD_PUT DEV_PTP_TAG req).

Definition set_tail_tag_req (dst msg len ports queue tag_len : Z) (req : ksz_request)
    : option ksz_request :=
  param (wrs [fld 0 2 len; fld 2 2 tag_len; fld 4 4 dst; fld 8 4 msg; fld 16 4 ports;
              fld 20 1 queue])
    (fill_keep SIZE_msg_tag DEV_CMD_GET DEV_PTP_TAG req).

(** *** Event inputs and outputs *)

Definition rx_event_req (tsi gpi event total flags timeout : Z) (req : ksz_request)
    : option ksz_request :=
  param (fun b =>
    b ← zero 12 b;
    wrs [fld 0 1 tsi; fld 1 1 gpi; fld 2 1 event; fld 3 1 flags; fld 4 1 total;
         fld 8 4 timeout] b)
    (fill_keep SIZE_tsi_options DEV_CMD_PUT DEV_PTP_TEVT req).

Definition rx_get_clock_req (tsi : Z) (req : ksz_request) : option ksz_request :=
  param (fun b => b ← zero 12 b; wr b 0 1 tsi)
    (fill SIZE_tsi_options DEV_CMD_GET DEV_PTP_TEVT 8 req).

Definition rx_set_clock_req (tsi clk_id : Z) (req : ksz_request) : option ksz_request :=
  clk ← clk_bits clk_id;
  param (fun b => b ← zero 12 b; wr b 0 1 tsi)
    (fill SIZE_tsi_options DEV_CMD_PUT DEV_PTP_TEVT (Z.lor 8 clk) req).

Definition tx_event_req (tso gpo event pulse cycle cnt iterate sec nsec flags : Z)
    (req : ksz_request) : option ksz_request :=
  param (fun b =>
    b ← zero 28 b;
    wrs [fld 0 1 tso; fld 1 1 gpo; fld 2 1 event; fld 3 1 flags; fld 8 4 pulse;
         fld 12 4 cycle; fld 6 2 cnt; fld 16 4 sec; fld 20 4 nsec; fld 24 4 iterate] b)
    (fill_keep SIZE_tso_options DEV_CMD_PUT DEV_PTP_TOUT req).

Definition tx_cascade_req (tso gpo total cnt flags : Z) (req : ksz_request)
    : option ksz_request :=
  param (fun b =>
    b ← zero 28 b;
    wrs [fld 0 1 tso; fld 1 1 gpo; fld 4 1 total; fld 3 1 flags; fld 6 2 cnt] b)
    (fill SIZE_tso_options DEV_CMD_PUT DEV_PTP_CASCADE 1 req).

Definition tx_cascade_init_req (tso gpo total flags : Z) (req : ksz_request)
    : option ksz_request :=
  param (fun b =>
    b ← zero 28 b;
    wrs [fld 0 1 tso; fld 1 1 gpo; fld 4 1 total; fld 3 1 flags] b)
    (fill SIZE_tso_options DEV_CMD_PUT DEV_PTP_CASCADE 0 req).

Definition tx_get_output_req (gpo : Z) (req : ksz_request) : option ksz_request :=
  param (fun b => b ← zero 28 b; wr b 1 1 gpo)
    (fill SIZE_tso_options DEV_CMD_GET DEV_PTP_TOUT 0 req).

Definition tx_get_clock_req (tso : Z) (req : ksz_request) : option ksz_request :=
  param (fun b => b ← zero 28 b; wr b 0 1 tso)
    (fill SIZE_tso_options DEV_CMD_GET DEV_PTP_TOUT 8 req).

Definition tx_set_clock_req (tso clk_id : Z) (req : ksz_request) : option ksz_request :=
  clk ← clk_bits clk_id;
  param (fun b => b ← zero 28 b; wr b 0 1 tso)
    (fill SIZE_tso_options DEV_CMD_PUT DEV_PTP_TOUT (Z.lor 8 clk) req).

Definition PTP_CMD_RESP : Z := 1.
Definition PTP_CMD_GET_MSG : Z := 0.
Definition PTP_CMD_GET_LINK : Z := 16.
Definition PTP_CMD_GET_OUTPUT : Z := 224.
Definition PTP_CMD_GET_EVENT : Z := 240.

Definition get_rx_event_req (tsi : Z) (req : ksz_request) : option ksz_request :=
  param (wrs [fld 0 1 PTP_CMD_GET_EVENT; fld 1 1 tsi])
    (fill SIZE_tsi_info DEV_CMD_GET DEV_PTP_TEVT 0 req).
Definition poll_rx_event_req (tsi : Z) (req : ksz_request) : option ksz_request :=
  param (wrs [fld 0 1 PTP_CMD_GET_EVENT; fld 1 1 tsi])
    (fill SIZE_tsi_info DEV_CMD_GET DEV_PTP_TEVT 1 req).
Definition get_rx_event_info_req (req : ksz_request) : option ksz_request :=
  param (wrs [fld 0 1 PTP_CMD_GET_EVENT; fld 1 1 (-1)])
    (fill SIZE_tsi_info DEV_CMD_GET DEV_PTP_TEVT 2 req).

(** ** Calls

    The three static variables say what the driver supports.  A call works on
    them and on the state [D] of the driver. *)

Record api := mk_api { a_version : Z; a_ports : Z; a_host_port : Z }.
Definition api0 : api := mk_api 0 0 0.

(** What [ptp_dev_init] fills in for its caller. *)
Record dev_out := mk_out { do_drift : Z; do_version : Z; do_ports : Z; do_host_port : Z }.

(** [struct ptp_cfg_options] as [get_global_cfg] hands it out, a member per
    pointer; a null pointer drops the member. *)
Record global_cfg := mk_gcfg {
  gc_master : Z; gc_two_step : Z; gc_p2p : Z; gc_as : Z; gc_unicast : Z; gc_alternate : Z;
  gc_csum : Z; gc_check : Z; gc_delay_assoc : Z; gc_pdelay_assoc : Z; gc_sync_assoc : Z;
  gc_drop_sync : Z; gc_priority : Z; gc_domain : Z; gc_delay : Z; gc_started : Z }.

Definition bits (b : buf) (o : nat) (lo n : Z) : option Z :=
  (fun x => Z.land (Z.shiftr x lo) (Z.ones n)) <$> rd b o 1.

Definition rd_global_cfg (b : buf) : option global_cfg :=
  master ← bits b 0 0 1; two_step ← bits b 0 1 1; p2p ← bits b 0 2 1; as_ ← bits b 0 3 1;
  unicast ← bits b 0 6 1; alternate ← bits b 0 7 1; csum ← bits b 0 5 1;
  check ← bits b 0 4 1; delay_assoc ← bits b 1 0 1; pdelay_assoc ← bits b 1 1 1;
  sync_assoc ← bits b 1 2 1; drop_sync ← bits b 1 3 1; priority ← bits b 1 4 1;
  domain ← rd b 4 1; access_delay ← rd b 6 4; reserved ← bits b 1 5 3;
  Some (mk_gcfg master two_step p2p as_ unicast alternate csum check delay_assoc
          pdelay_assoc sync_assoc drop_sync priority domain access_delay reserved).

Definition K (D A : Type) : Type := api * D -> option (A * (api * D)).
#[export] Instance K_ret D : MRet (K D) := fun A x s => Some (x, s).
#[export] Instance K_bind D : MBind (K D) := fun A B f m s =>
  match m s with Some (x, s) => f x s | None => None end.
Definition liftK {D A} (x : option A) : K D A := fun s => x ← x; Some (x, s).
Definition api_get {D} : K D api := fun s => Some (s.1, s).
Definition api_set {D} (a : api) : K D unit := fun s => Some (tt, (a, s.2)).

Section Calls.
Context {D : Type} (ioctl : ksz_request -> D -> Z * ksz_request * D).

Definition file_dev_ioctl (req : ksz_request) : K D (Z * ksz_request) := fun '(a, d) =>
  let '(rc, req, d) := ioctl req d in Some ((rc, req), (a, d)).

(** [rc = file_dev_ioctl(fd, &req); if (!rc) rc = req.result;] *)
Definition transact (req : ksz_request) : K D (Z * ksz_request) :=
  '(rc, req) ← file_dev_ioctl req;
  mret (if rc =? 0 then rq_result req else rc, req).

(** A call without and one with results: these are stored on success. *)
Definition ask (req : option ksz_request) : K D Z :=
  req ← liftK req; '(rc, _) ← transact req; mret rc.
Definition fetch {A} (req : option ksz_request) (out : ksz_request -> option A)
    : K D (Z * option A) :=
  req ← liftK req;
  '(rc, req) ← transact req;
  if rc =? 0 then x ← liftK (out req); mret (rc, Some x) else mret (rc, None).

Definition out_param {A} (f : buf -> option A) (req : ksz_request) : option A :=
  f (rq_param req).
Definition out_output (req : ksz_request) : option Z := Some (rq_output req).

Definition ptp_dev_exit (req : ksz_request) : K D Z :=
  '(rc, _) ← file_dev_ioctl (exit_req req); mret rc.

(** "Micr" *)
Definition is_micr (b : buf) : option bool :=
  s ← bytes b 0 4; Some (bool_decide (s = [77; 105; 99; 114])).

Definition ptp_dev_init (capability : Z) (o : dev_out) (req : ksz_request)
    : K D (Z * dev_out) :=
  req ← liftK (init_req capability req);
  '(rc, req) ← file_dev_ioctl req;
  if negb (rc =? 0) then mret (rc, o) else
  let b := rq_param req in
  known ← liftK (is_micr b);
  if known : bool then
    version ← liftK (rd b 4 1);
    ports ← liftK (rd b 5 1);
    '(ports, host_port) ←
      (if version >=? 2 then
         host_port ← liftK (rd b 6 1);
         mret (if truthy host_port then u8 (ports - 1) else ports, host_port)
       else mret (ports, do_host_port o));
    _ ← api_set (mk_api version ports host_port);
    mret (rc, mk_out (rq_output req) version ports host_port)
  else mret (rc, mk_out (rq_output req) (do_version o) (do_ports o) (do_host_port o)).

Definition ptp_set_notify (notify : Z) (req : ksz_request) : K D Z :=
  ask (param (fun b => wr b 0 4 notify) (fill 4 DEV_CMD_INFO DEV_INFO_NOTIFY 0 req)).

(** The name is given without its final zero. *)
Definition port_info_req (name : list Z) (req : ksz_request) : option ksz_request :=
  param (fun b => put b 0 (name ++ [0]))
    (fill_keep (Z.of_nat (length name) + 2) DEV_CMD_INFO DEV_INFO_PORT req).

Definition ptp_port_info (name : list Z) (req : ksz_request) : K D (Z * option (Z * Z)) :=
  req ← liftK (port_info_req name req);
  '(rc, req) ← file_dev_ioctl req;
  if negb (rc =? 0) then mret (rc, None) else
  known ← liftK (is_micr (rq_param req));
  if known : bool then
    port ← liftK (rd (rq_param req) 4 1);
    mret (rc, Some (port, u32 (rq_output req)))
  else mret (rc, None).

Definition get_freq (clk_id : Z) (req : ksz_request) : K D (Z * option Z) :=
  a ← api_get;
  if a_version a <? 2 then mret (DEV_IOC_INVALID_CMD, None)
  else fetch (get_freq_req clk_id req) out_output.

(** The sign: 1 to set the clock back, 2 to set it forward.  The negation of
    the least [int] is undefined. *)
Definition adj_sign (sec nsec : Z) : option (Z * Z * Z) :=
  if (nsec <? 0) || (sec <? 0) then
    if (s32 (- sec) =? - sec) && (s32 (- nsec) =? - nsec) then Some (1, - sec, - nsec)
    else UB
  else Some (2, sec, nsec).

Definition adj_freq (sec nsec drift interval clk_id : Z) (req : ksz_request) : K D Z :=
  '(sign, sec, nsec) ← liftK (adj_sign sec nsec);
  ask (adj_freq_req sign sec nsec drift interval clk_id req).

Definition rd_clock (b : buf) : option (Z * Z) :=
  sec ← rd b 0 4; nsec ← rd b 4 4; Some (sec, nsec).

Definition get_clock (clk_id : Z) (req : ksz_request) : K D (Z * option (Z * Z)) :=
  fetch (get_clock_req clk_id req) (out_param rd_clock).
Definition set_clock (sec nsec clk_id : Z) (req : ksz_request) : K D Z :=
  ask (set_clock_req sec nsec clk_id req).

Definition get_global_cfg (req : ksz_request) : K D (Z * option global_cfg) :=
  fetch (get_hw_cfg_req req) (out_param rd_global_cfg).

Definition set_hw_cfg (set_param : Z -> buf -> option buf) (set : Z) (req : ksz_request)
    : K D Z := ask (set_hw_cfg_req set_param set req).
Definition set_hw_domain : Z -> ksz_request -> K D Z := set_hw_cfg set_param_domain.
Definition set_hw_master : Z -> ksz_request -> K D Z := set_hw_cfg set_param_master.
Definition set_hw_2_step : Z -> ksz_request -> K D Z := set_hw_cfg set_param_2_step.
Definition set_hw_p2p : Z -> ksz_request -> K D Z := set_hw_cfg set_param_p2p.
Definition set_hw_as : Z -> ksz_request -> K D Z := set_hw_cfg set_param_as.
Definition set_hw_unicast : Z -> ksz_request -> K D Z := set_hw_cfg set_param_unicast.
Definition set_hw_alternate : Z -> ksz_request -> K D Z := set_hw_cfg set_param_alternate.
Definition set_hw_domain_check : Z -> ksz_request -> K D Z :=
  set_hw_cfg set_param_domain_check.
Definition set_hw_csum : Z -> ksz_request -> K D Z := set_hw_cfg set_param_csum.
Definition set_hw_delay_assoc : Z -> ksz_request -> K D Z :=
  set_hw_cfg set_param_delay_assoc.
Definition set_hw_pdelay_assoc : Z -> ksz_request -> K D Z :=
  set_hw_cfg set_param_pdelay_assoc.
Definition set_hw_sync_assoc : Z -> ksz_request -> K D Z := set_hw_cfg set_param_sync_assoc.
Definition set_hw_drop_sync : Z -> ksz_request -> K D Z := set_hw_cfg set_param_drop_sync.
Definition set_hw_priority : Z -> ksz_request -> K D Z := set_hw_cfg set_param_priority.

Definition set_global_cfg (master two_step p2p as_ : Z) (req : ksz_request) : K D Z :=
  ask (set_cfg_req master two_step p2p as_ req).

Definition get_2_domain_cfg (req : ksz_request) : K D (Z * option Z) :=
  fetch (get_2_domain_cfg_req (-1) req) (out_param (fun b => bits b 0 4 1)).
Definition set_2_domain_cfg (domain : Z) (req : ksz_request) : K D Z :=
  ask (set_2_domain_cfg_req domain req).

Definition get_2_domain_port_cfg (port : Z) (req : ksz_request) : K D (Z * option (Z * Z)) :=
  fetch (get_2_domain_cfg_req (port + 1) req)
    (out_param (fun b => two_step ← bits b 0 1 1; p2p ← bits b 0 2 1; Some (two_step, p2p))).
Definition set_2_domain_port_cfg (port two_step p2p : Z) (req : ksz_request) : K D Z :=
  ask (set_2_domain_port_cfg_req (port + 1) two_step p2p req).

Definition get_delays (port : Z) (req : ksz_request) : K D (Z * option (Z * Z * Z)) :=
  fetch (Some (get_delays_req port req))
    (out_param (fun b =>
       rx ← rd b 0 2; tx ← rd b 2 2; asym ← rd b 4 2; Some (rx, tx, s16 asym))).
Definition set_delays (port rx tx asym : Z) (req : ksz_request) : K D Z :=
  ask (set_delays_req port rx tx asym req).

Definition get_reg (width reg : Z) (req : ksz_request) : K D (Z * option Z) :=
  a ← api_get;
  if (a_version a <? 2) && negb (width =? 2) then mret (DEV_IOC_INVALID_CMD, None)
  else fetch (get_reg_req (a_version a) width reg req) (fun r => Some (u32 (rq_output r))).
Definition set_reg (width reg val : Z) (req : ksz_request) : K D Z :=
  a ← api_get;
  if (a_version a <? 2) && negb (width =? 2) then mret DEV_IOC_INVALID_CMD
  else ask (set_reg_req (a_version a) width reg val req).

Definition get_clock_ident (master : Z) (req : ksz_request)
    : K D (Z * option clock_identity) :=
  a ← api_get;
  if (a_version a <? 2) && truthy master then mret (DEV_IOC_INVALID_CMD, None)
  else fetch (Some (get_clock_ident_req (a_version a) master req))
         (out_param (fun b => bytes b 0 8)).
Definition set_clock_ident (master : Z) (id : clock_identity) (req : ksz_request) : K D Z :=
  a ← api_get;
  if (a_version a <? 2) && truthy master then mret DEV_IOC_INVALID_CMD
  else ask (set_clock_ident_req (a_version a) master id req).

(** [*delay <<= 16] is undefined for a negative delay. *)
Definition rd_peer_delay (b : buf) : option Z :=
  hi ← rd b 0 2; lo ← rd b 6 2;
  if hi <? 32768 then Some (Z.lor (Z.shiftl hi 16) lo) else UB.

Definition get_peer_delay (port : Z) (req : ksz_request) : K D (Z * option Z) :=
  fetch (Some (get_peer_delay_req port req)) (out_param rd_peer_delay).
Definition set_peer_delay (port delay : Z) (req : ksz_request) : K D Z :=
  a ← api_get;
  if (a_version a <? 2) && (65536 <=? delay) then mret DEV_IOC_INVALID_CMD
  else ask (set_peer_delay_req (a_version a) port delay req).

Definition get_port_cfg (port : Z) (req : ksz_request) : K D (Z * option (Z * Z)) :=
  fetch (Some (get_port_cfg_req port req))
    (out_param (fun b =>
       reserved ← rd b 6 2;
       Some (b2z (truthy (Z.land reserved PTP_PORT_ENABLED)),
             b2z (truthy (Z.land reserved PTP_PORT_ASCAPABLE))))).
Definition set_port_cfg (port enable asCapable : Z) (req : ksz_request) : K D Z :=
  ask (set_port_cfg_req port enable asCapable req).

Definition get_utc_offset (req : ksz_request) : K D (Z * option Z) :=
  fetch (Some (get_utc_offset_req req)) out_output.
Definition set_utc_offset (offset : Z) (req : ksz_request) : K D Z :=
  ask (Some (set_utc_offset_req offset req)).

(** [param->clk] bytes, stored in the caller's array of [room] bytes. *)
Definition rd_domains (room : nat) (b : buf) : option (Z * list Z) :=
  clk ← rd b 0 1;
  if (room <? Z.to_nat clk)%nat then UB
  else domains ← bytes b 1 (Z.to_nat clk); Some (clk, domains).

Definition get_clk_domain (room : nat) (req : ksz_request) : K D (Z * option (Z * list Z)) :=
  fetch (Some (get_clk_domain_req req)) (out_param (rd_domains room)).
Definition set_clk_domain (clk : Z) (domains : list Z) (req : ksz_request) : K D Z :=
  ask (set_clk_domain_req clk domains req).
Definition get_clk_domain_ports (room : nat) (req : ksz_request)
    : K D (Z * option (Z * list Z)) :=
  fetch (Some (get_clk_domain_ports_req req)) (out_param (rd_domains room)).
Definition set_clk_domain_ports (clk : Z) (ports : list Z) (req : ksz_request) : K D Z :=
  ask (set_clk_domain_ports_req clk ports req).

Definition get_timestamp (msg port seqid : Z) (mac : list Z) (timestamp : Z)
    (req : ksz_request) : K D (Z * option (Z * Z)) :=
  fetch (get_timestamp_req msg port seqid mac timestamp req)
    (out_param (fun b => sec ← rd b 4 4; nsec ← rd b 8 4; Some (sec, nsec))).

(** [-1] is no error of its own here: the result tells.  [*tx] is set in
    every case. *)
Definition get_msg_info (hdr : buf) (tx : Z) (req : ksz_request)
    : K D (Z * option (Z * Z * Z) * Z) :=
  req ← liftK (get_msg_info_req hdr tx req);
  '(rc, req) ← file_dev_ioctl req;
  let rc := if (rc =? 0) || (rc =? -1) then rq_result req else rc in
  out ← (if rc =? 0 then
           x ← liftK (out_param (fun b =>
                 port ← rd b 16 4; sec ← rd b 28 4; nsec ← rd b 32 4;
                 Some (port, sec, nsec)) req);
           mret (Some x)
         else mret None);
  mret (rc, out, rq_output req).
Definition set_msg_info (hdr : buf) (port sec nsec : Z) (req : ksz_request) : K D Z :=
  ask (set_msg_info_req hdr port sec nsec req).

Definition get_tail_tag (msg len tag tag_len : Z) (req : ksz_request)
    : K D (Z * option (Z * Z)) :=
  fetch (get_tail_tag_req msg len tag tag_len req)
    (fun r => ports ← rd (rq_param r) 16 4; Some (rq_output r, ports)).

(** [tag_len] and [tag]: the caller gives a pointer for them. *)
Definition set_tail_tag (dst msg len ports queue : Z) (tag_len tag : bool)
    (req : ksz_request) : K D (Z * option (Z * list Z)) :=
  '(rc, out) ← fetch (set_tail_tag_req dst msg len ports queue (b2z tag_len) req)
    (fun r => if tag_len then
                if tag then t ← bytes (rq_param r) 0 (Z.to_nat (rq_output r));
                            Some (Some (rq_output r, t))
                else Some (Some (rq_output r, []))
              else Some None);
  mret (rc, mjoin out).

(** A unit, stored where the caller asks for it. *)
Definition unit_of (unit : bool) (r : ksz_request) : option (option Z) :=
  Some (if unit then Some (rq_output r) else None).
Definition fetch_unit (unit : bool) (req : option ksz_request) : K D (Z * option Z) :=
  '(rc, out) ← fetch req (unit_of unit); mret (rc, mjoin out).

Definition rx_event (tsi gpi event total flags timeout : Z) (unit : bool)
    (req : ksz_request) : K D (Z * option Z) :=
  fetch_unit unit (rx_event_req tsi gpi event total flags timeout req).
Definition tx_event (tso gpo event pulse cycle cnt iterate sec nsec flags : Z) (unit : bool)
    (req : ksz_request) : K D (Z * option Z) :=
  fetch_unit unit (tx_event_req tso gpo event pulse cycle cnt iterate sec nsec flags req).
Definition tx_cascade (tso gpo total cnt flags : Z) (req : ksz_request) : K D Z :=
  ask (tx_cascade_req tso gpo total cnt flags req).
Definition tx_cascade_init (tso gpo total flags : Z) (unit : bool) (req : ksz_request)
    : K D (Z * option Z) :=
  fetch_unit unit (tx_cascade_init_req tso gpo total flags req).
Definition tx_get_output (gpo : Z) (output : bool) (req : ksz_request) : K D (Z * option Z) :=
  fetch_unit output (tx_get_output_req gpo req).
Definition get_rx_event (tsi : Z) (req : ksz_request) : K D Z := ask (get_rx_event_req tsi req).
Definition poll_rx_event (tsi : Z) (req : ksz_request) : K D Z :=
  ask (poll_rx_event_req tsi req).
Definition get_rx_event_info (req : ksz_request) : K D (Z * option (Z * Z * Z)) :=
  fetch (get_rx_event_info_req req)
    (out_param (fun b => unit ← rd b 1 1; event ← rd b 2 1; num ← rd b 3 1;
                         Some (unit, event, num))).
Definition rx_get_clock (tsi : Z) (output : bool) (req : ksz_request) : K D (Z * option Z) :=
  fetch_unit output (rx_get_clock_req tsi req).
Definition rx_set_clock (tsi clk_id : Z) (req : ksz_request) : K D Z :=
  ask (rx_set_clock_req tsi clk_id req).
Definition tx_get_clock (tso : Z) (output : bool) (req : ksz_request) : K D (Z * option Z) :=
  fetch_unit output (tx_get_clock_req tso req).
Definition tx_set_clock (tso clk_id : Z) (req : ksz_request) : K D Z :=
  ask (tx_set_clock_req tso clk_id req).

End Calls.
