(* ===== verification/Bytes.v ===== *)
(** * Reading what was written

    Fields of a byte buffer: a field reads as what was last written to it, and
    a write leaves the fields apart from it as they are. *)

From stdpp Require Import base list numbers option.
From Stdlib Require Import ZArith Lia.
From S2P Require Import Prelude Types Wire WireProofs TlvProofs Driver.

Lemma put_Some (b : buf) o l :
  (o + length l <= length b)%nat -> exists b', put b o l = Some b' /\ length b' = length b.
Proof.
  intros H. destruct (split_field b o (length l) H) as (p & f & r & -> & <- & Hf).
  rewrite put_mid by done. eexists. split; [done|]. rewrite !length_app. lia.
Qed.
Lemma put_inv (b : buf) o l b' : put b o l = Some b' ->
  exists p f r : list Z, b = p ++ f ++ r /\ b' = p ++ l ++ r /\ length p = o /\ length f = length l.
Proof.
  intros H. assert (Hb : (o + length l <= length b)%nat).
  { apply in_buf_true. unfold put in H. by destruct (in_buf b o (length l)). }
  destruct (split_field b o (length l) Hb) as (p & f & r & -> & <- & Hf).
  exists p, f, r. rewrite put_mid in H by done. naive_solver.
Qed.
Lemma put_length b o l b' : put b o l = Some b' -> length b' = length b.
Proof. intros (p & f & r & -> & -> & _ & H)%put_inv. rewrite !length_app. lia. Qed.
Lemma bytes_put_eq b o l b' : put b o l = Some b' -> bytes b' o (length l) = Some l.
Proof. intros (p & f & r & -> & -> & <- & H)%put_inv. apply bytes_mid. Qed.

Lemma bytes_before (p f r : list Z) o n :
  (o + n <= length p)%nat -> bytes (p ++ f ++ r) o n = Some (take n (drop o p)).
Proof.
  intros H. rewrite bytes_Some by (rewrite !length_app; lia).
  by rewrite drop_app_le, take_app_le by (rewrite ?length_drop; lia).
Qed.
Lemma bytes_behind (p f f' r : list Z) o n : (length p + length f <= o)%nat ->
  length f' = length f -> bytes (p ++ f ++ r) o n = bytes (p ++ f' ++ r) o n.
Proof.
  intros H E. unfold bytes, in_buf.
  rewrite !(app_assoc p), !length_app, E, !drop_app_ge by (rewrite !length_app; lia).
  by rewrite !length_app, E.
Qed.
Lemma bytes_put_ne b o l b' o' n' : put b o l = Some b' ->
  (o' + n' <= o \/ o + length l <= o')%nat -> bytes b' o' n' = bytes b o' n'.
Proof.
  intros (p & f & r & -> & -> & <- & H)%put_inv [Ho|Ho].
  - by rewrite !bytes_before.
  - by apply bytes_behind; [rewrite <- ?H|]; rewrite ?H.
Qed.

Lemma wr_Some b o n v :
  (o + n <= length b)%nat -> exists b', wr b o n v = Some b' /\ length b' = length b.
Proof. intros H. apply put_Some. by rewrite le_bytes_length. Qed.
Lemma wr_length b o n v b' : wr b o n v = Some b' -> length b' = length b.
Proof. apply put_length. Qed.

Lemma le_le_bytes_mod n v : le (le_bytes n v) = v mod 256 ^ Z.of_nat n.
Proof.
  revert v. induction n as [|n IH]; intros v; simpl; [by rewrite Z.mod_1_r|].
  rewrite IH, Nat2Z.inj_succ, Z.pow_succ_r by lia.
  by rewrite Z.rem_mul_r by (try apply Z.pow_pos_nonneg; lia).
Qed.
Lemma rd_wr_eq b o n v b' : wr b o n v = Some b' -> rd b' o n = Some (v mod 256 ^ Z.of_nat n).
Proof.
  intros H%bytes_put_eq. unfold rd. rewrite le_bytes_length in H. rewrite H. simpl.
  by rewrite le_le_bytes_mod.
Qed.
Lemma bytes_wr_ne b o n v b' o' n' : wr b o n v = Some b' ->
  (o' + n' <= o \/ o + n <= o')%nat -> bytes b' o' n' = bytes b o' n'.
Proof. intros H Ho. eapply bytes_put_ne; [exact H|]. by rewrite le_bytes_length. Qed.
Lemma rd_wr_ne b o n v b' o' n' : wr b o n v = Some b' ->
  (o' + n' <= o \/ o + n <= o')%nat -> rd b' o' n' = rd b o' n'.
Proof. intros H Ho. unfold rd. by rewrite (bytes_wr_ne _ _ _ _ _ _ _ H Ho). Qed.

(** ** Several fields *)

Definition apart (o n : nat) (f : nat * nat * Z) : bool :=
  (o + n <=? f.1.1)%nat || (f.1.1 + f.1.2 <=? o)%nat.
(** The fields lie in a buffer of [lim] bytes and apart from each other. *)
Fixpoint laid (lim : nat) (fs : list (nat * nat * Z)) : bool :=
  match fs with
  | [] => true
  | (o, n, v) :: fs => (o + n <=? lim)%nat && forallb (apart o n) fs && laid lim fs
  end.

Lemma apart_spec o n f : apart o n f = true <-> (o + n <= f.1.1 \/ f.1.1 + f.1.2 <= o)%nat.
Proof. unfold apart. rewrite orb_true_iff, !Nat.leb_le. done. Qed.

Lemma wrs_other fs : forall b b' o n,
  wrs fs b = Some b' -> forallb (apart o n) fs = true -> bytes b' o n = bytes b o n.
Proof.
  induction fs as [|[[o n] v] fs IH]; intros b b' o' n' E Ha; [naive_solver|].
  simpl in *. apply andb_prop in Ha as [H1 Ha]. apply apart_spec in H1. simpl in H1.
  destruct (wr b o n v) as [b1|] eqn:Ew; [|done]. simpl in E.
  rewrite (IH _ _ _ _ E Ha). by apply (bytes_wr_ne _ _ _ _ _ _ _ Ew).
Qed.

Lemma wrs_spec fs : forall b, laid (length b) fs = true ->
  exists b', wrs fs b = Some b' /\ length b' = length b /\
    Forall (fun f => rd b' f.1.1 f.1.2 = Some (f.2 mod 256 ^ Z.of_nat f.1.2)) fs.
Proof.
  induction fs as [|[[o n] v] fs IH]; intros b H; simpl in *; [by exists b|].
  apply andb_prop in H as [[H1 H2]%andb_prop H3]. apply Nat.leb_le in H1.
  destruct (wr_Some b o n v H1) as (b1 & E & L). rewrite E. simpl. rewrite <- L in H3.
  destruct (IH b1 H3) as (b' & E' & L' & F). exists b'. split_and!; [done|congruence|].
  constructor; [|done]. simpl. unfold rd. rewrite (wrs_other _ _ _ _ _ E' H2).
  by apply rd_wr_eq in E.
Qed.

(** ** Functions that write in the first bytes only *)

Definition Within (n : nat) (f : buf -> option buf) : Prop :=
  forall b, (n <= length b)%nat ->
    exists b', f b = Some b' /\ length b' = length b /\ drop n b' = drop n b.

Lemma within_put n o l : (o + length l <= n)%nat -> Within n (fun b => put b o l).
Proof.
  intros H b Hb. destruct (put_Some b o l) as (b' & E & L); [lia|]. exists b'.
  split_and!; [done..|]. apply put_inv in E as (p & f & r & -> & -> & <- & Hf).
  rewrite !(app_assoc p), !drop_app_ge by (rewrite length_app; lia). by rewrite !length_app, Hf.
Qed.
Lemma within_wr n o k v : (o + k <= n)%nat -> Within n (fun b => wr b o k v).
Proof. intros H. apply within_put. by rewrite le_bytes_length. Qed.
Lemma within_zero n k : (k <= n)%nat -> Within n (zero k).
Proof. intros H. apply within_put. by rewrite length_replicate. Qed.
Lemma within_ret n : Within n Some.
Proof. intros b _. by exists b. Qed.
Lemma within_bind n f g :
  Within n f -> Within n g -> Within n (fun b => b ← f b; g b).
Proof.
  intros Hf Hg b Hb. destruct (Hf b Hb) as (b1 & E & L & D). rewrite E. simpl.
  destruct (Hg b1 ltac:(lia)) as (b2 & E2 & L2 & D2). exists b2. split_and!; congruence.
Qed.
Lemma within_bits n o lo w v : (o + 1 <= n)%nat -> Within n (fun b => set_byte_bits b o lo w v).
Proof.
  intros H b Hb. unfold set_byte_bits, rd. rewrite bytes_Some by lia. simpl.
  by apply within_wr.
Qed.
Lemma within_if n (c : bool) f g :
  Within n f -> Within n g -> Within n (fun b => if c then f b else g b).
Proof. by destruct c. Qed.
Lemma within_wrs n fs :
  forallb (fun f => (f.1.1 + f.1.2 <=? n)%nat) fs = true -> Within n (wrs fs).
Proof.
  induction fs as [|[[o k] v] fs IH]; intros H; simpl in *; [apply within_ret|].
  apply andb_prop in H as [H1%Nat.leb_le H2].
  apply (within_bind n (fun b => wr b o k v)); [by apply within_wr | by apply IH].
Qed.
Create HintDb within.
#[export] Hint Resolve within_zero within_ret within_bind within_bits within_if : within.
#[export] Hint Extern 1 (Within _ (wrs _)) => apply within_wrs; reflexivity : within.
#[export] Hint Extern 1 (Within _ (fun b => wr b _ _ _)) => apply within_wr : within.
#[export] Hint Extern 1 (Within _ (fun b => put b _ _)) => apply within_put : within.
#[export] Hint Extern 2 (_ <= _)%nat => simpl; lia : within.
