(* ===== verification/SwApi.v ===== *)
(** * Requests to the switch driver (ksz_sw_api.c)

    The switch has requests of the same form; the stack uses them to switch
    the power of a port. *)

From stdpp Require Import base list numbers option.
From Stdlib Require Import ZArith Lia.
From S2P Require Import Prelude Types Wire Driver.

Definition DEV_SW_CFG : Z := 0.
Definition DEV_INFO_SW_LINK : Z := 5.
Definition SP_RX : Z := 1.
Definition SP_TX : Z := 2.
Definition SP_LEARN : Z := 4.
Definition SP_PHY_POWER : Z := 64.
(** [struct ksz_info_opt]: [num], [port], and the larger of the members of
    the union; [struct ksz_info_speed]. *)
Definition SIZE_info_opt : nat := 10.
Definition SIZE_info_speed : Z := 6.

(** The module in the upper half of [cmd] is 0. *)
Definition sw_exit_req (req : ksz_request) : ksz_request :=
  fill 0 DEV_CMD_INFO DEV_INFO_EXIT 0 req.
(** "KSZAPI" *)
Definition sw_init_req (capability : Z) (req : ksz_request) : option ksz_request :=
  param (fun b => put b 0 [75; 83; 90; 65; 80; 73])
    (fill 8 DEV_CMD_INFO DEV_INFO_INIT capability req).

(** The data are copied without a look at the size of what they point to. *)
Definition set_sw_req (cmd subcmd : Z) (data : buf) (data_size : nat) (req : ksz_request)
    : option ksz_request :=
  param (fun b => b ← zero SIZE_info_opt b; l ← bytes data 0 data_size; put b 0 l)
    (fill (Z.of_nat data_size) cmd subcmd 0 req).

(** [opt] is cleared first; [cfg.set] and [cfg.on_off] follow the port. *)
Definition port_cfg_req (opt : buf) (port set cfg : Z) : option buf :=
  opt ← wrs [fld 0 1 1; fld 1 1 port] opt;
  s ← rd opt 2 4;
  opt ← wr opt 2 4 (Z.lor s cfg);
  if truthy set then on_off ← rd opt 6 4; wr opt 6 4 (Z.lor on_off cfg) else Some opt.
Definition info_opt0 : buf := replicate SIZE_info_opt 0.

Section Sw.
Context {D : Type} (sw_ioctl : ksz_request -> D -> Z * ksz_request * D).

Definition sw_dev_exit (req : ksz_request) : K D Z :=
  ask sw_ioctl (Some (sw_exit_req req)).

(** The version and the number of ports, of a driver that is known. *)
Definition sw_dev_init (capability : Z) (req : ksz_request)
    : K D (Z * option (option (Z * Z))) :=
  fetch sw_ioctl (sw_init_req capability req)
    (out_param (fun b =>
       known ← is_micr b;
       if known : bool then version ← rd b 4 1; ports ← rd b 5 1; Some (Some (version, ports))
       else Some None)).

Definition set_sw_notify (notify : Z) (req : ksz_request) : K D Z :=
  ask sw_ioctl (set_sw_req DEV_CMD_INFO DEV_INFO_NOTIFY (le_bytes 4 notify) 4 req).

Definition sw_get_port_cfg (port cfg : Z) (req : ksz_request) : K D (Z * option Z) :=
  fetch sw_ioctl
    (opt ← port_cfg_req info_opt0 port 0 cfg;
     set_sw_req DEV_CMD_GET DEV_SW_CFG opt 10 req)
    (out_param (fun b => on_off ← rd b 6 4; Some (b2z (truthy (Z.land on_off cfg))))).
Definition sw_set_port_cfg (port set cfg : Z) (req : ksz_request) : K D Z :=
  ask sw_ioctl
    (opt ← port_cfg_req info_opt0 port set cfg;
     set_sw_req DEV_CMD_PUT DEV_SW_CFG opt 10 req).

Definition get_port_learn (port : Z) := sw_get_port_cfg port SP_LEARN.
Definition set_port_learn (port set : Z) := sw_set_port_cfg port set SP_LEARN.
Definition get_port_rx (port : Z) := sw_get_port_cfg port SP_RX.
Definition set_port_rx (port set : Z) := sw_set_port_cfg port set SP_RX.
Definition get_port_tx (port : Z) := sw_get_port_cfg port SP_TX.
Definition set_port_tx (port set : Z) := sw_set_port_cfg port set SP_TX.
Definition get_port_power (port : Z) := sw_get_port_cfg port SP_PHY_POWER.
Definition set_port_power (port set : Z) := sw_set_port_cfg port set SP_PHY_POWER.

(** [num] ports from [port] on; [len] is the room of the caller. *)
Definition get_port_link (num port len : Z) (req : ksz_request) : K D (Z * option buf) :=
  let data_size := Z.to_nat (SIZE_info_speed * num) in
  opt ← liftK (wrs [fld 0 1 num; fld 1 1 port] info_opt0);
  '(rc, out) ← fetch sw_ioctl
    (set_sw_req DEV_CMD_INFO DEV_INFO_SW_LINK opt (data_size + 2) req)
    (fun r => if Z.of_nat data_size <=? len
              then l ← bytes (rq_param r) 2 data_size; Some (Some l)
              else Some None);
  mret match out with
       | Some None => (DEV_IOC_INVALID_LEN, None)
       | _ => (rc, mjoin out)
       end.

End Sw.
