(* ===== verification/Notify.v ===== *)
(** * What the driver reports (ptp_recv, ptp_notify_task)

    The driver sends messages, each a 16-bit length, which counts itself, and
    data.  [ptp_recv] cuts them out of what [read] returns; the notify task
    looks at the first byte and calls the handler. *)

From stdpp Require Import base list numbers option gmap.
From Stdlib Require Import ZArith Lia.
From S2P Require Import Prelude Types Wire World Setup Driver.

(** ** Messages of the driver *)

(** [struct dev_info]: the buffer of [len] bytes, where the next message
    starts, and the bytes that are left. *)
Record dev_info := mk_dev { di_buf : buf; di_index : Z; di_left : Z }.
Definition di_len (d : dev_info) : Z := Z.of_nat (length (di_buf d)).

Definition ptp_api_init (mem : buf) : dev_info := mk_dev mem 0 0.

(** What a call of [ptp_recv] comes to: data, the end of the process, or a
    [read] that still waits. *)
Inductive recv :=
  | Got (data : list Z) (d : dev_info) (reads : list (option (list Z)))
  | Exit
  | Waits.

(** Member [len] of the message at an index. *)
Definition msg_len (b : buf) (index : Z) : option Z :=
  if index <? 0 then UB else rd b (Z.to_nat index) 2.

(** The start of an incomplete message moves to the front; [memcpy] may not
    copy between objects that overlap. *)
Definition move_left (d : dev_info) : option dev_info :=
  if (di_index d <? di_left d) || (di_left d <? 0) then UB else
  l ← bytes (di_buf d) (Z.to_nat (di_index d)) (Z.to_nat (di_left d));
  b ← put (di_buf d) 0 l;
  Some (mk_dev b (di_left d) 0).

Definition prepare (d : dev_info) : option dev_info :=
  if truthy (di_left d) then
    len ← msg_len (di_buf d) (di_index d);
    if di_left d <? len then move_left d else Some d
  else Some (mk_dev (di_buf d) 0 0).

(** The loop around [read]: a read of nothing is repeated while there is
    nothing.  [reads] are the results of the calls to come, [None] an error. *)
Fixpoint read_loop (d : dev_info) (reads : list (option (list Z)))
    : option (option (dev_info * list (option (list Z))) + unit) :=
  match reads with
  | [] => Some (inl None)
  | None :: _ => Some (inr tt)
  | Some l :: reads =>
      if di_len d <? di_index d + Z.of_nat (length l) then UB else
      b ← put (di_buf d) (Z.to_nat (di_index d)) l;
      let index := di_index d + Z.of_nat (length l) in
      let d := mk_dev b index (di_left d) in
      if (Z.of_nat (length l) =? 0) && (index =? 0) then read_loop d reads
      else Some (inl (Some (mk_dev b 0 index, reads)))
  end.

(** The message at [index] goes to the caller, who has room for [len]. *)
Definition take_msg (d : dev_info) (len : Z) (reads : list (option (list Z)))
    : option recv :=
  mlen ← msg_len (di_buf d) (di_index d);
  if len <? mlen then Some Exit else
  let size := u16 (mlen - 2) in
  b ← wr (di_buf d) (Z.to_nat (di_index d)) 2 size;
  data ← bytes b (Z.to_nat (di_index d) + 2) (Z.to_nat (Z.min len size));
  Some (Got data (mk_dev b (di_index d + mlen) (di_left d - mlen)) reads).

Definition ptp_recv (d : dev_info) (len : Z) (reads : list (option (list Z))) : option recv :=
  d ← prepare d;
  if truthy (di_left d) then take_msg d len reads
  else
    r ← read_loop d reads;
    match r with
    | inl (Some (d, reads)) => take_msg d len reads
    | inl None => Some Waits
    | inr _ => Some Exit
    end.
(** ksz_sw_api.c has the same function. *)
Definition sw_recv := ptp_recv.

(** ** The notify task *)

(** [MAX_REQUEST_SIZE], as ksz_sw_api.c redefines it. *)
Definition NOTIFY_SIZE : Z := 2000.

Section notify.
Context {env : Env}.
Variable handle_management : pref -> mref -> M unit.

(** [mem] is the message on the stack of [proc_tx_timestamp]. *)
Definition tx_timestamp_event (mem data : buf) (len : Z) : M Z :=
  if len <? SIZE_msg_options then mret DEV_IOC_INVALID_SIZE else
  port ← lift (rd data 16 4);
  sec ← lift (rd data 28 4);
  nsec ← lift (rd data 32 4);
  id ← lift (bytes data 0 10);
  type ← lift (rd data 13 1);
  seqid ← lift (rd data 10 2);
  domain ← lift (rd data 12 1);
  reserved ← lift (rd data 14 1);
  _ ← proc_tx_timestamp handle_management mem id type seqid domain reserved (u8 port) sec nsec;
  mret 0.

Definition link_event (data : buf) : M unit :=
  port ← lift (rd data 0 1);
  status ← lift (rd data 1 1);
  proc_link_status port status.

(** A round of the task: [data] is its static buffer, [n] the bytes received;
    [&data[2]] and [len - 2], an [int] taken as [size_t]. *)
Definition notify_event (mem data : buf) (n : Z) : M unit :=
  if n <=? 0 then skip else
  cmd ← lift (rd data 0 1);
  if negb (Z.land cmd 15 =? PTP_CMD_RESP) then skip else
  let kind := Z.land cmd 240 in
  if kind =? PTP_CMD_GET_MSG then
    _ ← tx_timestamp_event mem (drop 2 data) (u32 (n - 2)); skip
  else if kind =? PTP_CMD_GET_LINK then link_event (drop 2 data)
  else skip.

(** The bytes received replace the start of the buffer. *)
Definition notify_round (mem data received : buf) : M buf :=
  data ← lift (put data 0 received);
  _ ← notify_event mem data (Z.of_nat (length received));
  mret data.

End notify.
