(* ===== verification/DriverProofs.v ===== *)
(** * What reaches the driver *)

From stdpp Require Import base list numbers option gmap.
From Stdlib Require Import ZArith Lia.
From S2P Require Import Prelude Ptu Types Wire WireProofs TlvProofs World Keeps PortFsm ClockOps.
From S2P Require Import Sync Driver Bytes Boot Reach.

(** A driver that answers with [ans], and the requests it was sent. *)
Definition spy (ans : ksz_request -> Z * ksz_request) (req : ksz_request)
    (log : list ksz_request) : Z * ksz_request * list ksz_request :=
  (ans req, log ++ [req]).
(** The room for the parameters. *)
Definition roomy (req : ksz_request) : Prop := length (rq_param req) = MAX_REQUEST_SIZE.

(** ** The correction of the clock *)

(** The correction in nanoseconds a request for the clock stands for. *)
Definition correction (r : ksz_request) : option Z :=
  sec ← rd (rq_param r) 0 4;
  nsec ← rd (rq_param r) 4 4;
  Some ((if Z.land (rq_output r) 65535 =? 1 then -1 else 1) * (sec * NANOSEC_IN_SEC + nsec)).

Lemma adj_sign_value sec nsec :
  - 2 ^ 31 < sec < 2 ^ 31 -> - 2 ^ 31 < nsec < 2 ^ 31 ->
  (0 < sec -> 0 <= nsec) -> (sec < 0 -> nsec <= 0) ->
  exists sign s n, adj_sign sec nsec = Some (sign, s, n) /\
    (sign = 1 \/ sign = 2) /\ 0 <= s < 2 ^ 32 /\ 0 <= n < 2 ^ 32 /\
    (if sign =? 1 then -1 else 1) * (s * NANOSEC_IN_SEC + n) = sec * NANOSEC_IN_SEC + nsec.
Proof.
  change (2 ^ 31) with 2147483648. change (2 ^ 32) with 4294967296.
  unfold NANOSEC_IN_SEC. intros Hs Hn H1 H2. unfold adj_sign.
  destruct ((nsec <? 0) || (sec <? 0)) eqn:E; bools.
  1,2: rewrite !s32_small, !Z.eqb_refl by lia; eexists _, _, _; split; [done|]; simpl; lia.
  eexists _, _, _. split; [done|]. simpl. lia.
Qed.

Lemma sign_bits sign clk : (sign = 1 \/ sign = 2) -> 0 <= clk < 256 ->
  Z.land (s32 (Z.lor sign (Z.shiftl clk 16))) 65535 = sign.
Proof.
  intros Hs Hc. change 65535 with (Z.ones 16). rewrite Z.land_ones by lia.
  assert (Z.lor sign (Z.shiftl clk 16) = sign + clk * 65536) as ->.
  { rewrite Z.lor_comm, lor_shift by lia. lia. }
  rewrite s32_small by lia. change (2 ^ 16) with 65536. rewrite Z.mod_add by lia.
  apply Z.mod_small. lia.
Qed.

(** Handlers that send nothing. *)
Definition SameOut (w w' : world) : Prop := w_out w' = w_out w.
#[export] Instance same_out_preorder : PreOrder SameOut.
Proof. split; [done|]. intros a b c H1 H2. unfold SameOut in *. congruence. Qed.
Lemma modify_same_out f : (forall w, w_out (f w) = w_out w) -> Keeps SameOut (modify f).
Proof. intros H w a w' [= <- <-]. apply H. Qed.
#[local] Hint Resolve modify_same_out : keeps.
#[local] Hint Extern 2 (forall _, w_out _ = w_out _) => intros; reflexivity : keeps.

Section requests.
Context {env : Env}.

Lemma adj_freq_emits c k sec nsec freq interval w rc w' : w_clocks w !! c = Some k ->
  Sync.adj_freq sec nsec freq interval c w = Some (rc, w') ->
  w_out w' = w_out w ++ [O_adj_freq sec nsec freq interval (c_num k C.index)].
Proof.
  intros Hk E. apply bind_inv in E as (index & w1 & E & E1).
  apply bind_inv in E1 as (n & w2 & E2 & E3). apply bind_inv in E3 as (u & w3 & E3 & E4).
  pose proof E as E'. apply reads_inv in E' as ->; [|reads].
  apply bind_inv in E as (k' & w4 & [-> Hk']%get_clock_inv & [= <-]).
  injection E2 as <- <-. injection E3 as <- <-. injection E4 as <- <-. naive_solver.
Qed.

Lemma adj_freq_sent sec nsec drift index ans a req : roomy req -> 0 <= index < 256 ->
  - 2 ^ 31 < sec < 2 ^ 31 -> - 2 ^ 31 < nsec < 2 ^ 31 ->
  (0 < sec -> 0 <= nsec) -> (sec < 0 -> nsec <= 0) ->
  exists r, Driver.adj_freq (spy ans) sec nsec drift NANOSEC_IN_SEC index req (a, []) =
      Some (if (ans r).1 =? 0 then rq_result (ans r).2 else (ans r).1, (a, [r])) /\
    rq_cmd r = DEV_CMD_PUT /\ rq_subcmd r = DEV_PTP_CLK /\
    rd (rq_param r) 8 4 = Some (drift mod 2 ^ 32) /\
    correction r = Some (sec * NANOSEC_IN_SEC + nsec).
Proof.
  intros Hr Hi Hs Hn H1 H2.
  destruct (adj_sign_value sec nsec Hs Hn H1 H2) as (sign & s & n & E & Hsign & Rs & Rn & V).
  destruct (wrs_spec [fld 0 4 s; fld 4 4 n; fld 8 4 drift; fld 12 4 NANOSEC_IN_SEC]
              (rq_param req)) as (b & Eb & Lb & F); [by rewrite Hr|].
  rewrite !Forall_cons in F. destruct F as (F0 & F4 & F8 & _). simpl in F0, F4, F8.
  set (r := mk_req (SIZEOF_ksz_request + SIZE_clk_options) DEV_CMD_PUT DEV_PTP_CLK
              (s32 (Z.lor sign (Z.shiftl index 16))) (rq_result req) b).
  exists r. split_and!; [|done|done|exact F8|].
  - unfold Driver.adj_freq, ask, adj_freq_req, clk_bits, transact, file_dev_ioctl.
    unfold mbind, K_bind, liftK, mbind, option_bind. rewrite E.
    assert ((0 <=? index) && (index <? 32768) = true) as -> by lia.
    unfold param, fill. cbn [rq_param rq_size rq_cmd rq_subcmd rq_output rq_result].
    unfold mbind, option_bind. rewrite Eb. fold r. simpl. by destruct (ans r).
  - unfold correction. simpl rq_param. rewrite F0, F4. simpl. unfold r. simpl rq_output.
    rewrite sign_bits, !Z.mod_small by (done || lia). by rewrite V.
Qed.

(** C36: The offset the clock is corrected by reaches the driver whole: the
    request [adj_freq] sends for the adjustment [clock_adj_freq] asks for
    stands, with its sign, for minus the offset in nanoseconds, rounded down,
    and carries the frequency; its answer is the result of the call. *)
Theorem adj_freq_request c k offset freq w u w'
  (Hk : w_clocks w !! c = Some k) (Hi : 0 <= c_num k C.index < 256) (Hw : ptu_wf offset)
  (Hs : - 2 ^ 31 < u_sec offset < 2 ^ 31) (E : clock_adj_freq c offset freq w = Some (u, w')) :
  exists sec nsec,
    let index := c_num k C.index in
    w_out w' = w_out w ++ [O_adj_freq sec nsec freq NANOSEC_IN_SEC index] /\
    forall ans a req, roomy req -> exists r,
      Driver.adj_freq (spy ans) sec nsec freq NANOSEC_IN_SEC index req (a, []) =
        Some (if (ans r).1 =? 0 then rq_result (ans r).2 else (ans r).1, (a, [r])) /\
      rq_cmd r = DEV_CMD_PUT /\ rq_subcmd r = DEV_PTP_CLK /\
      rd (rq_param r) 8 4 = Some (freq mod 2 ^ 32) /\
      correction r = Some (- (ptu_val offset / 2 ^ SCALED_NANOSEC_S)).
Proof.
  unfold clock_adj_freq, ptu_int_parts in E. apply bind_inv in E as (rc & w1 & E1 & E2).
  apply (adj_freq_emits _ _ _ _ _ _ _ _ _ Hk) in E1. cbv beta in E2.
  eexists _, _. cbv zeta. split.
  - rewrite <- E1.
    match type of E2 with ?m w1 = _ => assert (K : Keeps SameOut m) by keeps SameOut end.
    exact (K _ _ _ E2).
  - intros ans a req Hr. destruct offset as [s n]. unfold ptu_wf, ptu_val in *. simpl in *.
    rewrite SCALED_NANOSEC_IN_SEC_val in *. unfold SCALED_NANOSEC_S.
    change (2 ^ 16) with 65536. change (2 ^ 31) with 2147483648 in *.
    rewrite Z.shiftr_div_pow2 by lia. change (2 ^ 16) with 65536.
    pose proof (Z.div_mod n 65536 ltac:(lia)) as Hd.
    pose proof (Z.mod_pos_bound n 65536 ltac:(lia)) as Hm.
    rewrite !(s32_small s), !(s32_small (n / 65536)), !s32_small by lia.
    destruct (adj_freq_sent (- s) (- (n / 65536)) freq (c_num k C.index) ans a req) as (r & Er & H);
      [done|done|lia..|]. exists r. split; [exact Er|]. destruct H as (Hc & Hb & Hf & ->).
    split_and!; [done..|]. f_equal. unfold NANOSEC_IN_SEC.
    replace (s * 65536000000000 + n) with (n + s * 1000000000 * 65536) by lia.
    rewrite Z.div_add by lia. lia.
Qed.

End requests.

(** The clock is 3.0000005 s behind; the driver answers 0. *)
Definition behind : ptu := mk_ptu (-3) (-32768000).
Definition some_req : ksz_request := mk_req 0 0 0 7 0 (replicate MAX_REQUEST_SIZE 255).
Definition adj_world : world := run (@clock_adj_freq zero_env 0 behind 12) started.
#[local] Opaque started.
Lemma some_check {A} (o : option A) (f : A -> bool) :
  match o with Some x => f x | None => false end = true -> exists x, o = Some x /\ f x = true.
Proof. destruct o; naive_solver. Qed.
Lemma started_clock : exists k, w_clocks started !! 0%nat = Some k /\ c_num k C.index = 0.
Proof.
  destruct (some_check (w_clocks started !! 0%nat) (fun k => c_num k C.index =? 0))
    as (k & Hk & Hi%Z.eqb_eq); [vm_compute; reflexivity|].
  exists k. exact (conj Hk Hi).
Qed.
Lemma behind_ok : ptu_wf behind /\ - 2 ^ 31 < u_sec behind < 2 ^ 31.
Proof. split; [unfold ptu_wf, behind; rewrite SCALED_NANOSEC_IN_SEC_val; simpl; lia | simpl; lia]. Qed.
Lemma adj_freq_request_witness : exists r,
  Driver.adj_freq (spy (fun r => (0, r))) 3 500 12 NANOSEC_IN_SEC 0 some_req (api0, []) =
    Some (0, (api0, [r])) /\
  correction r = Some 3000000500.
Proof.
  assert (E : runs (@clock_adj_freq zero_env 0 behind 12) started = true) by (vm_compute; reflexivity).
  apply runs_spec in E as [u E].
  destruct started_clock as (k & Hk & Hi).
  assert (Hi' : 0 <= c_num k C.index < 256) by (clear E Hk; lia).
  destruct (@adj_freq_request zero_env 0 k behind 12 started u adj_world Hk Hi'
    (proj1 behind_ok) (proj2 behind_ok) E) as (sec & nsec & Eo & H).
  clear E Hk. rewrite Hi in Eo, H.
  destruct (H (fun r => (0, r)) api0 some_req eq_refl) as (r & Er & _ & _ & _ & C).
  assert (L : last (w_out adj_world) = Some (O_adj_freq 3 500 12 NANOSEC_IN_SEC 0))
    by (vm_compute; reflexivity).
  rewrite Eo, last_snoc in L. injection L as -> ->.
  exists r. split; [|by rewrite C]. rewrite Er. assert (rq_result r = 0) as Hr; [|by simpl; rewrite Hr].
  revert Er. vm_compute. by intros [= _ <-].
Defined.
