(* ===== verification/Requests.v ===== *)
(** * Every request is well formed

    The calls of the driver interface, with their arguments in the range of
    their C types: the request is always defined, declares a size the driver
    can copy, and writes no parameter beyond the size it declares. *)

From stdpp Require Import base list numbers option.
From Stdlib Require Import ZArith Lia.
From S2P Require Import Prelude Types Wire WireProofs TlvProofs Driver Bytes.

(** A request made from [req]. *)
Record Formed (req r : ksz_request) : Prop := mk_formed {
  formed_size : SIZEOF_ksz_request <= rq_size r <= SIZEOF_ksz_request + Z.of_nat MAX_REQUEST_SIZE;
  formed_cmd : DEV_CMD_INFO <= rq_cmd r <= DEV_CMD_PUT;
  formed_room : length (rq_param r) = length (rq_param req);
  formed_rest : let n := Z.to_nat (rq_size r - SIZEOF_ksz_request) in
                drop n (rq_param r) = drop n (rq_param req) }.

Definition Forms (f : ksz_request -> option ksz_request) : Prop :=
  forall req, length (rq_param req) = MAX_REQUEST_SIZE -> exists r, f req = Some r /\ Formed req r.

Lemma forms_fill n cmd subcmd output :
  0 <= n <= 200 -> DEV_CMD_INFO <= cmd <= DEV_CMD_PUT ->
  Forms (fun req => Some (fill n cmd subcmd output req)).
Proof.
  intros Hn Hc req Hr. eexists. split; [done|]. 
  constructor; simpl; [unfold SIZEOF_ksz_request, MAX_REQUEST_SIZE; lia|done..].
Qed.
Lemma forms_param n f (g : ksz_request -> ksz_request) :
  Forms (fun req => Some (g req)) ->
  (forall req, rq_param (g req) = rq_param req /\ rq_size (g req) = SIZEOF_ksz_request + n) ->
  0 <= n -> Within (Z.to_nat n) f -> Forms (fun req => param f (g req)).
Proof.
  intros Hg Hs Hn Hf req Hr. destruct (Hg req Hr) as (r & [= <-] & [H1 H2 H3 H4]).
  destruct (Hs req) as [Ep Es]. rewrite Ep, Es in *.
  destruct (Hf (rq_param req)) as (b' & E & L & D).
  { unfold SIZEOF_ksz_request, MAX_REQUEST_SIZE in *. lia. }
  unfold param. rewrite Ep, E. eexists. split; [done|].
  constructor; simpl; rewrite ?Es; [done..|].
  by replace (SIZEOF_ksz_request + n - SIZEOF_ksz_request) with n by lia.
Qed.
Lemma forms_fill_keep n cmd subcmd :
  0 <= n <= 200 -> DEV_CMD_INFO <= cmd <= DEV_CMD_PUT ->
  Forms (fun req => Some (fill_keep n cmd subcmd req)).
Proof.
  intros Hn Hc req Hr. eexists. split; [done|].
  constructor; simpl; [unfold SIZEOF_ksz_request, MAX_REQUEST_SIZE; lia|done..].
Qed.
Lemma forms_clk clk_id g : 0 <= clk_id < 32768 ->
  (forall clk, Forms (g clk)) -> Forms (fun req => clk ← clk_bits clk_id; g clk req).
Proof.
  intros H Hg req Hr. unfold clk_bits.
  assert ((0 <=? clk_id) && (clk_id <? 32768) = true) as -> by lia. by apply Hg.
Qed.
Lemma forms_if (c : bool) f g : Forms f -> Forms g -> Forms (fun req => if c then f req else g req).
Proof. by destruct c. Qed.

(** ** The requests of the interface *)

Definition bytes_of (l : list Z) (n : nat) : Prop := length l = n.
Definition set_params : list (Z -> buf -> option buf) :=
  [set_param_master; set_param_2_step; set_param_p2p; set_param_as; set_param_domain_check;
   set_param_csum; set_param_unicast; set_param_alternate; set_param_delay_assoc;
   set_param_pdelay_assoc; set_param_sync_assoc; set_param_drop_sync; set_param_priority;
   set_param_domain].

Inductive request : (ksz_request -> option ksz_request) -> Prop :=
  | r_exit : request (fun r => Some (exit_req r))
  | r_init cap : request (init_req cap)
  | r_notify n : request (fun r => param (fun b => wr b 0 4 n) (fill 4 DEV_CMD_INFO DEV_INFO_NOTIFY 0 r))
  | r_port_info name : (length name < 199)%nat -> request (port_info_req name)
  | r_get_freq clk : 0 <= clk < 32768 -> request (get_freq_req clk)
  | r_adj_freq sign s n d i clk : 0 <= clk < 32768 -> request (adj_freq_req sign s n d i clk)
  | r_get_clock clk : 0 <= clk < 32768 -> request (get_clock_req clk)
  | r_set_clock s n clk : 0 <= clk < 32768 -> request (set_clock_req s n clk)
  | r_get_hw_cfg : request get_hw_cfg_req
  | r_set_hw_cfg f v : f ∈ set_params -> request (set_hw_cfg_req f v)
  | r_set_cfg m t p a : request (set_cfg_req m t p a)
  | r_get_2_domain p : request (get_2_domain_cfg_req p)
  | r_set_2_domain d : request (set_2_domain_cfg_req d)
  | r_set_2_domain_port p t q : request (set_2_domain_port_cfg_req p t q)
  | r_get_delays p : request (fun r => Some (get_delays_req p r))
  | r_set_delays p x y z : request (set_delays_req p x y z)
  | r_get_reg v w reg : request (get_reg_req v w reg)
  | r_set_reg v w reg x : request (set_reg_req v w reg x)
  | r_get_ident v m : request (fun r => Some (get_clock_ident_req v m r))
  | r_set_ident v m id : length id = 8%nat -> request (set_clock_ident_req v m id)
  | r_get_peer_delay p : request (fun r => Some (get_peer_delay_req p r))
  | r_set_peer_delay v p d : request (set_peer_delay_req v p d)
  | r_get_port_cfg p : request (fun r => Some (get_port_cfg_req p r))
  | r_set_port_cfg p e a : request (set_port_cfg_req p e a)
  | r_get_utc : request (fun r => Some (get_utc_offset_req r))
  | r_set_utc o : request (fun r => Some (set_utc_offset_req o r))
  | r_get_domain : request (fun r => Some (get_clk_domain_req r))
  | r_get_domain_ports : request (fun r => Some (get_clk_domain_ports_req r))
  | r_set_domain clk l : clk <= 7 -> clk <= Z.of_nat (length l) -> request (set_clk_domain_req clk l)
  | r_set_domain_ports clk l : clk <= 7 -> clk <= Z.of_nat (length l) ->
      request (set_clk_domain_ports_req clk l)
  | r_get_timestamp m p s mac t : (2 <= length mac)%nat -> request (get_timestamp_req m p s mac t)
  | r_get_msg_info h tx : (SIZE_hdr <= length h)%nat -> request (get_msg_info_req h tx)
  | r_set_msg_info h p s n : (SIZE_hdr <= length h)%nat -> request (set_msg_info_req h p s n)
  | r_get_tail_tag m l t n : request (get_tail_tag_req m l t n)
  | r_set_tail_tag d m l p q n : request (set_tail_tag_req d m l p q n)
  | r_rx_event t g e n f x : request (rx_event_req t g e n f x)
  | r_rx_get_clock t : request (rx_get_clock_req t)
  | r_rx_set_clock t clk : 0 <= clk < 32768 -> request (rx_set_clock_req t clk)
  | r_tx_event t g e p c n i s x f : request (tx_event_req t g e p c n i s x f)
  | r_tx_cascade t g n c f : request (tx_cascade_req t g n c f)
  | r_tx_cascade_init t g n f : request (tx_cascade_init_req t g n f)
  | r_tx_get_output g : request (tx_get_output_req g)
  | r_tx_get_clock t : request (tx_get_clock_req t)
  | r_tx_set_clock t clk : 0 <= clk < 32768 -> request (tx_set_clock_req t clk)
  | r_get_rx_event t : request (get_rx_event_req t)
  | r_poll_rx_event t : request (poll_rx_event_req t)
  | r_get_rx_event_info : request get_rx_event_info_req.

Lemma within_opt o lo v : (o < 2)%nat -> Within 10 (set_opt o lo v).
Proof. intros H. unfold set_opt. apply within_bind; apply within_bits; lia. Qed.
Lemma within_set_params f v : f ∈ set_params -> Within 10 (f v).
Proof.
  intros H. unfold set_params in H.
  repeat (apply elem_of_cons in H as [-> | H]; [first [apply within_opt; lia |
    unfold set_param_domain; apply within_bind; [apply within_bits|apply within_wr]; lia]|]).
  by apply elem_of_nil in H.
Qed.
Lemma within_domains clk l : clk <= 7 -> clk <= Z.of_nat (length l) -> Within 8 (put_domains clk l).
Proof.
  intros H1 H2. unfold put_domains. apply within_bind; [apply within_wr; lia|].
  destruct (Z.of_nat (length l) <? clk) eqn:E; bools; [lia|]. apply within_put.
  rewrite length_take. lia.
Qed.
Lemma within_key h : (SIZE_hdr <= length h)%nat -> Within 40 (put_msg_key h).
Proof.
  unfold SIZE_hdr, put_msg_key. intros H b Hb.
  unfold hdr_messageType, hdr_sequenceId, hdr_domainNumber, rd. rewrite !bytes_Some by lia.
  cbn [mbind option_bind fmap option_fmap option_map].
  apply (within_bind 40 (fun b => put b 0 _)); [|by apply within_wrs|done].
  apply within_put. rewrite length_take, length_drop. lia.
Qed.
#[local] Hint Resolve within_opt within_set_params within_domains within_key : within.

Ltac range := solve [lia | by vm_compute].
Ltac forms :=
  repeat match goal with
  | |- Forms (fun req => Some (fill _ _ _ _ _)) => apply forms_fill; range
  | |- Forms (fun req => Some (?f _)) => let h := get_head f in unfold h
  | |- Forms (fun req => if _ then _ else _) => apply forms_if
  | |- Forms (fun req => clk ← clk_bits _; _) => apply forms_clk; [done|intros ?]
  | |- Forms (fun req => param _ (fill ?n _ _ _ req)) =>
      apply (forms_param n _ (fill n _ _ _)); [apply forms_fill; range|done|range|]
  | |- Forms (fun req => param _ (fill_keep ?n _ _ req)) =>
      apply (forms_param n _ (fill_keep n _ _)); [apply forms_fill_keep; range|done|range|]
  end.

Ltac within :=
  try match goal with
  | |- Within (Z.to_nat ?c) _ =>
      is_const c; let m := eval vm_compute in (Z.to_nat c) in change (Z.to_nat c) with m
  end;
  repeat match goal with
  | |- Within _ (fun b => ?f b ≫= ?g) => apply within_bind
  | |- Within _ (fun b => if _ then _ else _) => apply within_if
  | |- Within _ _ => solve [eauto with within]
  end.


(** A peer delay of 70000 ns on port 2, in a request that held other data. *)
Definition old_req : ksz_request := mk_req 77 (-1) 5 9 3 (replicate MAX_REQUEST_SIZE 170).
