(* ===== verification/NotifyProofs.v ===== *)
(** * Messages of the driver arrive whole and in order *)

From stdpp Require Import base list numbers option gmap.
From Stdlib Require Import ZArith Lia.
From S2P Require Import Prelude Types Wire WireProofs TlvProofs World Keeps Setup Reach Manage.
From S2P Require Import Driver Bytes Notify.

(** ** The stream of the driver *)

(** A message as the driver sends it: the length counts itself. *)
Definition driver_msg (m : list Z) : list Z := le_bytes 2 (Z.of_nat (length m) + 2) ++ m.
Definition stream (ms : list (list Z)) : list Z := concat (map driver_msg ms).

#[local] Opaque le le_bytes.

(** The start of a message that has to wait for its rest: at least its length,
    and no more bytes than the messages before it in the buffer. *)
Definition cut (before : nat) (part : list Z) : Prop :=
  part = [] \/
  (2 <= length part <= before)%nat /\ Z.of_nat (length part) < le (take 2 part).

(** [delivers part reads ms]: after the bytes [part], the results [reads] of
    [read] bring the messages [ms]; each read ends at least one message and
    fits in the buffer of [size] bytes. *)
Inductive delivers (size : nat) : list Z -> list (list Z) -> list (list Z) -> Prop :=
  | del_end : delivers size [] [] []
  | del_read part c reads m q part' ms :
      part ++ c = stream (m :: q) ++ part' ->
      (length (part ++ c) <= size)%nat ->
      cut (length (stream (m :: q))) part' ->
      delivers size part' reads ms ->
      delivers size part (c :: reads) (m :: q ++ ms).

(** [n] calls, one after the other. *)
Fixpoint recv_n (n : nat) (d : dev_info) (len : Z) (reads : list (option (list Z)))
    : option (list (list Z) * dev_info * list (option (list Z))) :=
  match n with
  | O => Some ([], d, reads)
  | S n =>
      r ← ptp_recv d len reads;
      match r with
      | Got m d reads => '(ms, d, reads) ← recv_n n d len reads; Some (m :: ms, d, reads)
      | _ => None
      end
  end.

(** ** The buffer *)

(** The messages [q] and the start [part] of another are left in the buffer of
    [size] bytes. *)
Record Holds (size : nat) (d : dev_info) (q : list (list Z)) (part : list Z) : Prop := mk_holds {
  holds_bytes : exists pre post : list Z,
    di_buf d = pre ++ (stream q ++ part) ++ post /\ di_index d = Z.of_nat (length pre);
  holds_left : di_left d = Z.of_nat (length (stream q ++ part));
  holds_size : length (di_buf d) = size;
  holds_cut : cut (Z.to_nat (di_index d) + length (stream q)) part }.

Lemma driver_msg_length m : length (driver_msg m) = (length m + 2)%nat.
Proof. unfold driver_msg. rewrite length_app, le_bytes_length. lia. Qed.
Lemma stream_cons m q : stream (m :: q) = driver_msg m ++ stream q.
Proof. reflexivity. Qed.

Lemma read_len pre m rest :
  Z.of_nat (length m) + 2 < 65536 ->
  rd (pre ++ driver_msg m ++ rest) (length pre) 2 = Some (Z.of_nat (length m) + 2).
Proof.
  intros H. unfold rd, driver_msg. rewrite <- (app_assoc (le_bytes 2 _)).
  pose proof (bytes_mid pre (le_bytes 2 (Z.of_nat (length m) + 2)) (m ++ rest)) as E.
  rewrite le_bytes_length in E. rewrite E.
  simpl. rewrite le_le_bytes; [done|]. simpl. lia.
Qed.

Lemma driver_msg_split m : driver_msg m = le_bytes 2 (Z.of_nat (length m) + 2) ++ m.
Proof. reflexivity. Qed.
#[local] Opaque driver_msg stream.

(** A message in front of the buffer is taken. *)
Lemma take_holds size d m q part len reads : Z.of_nat size < 65536 -> Z.of_nat size <= len ->
  Holds size d (m :: q) part ->
  exists d', take_msg d len reads = Some (Got m d' reads) /\ Holds size d' q part.
Proof.
  intros Hsz Hlen [(pre & post & Eb & Ei) El Es Hc]. destruct d as [b index left].
  simpl in *. subst b index left. rewrite stream_cons, <- !app_assoc in *.
  assert (Hm : (length m + 2 <= size)%nat).
  { rewrite <- Es, !length_app, driver_msg_length. lia. }
  set (rest := stream q ++ part ++ post) in *.
  unfold take_msg, msg_len. simpl di_buf. simpl di_index. simpl di_left.
  rewrite (proj2 (Z.ltb_ge (Z.of_nat (length pre)) (0))) by lia.
  rewrite Nat2Z.id, read_len by lia. simpl.
  rewrite (proj2 (Z.ltb_ge (len) (Z.of_nat (length m) + 2))) by lia.
  assert (Z.of_nat (length m) + 2 - 2 = Z.of_nat (length m)) as -> by lia.
  rewrite u16_small by lia. unfold wr. rewrite driver_msg_split, <- (app_assoc _ m rest), put_mid; [|by rewrite !le_bytes_length].
  set (l2 := le_bytes 2 (Z.of_nat (length m))).
  assert (E : bytes (pre ++ l2 ++ m ++ rest) (length pre + 2) (length m) = Some m).
  { pose proof (bytes_mid (pre ++ l2) m rest) as E. rewrite length_app in E.
    unfold l2 in *. rewrite le_bytes_length, <- app_assoc in E. exact E. }
  rewrite Z.min_r by lia. rewrite Nat2Z.id. simpl. fold l2. rewrite E. simpl.
  eexists. split; [done|]. constructor; simpl.
  - exists (pre ++ l2 ++ m), post. rewrite <- !app_assoc. split; [done|].
    rewrite !length_app. unfold l2. rewrite le_bytes_length. lia.
  - rewrite !length_app, le_bytes_length. lia.
  - rewrite <- Es, driver_msg_split, !length_app. unfold l2. rewrite !le_bytes_length. lia.
  - destruct Hc as [->|[H1 H2]]; [by left|]. right. split; [|done].
    rewrite length_app, driver_msg_length in H1. lia.
Qed.

Lemma truthy_pos z : 0 < z -> truthy z = true.
Proof. intros H. unfold truthy. apply negb_true_iff, Z.eqb_neq. lia. Qed.

(** A message that is in the buffer needs no [read]. *)
Lemma prepare_full size d m q part : Z.of_nat size < 65536 -> Holds size d (m :: q) part ->
  prepare d = Some d /\ truthy (di_left d) = true.
Proof.
  intros Hsz [(pre & post & Eb & Ei) El Es Hc]. destruct d as [b index left]. simpl in *.
  subst b index left. rewrite stream_cons, <- !app_assoc in *.
  assert (Hm : (length m + 2 <= size)%nat).
  { rewrite <- Es, !length_app, driver_msg_length. lia. }
  assert (Ht : truthy (Z.of_nat (length (driver_msg m ++ stream q ++ part))) = true).
  { apply truthy_pos. rewrite length_app, driver_msg_length. lia. }
  split; [|done]. unfold prepare. simpl. rewrite Ht. unfold msg_len.
  rewrite (proj2 (Z.ltb_ge (Z.of_nat (length pre)) 0)) by lia.
  rewrite Nat2Z.id, read_len by lia. simpl.
  rewrite (proj2 (Z.ltb_ge _ _)); [done|]. rewrite length_app, driver_msg_length. lia.
Qed.
Lemma recv_holds size d m q part len reads : Z.of_nat size < 65536 -> Z.of_nat size <= len ->
  Holds size d (m :: q) part ->
  exists d', ptp_recv d len reads = Some (Got m d' reads) /\ Holds size d' q part.
Proof.
  intros Hsz Hlen H. destruct (take_holds size d m q part len reads Hsz Hlen H) as (d' & E & H').
  exists d'. split; [|done]. destruct (prepare_full _ _ _ _ _ Hsz H) as [Ep Et].
  unfold ptp_recv. rewrite Ep. simpl. by rewrite Et.
Qed.

(** The start of a message moves to the front, where the next read goes on. *)
Lemma prepare_part size d part : Holds size d [] part -> Z.of_nat size < 65536 ->
  exists b : list Z, prepare d = Some (mk_dev (part ++ b) (Z.of_nat (length part)) 0) /\
    length (part ++ b) = size.
Proof.
  intros [(pre & post & Eb & Ei) El Es Hc] Hsz. destruct d as [b index left]. simpl in *.
  subst b index left. change (stream [] ++ part) with part in *. unfold prepare. simpl.
  rewrite Nat2Z.id, Nat.add_0_r in Hc. destruct Hc as [->|[[H1 H2] H3]].
  { exists (pre ++ post). done. }
  rewrite truthy_pos by lia. unfold msg_len.
  rewrite (proj2 (Z.ltb_ge (Z.of_nat (length pre)) 0)) by lia. rewrite Nat2Z.id.
  unfold rd. rewrite bytes_Some by (rewrite !length_app; lia). simpl.
  rewrite drop_app_length, take_app_le by lia. rewrite (proj2 (Z.ltb_lt _ _)) by lia.
  unfold move_left. simpl. rewrite (proj2 (Z.ltb_ge (Z.of_nat (length pre)) _)) by lia.
  rewrite (proj2 (Z.ltb_ge (Z.of_nat (length part)) 0)) by lia. simpl.
  rewrite !Nat2Z.id, bytes_mid. simpl.
  destruct (put_Some (pre ++ part ++ post) 0 part) as (b & E & L); [rewrite !length_app; lia|].
  rewrite E. simpl. apply put_inv in E as (p & f & r & _ & -> & Hp & _).
  destruct p; [|done]. exists r. split; [done|]. by rewrite <- Es, <- L.
Qed.

Lemma recv_reads size d part c m q part' len reads : Z.of_nat size < 65536 ->
  Z.of_nat size <= len -> Holds size d [] part ->
  part ++ c = stream (m :: q) ++ part' -> (length (part ++ c) <= size)%nat ->
  cut (length (stream (m :: q))) part' ->
  exists d', ptp_recv d len (Some c :: reads) = Some (Got m d' reads) /\ Holds size d' q part'.
Proof.
  intros Hsz Hlen H Ec Hc Hcut. destruct (prepare_part size d part H Hsz) as (b & Ep & Lb).
  rewrite length_app in Hc, Lb.
  assert (Hn : (2 <= length part + length c)%nat).
  { rewrite <- length_app, Ec, stream_cons, !length_app, driver_msg_length. lia. }
  assert (Er : read_loop (mk_dev (part ++ b) (Z.of_nat (length part)) 0) (Some c :: reads) =
    Some (inl (Some (mk_dev (part ++ c ++ drop (length c) b) 0
      (Z.of_nat (length part) + Z.of_nat (length c)), reads)))).
  { simpl. unfold di_len. simpl. rewrite length_app.
    rewrite (proj2 (Z.ltb_ge _ _)) by lia. rewrite Nat2Z.id.
    rewrite <- (take_drop (length c) b) at 1.
    rewrite put_mid by (rewrite length_take; lia). simpl.
    rewrite (proj2 (andb_false_iff _ _)); [done|].
    destruct (length c); [right; apply Z.eqb_neq; lia | left; apply Z.eqb_neq; lia]. }
  unfold ptp_recv. rewrite Ep. cbn [mbind option_bind]. simpl (truthy _). cbn iota.
  rewrite Er. simpl. apply (take_holds size); [done..|].
  constructor; simpl.
  - exists [], (drop (length c) b). split; [|done]. simpl. by rewrite <- Ec, <- app_assoc.
  - rewrite <- Ec, length_app. lia.
  - rewrite !length_app, length_drop. lia.
  - done.
Qed.

(** ** Every message, in order *)

Lemma recv_n_app n k d len reads ms d1 reads1 :
  recv_n n d len reads = Some (ms, d1, reads1) ->
  recv_n (n + k) d len reads = ('(ms', d2, reads2) ← recv_n k d1 len reads1;
                                 Some (ms ++ ms', d2, reads2)).
Proof.
  revert d reads ms. induction n as [|n IH]; intros d reads ms E; simpl in *.
  - injection E as <- <- <-. by destruct (recv_n k d len reads) as [[[??]?]|].
  - destruct (ptp_recv d len reads) as [[m d' reads'| |]|]; [|done..]. simpl in *.
    destruct (recv_n n d' len reads') as [[[ms' d2] r2]|] eqn:E'; [|done].
    simpl in E. injection E as <- <- <-. rewrite (IH _ _ _ E').
    by destruct (recv_n k d2 len r2) as [[[??]?]|].
Qed.

Lemma recv_all size len reads q : forall d part, Z.of_nat size < 65536 -> Z.of_nat size <= len ->
  Holds size d q part ->
  exists d', recv_n (length q) d len reads = Some (q, d', reads) /\ Holds size d' [] part.
Proof.
  induction q as [|m q IH]; intros d part Hsz Hlen H; [by exists d|].
  destruct (recv_holds size d m q part len reads Hsz Hlen H) as (d1 & E & H1).
  destruct (IH d1 part Hsz Hlen H1) as (d2 & E2 & H2).
  exists d2. split; [|done]. simpl. rewrite E. simpl. by rewrite E2.
Qed.

Lemma recv_delivers size len part reads ms : delivers size part reads ms ->
  forall d, Z.of_nat size < 65536 -> Z.of_nat size <= len -> Holds size d [] part ->
  exists d', recv_n (length ms) d len (Some <$> reads) = Some (ms, d', []) /\ Holds size d' [] [].
Proof.
  induction 1 as [|part c reads m q part' ms Ec Hc Hcut _ IH]; intros d Hsz Hlen H.
  { by exists d. }
  destruct (recv_reads size d part c m q part' len (Some <$> reads)) as (d1 & E1 & H1); [done..|].
  destruct (recv_all size len (Some <$> reads) q d1 part' Hsz Hlen H1) as (d2 & E2 & H2).
  destruct (IH d2 Hsz Hlen H2) as (d3 & E3 & H3). exists d3. split; [|done].
  rewrite fmap_cons. cbn [length recv_n]. rewrite E1. cbn [mbind option_bind].
  rewrite length_app.
  rewrite (recv_n_app _ (length ms) _ _ _ _ _ _ E2), E3. done.
Qed.


(** Three messages in two reads, the second message cut after three bytes. *)
(** ** The notify task is an input of the stack

    A round of the task changes nothing, or is one of the two inputs that are
    reports of the driver: what holds in the reachable states holds with the
    task that runs. *)

Section input.
Context {env : Env}.

Lemma timestamp_event_input mem data len w z w' :
  tx_timestamp_event handle_management mem data len w = Some (z, w') -> w' = w \/ input w w'.
Proof.
  unfold tx_timestamp_event. destruct (len <? SIZE_msg_options); [intros [= _ <-]; by left|].
  intros E. right.
  repeat (apply bind_inv in E as (? & w1 & E1 & E); cbv beta in E;
    first [apply reads_inv in E1 as ->; [|reads] | idtac]).
  injection E as _ <-. eapply in_timestamp, E1.
Qed.

Lemma notify_round_input mem data received w l w' :
  notify_round handle_management mem data received w = Some (l, w') -> w' = w \/ input w w'.
Proof.
  intros E. unfold notify_round in E. apply bind_inv in E as (d & w1 & E1 & E).
  apply reads_inv in E1 as ->; [|reads]. apply bind_inv in E as (u & w2 & E & [= _ <-]).
  unfold notify_event in E. destruct (_ <=? 0); [injection E as _ <-; by left|].
  apply bind_inv in E as (cmd & w3 & E1 & E). apply reads_inv in E1 as ->; [|reads].
  destruct (negb _); [injection E as _ <-; by left|]. cbv zeta in E.
  destruct (_ =? PTP_CMD_GET_MSG).
  { apply bind_inv in E as (z & w4 & E & [= _ <-]). eapply timestamp_event_input, E. }
  destruct (_ =? PTP_CMD_GET_LINK); [|injection E as _ <-; by left].
  unfold link_event in E. apply bind_inv in E as (port & w4 & E1 & E).
  apply reads_inv in E1 as ->; [|reads]. apply bind_inv in E as (st & w5 & E1 & E).
  apply reads_inv in E1 as ->; [|reads]. right. eapply in_link, E.
Qed.

End input.

(** ** Witness *)

#[local] Transparent le le_bytes driver_msg stream.
Definition reads3 : list (list Z) := [[5; 0; 17; 0; 1; 5; 0; 17]; [0; 2; 4; 0; 1; 9]].
Definition msgs3 : list (list Z) := [[17; 0; 1]; [17; 0; 2]; [1; 9]].
Lemma delivers3 : delivers (length (replicate MAX_REQUEST_SIZE 0)) [] reads3 msgs3.
Proof.
  apply (del_read _ [] _ _ [17; 0; 1] [] [5; 0; 17] [[17; 0; 2]; [1; 9]]); [done|simpl; lia| |].
  - right. split; [simpl; lia | done].
  - apply (del_read _ [5; 0; 17] _ _ [17; 0; 2] [[1; 9]] [] []);
      [done|simpl; lia|by left|apply del_end].
Qed.
