(* ===== verification/Frames.v ===== *)
(** * Frames on the sockets (ptp_sock.c)

    [send_msg] puts a message on a socket, the receive task takes datagrams
    from the sockets, filters them and hands the message to [ptp_setup_rx].
    The sockets themselves are the environment: what [Sendto] is given is the
    result of [send_msg], what [Recvfrom] brings is an argument of a round. *)

From stdpp Require Import base list numbers option gmap.
From Stdlib Require Import ZArith Lia.
From S2P Require Import Prelude Types Wire World Rx Manage Driver Setup.

(** ** Addresses *)

Definition AF_INET : Z := 2.
Definition AF_INET6 : Z := 10.
Definition AF_PACKET : Z := 17.

(** [inc_mac_addr]: the last three bytes of an address, from [o] on, as one
    number in network order; [char] has no sign on the target. *)
Definition inc_mac_addr (b : buf) (o : nat) (inc : Z) : option buf :=
  prev ← rd b (o + 2) 1;
  let a2 := u8 (prev + inc) in
  b ← wr b (o + 2) 1 a2;
  if a2 <? prev then
    prev ← rd b (o + 1) 1;
    let a1 := u8 (prev + 1) in
    b ← wr b (o + 1) 1 a1;
    if a1 <? prev then a0 ← rd b o 1; wr b o 1 (a0 + 1) else Some b
  else Some b.

(** The multicast addresses; the first byte of the second is cleared when the
    profile has a major sdoId. *)
Definition eth_pdelay : list Z := [1; 128; 194; 0; 0; 14].
Definition eth_others : list Z := [1; 27; 25; 0; 0; 0].
Definition PTP_PROTO : list Z := [136; 247].
Definition ETH_HLEN : nat := 14.

(** The global variables of ptp_sock.c the tasks use. *)
Record sock := mk_sock {
  so_self : clock_identity; so_pdelay_buf : buf; so_others_buf : buf;
  so_unicast : bool; so_ip_family : Z;
  so_hw_addr : list Z; so_host4 : list Z; so_host6 : list Z; so_ifindex : Z }.
#[export] Instance eta_sock : Eta sock := fun x =>
  mk_sock (so_self x) (so_pdelay_buf x) (so_others_buf x) (so_unicast x) (so_ip_family x)
    (so_hw_addr x) (so_host4 x) (so_host6 x) (so_ifindex x).
Definition set_so_pdelay_buf v (x : sock) : sock := ltac:(field_set so_pdelay_buf v x).
Definition set_so_others_buf v (x : sock) : sock := ltac:(field_set so_others_buf v x).
Definition set_so_self v (x : sock) : sock := ltac:(field_set so_self v x).
Definition set_so_hw_addr v (x : sock) : sock := ltac:(field_set so_hw_addr v x).
Definition set_so_ifindex v (x : sock) : sock := ltac:(field_set so_ifindex v x).

(** The Ethernet address of the device becomes the identity of the host. *)
Definition init_identity (hwaddr : list Z) (s : sock) : sock :=
  set_so_self (take 3 hwaddr ++ [255; 254] ++ take 3 (drop 3 hwaddr))
    (set_so_hw_addr (take 6 hwaddr) s).

(** [dest] is what [sscanf] makes of a destination; without one, or with less
    than six numbers, the frames go to the multicast addresses. *)
Definition raw_addr (dest : option (list Z)) (multicast : list Z) : list Z :=
  match dest with Some a => map (fun x => u8 x) a | None => multicast end.
Definition eth_header (mem : buf) (dst src : list Z) : option buf :=
  b ← put mem 0 dst; b ← put b 6 (take 6 src); put b 12 PTP_PROTO.
(** [mem1] and [mem2] are the blocks of [malloc], [others] the second multicast
    address as it is now. *)
Definition create_raw (hwaddr : list Z) (if_idx : Z) (dest : option (list Z))
    (others : list Z) (mem1 mem2 : buf) (s : sock) : option sock :=
  b1 ← eth_header mem1 (raw_addr dest eth_pdelay) hwaddr;
  first ← head others;
  b2 ← eth_header mem2 (raw_addr dest (if truthy first then others else eth_pdelay)) hwaddr;
  Some (set_so_ifindex if_idx (set_so_pdelay_buf b1 (set_so_others_buf b2 s))).

(** ** Sending *)

Inductive sock_fd := event_fd | general_fd | management4_fd | eth_fd.
(** The address a datagram goes to, by the name of the variable. *)
Inductive dest_addr :=
  | event_addr (v6 : bool) | p2p_event_addr (v6 : bool) | general_addr (v6 : bool)
  | p2p_general_addr (v6 : bool) | management_addr (v6 : bool)
  | eth_pdelay_addr | eth_others_addr.

Definition is_pdelay (type : Z) : bool :=
  (type =? PDELAY_REQ_MSG) || (type =? PDELAY_RESP_MSG) || (type =? PDELAY_RESP_FOLLOW_UP_MSG).

(** The socket and the address of a message over UDP. *)
Definition udp_target (s : sock) (v6 : bool) (type : Z) : sock_fd * dest_addr :=
  if (type =? SYNC_MSG) || (type =? DELAY_REQ_MSG) then (event_fd, event_addr v6)
  else if (type =? PDELAY_REQ_MSG) || (type =? PDELAY_RESP_MSG) then
    (event_fd, p2p_event_addr v6)
  else if type =? PDELAY_RESP_FOLLOW_UP_MSG then (general_fd, p2p_general_addr v6)
  else if type =? MANAGEMENT_MSG then
    if v6 then (general_fd, if so_unicast s then general_addr true else management_addr true)
    else (management4_fd, if so_unicast s && (so_ip_family s =? AF_INET)
                          then general_addr false else management_addr false)
  else (general_fd, general_addr v6).

(** The frame of a message over Ethernet, in the buffer of its destination. *)
Definition raw_frame (s : sock) (hdr msg : buf) (len : nat) (index : Z) : option (buf * buf) :=
  id ← bytes (so_self s) 5 3;
  hdr ← put hdr 9 id;
  hdr ← inc_mac_addr hdr 9 index;
  x ← bytes msg 0 len;
  hdr ← put hdr ETH_HLEN x;
  out ← bytes hdr 0 (ETH_HLEN + len);
  Some (hdr, out).

(** The message, in network order; [len] 0 stands for the length it tells.  The
    result is what [Sendto] is given, the message and the variables. *)
Definition send_msg (s : sock) (msg : buf) (family len index : Z)
    : option (sock_fd * dest_addr * buf * buf * sock) :=
  len ← (if len =? 0 then b ← swap msg 2 2; hdr_messageLength b else Some len);
  let v6 := family =? AF_INET6 in
  msg ← (if v6 then put msg (Z.to_nat len) [21; 136] else Some msg);
  let len := Z.to_nat (if v6 then len + 2 else len) in
  type ← hdr_messageType msg;
  if family =? AF_PACKET then
    if is_pdelay type then
      '(hdr, out) ← raw_frame s (so_pdelay_buf s) msg len index;
      Some (eth_fd, eth_pdelay_addr, out, msg, set_so_pdelay_buf hdr s)
    else
      '(hdr, out) ← raw_frame s (so_others_buf s) msg len index;
      Some (eth_fd, eth_others_addr, out, msg, set_so_others_buf hdr s)
  else
    out ← bytes msg 0 len;
    let '(fd, addr) := udp_target s v6 type in
    Some (fd, addr, out, msg, s).

(** ** Receiving *)

(** [struct sock_buf]; [from] has the 28 bytes of a [struct sockaddr_in6]. *)
Record sock_buf := mk_sbuf { sb_from : buf; sb_buf : buf; sb_len : Z }.

Definition sa_family (from : buf) : option Z := rd from 0 2.

(** 1 for an own message, 2 for one of another interface or of an IPv4 address
    in IPv6. *)
Definition check_loop (s : sock) (from : buf) : option Z :=
  family ← sa_family from;
  if family =? AF_INET6 then
    a ← bytes from 8 16;
    if memcmp a (so_host6 s) =? 0 then Some 1 else
    a ← bytes from 20 4;
    Some (if memcmp a (so_host4 s) =? 0 then 2 else 0)
  else if family =? AF_INET then
    a ← bytes from 4 4;
    Some (if memcmp a (so_host4 s) =? 0 then 1 else 0)
  else
    ifindex ← rd from 4 4;
    if negb (s32 ifindex =? so_ifindex s) then Some 2 else
    a ← bytes from 12 6;
    Some (if memcmp a (so_hw_addr s) =? 0 then 1 else 0).

Definition check_dup (cur last : sock_buf) (len : nat) : option bool :=
  if negb (sb_len cur =? sb_len last) then Some false else
  a ← bytes (sb_from cur) 0 len; b ← bytes (sb_from last) 0 len;
  if negb (memcmp a b =? 0) then Some false else
  a ← bytes (sb_buf cur) 0 (Z.to_nat (sb_len cur));
  b ← bytes (sb_buf last) 0 (Z.to_nat (sb_len cur));
  Some (memcmp a b =? 0).

(** The variables of a receive task: the buffer for the next datagram, the
    buffer of the last one taken, and whether one came in over Ethernet. *)
Record rx_task := mk_rx { rt_cur : sock_buf; rt_last : sock_buf; rt_raw : bool }.
Definition rx_task0 (mem1 mem2 : buf) : rx_task :=
  mk_rx (mk_sbuf (replicate 28 0) mem1 0) (mk_sbuf (replicate 28 0) mem2 0) false.

(** What goes on to the stack: the memory from the message on, the address it
    came from over Ethernet, and the flag. *)
Definition accepted : Type := buf * option (list Z) * bool.

(** A datagram of the address [addr]: the filters of a round. *)
Definition rx_filter (s : sock) (t : rx_task) (addr data : buf)
    : option (rx_task * option accepted) :=
  from ← put (sb_from (rt_cur t)) 0 addr;
  b ← put (sb_buf (rt_cur t)) 0 data;
  let cur := mk_sbuf from b (Z.of_nat (length data)) in
  family ← sa_family from;
  let raw := negb ((family =? AF_INET6) || (family =? AF_INET)) in
  let t := mk_rx cur (rt_last t) (raw || rt_raw t) in
  let msg := if family =? AF_PACKET then drop ETH_HLEN b else b in
  version ← rd msg 1 1;
  if Z.land version 15 <? 2 then Some (t, None) else
  looped ← check_loop s from;
  type ← hdr_messageType msg;
  if truthy looped && negb ((type =? MANAGEMENT_MSG) && (looped =? 1)) then Some (t, None) else
  dup ← check_dup cur (rt_last t) (length addr);
  if dup : bool then Some (t, None)
  else
    src ← (if raw then a ← bytes from 12 8; Some (Some a) else Some None);
    Some (mk_rx (rt_last t) cur (rt_raw t), Some (msg, src, rt_raw t)).

(** The port and time the driver tells of a message received. *)
Record rx_info := mk_rxi { rx_port : Z; rx_sec : Z; rx_nsec : Z }.

Definition get_rx_timestamp {D} (ioctl : ksz_request -> D -> Z * ksz_request * D)
    (hdr : buf) (i : rx_info) (req : ksz_request) : K D (Z * rx_info) :=
  '(rc, out, _) ← get_msg_info ioctl hdr 0 req;
  mret (rc, match out with
            | Some (port, sec, nsec) => mk_rxi port sec nsec
            | None => i
            end).

Section receive.
Context {env : Env}.
(** [get_rx_timestamp], as a function of the message. *)
Variable timestamp : buf -> rx_info -> option rx_info.

(** A round of [ReceiveTask]: the variables of the task and of the timestamp
    afterwards. *)
Definition receive_one (s : sock) (version : Z) (running : bool) (t : rx_task) (i : rx_info)
    (addr data : buf) : M (rx_task * rx_info) :=
  '(t, r) ← lift (rx_filter s t addr data);
  match r with
  | None => mret (t, i)
  | Some (msg, src, raw) =>
      if negb running then mret (t, i) else
      i ← (if version >=? 2 then lift (timestamp msg (mk_rxi 0 (rx_sec i) (rx_nsec i)))
           else mret i);
      _ ← ptp_setup_rx handle_management msg (u8 (rx_port i)) (rx_sec i) (rx_nsec i) false
            (take 6 <$> src) raw 0;
      mret (t, i)
  end.

End receive.
