(* ===== verification/FramesProofs.v ===== *)
(** * What the sockets carry *)

From stdpp Require Import base list numbers option gmap.
From Stdlib Require Import ZArith Lia.
From S2P Require Import Prelude Types Wire WireProofs TlvProofs World Driver Bytes Frames.

(** ** Reads of a prefix *)

Lemma bytes_app (b x : buf) o n l : bytes b o n = Some l -> bytes (b ++ x) o n = Some l.
Proof.
  unfold bytes, in_buf. rewrite length_app. destruct (Nat.leb_spec (o + n) (length b)); [|done].
  intros [= <-]. rewrite (proj2 (Nat.leb_le _ _)) by lia. f_equal.
  by rewrite drop_app_le, take_app_le by (rewrite ?length_drop; lia).
Qed.
Lemma rd_app (b x : buf) o n z : rd b o n = Some z -> rd (b ++ x) o n = Some z.
Proof.
  unfold rd. destruct (bytes b o n) eqn:E; [|done]. by rewrite (bytes_app _ x _ _ _ E).
Qed.
Lemma check_loop_app s from x z : check_loop s from = Some z -> check_loop s (from ++ x) = Some z.
Proof.
  unfold check_loop, sa_family. destruct (rd from 0 2) as [family|] eqn:E; [|done].
  rewrite (rd_app _ x _ _ _ E). simpl. destruct (family =? AF_INET6).
  { destruct (bytes from 8 16) as [a|] eqn:E1; [|done]. rewrite (bytes_app _ x _ _ _ E1). simpl.
    destruct (memcmp a (so_host6 s) =? 0); [done|].
    destruct (bytes from 20 4) as [a'|] eqn:E2; [|done]. by rewrite (bytes_app _ x _ _ _ E2). }
  destruct (family =? AF_INET).
  { destruct (bytes from 4 4) as [a|] eqn:E1; [|done]. by rewrite (bytes_app _ x _ _ _ E1). }
  destruct (rd from 4 4) as [ifi|] eqn:E1; [|done]. rewrite (rd_app _ x _ _ _ E1). simpl.
  destruct (negb _); [done|].
  destruct (bytes from 12 6) as [a|] eqn:E2; [|done]. by rewrite (bytes_app _ x _ _ _ E2).
Qed.

(** ** The filters of the receive task *)

Definition family_of (addr : buf) : Z := default 0 (sa_family addr).
Definition over_ethernet (addr : buf) : bool :=
  negb ((family_of addr =? AF_INET6) || (family_of addr =? AF_INET)).
(** The PTP message of a datagram. *)
Definition payload (addr data : buf) : buf :=
  if family_of addr =? AF_PACKET then drop ETH_HLEN data else data.
Definition source (addr : buf) : option (list Z) :=
  if over_ethernet addr then Some (take 8 (drop 12 addr)) else None.
(** Version 2 or later, and not an own message, unless for management. *)
Definition passes (s : sock) (addr data : buf) : bool :=
  let msg := payload addr data in
  let looped := default 0 (check_loop s addr) in
  (2 <=? Z.land (default 0 (rd msg 1 1)) 15) &&
  (negb (truthy looped) ||
   (default 0 (hdr_messageType msg) =? MANAGEMENT_MSG) && (looped =? 1)).

(** A datagram with an address of [n] bytes and a PTP message, for buffers of
    [size] bytes. *)
Record datagram_ok (s : sock) (n size : nat) (addr data : buf) : Prop := mk_dok {
  dok_addr : length addr = n; dok_family : is_Some (sa_family addr);
  dok_loop : is_Some (check_loop s addr);
  dok_src : over_ethernet addr = true -> (20 <= n)%nat;
  dok_data : (ETH_HLEN + SIZE_hdr <= length data <= size)%nat }.
Record task_ok (size : nat) (t : rx_task) : Prop := mk_tok {
  tok_from1 : length (sb_from (rt_cur t)) = 28%nat; tok_from2 : length (sb_from (rt_last t)) = 28%nat;
  tok_buf1 : length (sb_buf (rt_cur t)) = size; tok_buf2 : length (sb_buf (rt_last t)) = size }.

Definition same_as (b : sock_buf) (addr data : buf) : bool :=
  (sb_len b =? Z.of_nat (length data)) && bool_decide (take (length addr) (sb_from b) = addr) &&
  bool_decide (take (length data) (sb_buf b) = data).

Lemma memcmp_bool (a b : list Z) : length a = length b -> (memcmp a b =? 0) = bool_decide (b = a).
Proof.
  intros H. destruct (memcmp a b =? 0) eqn:E; symmetry.
  - apply Z.eqb_eq in E. apply bool_decide_true. symmetry. by apply memcmp_eq.
  - apply bool_decide_false. intros ->. rewrite memcmp_refl in E. done.
Qed.
Lemma bytes_0 (b : buf) n : (n <= length b)%nat -> bytes b 0 n = Some (take n b).
Proof. intros H. rewrite bytes_Some by lia. by rewrite drop_0. Qed.

Lemma check_dup_spec last addr data x y :
  (length addr <= length (sb_from last))%nat -> (length data <= length (sb_buf last))%nat ->
  check_dup (mk_sbuf (addr ++ x) (data ++ y) (Z.of_nat (length data))) last (length addr) =
  Some (same_as last addr data).
Proof.
  intros H1 H2. unfold check_dup, same_as. cbn [sb_len sb_from sb_buf]. rewrite Nat2Z.id.
  rewrite (Z.eqb_sym (sb_len last)).
  destruct (Z.of_nat (length data) =? sb_len last); [|done]. cbn [negb andb].
  rewrite !bytes_0 by (rewrite ?length_app; lia). rewrite !take_app_length. simpl.
  rewrite !memcmp_bool by (rewrite length_take; lia).
  by destruct (bool_decide (take _ (sb_from last) = addr)).
Qed.

Lemma put_front (b l : buf) : (length l <= length b)%nat ->
  put b 0 l = Some (l ++ drop (length l) b).
Proof.
  intros Hl. rewrite <- (take_drop (length l) b) at 1.
  exact (put_mid [] (take (length l) b) l (drop (length l) b) ltac:(rewrite length_take; lia)).
Qed.

Lemma payload_reads s n size addr data y : datagram_ok s n size addr data ->
  let msg := if family_of addr =? AF_PACKET then drop ETH_HLEN (data ++ y) else data ++ y in
  msg = payload addr data ++ y /\
  rd msg 1 1 = Some (default 0 (rd (payload addr data) 1 1)) /\
  hdr_messageType msg = Some (default 0 (hdr_messageType (payload addr data))).
Proof.
  intros [_ _ _ _ [Hd _]]. unfold ETH_HLEN, SIZE_hdr in *. cbv zeta.
  assert (E : (if family_of addr =? AF_PACKET then drop 14 (data ++ y) else data ++ y) =
              payload addr data ++ y).
  { unfold payload. destruct (_ =? AF_PACKET); [|done]. by rewrite drop_app_le by lia. }
  assert (L : (34 <= length (payload addr data))%nat).
  { unfold payload. destruct (_ =? AF_PACKET); rewrite ?length_drop; unfold ETH_HLEN; lia. }
  unfold ETH_HLEN. rewrite E. split; [done|].
  assert (R : forall o k, (o + k <= 34)%nat ->
    rd (payload addr data ++ y) o k = Some (default 0 (rd (payload addr data) o k))).
  { intros o k Ho. apply rd_app. unfold rd. by rewrite bytes_Some by lia. }
  split; [by apply R; lia|]. unfold hdr_messageType. rewrite R by lia.
  unfold rd. by rewrite bytes_Some by lia.
Qed.

Lemma rx_filter_spec s n size t addr data : (n <= 28)%nat -> task_ok size t ->
  datagram_ok s n size addr data ->
  exists x y,
    let cur := mk_sbuf (addr ++ x) (data ++ y) (Z.of_nat (length data)) in
    let raw := over_ethernet addr || rt_raw t in
    length (addr ++ x) = 28%nat /\ length (data ++ y) = size /\
    rx_filter s t addr data = Some
      (if passes s addr data && negb (same_as (rt_last t) addr data)
       then (mk_rx (rt_last t) cur raw, Some (payload addr data ++ y, source addr, raw))
       else (mk_rx cur (rt_last t) raw, None)).
Proof.
  intros Hn [H1 H2 H3 H4] Hok. pose proof Hok as [Ha [fam Hf] [z Hl] Hs [Hd1 Hd2]].
  exists (drop n (sb_from (rt_cur t))), (drop (length data) (sb_buf (rt_cur t))).
  split; [rewrite length_app, length_drop; lia|].
  split; [rewrite length_app, length_drop; lia|].
  unfold rx_filter. rewrite !put_front by lia. rewrite Ha. cbn [mbind option_bind].
  set (x := drop n _). set (y := drop (length data) _).
  destruct (payload_reads s n size addr data y Hok) as (Em & Ev & Et). cbv zeta in Em, Ev, Et.
  unfold source. unfold over_ethernet, family_of in *. unfold sa_family in *.
  rewrite (rd_app _ x _ _ _ Hf), Hf in *. cbn [mbind option_bind default id from_option] in *.
  set (msg := if fam =? AF_PACKET then _ else _) in *. rewrite Ev. cbn [mbind option_bind].
  unfold passes. rewrite Hl. cbn [default id from_option].
  set (v := Z.land _ 15). set (type := default 0 (hdr_messageType _)) in *.
  assert ((2 <=? v) = negb (v <? 2)) as -> by (destruct (Z.leb_spec 2 v), (Z.ltb_spec v 2); lia || done).
  destruct (v <? 2); [done|]. rewrite (check_loop_app _ _ x _ Hl), Et. cbn [mbind option_bind negb andb].
  assert (negb (truthy z) || (type =? MANAGEMENT_MSG) && (z =? 1) =
          negb (truthy z && negb ((type =? MANAGEMENT_MSG) && (z =? 1)))) as ->
    by by destruct (truthy z), ((type =? MANAGEMENT_MSG) && (z =? 1)).
  destruct (truthy z && _); [done|]. cbn [negb andb].
  cbn [rt_last rt_raw]. rewrite <- Ha, check_dup_spec by lia. cbn [mbind option_bind].
  destruct (same_as (rt_last t) addr data); [done|]. cbn [negb]. rewrite Em.
  destruct (negb _) eqn:Er; [|done]. rewrite bytes_Some by (rewrite length_app; specialize (Hs eq_refl); lia).
  cbn [mbind option_bind]. rewrite drop_app_le, take_app_le; [done|rewrite length_drop|];
    specialize (Hs eq_refl); lia.
Qed.

(** ** A run of the task *)

Definition datagram : Type := buf * buf.
(** What is handed on, from the datagrams alone: those that pass, each once when
    it comes again and again. *)
Fixpoint taken (s : sock) (last : option datagram) (ds : list datagram) : list datagram :=
  match ds with
  | [] => []
  | (a, d) :: ds =>
      if negb (passes s a d) then taken s last ds
      else if bool_decide (last = Some (a, d)) then taken s last ds
      else (a, d) :: taken s (Some (a, d)) ds
  end.

Fixpoint rx_run (s : sock) (t : rx_task) (ds : list datagram)
    : option (rx_task * list accepted) :=
  match ds with
  | [] => Some (t, [])
  | (a, d) :: ds =>
      '(t, r) ← rx_filter s t a d;
      '(t, out) ← rx_run s t ds;
      Some (t, match r with Some x => x :: out | None => out end)
  end.

(** The message of a datagram, with whatever the buffer holds behind it. *)
Definition carries (eth : bool) (g : datagram) (x : accepted) : Prop :=
  exists rest, x = (payload g.1 g.2 ++ rest, source g.1, eth).

Definition remembers (t : rx_task) (last : option datagram) : Prop :=
  match last with
  | None => sb_len (rt_last t) = 0
  | Some (a, d) => exists x y, rt_last t = mk_sbuf (a ++ x) (d ++ y) (Z.of_nat (length d))
  end.

Lemma same_remembered s n size t last addr data : remembers t last ->
  match last with Some g => length g.1 = n | None => True end ->
  datagram_ok s n size addr data ->
  same_as (rt_last t) addr data = bool_decide (last = Some (addr, data)).
Proof.
  intros Hr Hn [Ha _ _ _ [Hd _]]. unfold same_as. destruct last as [[a d]|]; simpl in *.
  - destruct Hr as (x & y & ->). cbn [sb_len sb_from sb_buf]. rewrite Ha, <- Hn, take_app_length.
    destruct (Z.eqb_spec (Z.of_nat (length d)) (Z.of_nat (length data))) as [E|E]; cbn [andb].
    + assert (length data = length d) as -> by lia. rewrite take_app_length.
      symmetry. rewrite <- bool_decide_and. apply bool_decide_ext. naive_solver.
    + symmetry. apply bool_decide_false. intros [= -> ->]. done.
  - rewrite Hr. rewrite (proj2 (Z.eqb_neq _ _)); [done|]. unfold ETH_HLEN, SIZE_hdr in Hd. lia.
Qed.

Lemma rx_run_spec s n size eth ds : (n <= 28)%nat -> forall t last,
  task_ok size t -> remembers t last ->
  match last with Some g => length g.1 = n | None => True end ->
  (rt_raw t = true -> eth = true) ->
  Forall (fun g => datagram_ok s n size g.1 g.2 /\ over_ethernet g.1 = eth) ds ->
  exists t' out, rx_run s t ds = Some (t', out) /\ Forall2 (carries eth) (taken s last ds) out.
Proof.
  intros Hn. induction ds as [|[a d] ds IH]; intros t last Ht Hr Hl He Hds.
  { eexists _, _. split; [done|]. constructor. }
  apply Forall_cons in Hds as [[Hok Heth] Hds]. simpl in Hok, Heth.
  destruct (rx_filter_spec s n size t a d Hn Ht Hok) as (x & y & Lx & Ly & E). cbv zeta in E.
  rewrite (same_remembered s n size t last a d Hr Hl Hok), Heth in E.
  assert (eth || rt_raw t = eth) as Eraw.
  { destruct eth; [done|]. destruct (rt_raw t); naive_solver. }
  rewrite Eraw in E. cbn [rx_run taken]. rewrite E. cbn [mbind option_bind].
  destruct Ht as [H1 H2 H3 H4].
  destruct (passes s a d); cbn [andb negb].
  - destruct (bool_decide (last = Some (a, d))) eqn:Eb; cbn [andb negb].
    + destruct (IH (mk_rx (mk_sbuf (a ++ x) (d ++ y) (Z.of_nat (length d))) (rt_last t) eth) last)
        as (t' & out & E' & F); [by constructor|done|done|done|done|].
      rewrite E'. by eexists _, _.
    + destruct (IH (mk_rx (rt_last t) (mk_sbuf (a ++ x) (d ++ y) (Z.of_nat (length d))) eth)
        (Some (a, d))) as (t' & out & E' & F); [by constructor|by exists x, y| |done|done|].
      { apply (dok_addr _ _ _ _ _ Hok). }
      rewrite E'. eexists _, _. split; [done|]. constructor; [by exists y|done].
  - destruct (IH (mk_rx (mk_sbuf (a ++ x) (d ++ y) (Z.of_nat (length d))) (rt_last t) eth) last)
      as (t' & out & E' & F); [by constructor|done|done|done|done|].
    rewrite E'. by eexists _, _.
Qed.

(** C34: The receive task hands on exactly the datagrams that pass its filters,
    in order and without the repetitions of the one handed on before: its two
    buffers that take turns are no more than the memory of that datagram.  What
    is handed on is the message, followed by what the buffer held. *)
Theorem receive_filter s n size eth mem1 mem2 ds (Hn : (n <= 28)%nat)
  (H1 : length mem1 = size) (H2 : length mem2 = size)
  (Hds : Forall (fun g => datagram_ok s n size g.1 g.2 /\ over_ethernet g.1 = eth) ds) :
  exists t' out, rx_run s (rx_task0 mem1 mem2) ds = Some (t', out) /\
    Forall2 (carries eth) (taken s None ds) out.
Proof. by apply (rx_run_spec s n size eth ds Hn). Qed.

(** ** A frame over Ethernet *)

Lemma rd1_mid (pre l post : buf) i x : l !! i = Some x ->
  rd (pre ++ l ++ post) (length pre + i) 1 = Some x.
Proof.
  intros H. pose proof (lookup_lt_Some _ _ _ H) as Hi. unfold rd.
  rewrite bytes_Some by (rewrite !length_app; lia).
  rewrite <- drop_drop, drop_app_length, drop_app_le by lia.
  rewrite (drop_S _ _ _ H). simpl. f_equal. lia.
Qed.
Lemma wr1_mid (pre l post : buf) i v : (i < length l)%nat ->
  wr (pre ++ l ++ post) (length pre + i) 1 v = Some (pre ++ <[i := v mod 256]> l ++ post).
Proof.
  intros H. unfold wr. rewrite put_local by (simpl; lia). unfold put, in_buf.
  rewrite (proj2 (Nat.leb_le _ _)) by (simpl; lia). simpl. do 3 f_equal.
  by rewrite insert_take_drop, Nat.add_1_r by done.
Qed.

(** Three bytes as a number in network order, and back. *)
Definition mac24 (l : list Z) : Z :=
  match l with [a; b; c] => a * 65536 + b * 256 + c | _ => 0 end.
Definition be24 (v : Z) : list Z := [v / 65536 mod 256; v / 256 mod 256; v mod 256].
Definition byte (z : Z) : Prop := 0 <= z < 256.

Lemma be24_eq (pre post : buf) a b c v :
  a = v / 65536 mod 256 -> b = v / 256 mod 256 -> c = v mod 256 ->
  Some (pre ++ [a; b; c] ++ post) = Some (pre ++ be24 v ++ post).
Proof. by intros -> -> ->. Qed.
Ltac solve_be24 := apply be24_eq; Z.to_euclidean_division_equations; lia.

(** [inc_mac_addr] adds to the three bytes as one number, modulo 2^24. *)
Lemma inc_mac_addr_spec (pre l post : buf) inc : length l = 3%nat -> Forall byte l -> byte inc ->
  inc_mac_addr (pre ++ l ++ post) (length pre) inc = Some (pre ++ be24 (mac24 l + inc) ++ post).
Proof.
  unfold byte. intros Hl Hb Hi. destruct l as [|a [|b [|c [|]]]]; try done. clear Hl.
  rewrite !Forall_cons in Hb. destruct Hb as (Ha & Hb & Hc & _).
  unfold inc_mac_addr. rewrite (rd1_mid pre [a; b; c] post 2 c eq_refl). cbn [mbind option_bind].
  rewrite wr1_mid by (simpl; lia). cbn [mbind option_bind insert list_insert].
  unfold u8. change (2 ^ 8) with 256. rewrite Z.mod_mod by done.
  unfold mac24. destruct (Z.ltb_spec ((c + inc) mod 256) c) as [H2|H2].
  - rewrite (rd1_mid pre [a; b; (c + inc) mod 256] post 1 b eq_refl). cbn [mbind option_bind].
    rewrite wr1_mid by (simpl; lia). cbn [mbind option_bind insert list_insert].
    rewrite Z.mod_mod by done.
    destruct (Z.ltb_spec ((b + 1) mod 256) b) as [H1|H1].
    + pose proof (rd1_mid pre [a; (b + 1) mod 256; (c + inc) mod 256] post 0 a eq_refl) as Er.
      pose proof (wr1_mid pre [a; (b + 1) mod 256; (c + inc) mod 256] post 0 (a + 1)) as Ew.
      rewrite Nat.add_0_r in Er, Ew. rewrite Er. cbn [mbind option_bind].
      rewrite Ew by (simpl; lia). cbn [insert list_insert].
      solve_be24.
    + solve_be24.
  - solve_be24.
Qed.

(** The buffer of a destination: two addresses, the last three bytes of the
    second rewritten with every frame, the protocol and [n] bytes. *)
Definition framed (dst hw : list Z) (n : nat) (b : buf) : Prop :=
  exists x m : list Z, b = (dst ++ take 3 hw) ++ x ++ PTP_PROTO ++ m /\
    length x = 3%nat /\ length m = n.
(** The variables as [init_sock] leaves them for the device of address [hw]. *)
Record raw_ready (d1 d2 hw : list Z) (n : nat) (s : sock) : Prop := mk_raw {
  raw_self : so_self s = take 3 hw ++ [255; 254] ++ drop 3 hw;
  raw_pdelay : framed d1 hw n (so_pdelay_buf s);
  raw_others : framed d2 hw n (so_others_buf s) }.
Definition mac (l : list Z) : Prop := length l = 6%nat /\ Forall byte l.

Lemma eth_header_framed mem dst hw n : length dst = 6%nat -> length hw = 6%nat ->
  length mem = (14 + n)%nat -> exists b, eth_header mem dst hw = Some b /\ framed dst hw n b.
Proof.
  intros Hd Hh Hm. unfold eth_header. rewrite put_front by lia. cbn [mbind option_bind].
  rewrite Hd, (take_ge hw) by lia. set (r := drop 6 mem).
  assert (Hr : length r = (8 + n)%nat) by (unfold r; rewrite length_drop; lia).
  pose proof (put_mid dst (take 6 r) hw (drop 6 r) ltac:(rewrite length_take; lia)) as E.
  rewrite take_drop, Hd in E. rewrite E. cbn [mbind option_bind].
  pose proof (put_mid (dst ++ hw) (take 2 (drop 6 r)) PTP_PROTO (drop 2 (drop 6 r))
    ltac:(rewrite length_take, length_drop; change (length PTP_PROTO) with 2%nat; lia)) as E2.
  rewrite take_drop, length_app, Hd, Hh, <- app_assoc in E2. cbn [Nat.add] in E2. rewrite E2.
  eexists. split; [done|]. exists (drop 3 hw), (drop 2 (drop 6 r)).
  rewrite !length_drop. split; [|lia].
  rewrite <- (take_drop 3 hw) at 1. by rewrite <- !app_assoc.
Qed.

(** After the start of the sockets the buffers are ready. *)
Lemma create_raw_ready hw if_idx dest others mem1 mem2 s n : mac hw ->
  match dest with Some a => length a = 6%nat | None => True end -> length others = 6%nat ->
  length mem1 = (14 + n)%nat -> length mem2 = (14 + n)%nat ->
  exists d1 d2 s', create_raw hw if_idx dest others mem1 mem2 (init_identity hw s) = Some s' /\
    length d1 = 6%nat /\ length d2 = 6%nat /\ raw_ready d1 d2 hw n s'.
Proof.
  intros [Hh Hb] Hd Ho H1 H2. unfold create_raw.
  assert (A : forall l : list Z, length l = 6%nat -> length (raw_addr dest l) = 6%nat).
  { intros l Hl. unfold raw_addr. destruct dest; [by rewrite length_map|done]. }
  destruct (eth_header_framed mem1 (raw_addr dest eth_pdelay) hw n) as (b1 & E1 & F1); [by apply A|done..|].
  rewrite E1. cbn [mbind option_bind]. destruct others as [|o others]; [done|]. cbn [head mbind option_bind].
  set (l2 := if truthy o then _ else _).
  destruct (eth_header_framed mem2 (raw_addr dest l2) hw n) as (b2 & E2 & F2); [|done..|].
  { apply A. unfold l2. by destruct (truthy o). }
  rewrite E2. cbn [mbind option_bind].
  exists (raw_addr dest eth_pdelay), (raw_addr dest l2). eexists. split; [done|].
  split; [by apply A|]. split; [apply A; unfold l2; by destruct (truthy o)|].
  constructor; [|exact F1|exact F2]. simpl. by rewrite (take_ge (drop 3 hw)) by (rewrite length_drop; lia).
Qed.

(** The source address of the frames of an index. *)
Definition raw_source (hw : list Z) (index : Z) : list Z :=
  take 3 hw ++ be24 (mac24 (drop 3 hw) + index).

Lemma raw_source_length hw index : mac hw -> length (raw_source hw index) = 6%nat.
Proof. intros [H _]. unfold raw_source. rewrite length_app, length_take, Nat.min_l by lia. done. Qed.

Lemma raw_frame_spec s d hw n hdr msg L index : mac hw -> byte index -> length d = 6%nat ->
  so_self s = take 3 hw ++ [255; 254] ++ drop 3 hw -> framed d hw n hdr ->
  (L <= n)%nat -> (L <= length msg)%nat ->
  exists hdr', raw_frame s hdr msg L index =
      Some (hdr', d ++ raw_source hw index ++ PTP_PROTO ++ take L msg) /\ framed d hw n hdr'.
Proof.
  intros [Hh Hb] Hi Hd Hs (x & m & -> & Hx & Hm) HL Hmsg. unfold raw_frame, raw_source.
  set (a := take 3 hw) in *. set (z := drop 3 hw) in *.
  assert (Ha : length a = 3%nat) by (unfold a; rewrite length_take; lia).
  assert (Hz : length z = 3%nat) by (unfold z; rewrite length_drop; lia).
  assert (Hzb : Forall byte z) by (by apply Forall_drop).
  assert (Hp : length (d ++ a) = 9%nat) by (rewrite length_app; lia).
  pose proof (bytes_mid (a ++ [255; 254]) z []) as E.
  rewrite length_app, Ha, Hz, app_nil_r, <- app_assoc in E. cbn [length Nat.add] in E.
  rewrite Hs, E. cbn [mbind option_bind]. rewrite <- Hp, put_mid by lia. cbn [mbind option_bind].
  rewrite inc_mac_addr_spec by done. cbn [mbind option_bind].
  rewrite bytes_0 by done. cbn [mbind option_bind].
  set (y := be24 _). assert (Hy : length y = 3%nat) by done.
  pose proof (put_mid ((d ++ a) ++ y ++ PTP_PROTO) (take L m) (take L msg) (drop L m)
    ltac:(rewrite !length_take; lia)) as E2.
  rewrite take_drop, !length_app, Hd, Ha, Hy, <- !app_assoc in E2. cbn [length PTP_PROTO Nat.add] in E2.
  unfold ETH_HLEN. rewrite <- !app_assoc. unfold PTP_PROTO in *. rewrite E2. cbn [mbind option_bind].
  pose proof (bytes_mid [] (d ++ a ++ y ++ [136; 247] ++ take L msg) (drop L m)) as E3.
  rewrite !length_app, Hd, Ha, Hy, length_take, Nat.min_l, app_nil_l, <- !app_assoc in E3 by done.
  cbn [length Nat.add] in E3 |- *. rewrite E3. eexists. split; [done|].
  exists y, (take L msg ++ drop L m). unfold PTP_PROTO. rewrite <- !app_assoc. split; [done|].
  split; [done|]. rewrite length_app, length_take, length_drop. lia.
Qed.

(** The length [send_msg] takes. *)
Definition sent_length (msg : buf) (len : Z) : option Z :=
  if len =? 0 then b ← swap msg 2 2; hdr_messageLength b else Some len.

Lemma send_raw d1 d2 hw n s msg len L index : raw_ready d1 d2 hw n s -> mac hw ->
  length d1 = 6%nat -> length d2 = 6%nat -> byte index ->
  sent_length msg len = Some (Z.of_nat L) -> (SIZE_hdr <= L <= n)%nat -> (L <= length msg)%nat ->
  exists type s', hdr_messageType msg = Some type /\ raw_ready d1 d2 hw n s' /\
    send_msg s msg AF_PACKET len index = Some (eth_fd,
      (if is_pdelay type then eth_pdelay_addr else eth_others_addr),
      (if is_pdelay type then d1 else d2) ++ raw_source hw index ++ PTP_PROTO ++ take L msg,
      msg, s').
Proof.
  intros [Hs F1 F2] Hm H1 H2 Hi HL Hn Hmsg. unfold SIZE_hdr in Hn.
  destruct (hdr_messageType msg) as [type|] eqn:Et.
  2: { revert Et. unfold hdr_messageType, rd. by rewrite bytes_Some by lia. }
  unfold send_msg. unfold sent_length in HL. rewrite HL. cbn [mbind option_bind].
  change (AF_PACKET =? AF_INET6) with false. cbn [mbind option_bind].
  rewrite Et, Nat2Z.id. cbn [mbind option_bind]. change (AF_PACKET =? AF_PACKET) with true. cbn match.
  destruct (is_pdelay type) eqn:Ep.
  - destruct (raw_frame_spec s d1 hw n _ msg L index Hm Hi H1 Hs F1) as (h & E & F); [lia..|].
    rewrite E. cbn [mbind option_bind]. exists type. eexists. rewrite Ep. split_and!; [done| |done]. by constructor.
  - destruct (raw_frame_spec s d2 hw n _ msg L index Hm Hi H2 Hs F2) as (h & E & F); [lia..|].
    rewrite E. cbn [mbind option_bind]. exists type. eexists. rewrite Ep. split_and!; [done| |done]. by constructor.
Qed.

(** The address a packet socket tells: family, protocol, interface, four bytes
    of kind and length, the address of the sender and two bytes more. *)
Definition packet_addr (ifindex : Z) (mid src : list Z) : buf :=
  le_bytes 2 AF_PACKET ++ PTP_PROTO ++ le_bytes 4 ifindex ++ mid ++ src ++ [0; 0].

Lemma packet_addr_reads ifindex mid src : 0 <= ifindex < 2 ^ 31 -> length mid = 4%nat ->
  length src = 6%nat ->
  sa_family (packet_addr ifindex mid src) = Some AF_PACKET /\
  rd (packet_addr ifindex mid src) 4 4 = Some ifindex /\
  bytes (packet_addr ifindex mid src) 12 6 = Some src /\
  length (packet_addr ifindex mid src) = 20%nat.
Proof.
  intros Hi Hm Hs. unfold packet_addr. split; [done|]. split_and!.
  - pose proof (bytes_mid (le_bytes 2 AF_PACKET ++ PTP_PROTO) (le_bytes 4 ifindex)
      (mid ++ src ++ [0; 0])) as E.
    rewrite le_bytes_length, <- app_assoc in E. unfold rd.
    change (length (le_bytes 2 AF_PACKET ++ PTP_PROTO)) with 4%nat in E. rewrite E.
    cbn [fmap option_fmap option_map]. by rewrite le_le_bytes by lia.
  - pose proof (bytes_mid (le_bytes 2 AF_PACKET ++ PTP_PROTO ++ le_bytes 4 ifindex ++ mid) src [0; 0]) as E.
    rewrite !length_app, !le_bytes_length, Hm, Hs, <- !app_assoc in E. exact E.
  - rewrite !length_app, !le_bytes_length, Hm, Hs. done.
Qed.

Section over_ethernet.
Variables (hw : list Z) (index ifindex : Z) (mid : list Z) (r : sock).
Hypotheses (Hhw : mac hw) (Hindex : byte index) (Hif : 0 <= ifindex < 2 ^ 31) (Hmid : length mid = 4%nat).
Hypotheses (Hr : so_ifindex r = ifindex) (Hown : length (so_hw_addr r) = 6%nat).
(** The receiver is another host. *)
Hypothesis (Hother : raw_source hw index <> so_hw_addr r).
Let from := packet_addr ifindex mid (raw_source hw index).

Lemma not_looped : check_loop r from = Some 0.
Proof.
  destruct (packet_addr_reads ifindex mid _ Hif Hmid (raw_source_length hw index Hhw)) as (E1 & E2 & E3 & _).
  unfold check_loop, from. rewrite E1. cbn [mbind option_bind].
  change (AF_PACKET =? AF_INET6) with false. change (AF_PACKET =? AF_INET) with false.
  rewrite E2. cbn [mbind option_bind].
  rewrite s32_small by lia. rewrite Hr, Z.eqb_refl. cbn [negb]. rewrite E3. cbn [mbind option_bind].
  rewrite memcmp_bool by (by rewrite (raw_source_length hw index Hhw)). by rewrite bool_decide_false.
Qed.

Lemma receive_raw size t (dst m : list Z) : task_ok size t -> length dst = 6%nat ->
  (SIZE_hdr <= length m)%nat -> (ETH_HLEN + length m <= size)%nat ->
  2 <= Z.land (default 0 (rd m 1 1)) 15 ->
  let frame := dst ++ raw_source hw index ++ PTP_PROTO ++ m in
  same_as (rt_last t) from frame = false ->
  exists t' rest, rx_filter r t from frame =
    Some (t', Some (m ++ rest, Some (raw_source hw index ++ [0; 0]), true)).
Proof.
  intros Ht Hd Hm Hsize Hv frame Hnew.
  destruct (packet_addr_reads ifindex mid _ Hif Hmid (raw_source_length hw index Hhw)) as (E1 & E2 & E3 & E4).
  assert (Efam : family_of from = AF_PACKET) by (unfold family_of, from; by rewrite E1).
  assert (Ep : payload from frame = m).
  { unfold payload. rewrite Efam. change (AF_PACKET =? AF_PACKET) with true. cbn match.
    unfold frame. rewrite !app_assoc, drop_app_length'; [done|].
    rewrite !length_app, (raw_source_length hw index Hhw), Hd. done. }
  assert (Hlen : length frame = (ETH_HLEN + length m)%nat).
  { unfold frame. rewrite !length_app, (raw_source_length hw index Hhw), Hd. done. }
  destruct (rx_filter_spec r 20 size t from frame) as (x & y & _ & _ & E); [lia|done| |].
  { constructor; [done|by exists AF_PACKET|exists 0; apply not_looped|lia|lia]. }
  cbv zeta in E. rewrite Hnew, Ep in E. unfold over_ethernet, passes, source, over_ethernet in E.
  rewrite Efam, Ep, not_looped in E. change (AF_PACKET =? AF_INET6) with false in E.
  change (AF_PACKET =? AF_INET) with false in E. cbn [negb orb andb default id from_option truthy] in E.
  change (negb (truthy 0)) with true in E. rewrite (proj2 (Z.leb_le _ _) Hv) in E.
  cbn [andb negb orb] in E. eexists _, y. rewrite E. do 5 f_equal.
  unfold from, packet_addr. rewrite !app_assoc, <- (app_assoc _ (raw_source hw index)).
  rewrite drop_app_length' by (rewrite !length_app, !le_bytes_length, Hmid; done).
  rewrite take_ge; [done|]. rewrite length_app, (raw_source_length hw index Hhw). done.
Qed.
End over_ethernet.

(** C33: A message sent over Ethernet arrives as it was sent: [send_msg] puts the
    message behind a header of the destination, the source address of its index
    and the protocol, and keeps the buffers ready for the next one; the receive
    task of another host on the network, given that frame and the address of its
    sender, hands on the message, with the memory behind it, and the source
    address, unless it is the frame it took last. *)
Theorem raw_roundtrip d1 d2 hw n s msg len L index r size t ifindex mid
  (Hs : raw_ready d1 d2 hw n s) (Hhw : mac hw) (H1 : length d1 = 6%nat) (H2 : length d2 = 6%nat)
  (Hi : byte index) (HL : sent_length msg len = Some (Z.of_nat L))
  (Hn : (SIZE_hdr <= L <= n)%nat) (Hmsg : (L <= length msg)%nat)
  (Hv : 2 <= Z.land (default 0 (rd msg 1 1)) 15)
  (Hother : raw_source hw index <> so_hw_addr r) (Hown : length (so_hw_addr r) = 6%nat)
  (Hif : 0 <= ifindex < 2 ^ 31) (Hr : so_ifindex r = ifindex) (Hmid : length mid = 4%nat)
  (Ht : task_ok size t) (Hsize : (ETH_HLEN + L <= size)%nat) :
  let from := packet_addr ifindex mid (raw_source hw index) in
  exists addr dst frame s',
    send_msg s msg AF_PACKET len index = Some (eth_fd, addr, frame, msg, s') /\
    raw_ready d1 d2 hw n s' /\ (dst = d1 \/ dst = d2) /\
    frame = dst ++ raw_source hw index ++ PTP_PROTO ++ take L msg /\
    (same_as (rt_last t) from frame = false ->
     exists t' rest, rx_filter r t from frame =
       Some (t', Some (take L msg ++ rest, Some (raw_source hw index ++ [0; 0]), true))).
Proof.
  destruct (send_raw d1 d2 hw n s msg len L index) as (type & s' & _ & Hs' & E); [done..|].
  cbv zeta. eexists _, (if is_pdelay type then d1 else d2), _, s'. split; [exact E|]. split; [done|].
  split; [destruct (is_pdelay type); [by left|by right]|]. split; [done|].
  assert (El : length (take L msg) = L) by (rewrite length_take; lia).
  assert (Ev : rd (take L msg) 1 1 = rd msg 1 1).
  { destruct (rd (take L msg) 1 1) as [z|] eqn:Ez.
    - rewrite <- (take_drop L msg). by rewrite (rd_app _ _ _ _ _ Ez).
    - unfold rd in Ez. unfold SIZE_hdr in Hn. by rewrite bytes_Some in Ez by lia. }
  apply (receive_raw hw index ifindex mid r Hhw Hif Hmid Hr Hown Hother size); rewrite ?El, ?Ev; try done; try lia.
  by destruct (is_pdelay type).
Qed.

(** ** A pair of hosts *)

Definition hw_a : list Z := [0; 16; 161; 255; 255; 254].
Definition hw_b : list Z := [0; 16; 161; 1; 2; 3].
(** The block of [create_raw] holds 4004 bytes of message; 64 will do here. *)
Definition host (hw : list Z) : sock :=
  default (mk_sock [] [] [] false 0 [] [] [] 0)
    (create_raw hw 3 None eth_others (replicate 78 0) (replicate 78 0)
       (init_identity hw (mk_sock [] [] [] false AF_PACKET [] [192; 168; 0; 1] (replicate 16 0) 0))).
(** A Sync message of 44 bytes, and a management message. *)
Definition a_sync : buf := [0; 18; 0; 44] ++ replicate 40 7 ++ replicate 20 0.
Definition a_management : buf := [13; 18; 0; 44] ++ replicate 40 7 ++ replicate 20 0.

Lemma raw_roundtrip_witness :
  exists addr dst frame s',
    send_msg (host hw_a) a_sync AF_PACKET 0 2 = Some (eth_fd, addr, frame, a_sync, s') /\
    raw_ready eth_pdelay eth_others hw_a 64 s' /\ (dst = eth_pdelay \/ dst = eth_others) /\
    frame = dst ++ raw_source hw_a 2 ++ PTP_PROTO ++ take 44 a_sync /\
    (same_as (rt_last (rx_task0 (replicate 80 0) (replicate 80 0)))
       (packet_addr 3 [1; 0; 2; 6] (raw_source hw_a 2)) frame = false ->
     exists t' rest, rx_filter (host hw_b) (rx_task0 (replicate 80 0) (replicate 80 0))
         (packet_addr 3 [1; 0; 2; 6] (raw_source hw_a 2)) frame =
       Some (t', Some (take 44 a_sync ++ rest, Some (raw_source hw_a 2 ++ [0; 0]), true))).
Proof.
  refine (raw_roundtrip eth_pdelay eth_others hw_a 64 (host hw_a) a_sync 0 44 2 (host hw_b) 80
    (rx_task0 (replicate 80 0) (replicate 80 0)) 3 [1; 0; 2; 6] _ _ _ _ _ _ _ _ _ _ _ _ _ _ _ _);
    try reflexivity; try done; try lia; try (unfold SIZE_hdr, ETH_HLEN; simpl; lia).
  - constructor; [reflexivity| |]; (exists [255; 255; 254], (replicate 64 0); split_and!; reflexivity).
  - split; [reflexivity|]. unfold byte. repeat constructor; lia.
Defined.

(** Frames of the host a for the host b: a Sync twice, an old version and a
    message of b itself. *)
Definition some_datagrams : list datagram :=
  let addr hw := packet_addr 3 [1; 0; 2; 6] hw in
  let frame hw m := eth_others ++ hw ++ PTP_PROTO ++ take 44 m in
  [ (addr hw_a, frame hw_a a_sync); (addr hw_a, frame hw_a a_sync);
    (addr hw_a, frame hw_a ([0; 1] ++ drop 2 a_sync)); (addr hw_b, frame hw_b a_sync);
    (addr hw_b, frame hw_b a_management); (addr hw_a, frame hw_a a_sync) ].

Lemma receive_filter_witness :
  length (taken (host hw_b) None some_datagrams) = 3%nat /\
  exists t' out,
    rx_run (host hw_b) (rx_task0 (replicate 80 0) (replicate 80 0)) some_datagrams = Some (t', out) /\
    Forall2 (carries true) (taken (host hw_b) None some_datagrams) out.
Proof.
  split; [reflexivity|].
  apply (receive_filter (host hw_b) 20 80 true (replicate 80 0) (replicate 80 0) some_datagrams);
    [lia|reflexivity|reflexivity|].
  repeat (apply List.Forall_cons; [split; [constructor; try reflexivity; try (by eexists);
    unfold ETH_HLEN, SIZE_hdr; simpl; lia|reflexivity]|]). constructor.
Defined.
