(* ===== verification/Avtpdu.v ===== *)
(** * Automotive test messages (avtpdu_1722.c)

    The test status of an automotive device, an AVTP control frame of fixed
    size in one buffer that every message updates. *)

From stdpp Require Import base list numbers option.
From Stdlib Require Import ZArith Lia.
From S2P Require Import Prelude Types Wire WireProofs TlvProofs Interval Driver.
From S2P Require Import Bytes Requests Frames FramesProofs.

Definition AVTPDU_PROTO : Z := 8944.
Definition IEEE_1722_1_AECP : Z := 251.
Definition IEEE_1722_1_GET_COUNTERS : Z := 41.
Definition AED_TEST_STATUS_LEN : Z := 148.
Definition AED_DESC_TYPE_AVB_INTERFACE : Z := 9.
Definition AED_STATE_ETHERNET_READY : Z := 1.
Definition AED_STATE_AVB_SYNC : Z := 2.
Definition AED_COUNTER_MESSAGE_TIMESTAMP : nat := 24.
(** [sizeof(struct aed_test_status)]; where the message starts in the buffer,
    and [specific] in the message. *)
Definition SIZE_aed : nat := 160.
Definition AED : nat := 14.
Definition aed_counters : nat := 32.
Definition aed_specific : nat := aed_counters + 4 * AED_COUNTER_MESSAGE_TIMESTAMP.

Definition avtpdu_dst : list Z := [1; 27; 197; 10; 192; 0].

(** A field in network order, as [htons], [htonl] and [htobe64] give it. *)
Definition be_bytes (n : nat) (v : Z) : list Z := reverse (le_bytes n v).
Definition wr_be (b : buf) (o n : nat) (v : Z) : option buf := put b o (be_bytes n v).
(** Bits of a 16-bit field in host order. *)
Definition set_u16_bits (b : buf) (o : nat) (lo n v : Z) : option buf :=
  x ← rd b o 2; wr b o 2 (set_bits x lo n v).

(** [eth_avtpdu_buf], [avtpdu_src], [avtpdu_id] and [avtpdu_seqid]. *)
Record aed := mk_aed { av_buf : buf; av_src : list Z; av_id : list Z; av_seqid : Z }.

(** The buffer has 20 bytes more than the message. *)
Definition create_avtpdu (hwaddr : list Z) (seqid : Z) : option aed :=
  b ← put (replicate (SIZE_aed + 20) 0) 0 avtpdu_dst;
  b ← put b 6 (take 6 hwaddr);
  b ← wr_be b 12 2 AVTPDU_PROTO;
  Some (mk_aed b (take 6 hwaddr) (take 6 hwaddr ++ [147; 131]) seqid).

Definition init_aed_test_status (id : list Z) (b : buf) : option buf :=
  b ← wr b AED 1 IEEE_1722_1_AECP;
  b ← set_byte_bits b (AED + 1) 7 1 0;
  b ← set_byte_bits b (AED + 1) 4 3 0;
  b ← set_byte_bits b (AED + 1) 0 4 1;
  b ← set_u16_bits b (AED + 2) 11 5 0;
  b ← set_u16_bits b (AED + 2) 0 11 AED_TEST_STATUS_LEN;
  b ← swap b (AED + 2) 2;
  b ← put b (AED + 4) (take 8 id);
  b ← wr b (AED + 12) 8 0;
  b ← set_u16_bits b (AED + 22) 15 1 1;
  b ← set_u16_bits b (AED + 22) 0 15 IEEE_1722_1_GET_COUNTERS;
  b ← swap b (AED + 22) 2;
  b ← wr_be b (AED + 24) 2 AED_DESC_TYPE_AVB_INTERFACE;
  b ← wr_be b (AED + 26) 2 1;
  b ← wr_be b (AED + 28) 4 (Z.shiftl 7 (Z.of_nat AED_COUNTER_MESSAGE_TIMESTAMP));
  b ← wr b (AED + aed_specific) 8 0;
  b ← wr b (AED + aed_specific + 8) 1 AED_STATE_ETHERNET_READY;
  put b (AED + aed_specific + 9) [0; 0; 0].
Definition init_aed (a : aed) : option aed :=
  b ← init_aed_test_status (av_id a) (av_buf a);
  Some (mk_aed b (av_src a) (av_id a) (av_seqid a)).

Definition update_aed_test_status (src : list Z) (seqid type index timestamp state : Z) (b : buf)
    : option buf :=
  b ← put b 6 src;
  b ← inc_mac_addr b 9 (u8 (index + 1));
  b ← wr_be b (AED + 20) 2 seqid;
  b ← wr_be b (AED + 24) 2 type;
  b ← wr_be b (AED + 26) 2 index;
  b ← wr_be b (AED + aed_specific) 8 timestamp;
  wr b (AED + aed_specific + 8) 1 state.

(** The header that tells the driver the ports, and the frame. *)
Definition aed_hdr (a : aed) : option buf :=
  seqid ← rd (av_buf a) (AED + 20) 2;
  hdr ← set_messageType (replicate SIZE_hdr 0) 5;
  hdr ← set_domainNumber hdr 0;
  hdr ← wr hdr 30 2 seqid;
  put hdr 20 (take 8 (av_id a)).
Definition send_aed {D} (ioctl : ksz_request -> D -> Z * ksz_request * D) (a : aed)
    (portmap : Z) (req : ksz_request) : K D buf :=
  hdr ← liftK (aed_hdr a);
  _ ← set_msg_info ioctl hdr portmap 0 0 req;
  liftK (bytes (av_buf a) 0 (SIZE_aed + 14)).

(** The timestamp and the state of a type of test. *)
Definition aed_test (type : Z) : option (Z * Z) :=
  if type =? 0 then Some (0, AED_STATE_ETHERNET_READY)
  else if type =? 1 then Some (1234567890, AED_STATE_AVB_SYNC)
  else None.
Definition test_update (type index : Z) (a : aed) : option aed :=
  match aed_test type with
  | Some (timestamp, state) =>
      b ← update_aed_test_status (av_src a) (av_seqid a) AED_DESC_TYPE_AVB_INTERFACE index
            timestamp state (av_buf a);
      Some (mk_aed b (av_src a) (av_id a) (u16 (av_seqid a + 1)))
  | None => Some a
  end.
Definition test_aed {D} (ioctl : ksz_request -> D -> Z * ksz_request * D) (type index : Z)
    (req : ksz_request) (a : aed) : K D (aed * buf) :=
  a ← liftK (test_update type index a);
  ports ← liftK (shl1 (index - 1));
  frame ← send_aed ioctl a (u16 ports) req;
  mret (a, frame).

(** ** The frame of a message *)

(** The fields of the frame; the counters behind the state are not used. *)
Definition aed_frame (src id : list Z) (seqid index timestamp state : Z) : buf :=
  avtpdu_dst ++ src ++ be_bytes 2 AVTPDU_PROTO ++
  [IEEE_1722_1_AECP; 1] ++ be_bytes 2 AED_TEST_STATUS_LEN ++ id ++ replicate 8 0 ++
  be_bytes 2 seqid ++ be_bytes 2 (2 ^ 15 + IEEE_1722_1_GET_COUNTERS) ++
  be_bytes 2 AED_DESC_TYPE_AVB_INTERFACE ++ be_bytes 2 index ++ be_bytes 4 (7 * 2 ^ 24) ++
  replicate 96 0 ++ be_bytes 8 timestamp ++ [state; 0; 0; 0] ++ replicate 20 0.
(** The state after the start and some messages. *)
Definition aed_ready (hw : list Z) (a : aed) : Prop :=
  av_src a = hw /\ av_id a = hw ++ [147; 131] /\
  exists x s i t st, length x = 3%nat /\ 
    av_buf a = aed_frame (take 3 hw ++ x) (av_id a) s i t st ++ replicate 6 0.

Lemma six (hw : list Z) : length hw = 6%nat ->
  exists a b c d e f, hw = [a; b; c; d; e; f].
Proof. intros H. do 6 (destruct hw as [|? hw]; [done|]). destruct hw; [|done]. by do 6 eexists. Qed.

Lemma aed_start hw seqid : mac hw ->
  exists a0 a, create_avtpdu hw seqid = Some a0 /\ init_aed a0 = Some a /\ aed_ready hw a /\
    av_buf a = aed_frame hw (av_id a) 0 1 0 AED_STATE_ETHERNET_READY ++ replicate 6 0 /\ av_seqid a = seqid.
Proof.
  intros [(a & b & c & d & e & f & ->)%six _].
  eexists _, _. split; [by vm_compute|]. split; [by vm_compute|].
  split; [|split; [by vm_compute|done]].
  split; [done|]. split; [done|]. exists [d; e; f], 0, 1, 0, AED_STATE_ETHERNET_READY. by vm_compute.
Qed.

Lemma aed_test_byte type t st : aed_test type = Some (t, st) -> st mod 256 = st.
Proof. unfold aed_test. repeat case_match; by intros [= <- <-]. Qed.
Lemma be2 v : exists a b, be_bytes 2 v = [a; b].
Proof. do 2 eexists. reflexivity. Qed.
Lemma be8 v : exists a b c d e f g h, be_bytes 8 v = [a; b; c; d; e; f; g; h].
Proof. do 8 eexists. reflexivity. Qed.

Lemma aed_update hw a type index timestamp state : mac hw -> aed_ready hw a ->
  aed_test type = Some (timestamp, state) ->
  exists a', test_update type index a = Some a' /\ aed_ready hw a' /\
    av_buf a' = aed_frame (raw_source hw (u8 (index + 1))) (av_id a) (av_seqid a) index
                  timestamp state ++ replicate 6 0 /\
    av_id a' = av_id a /\ av_seqid a' = u16 (av_seqid a + 1).
Proof.
  intros [Hh Hb] (Hs & Hid & x & s & i & t & st & Hx & Eb) Ht.
  destruct a as [b src id seqid]. cbn [av_buf av_src av_id av_seqid] in *. subst src id b.
  unfold test_update. rewrite Ht. unfold update_aed_test_status. cbn [av_buf av_src av_id av_seqid].
  assert (Hst : state mod 256 = state) by (clear -Ht; by eapply aed_test_byte).
  pose proof (inc_mac_addr_spec (avtpdu_dst ++ take 3 hw) (drop 3 hw)) as Einc.
  unfold raw_source, aed_frame, wr_be, wr. cbn [le_bytes]. rewrite Hst. clear Hst Ht.
  destruct (be2 s) as (s1 & s2 & ->), (be2 i) as (i1 & i2 & ->), (be2 seqid) as (n1 & n2 & En),
    (be2 index) as (j1 & j2 & Ej), (be8 t) as (t1 & t2 & t3 & t4 & t5 & t6 & t7 & t8 & ->),
    (be8 timestamp) as (u1 & u2 & u3 & u4 & u5 & u6 & u7 & u8' & Eu).
  rewrite En, Ej, Eu.
  destruct (six hw Hh) as (a & b & c & d & e & f & ->).
  destruct x as [|x [|y [|z []]]]; try done. cbn [take drop] in *.
  set (frame := (avtpdu_dst ++ _) ++ replicate 6 0) at 1.
  assert (E1 : put frame 6 [a; b; c; d; e; f] =
    Some ((avtpdu_dst ++ [a; b; c]) ++ [d; e; f] ++ drop 12 frame)) by (by vm_compute).
  rewrite E1. cbn [mbind option_bind].
  change (length (avtpdu_dst ++ [a; b; c])) with 9%nat in Einc.
  rewrite (Einc (drop 12 frame)); [|done|by apply (Forall_drop _ 3) in Hb|apply uN_range; lia].
  cbn [mbind option_bind]. generalize (mac24 [d; e; f] + u8 (index + 1)). intros v.
  unfold be24. generalize (v / 65536 mod 256) (v / 256 mod 256) (v mod 256) (u16 (seqid + 1)).
  intros u v' w sq. clear Einc E1.
  eexists (mk_aed _ _ _ _). split; [by vm_compute|]. split; [|by vm_compute].
  split; [done|]. split; [done|]. exists [u; v'; w], seqid, index, timestamp, state.
  split; [done|]. unfold aed_frame. rewrite En, Ej, Eu. by vm_compute.
Qed.

(** A message that is sent is the frame of its sequence number, port, timestamp
    and state. *)
Lemma set_msg_info_forms h p s n : (SIZE_hdr <= length h)%nat -> Forms (set_msg_info_req h p s n).
Proof.
  intros H. unfold set_msg_info_req. forms. apply within_bind; [by apply within_key|by apply within_wrs].
Qed.
Lemma aed_hdr_Some a : (AED + 22 <= length (av_buf a))%nat -> (8 <= length (av_id a))%nat ->
  exists h, aed_hdr a = Some h /\ length h = SIZE_hdr.
Proof.
  intros H1 H2. unfold aed_hdr, rd. rewrite bytes_Some by lia. cbn [fmap option_fmap option_map mbind option_bind].
  change (set_messageType (replicate SIZE_hdr 0) 5) with (Some (5 :: replicate 33 0)).
  cbn [mbind option_bind].
  change (set_domainNumber (5 :: replicate 33 0) 0) with (Some (5 :: replicate 33 0)).
  cbn [mbind option_bind].
  destruct (wr_Some (5 :: replicate 33 0) 30 2 (le (take 2 (drop (AED + 20) (av_buf a)))))
    as (h & -> & L); [by apply Nat.leb_le|].
  destruct (put_Some h 20 (take 8 (av_id a))) as (h' & E' & L'); [rewrite length_take, L; cbn [length]; rewrite length_replicate; lia|].
  exists h'. by rewrite L', L.
Qed.

Lemma aed_frame_length src id q i t st : length src = 6%nat -> length id = 8%nat ->
  length (aed_frame src id q i t st) = (SIZE_aed + 14)%nat.
Proof.
  intros H1 H2. unfold aed_frame, be_bytes.
  by rewrite !length_app, !length_reverse, !le_bytes_length, H1, H2.
Qed.

Section test.
Context {D : Type} (ioctl : ksz_request -> D -> Z * ksz_request * D).

Theorem test_aed_frame hw a type index req timestamp state s :
  mac hw -> aed_ready hw a -> aed_test type = Some (timestamp, state) -> 1 <= index <= 31 ->
  length (rq_param req) = MAX_REQUEST_SIZE ->
  exists a' s', test_aed ioctl type index req a s =
      Some ((a', aed_frame (raw_source hw (u8 (index + 1))) (av_id a) (av_seqid a) index
               timestamp state), s') /\
    aed_ready hw a' /\ av_seqid a' = u16 (av_seqid a + 1).
Proof.
  intros Hm Ha Ht Hi Hr.
  destruct (aed_update hw a type index timestamp state Hm Ha Ht) as (a' & E & Ha' & Eb & Eid & Es).
  assert (Lid : length (av_id a') = 8%nat).
  { destruct Ha' as (_ & -> & _). rewrite length_app. destruct Hm as [-> _]. done. }
  assert (Lf : forall t, length (aed_frame (raw_source hw (u8 (index + 1))) (av_id a) (av_seqid a)
    index t state) = (SIZE_aed + 14)%nat).
  { intros t. apply aed_frame_length; [by apply raw_source_length|congruence]. }
  destruct (aed_hdr_Some a') as (h & Eh & Lh).
  { rewrite Eb, length_app, Lf. unfold AED, SIZE_aed. lia. }
  { lia. }
  destruct (set_msg_info_forms h (u16 (Z.shiftl 1 (index - 1))) 0 0 ltac:(lia) req Hr) as (r & Er & _).
  destruct s as [x d]. destruct (ioctl r d) as [[rc r'] d'] eqn:Ei.
  exists a', (x, d'). split; [|done].
  unfold test_aed, send_aed, set_msg_info, ask, transact, file_dev_ioctl, shl1.
  unfold mbind, K_bind, liftK. rewrite E. cbn -[set_msg_info_req aed_hdr SIZE_aed aed_frame take].
  assert ((0 <=? index - 1) && (index - 1 <? 31) = true) as -> by lia. cbn -[set_msg_info_req aed_hdr SIZE_aed aed_frame take].
  rewrite Eh. cbn -[set_msg_info_req aed_hdr SIZE_aed aed_frame take]. rewrite Er. cbn -[set_msg_info_req aed_hdr SIZE_aed]. rewrite Ei. cbn -[set_msg_info_req aed_hdr SIZE_aed].
  rewrite Eb. rewrite bytes_0 by (rewrite length_app, Lf; lia). cbn -[set_msg_info_req aed_hdr SIZE_aed aed_frame take].
  by rewrite take_app_length' by (symmetry; apply Lf).
Qed.
End test.
