(* ===== verification/Command.v ===== *)
(** * Commands of the console (ptp_sock.c)

    [get_ptp_cmd] reads lines from the standard input: it shows and changes the
    settings, and starts and stops the clocks.  [command] tells what a line
    does, [perform] does it. *)

From stdpp Require Import base list numbers option strings.
From Stdlib Require Import ZArith Lia Ascii.
From Stdlib Require String.
From S2P Require Import Prelude ConfigStore Types Wire World Stack Boot Driver SwApi Avtpdu.

#[local] Open Scope string_scope.
#[local] Open Scope Z_scope.

(** ** Reading a line *)

(** [fgets]: up to [n - 1] characters, the new line included. *)
Fixpoint fgets (n : nat) (l : list ascii) : list ascii * list ascii :=
  match n, l with
  | S (S n as m), a :: r =>
      if Ascii.eqb a "010" then ([a], r) else let '(x, r) := fgets m r in (a :: x, r)
  | _, _ => ([], l)
  end.

Fixpoint skip_digits (base : Z) (l : list ascii) : list ascii :=
  match l with
  | a :: r => match digit base a with Some _ => skip_digits base r | None => l end
  | [] => []
  end.
(** [%d] and [%x], with what follows the number. *)
Definition scan_int (base : Z) (l : list ascii) : option (Z * list ascii) :=
  v ← (if base =? 10 then scan_d l else scan_unsigned 16 l);
  let '(_, l) := sign (skip_ws l) in
  Some (v, skip_digits base (if base =? 16 then hex_prefix l else l)).
Fixpoint scan_ints (base : Z) (n : nat) (l : list ascii) : list Z :=
  match n with
  | S n => match scan_int base l with Some (v, r) => v :: scan_ints base n r | None => [] end
  | O => []
  end.

(** The word, [count] and [hcount], and the four numbers. *)
Record args := mk_args {
  ar_name : string; ar_count : Z; ar_hcount : Z; ar_1 : Z; ar_2 : Z; ar_3 : Z; ar_4 : Z }.

(** The decimal value, or the hexadecimal one when there is none or it is 0. *)
Definition pick (d h : list Z) (i : nat) : Z :=
  let v := nth i d 0 in if truthy v then v else nth i h 0.
(** Undefined for a word that does not fit in [p1]. *)
Definition parse (line : list ascii) : option args :=
  match scan_s (until "000" line) with
  | None => Some (mk_args "" (-1) (-1) 0 0 0 0)
  | Some (name, r) =>
      if (40 <=? String.length name)%nat then UB else
      let d := scan_ints 10 4 r in
      let h := scan_ints 16 4 r in
      Some (mk_args name (1 + Z.of_nat (length d)) (1 + Z.of_nat (length h))
              (pick d h 0) (pick d h 1) (pick d h 2) (pick d h 3))
  end.

(** ** What a command does *)

(** [cfg_index], [dbg_on], [log_on], [automotive_test_mode]. *)
Record console := mk_con { co_index : Z; co_dbg_on : Z; co_log_on : Z; co_autotest : Z }.
#[export] Instance eta_console : Eta console := fun x =>
  mk_con (co_index x) (co_dbg_on x) (co_log_on x) (co_autotest x).
Definition set_co_index v (x : console) : console := ltac:(field_set co_index v x).
Definition set_co_dbg_on v (x : console) : console := ltac:(field_set co_dbg_on v x).
Definition set_co_log_on v (x : console) : console := ltac:(field_set co_log_on v x).
Definition set_co_autotest v (x : console) : console := ltac:(field_set co_autotest v x).
Definition console0 : console := mk_con 0 1 1 0.

Inductive action :=
  | act_start | act_stop | act_power (port set : Z) | act_aed (type index : Z).

(** What is shown: [None] for a variable a failed access did not set. *)
Definition shown : Type := list (option Z).
Record outcome := mk_outcome {
  oc_console : console; oc_config : config; oc_actions : list action; oc_shown : shown;
  oc_cont : bool }.

(** Shows what [get] gives, or sets it when there are values to set.  The
    access function to set fails where the one to get does. *)
Definition get_set {A} (c : config) (get : option A) (n : nat) (more : bool)
    (set : A -> option config) (show : A -> list Z) : config * shown :=
  if more then (match get with Some x => default c (set x) | None => c end, [])
  else (c, match get with Some x => Some <$> show x | None => replicate n None end).
Definition get_only {A} (c : config) (get : option A) (n : nat) (more : bool)
    (show : A -> list Z) : config * shown := get_set c get n more (fun _ => None) show.

Definition name_in (name : string) (l : list string) : bool := existsb (String.eqb name) l.
(** The commands whose first number is a profile, and those of a port. *)
Definition index_cmds : list string :=
  ["profile"; "transport"; "sdoid"; "e2e"; "p2p"; "gm_capable"; "two_step"; "cmlds"; "clk";
   "prio"; "domain"; "ports"; "pdelay"; "announce"; "sync"; "oper"; "thresh"].
Definition port_cmds : list string := ["latency"; "master"; "use_delay"].

Section settings.
Variables (a : args) (c : config).
Let more : bool := ar_count a >=? 3.
Let i : Z := u8 (ar_1 a).
(** A further value, or the one there is. *)
Let or_old (n v old : Z) : Z := if ar_count a >=? n then v else old.

Definition cmd_sdoid : config * shown :=
  get_set c (gptp_profile_get_sdoid c i) 2 more
    (fun '(_, minor) => gptp_profile_set_sdoid c i (u8 (ar_2 a)) (or_old 4 (u8 (ar_3 a)) minor))
    (fun '(x, y) => [x; y]).
Definition cmd_clk : config * shown :=
  get_set c (gptp_profile_get_clock_prop c i) 3 more
    (fun '(_, accuracy, variance) =>
       gptp_profile_set_clock_prop c i (u8 (ar_2 a)) (or_old 4 (u8 (ar_3 a)) accuracy)
         (or_old 5 (u16 (ar_4 a)) variance))
    (fun '(x, y, z) => [x; y; z]).
Definition cmd_prio : config * shown :=
  get_set c (gptp_profile_get_clock_prio c i) 2 more
    (fun '(_, prio2) =>
       gptp_profile_set_clock_prio c i (u8 (ar_2 a)) (or_old 4 (u8 (ar_3 a)) prio2))
    (fun '(x, y) => [x; y]).
Definition cmd_domain : config * shown :=
  get_set c (gptp_profile_get_domain c i) 1 more
    (fun '(_, ports, vlan) => gptp_profile_set_domain c i (u8 (ar_2 a)) ports vlan)
    (fun '(x, _, _) => [x]).
Definition cmd_ports : config * shown :=
  get_set c (gptp_profile_get_domain c i) 1 (ar_hcount a >=? 3)
    (fun '(domain, _, vlan) => gptp_profile_set_domain c i domain (u16 (ar_2 a)) vlan)
    (fun '(_, y, _) => [y]).
Definition cmd_pdelay : config * shown :=
  get_set c (gptp_port_profile_get_delay c i) 1 more
    (fun _ => gptp_port_profile_set_delay c i (s8 (ar_2 a))) (fun x => [x]).
Definition cmd_announce : config * shown :=
  get_set c (gptp_port_profile_get_announce c i) 2 more
    (fun '(_, timeout) =>
       gptp_port_profile_set_announce c i (s8 (ar_2 a)) (or_old 4 (u8 (ar_3 a)) timeout))
    (fun '(x, y) => [x; y]).
Definition cmd_sync : config * shown :=
  get_set c (gptp_port_profile_get_sync c i) 2 more
    (fun '(_, timeout) =>
       gptp_port_profile_set_sync c i (s8 (ar_2 a)) (or_old 4 (u8 (ar_3 a)) timeout))
    (fun '(x, y) => [x; y]).
Definition cmd_oper : config * shown :=
  get_set c (gptp_port_profile_get_oper c i) 2 more
    (fun '(_, pdelay) =>
       gptp_port_profile_set_oper c i (s8 (ar_2 a)) (or_old 4 (s8 (ar_3 a)) pdelay))
    (fun '(x, y) => [x; y]).
Definition cmd_thresh : config * shown :=
  get_set c (gptp_port_profile_get_delay_thresh c i) 1 more
    (fun _ => gptp_port_profile_set_delay_thresh c i (u16 (ar_2 a))) (fun x => [x]).
Definition cmd_latency : config * shown :=
  get_set c (gptp_port_get_latency c i) 3 more
    (fun '(_, tx, asym) =>
       gptp_port_set_latency c i (u16 (ar_2 a)) (or_old 4 (u16 (ar_3 a)) tx)
         (or_old 5 (s16 (ar_4 a)) asym))
    (fun '(x, y, z) => [x; y; z]).
Definition cmd_peer_delay : config * shown :=
  get_set c (gptp_port_get_peer_delay c i) 1 more
    (fun _ => gptp_port_set_peer_delay c i (u16 (ar_2 a))) (fun x => [x]).
Definition cmd_master : config * shown :=
  get_set c (gptp_port_get_master c i) 1 more
    (fun _ => gptp_port_set_master c i (b2z (truthy (ar_2 a)))) (fun x => [x]).
Definition cmd_use_delay : config * shown :=
  get_set c (gptp_port_get_use_delay c i) 1 more
    (fun _ => gptp_port_set_use_delay c i (b2z (truthy (ar_2 a)))) (fun x => [x]).

(** The first port with a number that is not 0 is the slave. *)
Definition cmd_slave : config * shown :=
  let '(one, ports) := if ar_count a >=? 2 then (truthy (ar_1 a), 1) else (false, 0) in
  let '(one, v2, ports) :=
    if ar_count a >=? 3 then
      if truthy (ar_2 a) && negb one then (true, ar_2 a, Z.lor ports 2)
      else (one, 0, Z.lor ports 2)
    else (one, ar_2 a, ports) in
  let '(v3, ports) :=
    if ar_count a >=? 4 then
      (if truthy (ar_3 a) && negb one then ar_3 a else 0, Z.lor ports 4)
    else (ar_3 a, ports) in
  if truthy ports then
    let c := match gptp_profile_get_domain c 1 with
             | Some (domain, _, vlan) => default c (gptp_profile_set_domain c 1 domain ports vlan)
             | None => c
             end in
    let set i v c := default c (gptp_port_set_master c i (b2z (negb (truthy v)))) in
    (set 3 v3 (set 2 v2 (set 1 (ar_1 a) c)), [])
  else (c, []).

(** The commands that only show, then those above. *)
Definition setting_cmds : list (string * (config * shown)) :=
  [ ("profile", get_only c (gptp_profile_get_profile c i) 1 more (fun x => [x]));
    ("transport", get_only c (gptp_profile_get_transport c i) 1 more (fun x => [x]));
    ("sdoid", cmd_sdoid);
    ("e2e", get_only c (gptp_profile_get_e2e_p2p c i) 1 more (fun '(x, _) => [x]));
    ("p2p", get_only c (gptp_profile_get_e2e_p2p c i) 1 more (fun '(_, y) => [y]));
    ("gm_capable", get_only c (gptp_profile_get_gm_capable c i) 1 more (fun x => [x]));
    ("two_step", get_only c (gptp_profile_get_two_step c i) 1 more (fun x => [x]));
    ("cmlds", get_only c (Some 0) 1 more (fun x => [x]));
    ("clk", cmd_clk); ("prio", cmd_prio); ("domain", cmd_domain); ("ports", cmd_ports);
    ("pdelay", cmd_pdelay); ("announce", cmd_announce); ("sync", cmd_sync); ("oper", cmd_oper);
    ("thresh", cmd_thresh); ("latency", cmd_latency); ("peer_delay", cmd_peer_delay);
    ("master", cmd_master); ("slave", cmd_slave); ("use_delay", cmd_use_delay) ].

End settings.

Definition flag_cmd (a : args) (set : Z -> console -> console) (cur : Z) (k : console)
    : console * shown :=
  if ar_count a >=? 2 then (set (b2z (truthy (ar_1 a))) k, []) else (k, [Some cur]).

(** The commands before the range of the first number is looked at. *)
Definition first_cmd (a : args) (k : console) (c : config) : option outcome :=
  let name := ar_name a in
  let acts l := Some (mk_outcome k c l [] true) in
  let shows l := Some (mk_outcome k c [] (if ar_count a >=? 2 then [] else Some <$> l) true) in
  let flag r := let '(k, sh) := r in Some (mk_outcome k c [] sh true) in
  if String.eqb name "c" then acts [if ar_1 a =? 1 then act_start else act_stop]
  else if String.eqb name "dbg" then flag (flag_cmd a set_co_dbg_on (co_dbg_on k) k)
  else if String.eqb name "log" then flag (flag_cmd a set_co_log_on (co_log_on k) k)
  else if String.eqb name "autotest" then
    let automotive := match gptp_profile_get_profile c 1 with Some p => p =? 2 | None => false end in
    flag (if (ar_count a >=? 2) && negb automotive then (k, [])
          else flag_cmd a set_co_autotest (co_autotest k) k)
  else if String.eqb name "power" then
    acts (if ar_count a >=? 2 then [if truthy (ar_1 a) then act_start else act_stop] else [])
  else if String.eqb name "avb" then acts [act_aed (u8 (ar_1 a)) (u8 (ar_2 a))]
  else if String.eqb name "faults" then shows [(gptp_get_allowed c).1]
  else if String.eqb name "missed" then shows [(gptp_get_allowed c).2]
  else if String.eqb name "follow_up" then shows [gptp_get_follow_up_timeout c]
  else if String.eqb name "wait" then
    let '(x, y, z) := gptp_get_initial_wait c in
    if ar_count a >=? 2 then
      Some (mk_outcome k
        (gptp_set_initial_wait c (u8 (ar_1 a)) (if ar_count a >=? 3 then u8 (ar_2 a) else y)
           (if ar_count a >=? 4 then u8 (ar_3 a) else z)) [] [] true)
    else Some (mk_outcome k c [] [Some x; Some y; Some z] true)
  else if String.eqb name "index" then
    if (ar_count a >=? 2) && (1 <=? ar_1 a) && (ar_1 a <=? 3) then
      Some (mk_outcome (set_co_index (u8 (ar_1 a)) k) c [act_stop; act_start] [] true)
    else Some (mk_outcome k c [] [Some (co_index k)] true)
  else None.

Definition out_of_range (a : args) (max : Z) : bool :=
  (ar_count a <? 2) || (ar_1 a <? 1) || (ar_1 a >? max).

Definition command (a : args) (k : console) (c : config) : outcome :=
  let nothing := mk_outcome k c [] [] true in
  match first_cmd a k c with
  | Some o => o
  | None =>
      if name_in (ar_name a) index_cmds && out_of_range a 3 then nothing else
      if name_in (ar_name a) port_cmds && out_of_range a 8 then nothing else
      match find_param (setting_cmds a c) (ar_name a) with
      | Some (c', sh) => mk_outcome k c' [] sh true
      | None =>
          if String.eqb (ar_name a) "phy" then
            mk_outcome k c (if ar_count a >=? 3 then [act_power (ar_1 a) (ar_2 a)] else []) [] true
          else if String.prefix "q" (ar_name a) then mk_outcome k c [] [] false
          else nothing
      end
  end.

(** ** Doing it *)

(** What the process has: the state of the stack, the variables of the console,
    those of the test messages, and the device with the static variables of
    its interface. *)
Record host (D : Type) := mk_host {
  h_world : world; h_console : console; h_aed : aed; h_dev : api * D }.
Arguments mk_host {D}.
Arguments h_world {D}.
Arguments h_console {D}.
Arguments h_aed {D}.
Arguments h_dev {D}.

Section run.
Context {env : Env} {D : Type}.
Variable ioctl : ksz_request -> D -> Z * ksz_request * D.
(** [ptp_clock_ptr]; the request variable as it is. *)
Variables (ptrs : list nat) (req : ksz_request).

(** The frame is what [Sendto] is given. *)
Definition perform (x : action) (h : host D) : option (host D * list buf) :=
  match x with
  | act_start =>
      '(_, w) ← ptp_stack_start_clock ptrs (h_world h);
      Some (mk_host w (h_console h) (h_aed h) (h_dev h), [])
  | act_stop =>
      '(_, w) ← ptp_stack_stop_clock ptrs (h_world h);
      Some (mk_host w (h_console h) (h_aed h) (h_dev h), [])
  | act_power port set =>
      '(_, d) ← set_port_power ioctl port set req (h_dev h);
      Some (mk_host (h_world h) (h_console h) (h_aed h) d, [])
  | act_aed type index =>
      '((a, frame), d) ← test_aed ioctl type index req (h_aed h) (h_dev h);
      Some (mk_host (h_world h) (h_console h) a d, [frame])
  end.
Fixpoint perform_all (l : list action) (h : host D) : option (host D * list buf) :=
  match l with
  | [] => Some (h, [])
  | x :: l =>
      '(h, out) ← perform x h;
      '(h, out') ← perform_all l h;
      Some (h, (out ++ out')%list)
  end.

(** A line: what is shown, the frames sent, and whether to go on. *)
Definition run_line (line : list ascii) (h : host D)
    : option (host D * shown * list buf * bool) :=
  a ← parse line;
  let o := command a (h_console h) (w_cfg (h_world h)) in
  '(h, frames) ← perform_all (oc_actions o)
    (mk_host (set_w_cfg (oc_config o) (h_world h)) (oc_console o) (h_aed h) (h_dev h));
  Some (h, oc_shown o, frames, oc_cont o).

(** Until the text ends or a line says so; a line for each unit of fuel. *)
Fixpoint get_ptp_cmd (fuel : nat) (text : list ascii) (h : host D) : option (host D * list shown) :=
  match fuel with
  | O => UB
  | S fuel =>
      let '(line, text) := fgets 80 text in
      match line with
      | [] => Some (h, [])
      | _ =>
          '(h, sh, _, cont) ← run_line line h;
          if cont : bool then '(h, out) ← get_ptp_cmd fuel text h; Some (h, sh :: out)
          else Some (h, [sh])
      end
  end.

End run.
