(* ===== verification/CommandProofs.v ===== *)
(** * The console: what is set is shown, and every line is input *)

From stdpp Require Import base list numbers option strings pretty relations.
From Stdlib Require Import ZArith Lia Ascii.
From Stdlib Require String.
From S2P Require Import Prelude ConfigStore Types World Stack Boot Reach Driver Avtpdu Command.

#[local] Open Scope Z_scope.

(** ** Every line is a sequence of inputs *)

Section inputs.
Context {env : Env} {D : Type}.
Variable ioctl : ksz_request -> D -> Z * ksz_request * D.
Variables (ptrs : list nat) (req : ksz_request).

Lemma perform_input x (h h' : host D) out :
  perform ioctl ptrs req x h = Some (h', out) -> rtc input (h_world h) (h_world h').
Proof.
  destruct x; simpl.
  - destruct (ptp_stack_start_clock ptrs (h_world h)) as [[u w]|] eqn:E; [|done].
    intros [= <- <-]. by apply rtc_once, (in_start _ ptrs u).
  - destruct (ptp_stack_stop_clock ptrs (h_world h)) as [[u w]|] eqn:E; [|done].
    intros [= <- <-]. by apply rtc_once, (in_stop _ ptrs u).
  - destruct (SwApi.set_port_power _ _ _ _ _) as [[u d]|]; [|done]. by intros [= <- <-].
  - destruct (test_aed _ _ _ _ _ _) as [[[a f] d]|]; [|done]. by intros [= <- <-].
Qed.
Lemma perform_all_input l : forall (h h' : host D) out,
  perform_all ioctl ptrs req l h = Some (h', out) -> rtc input (h_world h) (h_world h').
Proof.
  induction l as [|x l IH]; simpl; intros h h' out; [by intros [= <- <-]|].
  destruct (perform ioctl ptrs req x h) as [[h1 o1]|] eqn:E1; [|done]. simpl.
  destruct (perform_all ioctl ptrs req l h1) as [[h2 o2]|] eqn:E2; [|done].
  intros [= <- <-]. etrans; [by eapply perform_input|by eapply IH].
Qed.
Lemma run_line_input line (h h' : host D) sh out cont :
  run_line ioctl ptrs req line h = Some (h', sh, out, cont) ->
  rtc input (h_world h) (h_world h').
Proof.
  unfold run_line. destruct (parse line) as [a|]; [|done]. simpl.
  destruct (perform_all _ _ _ _ _) as [[h1 o1]|] eqn:E; [|done]. intros [= <- <- <- <-].
  eapply rtc_l; [|by eapply perform_all_input]. apply in_settings.
Qed.

Lemma get_ptp_cmd_reachable fuel : forall text (h h' : host D) out,
  get_ptp_cmd ioctl ptrs req fuel text h = Some (h', out) -> reachable (h_world h) ->
  reachable (h_world h').
Proof.
  induction fuel as [|fuel IH]; [done|]. cbn [get_ptp_cmd]. intros text h h' out.
  destruct (fgets 80 text) as [[|c line] rest]; [by intros [= <- <-]|].
  destruct (run_line _ _ _ _ _) as [[[[h1 sh] fr] cont]|] eqn:E; [|done]. simpl.
  intros Hr Hw. apply run_line_input, inputs_reachable in E; [|done].
  destruct cont; [|by injection Hr as <- <-].
  destruct (get_ptp_cmd _ _ _ _ _ _) as [[h2 o2]|] eqn:E2; [|done]. injection Hr as <- <-.
  by eapply IH.
Qed.

(** A line takes characters away, so the length of the text is fuel enough. *)
Lemma fgets_length n : forall l line rest, fgets n l = (line, rest) ->
  (length line + length rest)%nat = length l.
Proof.
  induction n as [|[|n] IH]; [by intros l line rest [= <- <-]..|].
  intros [|a l] line rest; [by intros [= <- <-]|]. cbn [fgets].
  destruct (Ascii.eqb a "010"); [by intros [= <- <-]|].
  match goal with |- context [let (_, _) := ?f in _] => change f with (fgets (S n) l) end.
  destruct (fgets (S n) l) as [x r] eqn:E. intros [= <- <-]. simpl. f_equal. by apply IH.
Qed.
Lemma get_ptp_cmd_fuel f1 : forall f2 text (h : host D), (length text < f1)%nat ->
  (length text < f2)%nat ->
  get_ptp_cmd ioctl ptrs req f1 text h = get_ptp_cmd ioctl ptrs req f2 text h.
Proof.
  induction f1 as [|f1 IH]; intros [|f2] text h H1 H2; [lia..|]. cbn [get_ptp_cmd].
  destruct (fgets 80 text) as [line rest] eqn:E. apply fgets_length in E.
  destruct line as [|c line]; [done|]. simpl in E.
  destruct (run_line _ _ _ _ _) as [[[[h1 sh] fr] [|]]|]; [|done..]. simpl.
  by rewrite (IH f2) by lia.
Qed.
End inputs.

(** ** Reading printed numbers *)

Definition is_dec (a : ascii) : bool :=
  let n := Z.of_N (N_of_ascii a) in (48 <=? n) && (n <=? 57).
(** What may follow a number: the end, white space. *)
Definition ends (r : list ascii) : Prop :=
  match r with [] => True | a :: _ => is_space a = true end.

Lemma dec_digit a base : is_dec a = true -> 10 <= base -> exists d, digit base a = Some d.
Proof.
  unfold is_dec, digit. intros H Hb. rewrite H. bools.
  rewrite (proj2 (Z.ltb_lt _ _)) by lia. by eexists.
Qed.
Lemma space_digit a base : is_space a = true -> base <= 16 -> digit base a = None.
Proof.
  unfold is_space, digit. intros H Hb. set (n := Z.of_N _) in *. bools.
  all: repeat match goal with |- context [?x <=? ?y] => destruct (Z.leb_spec x y); try lia end;
    simpl; by rewrite (proj2 (Z.ltb_ge _ _)) by lia.
Qed.
Lemma dec_not a : is_dec a = true -> is_space a = false /\ plain a = true /\
  (forall r, sign (a :: r) = (false, a :: r)) /\
  a <> "x"%char /\ a <> "X"%char /\ a <> "000"%char.
Proof. destruct a as [[] [] [] [] [] [] [] []]; try done; split_and!; done. Qed.

Lemma digits_app base l r : ends r -> base <= 16 -> forall acc,
  digits base acc (l ++ r) = digits base acc l.
Proof.
  intros Hr Hb. induction l as [|a l IH]; intros acc; simpl.
  - destruct r as [|a r]; [done|]. simpl. by rewrite space_digit.
  - by destruct (digit base a).
Qed.
Lemma skip_digits_app base l r : forallb is_dec l = true -> ends r -> 10 <= base <= 16 ->
  skip_digits base (l ++ r) = r.
Proof.
  intros Hl Hr Hb. induction l as [|a l IH]; simpl in *.
  - destruct r as [|a r]; [done|]. simpl. by rewrite space_digit by (done || lia).
  - apply andb_prop in Hl as [Ha Hl]. destruct (dec_digit a base Ha) as [d ->]; [lia|]. by apply IH.
Qed.
Lemma digits_Some base l : forall acc, digits base (Some acc) l <> None.
Proof. induction l as [|a l IH]; intros acc; simpl; [done|]. destruct (digit base a); [apply IH|done]. Qed.

(** A printed number: perhaps a sign, then digits. *)
Lemma pretty_N_dec x s : (0 < x)%N -> exists a l, chars (pretty_N_go x s) = a :: l ++ chars s /\
  forallb is_dec (a :: l) = true.
Proof.
  revert s. induction (N.lt_wf_0 x) as [x _ IH]. intros s Hx. rewrite pretty_N_go_step by done.
  assert (Hd : is_dec (pretty_N_char (x mod 10)) = true).
  { assert (H : (x mod 10 < 10)%N) by (by apply N.mod_lt). revert H. generalize (x mod 10)%N.
    intros d H. assert (In d [0;1;2;3;4;5;6;7;8;9]%N) as Hi by (simpl; lia).
    simpl in Hi. repeat destruct Hi as [<-|Hi]; done. }
  destruct (decide (x / 10 = 0)%N) as [E|E].
  - rewrite E, pretty_N_go_0. exists (pretty_N_char (x mod 10)), []. simpl. by rewrite Hd.
  - destruct (IH (x / 10)%N) with (s := String.String (pretty_N_char (x mod 10)) s)
      as (a & l & El & Hl); [apply N.div_lt; lia|by apply N.neq_0_lt_0|].
    exists a, (l ++ [pretty_N_char (x mod 10)]). rewrite El. split.
    + simpl. by rewrite <- app_assoc.
    + simpl in *. apply andb_prop in Hl as [-> Hl]. rewrite forallb_app, Hl. simpl. by rewrite Hd.
Qed.
Lemma pretty_shape v : exists neg a l,
  chars (pretty v) = (if neg : bool then ["-"%char] else []) ++ a :: l /\
  forallb is_dec (a :: l) = true /\ (v = 0 -> neg = false /\ a = "0"%char /\ l = []).
Proof.
  destruct v as [|p|p].
  - by exists false, "0"%char, [].
  - destruct (pretty_N_dec (N.pos p) "") as (a & l & E & H); [lia|]. exists false, a, l.
    change (chars (pretty (Z.pos p))) with (chars (pretty_N_go (N.pos p) "")).
    rewrite E. simpl chars. by rewrite app_nil_r.
  - destruct (pretty_N_dec (N.pos p) "") as (a & l & E & H); [lia|]. exists true, a, l.
    change (chars (pretty (Z.neg p))) with ("-"%char :: chars (pretty_N_go (N.pos p) "")).
    rewrite E. simpl chars. by rewrite app_nil_r.
Qed.

Lemma hex_prefix_dec l r : forallb is_dec l = true -> l <> [] -> ends r -> hex_prefix (l ++ r) = l ++ r.
Proof.
  intros Hl Hn Hr. destruct l as [|a [|b l]]; [done| |]; simpl in *.
  - destruct r as [|b r]; [by destruct a as [[] [] [] [] [] [] [] []]|]. simpl in Hr.
    destruct a as [[] [] [] [] [] [] [] []]; try done.
    by destruct b as [[] [] [] [] [] [] [] []].
  - apply andb_prop in Hl as [_ [Hb _]%andb_prop].
    destruct a as [[] [] [] [] [] [] [] []]; try done.
    by destruct b as [[] [] [] [] [] [] [] []].
Qed.

Lemma sign_shape (neg : bool) a l r : forallb is_dec (a :: l) = true ->
  let t := ((if neg then ["-"%char] else []) ++ a :: l) ++ r in
  skip_ws t = t /\ skip_ws (" "%char :: t) = t /\ sign t = (neg, (a :: l) ++ r).
Proof.
  intros H. simpl in H. apply andb_prop in H as [Ha _].
  destruct (dec_not a Ha) as (Hs & _ & Hsign & _). destruct neg; simpl; [done|].
  rewrite Hs. split; [done|]. split; [done|]. apply Hsign.
Qed.
Lemma scan_d_pretty v : - 2 ^ 31 <= v < 2 ^ 31 -> scan_d (chars (pretty v)) = Some v.
Proof. intros H. destruct (pretty_scan v) as (a & r & -> & _ & _ & E). by apply E. Qed.

Lemma scan_int_pretty base v r : ends r -> - 2 ^ 31 <= v < 2 ^ 31 -> base = 10 \/ base = 16 ->
  exists h, scan_int base (" "%char :: chars (pretty v) ++ r) = Some (h, r) /\
    (base = 10 -> h = v) /\ (v = 0 -> h = 0).
Proof.
  intros Hr Hv Hb. pose proof (scan_d_pretty v Hv) as Es.
  destruct (pretty_shape v) as (neg & a & l & E & Hl & H0). rewrite E in *. clear E.
  destruct (sign_shape neg a l [] Hl) as (E1 & _ & E3). cbv zeta in E1, E3.
  rewrite !app_nil_r in E1, E3. destruct (sign_shape neg a l r Hl) as (_ & E5 & E6).
  set (t := _ ++ a :: l) in *. cbv zeta in E5, E6. unfold scan_int. rewrite E5, E6.
  destruct Hb as [-> | ->]; cbn [Z.eqb Pos.eqb].
  - unfold scan_d in *. rewrite E1, E3, app_nil_r in Es. rewrite E5, E6, digits_app by (done || lia).
    rewrite Es. exists v. cbn [mbind option_bind]. by rewrite skip_digits_app by (done || lia).
  - unfold scan_unsigned. rewrite E5, E6. cbn [Z.eqb Pos.eqb].
    rewrite hex_prefix_dec, digits_app by (done || lia).
    rewrite skip_digits_app by (done || lia).
    destruct (digits 16 None (a :: l)) as [d|] eqn:Ed.
    2: { revert Ed. simpl. simpl in Hl. apply andb_prop in Hl as [Ha _].
         destruct (dec_digit a 16 Ha) as [x ->]; [lia|]. intros Ed. by apply digits_Some in Ed. }
    eexists. split; [done|]. split; [done|]. intros Hz. destruct (H0 Hz) as (-> & -> & ->).
    by injection Ed as <-.
Qed.

(** ** Lines of the console *)

(** ["<name> <value> ... <value>\n"] *)
Definition cmd_line (name : String.string) (vs : list Z) : list ascii :=
  chars name ++ concat (map (fun v => " "%char :: chars (pretty v)) vs) ++ ["010"%char].

Definition int32 (v : Z) : Prop := - 2 ^ 31 <= v < 2 ^ 31.

Lemma scan_ints_line base vs : base = 10 \/ base = 16 -> Forall int32 vs -> forall n,
  (length vs <= n)%nat ->
  exists hs, scan_ints base n (concat (map (fun v => " "%char :: chars (pretty v)) vs) ++ ["010"%char]) = hs /\
    length hs = length vs /\ (base = 10 -> hs = vs) /\
    Forall2 (fun v h => v = 0 -> h = 0) vs hs.
Proof.
  intros Hb. induction 1 as [|v vs Hv Hvs IH]; intros n Hn.
  - exists []. split; [|done]. destruct n; [done|]. by destruct Hb as [-> | ->].
  - destruct n as [|n]; simpl in Hn; [lia|]. destruct (IH n) as (hs & E & L & Ed & F); [lia|].
    destruct (scan_int_pretty base v
      (concat (map (fun v => " "%char :: chars (pretty v)) vs) ++ ["010"%char])) as (h & E1 & E2 & E3);
      [by destruct vs|done..|].
    exists (h :: hs). split.
    + cbn [map concat scan_ints]. rewrite <- app_assoc. cbn [app]. rewrite E1. by rewrite E.
    + simpl. rewrite L. split; [done|]. split; [|by constructor].
      intros H. by rewrite (E2 H), (Ed H).
Qed.

Lemma pick_same vs hs : Forall2 (fun v h => v = 0 -> h = 0) vs hs -> forall i, pick vs hs i = nth i vs 0.
Proof.
  unfold pick. induction 1 as [|v h vs hs Hv _ IH]; intros [|i]; simpl; [done..| |apply IH].
  destruct (truthy v) eqn:E; [done|]. unfold truthy in E. bools. subst v. by apply Hv.
Qed.

Definition no_nul (l : list ascii) : bool := forallb (fun a => negb (Ascii.eqb a "000")) l.
Lemma until_no_nul l : no_nul l = true -> until "000" l = l.
Proof.
  unfold no_nul. induction l as [|a l IH]; simpl; [done|]. intros [Ha Hl]%andb_prop.
  destruct (Ascii.eqb a "000"); [done|]. by rewrite IH.
Qed.
Lemma no_nul_pretty (v : Z) : no_nul (chars (pretty v)) = true.
Proof.
  destruct (pretty_shape v) as (neg & a & l & -> & H & _). unfold no_nul. rewrite forallb_app.
  apply andb_true_intro. split; [by destruct neg|].
  revert H. generalize (a :: l). clear. induction l as [|a l IH]; simpl; [done|].
  intros [Ha Hl]%andb_prop. rewrite IH by done. destruct (dec_not a Ha) as (_ & _ & _ & _ & _ & Hn).
  by destruct (Ascii.eqb_spec a "000").
Qed.
Lemma no_nul_line name vs : no_nul (chars name) = true -> no_nul (cmd_line name vs) = true.
Proof.
  intros H. unfold cmd_line, no_nul in *. rewrite !forallb_app, H. cbn [andb].
  rewrite andb_true_r. induction vs as [|v vs IH]; [done|].
  cbn [map concat app forallb]. rewrite forallb_app, IH. pose proof (no_nul_pretty v) as Hv.
  unfold no_nul in Hv. by rewrite Hv.
Qed.

(** A name a command may have. *)
Definition cmd_name (n : String.string) : Prop :=
  plain_name n /\ no_nul (chars n) = true /\ (String.length n < 40)%nat.

Lemma parse_line name v vs : cmd_name name -> Forall int32 (v :: vs) -> (length vs <= 3)%nat ->
  parse (cmd_line name (v :: vs)) =
  Some (mk_args name (2 + Z.of_nat (length vs)) (2 + Z.of_nat (length vs)) v
          (nth 0 vs 0) (nth 1 vs 0) (nth 2 vs 0)).
Proof.
  intros (Hn & Hz & Hl) Hvs Hlen. unfold parse. rewrite until_no_nul by (by apply no_nul_line).
  unfold cmd_line. cbn [map concat app]. rewrite scan_s_plain by done.
  rewrite (proj2 (Nat.leb_gt _ _)) by done.
  destruct (scan_ints_line 10 (v :: vs)) with (n := 4%nat) as (ds & Ed & Ld & E10 & _);
    [by left|done|simpl; lia|].
  destruct (scan_ints_line 16 (v :: vs)) with (n := 4%nat) as (hs & Eh & Lh & _ & Fh);
    [by right|done|simpl; lia|].
  cbn [map concat app] in Ed, Eh. rewrite Ed, Eh. rewrite (E10 eq_refl) in *. rewrite Lh.
  rewrite !(pick_same _ _ Fh). cbn [length nth]. do 2 f_equal; lia.
Qed.

(** ** What is set is shown *)

(** The commands to set values, the greatest index, and the types. *)
Definition settable : list (String.string * Z * list cty) := [
  ("sdoid"%string, 3, [CU 8; CU 8]); ("clk"%string, 3, [CU 8; CU 8; CU 16]);
  ("prio"%string, 3, [CU 8; CU 8]); ("domain"%string, 3, [CU 8]); ("ports"%string, 3, [CU 16]);
  ("pdelay"%string, 3, [CS 8]); ("announce"%string, 3, [CS 8; CU 8]);
  ("sync"%string, 3, [CS 8; CU 8]); ("oper"%string, 3, [CS 8; CS 8]);
  ("thresh"%string, 3, [CU 16]); ("latency"%string, 8, [CU 16; CU 16; CS 16]);
  ("peer_delay"%string, 8, [CU 16]); ("master"%string, 8, [CU 1]); ("use_delay"%string, 8, [CU 1])].

Lemma settable_name name max tys : (name, max, tys) ∈ settable -> cmd_name name.
Proof.
  intros H. unfold settable in H.
  repeat (apply elem_of_cons in H as [[= -> -> ->] | H]; [split_and!; try done; simpl; lia|]).
  by apply elem_of_nil in H.
Qed.

Lemma entry_update {A} (l : list A) i max f : 1 <= i <= max -> max <= Z.of_nat (length l) -> max < 256 ->
  exists x l', entry l i max = Some x /\ update l i max f = Some l' /\ entry l' i max = Some (f x).
Proof.
  intros Hi Hl Hm. unfold entry, update, chk_index, u8, uN. change (2 ^ 8) with 256.
  rewrite (proj2 (Z.eqb_neq i 0)), Z.mod_small by lia.
  rewrite Z.geb_leb, (proj2 (Z.leb_gt _ _)) by lia.
  destruct (lookup_lt_is_Some_2 l (Z.to_nat (i - 1))) as [x E]; [lia|].
  exists x, (alter f (Z.to_nat (i - 1)) l). split; [done|]. split; [done|].
  by rewrite list_lookup_alter_eq, E.
Qed.

Lemma command_setting a k c c' sh :
  first_cmd a k c = None ->
  name_in (ar_name a) index_cmds && out_of_range a 3 = false ->
  name_in (ar_name a) port_cmds && out_of_range a 8 = false ->
  find_param (setting_cmds a c) (ar_name a) = Some (c', sh) ->
  command a k c = mk_outcome k c' [] sh true.
Proof. intros E1 E2 E3 E4. unfold command. by rewrite E1, E2, E3, E4. Qed.

(** A value stored in a variable of its type stays as it is. *)
Lemma to_flag v : in_type (CU 1) v -> b2z (truthy v) = v.
Proof. intros [H1 H2]. assert (v = 0 \/ v = 1) as [-> | ->] by (simpl in H2; lia); done. Qed.

Ltac in_entry := unfold gptp_profile_get_sdoid, gptp_profile_set_sdoid,
  gptp_profile_get_clock_prop, gptp_profile_set_clock_prop,
  gptp_profile_get_clock_prio, gptp_profile_set_clock_prio,
  gptp_profile_get_domain, gptp_profile_set_domain,
  gptp_port_profile_get_delay, gptp_port_profile_set_delay,
  gptp_port_profile_get_announce, gptp_port_profile_set_announce,
  gptp_port_profile_get_sync, gptp_port_profile_set_sync,
  gptp_port_profile_get_oper, gptp_port_profile_set_oper,
  gptp_port_profile_get_delay_thresh, gptp_port_profile_set_delay_thresh,
  gptp_port_get_latency, gptp_port_set_latency, gptp_port_get_peer_delay,
  gptp_port_set_peer_delay, gptp_port_get_master, gptp_port_set_master,
  gptp_port_get_use_delay, gptp_port_set_use_delay,
  profile_of, update_profile, port_profile_of, update_port_profile, setting_of, update_setting,
  MAX_PTP_PROFILES, MAX_PTP_PORTS.
Lemma u8_id v : in_type (CU 8) v -> u8 v = v.
Proof. intros H. apply uN_small; exact H. Qed.
Lemma u16_id v : in_type (CU 16) v -> u16 v = v.
Proof. intros H. apply uN_small; exact H. Qed.
Lemma s8_id v : in_type (CS 8) v -> s8 v = v.
Proof. intros H. apply sN_small; [done|exact H]. Qed.
Lemma s16_id v : in_type (CS 16) v -> s16 v = v.
Proof. intros H. apply sN_small; [done|exact H]. Qed.
Ltac unwrap := repeat match goal with
  | H : in_type (CU 1) ?v |- context [b2z (truthy ?v)] => rewrite (to_flag v H)
  | H : in_type (CU 8) ?v |- context [u8 ?v] => rewrite (u8_id v H)
  | H : in_type (CU 16) ?v |- context [u16 ?v] => rewrite (u16_id v H)
  | H : in_type (CS 8) ?v |- context [s8 ?v] => rewrite (s8_id v H)
  | H : in_type (CS 16) ?v |- context [s16 ?v] => rewrite (s16_id v H)
  end.
(** The command of a name, with the arguments at hand, up to the lookup. *)
Ltac enter cmd :=
  apply command_setting; [reflexivity
  |first [reflexivity | unfold out_of_range; cbn; lia]
  |first [reflexivity | unfold out_of_range; cbn; lia]|];
  match goal with |- find_param (setting_cmds ?a ?c) _ = _ =>
    transitivity (Some (cmd a c)); [reflexivity|]; f_equal; unfold cmd;
    cbn [ar_count ar_hcount ar_1 ar_2 ar_3 ar_4 Z.geb Z.compare Pos.compare Pos.compare_cont];
    in_entry; unwrap
  end.

(** A table with an entry changed. *)
Lemma wf_profiles c i f l : config_wf c -> update (cf_profiles c) i MAX_PTP_PROFILES f = Some l ->
  (forall p, profile_wf p -> profile_wf (f p)) -> config_wf (set_cf_profiles l c).
Proof.
  intros (Hg & [L Hp] & H) E Hf. destruct (update_wf _ _ _ _ _ _ Hf Hp E) as [L' Hp'].
  split; [done|]. split; [|done]. split; [simpl; congruence|done].
Qed.
Lemma wf_port_profiles c i f l : config_wf c ->
  update (cf_port_profiles c) i MAX_PTP_PORTS f = Some l ->
  (forall p, port_profile_wf p -> port_profile_wf (f p)) -> config_wf (set_cf_port_profiles l c).
Proof.
  intros (Hg & Hp & [L Hq] & Hs) E Hf. destruct (update_wf _ _ _ _ _ _ Hf Hq E) as [L' Hq'].
  split; [done|]. split; [done|]. split; [|done]. split; [simpl; congruence|done].
Qed.
Lemma wf_settings c i f l : config_wf c -> update (cf_settings c) i MAX_PTP_PORTS f = Some l ->
  (forall p, setting_wf p -> setting_wf (f p)) -> config_wf (set_cf_settings l c).
Proof.
  intros (Hg & Hp & Hq & [L Hs]) E Hf. destruct (update_wf _ _ _ _ _ _ Hf Hs E) as [L' Hs'].
  split; [done|]. split; [done|]. split; [done|]. split; [simpl; congruence|done].
Qed.
Ltac wf := intros [] H; unfold profile_wf, port_profile_wf, setting_wf, in_type, in_u, in_s in *;
  simpl in *; lia.

Lemma update_ext {A} (l : list A) i max f g x : entry l i max = Some x -> f x = g x ->
  update l i max f = update l i max g.
Proof.
  unfold entry, update. destruct (chk_index i max) as [j ok]. destruct ok; [|done].
  intros E H. f_equal. apply list_eq. intros n. destruct (decide (n = Z.to_nat j)) as [->|].
  - rewrite !list_lookup_alter_eq, E. simpl. by rewrite H.
  - by rewrite !list_lookup_alter_ne.
Qed.

(** A command of [settable] with all its values, then with the index alone. *)
Definition sets_and_shows (c : config) (k : console) name i v2 v3 v4 count (vs : list Z) : Prop :=
  exists c', command (mk_args name count count i v2 v3 v4) k c =
      mk_outcome k c' [] [] true /\ config_wf c' /\
    command (mk_args name 2 2 i 0 0 0) k c' = mk_outcome k c' [] (Some <$> vs) true.

Ltac set_show cmd tbl max upd lem f :=
  match goal with |- sets_and_shows ?c ?k _ ?i _ _ _ _ _ =>
    destruct (entry_update (tbl c) i max f) as (x & l & E1 & E2 & E3); [lia..|];
    exists (upd l c); split; [|split]; [enter cmd|apply (lem c i f); [done|exact E2|wf]|enter cmd];
    [rewrite E1; cbn [fmap option_fmap option_map get_set]; first [rewrite E2 | rewrite (update_ext _ _ _ _ f x E1), E2 by reflexivity]; reflexivity
    |cbn -[entry]; rewrite E3; reflexivity]
  end.
Ltac set_profile cmd f := set_show cmd cf_profiles 3 set_cf_profiles wf_profiles f.
Ltac set_port cmd f := set_show cmd cf_port_profiles 8 set_cf_port_profiles wf_port_profiles f.
Ltac set_setting cmd f := set_show cmd cf_settings 8 set_cf_settings wf_settings f.

Lemma settable_command name max tys c k i vs : (name, max, tys) ∈ settable -> config_wf c ->
  1 <= i <= max -> Forall2 in_type tys vs ->
  sets_and_shows c k name i (nth 0 vs 0) (nth 1 vs 0) (nth 2 vs 0) (2 + Z.of_nat (length vs)) vs.
Proof.
  intros Hn Hc Hi Hvs. pose proof Hc as (_ & [L1 _] & [L2 _] & [L3 _]).
  assert (Hi8 : max = 3 \/ max = 8 -> in_type (CU 8) i) by (simpl; lia).
  unfold settable in Hn.
  repeat apply elem_of_cons in Hn as [[= -> -> ->] | Hn].
  15: { by apply elem_of_nil in Hn. }
  all: repeat match goal with H : Forall2 _ (_ :: _) _ |- _ =>
      let x := fresh "v" in let Hx := fresh "Hv" in
      apply Forall2_cons_inv_l in H as (x & ? & Hx & H & ->) end;
    apply Forall2_nil_inv_l in Hvs as ->; cbn [nth length];
    change (2 + Z.of_nat 1) with 3; change (2 + Z.of_nat 2) with 4; change (2 + Z.of_nat 3) with 5;
    specialize (Hi8 ltac:(auto)).
  - set_profile cmd_sdoid (fun p => set_pf_minorSDOID v0 (set_pf_majorSDOID v p)).
  - set_profile cmd_clk (fun p =>
      set_pf_offsetScaledLogVariance v1 (set_pf_clkAccuracy v0 (set_pf_clkClass v p))).
  - set_profile cmd_prio (fun p => set_pf_priority2 v0 (set_pf_priority1 v p)).
  - set_profile cmd_domain (fun p =>
      set_pf_vlan (pf_vlan p) (set_pf_ports (pf_ports p) (set_pf_domain v p))).
  - set_profile cmd_ports (fun p =>
      set_pf_vlan (pf_vlan p) (set_pf_ports v (set_pf_domain (pf_domain p) p))).
  - set_port cmd_pdelay (set_pp_logMinDelayReqInterval v).
  - set_port cmd_announce (fun p =>
      set_pp_announceReceiptTimeout v0 (set_pp_logAnnounceInterval v p)).
  - set_port cmd_sync (fun p => set_pp_syncReceiptTimeout v0 (set_pp_logSyncInterval v p)).
  - set_port cmd_oper (fun p =>
      set_pp_operLogMinPdelayReqInterval v0 (set_pp_operLogSyncInterval v p)).
  - set_port cmd_thresh (set_pp_neighborPropDelayThresh v).
  - set_setting cmd_latency (fun s =>
      set_st_delayAsymmetry v1 (set_st_transmitLatency v0 (set_st_receiveLatency v s))).
  - set_setting cmd_peer_delay (set_st_peerDelay v).
  - set_setting cmd_master (set_st_masterOnly v).
  - set_setting cmd_use_delay (set_st_useDelayReq v).
Qed.

Definition small (t : cty) : Prop := t ∈ [CU 1; CU 8; CU 16; CS 8; CS 16].
Lemma settable_small name max tys : (name, max, tys) ∈ settable ->
  max <= 8 /\ (length tys <= 3)%nat /\ Forall small tys.
Proof.
  intros H. unfold settable in H.
  repeat (apply elem_of_cons in H as [[= -> -> ->] | H];
    [split; [lia|]; split; [simpl; lia|]; unfold small; repeat constructor; set_solver|]).
  by apply elem_of_nil in H.
Qed.
Lemma small_int32 t v : small t -> in_type t v -> int32 v.
Proof.
  unfold small, int32. intros H Hv.
  repeat (apply elem_of_cons in H as [-> | H]; [simpl in Hv; lia|]). by apply elem_of_nil in H.
Qed.

Section console.
Context {env : Env} {D : Type}.
Variable ioctl : ksz_request -> D -> Z * ksz_request * D.
Variables (ptrs : list nat) (req : ksz_request).

(** C38: What is set on the console is shown by it: for each command that sets
    values of a profile, a port profile or a port, a line with an index in
    range and values of the types of the fields changes the settings alone,
    which stay well formed, shows nothing and sends nothing; the line with the
    index alone then shows these values and changes nothing. *)
Theorem console_set_show name max tys i vs (h : host D)
  (Hn : (name, max, tys) ∈ settable) (Hc : config_wf (w_cfg (h_world h)))
  (Hi : 1 <= i <= max) (Hvs : Forall2 in_type tys vs) :
  exists c' h', config_wf c' /\
    h' = mk_host (set_w_cfg c' (h_world h)) (h_console h) (h_aed h) (h_dev h) /\
    run_line ioctl ptrs req (cmd_line name (i :: vs)) h = Some (h', [], [], true) /\
    run_line ioctl ptrs req (cmd_line name [i]) h' = Some (h', Some <$> vs, [], true).
Proof.
  destruct (settable_small _ _ _ Hn) as (Hm & Hl & Hs).
  assert (H32 : Forall int32 vs).
  { clear -Hs Hvs. induction Hvs; [constructor|]. apply Forall_cons in Hs as [? ?].
    apply Forall_cons_2; eauto using small_int32. }
  assert (Hii : int32 i) by (unfold int32; lia).
  pose proof (Forall2_length _ _ _ Hvs) as El.
  destruct (settable_command _ _ _ _ (h_console h) _ _ Hn Hc Hi Hvs) as (c' & E1 & Hc' & E2).
  exists c'. eexists. split; [done|]. split; [done|]. unfold run_line. split.
  - rewrite parse_line by (eauto using settable_name, Forall_cons_2 || lia).
    cbn [mbind option_bind]. by rewrite E1.
  - rewrite parse_line by (eauto using settable_name, Forall_cons_2, Forall_nil_2 || simpl; lia).
    cbn [mbind option_bind h_console h_world nth length]. cbn [w_cfg set_w_cfg].
    change (2 + Z.of_nat 0) with 2. by rewrite E2.
Qed.

End console.

Lemma config0_wf : config_wf config0.
Proof.
  unfold config_wf, global_wf. split_and!; try done; try (split; done); simpl;
    repeat (apply Forall_cons; split); try apply Forall_nil; try done;
    unfold profile_wf, port_profile_wf, setting_wf, in_u, in_s; simpl; lia.
Qed.
(** The latency of port 2 is set before the start. *)
Lemma console_set_show_witness :
  exists c' (h' : host unit), config_wf c' /\
    h' = mk_host (set_w_cfg c' world0) console0 (mk_aed [] [] [] 0) (api0, tt) /\
    run_line (env:=zero_env) (fun r d => (0, r, d)) [0%nat] (mk_req 0 0 0 0 0 []) (cmd_line "latency" [2; 500; 40; -7])
      (mk_host world0 console0 (mk_aed [] [] [] 0) (api0, tt)) = Some (h', [], [], true) /\
    run_line (env:=zero_env) (fun r d => (0, r, d)) [0%nat] (mk_req 0 0 0 0 0 []) (cmd_line "latency" [2])
      h' = Some (h', [Some 500; Some 40; Some (-7)], [], true).
Proof.
  apply (@console_set_show zero_env unit (fun r d => (0, r, d)) [0%nat] (mk_req 0 0 0 0 0 []) "latency" 8
    [CU 16; CU 16; CS 16] 2 [500; 40; -7] (mk_host world0 console0 (mk_aed [] [] [] 0) (api0, tt))).
  - unfold settable. set_solver.
  - apply config0_wf.
  - lia.
  - repeat constructor; lia.
Defined.
