(* ===== verification/Poll.v ===== *)
(** * The timer task (os/sw_support.c)

    [TimerTask] polls the descriptors of the table and calls the callbacks of
    the timers that expired; every call is an input of the stack.  The times
    of the timers are exact. *)

From stdpp Require Import base list numbers option relations.
From Stdlib Require Import ZArith Lia.
From S2P Require Import Prelude World Keeps Timers ClockWork Stack Boot Reach.

(** What [poll] tells of a descriptor. *)
Record poll_event := mk_event { ev_nval : bool; ev_in : bool }.

Section poll.
Context {env : Env}.

(** The entries from [i] on: the table may have grown or been cleaned by the
    callbacks before.  An entry that is ready and empty is dereferenced.  [n]
    bounds the entries; [pollfd] has no more than 80. *)
Fixpoint poll_scan (revents : nat -> poll_event) (n i : nat) : M unit :=
  table ← gets w_table;
  match table !! i with
  | None => skip
  | Some entry =>
      match n with
      | O => ub
      | S n =>
          _ ← (if ev_nval (revents i) then skip
               else if ev_in (revents i) then
                 t ← lift entry;
                 x ← get_timer t;
                 match tm_callback x with Some f => fire_timer t f | None => skip end
               else skip);
          poll_scan revents n (S i)
      end
  end.
(** A round of [TimerTask]; [None] when nothing is ready within a second. *)
Definition poll_round (revents : option (nat -> poll_event)) : M unit :=
  match revents with
  | Some r => poll_scan r (Z.to_nat MAX_TIMERS) 0
  | None => skip
  end.

Lemma poll_scan_input revents n : forall i w u w',
  poll_scan revents n i w = Some (u, w') -> rtc input w w'.
Proof.
  induction n as [|n IH]; intros i w u w' E; cbn [poll_scan] in E;
    apply bind_inv in E as (t & w1 & [= <- <-] & E);
    (destruct (w_table w !! i) as [entry|]; [|by injection E as <- <-]); [done|].
  apply bind_inv in E as ([] & w1 & E1 & E). etrans; [|by eapply IH]. clear IH E.
  destruct (ev_nval _); [by injection E1 as <-|].
  destruct (ev_in _); [|by injection E1 as <-].
  apply bind_inv in E1 as (t & w2 & E2 & E). destruct entry; [|done]. injection E2 as <- <-.
  apply bind_inv in E as (x & w2 & [= <- <-] & E).
  destruct (tm_callback _) as [f|] eqn:Ef; [|by injection E as <-].
  eapply rtc_once, in_timer; [exact Ef|exact E].
Qed.
(** A round of the timer task is a sequence of inputs. *)
Lemma poll_round_reachable revents w u w' :
  poll_round revents w = Some (u, w') -> reachable w -> reachable w'.
Proof.
  intros E. apply inputs_reachable.
  destruct revents; [by eapply poll_scan_input|by injection E as <- <-].
Qed.

End poll.

(** The ticks of a timer in seconds and nanoseconds: no conversion is lossy
    or overflows, over the whole range of [TickType_t]. *)
Lemma convert_ticks_exact ticks : 0 <= ticks < 2 ^ 32 ->
  let '(s, ns) := convert_ticks_to_ns ticks in
  s * 1000000000 + ns = ticks * 1000000 /\ 0 <= s < 2 ^ 31 /\ 0 <= ns < 1000000000.
Proof.
  intros H. unfold convert_ticks_to_ns. rewrite Z.geb_leb.
  assert (Hm : forall x, 0 <= x < 1000 -> s32 (u32 (x * 1000000)) = x * 1000000).
  { intros x Hx. rewrite u32_small by lia. apply s32_small. lia. }
  destruct (Z.leb_spec 1000 ticks).
  - pose proof (Z.mod_pos_bound ticks 1000 ltac:(lia)). pose proof (Z.div_mod ticks 1000 ltac:(lia)).
    assert (0 <= ticks / 1000 < 2 ^ 31).
    { split; [apply Z.div_pos; lia|apply Z.div_lt_upper_bound; lia]. }
    rewrite Hm, s32_small by lia. lia.
  - rewrite Hm by lia. lia.
Qed.
Lemma timer_value_exact ticks : 0 <= ticks < 2 ^ 32 -> timer_value ticks = ticks.
Proof.
  intros H. pose proof (convert_ticks_exact ticks H) as E. unfold timer_value.
  destruct (convert_ticks_to_ns ticks) as [s ns]. destruct E as (E & _ & Hns).
  assert (ns = (ticks - s * 1000) * 1000000) as -> by lia. rewrite Z.div_mul by done. lia.
Qed.
