(* ===== verification/Text.v ===== *)
(** * Times as text (ptp_ptu.c)

    The functions that print times for the log and the debug messages, with
    the part of [snprintf] they use, and readers that give the printed values
    back. *)

From stdpp Require Import base list numbers option strings.
From Stdlib Require Import ZArith Ascii Lia.
From S2P Require Import Prelude Ptu ConfigStore.

Abbreviation text := (list ascii).
Definition NUL : ascii := "000"%char.

(** ** Conversions of the C library *)

(** The digit of [d], lower case. *)
Definition digit_char (d : Z) : ascii :=
  ascii_of_N (Z.to_N (if d <? 10 then 48 + d else 87 + d)).

(** The digits of [n], without leading zeros, before [r]; [fuel] is the number
    of digits at most. *)
Fixpoint to_digits (fuel : nat) (base n : Z) (r : text) : text :=
  match fuel with
  | O => r
  | S fuel =>
      let r := digit_char (n mod base) :: r in
      if n / base =? 0 then r else to_digits fuel base (n / base) r
  end.
Definition pad (width : nat) (c : ascii) (l : text) : text :=
  replicate (width - length l) c ++ l.

(** [%u], [%0<w>u], [%<w>u], [%0<w>x] of 32 bits, and [%d]. *)
Definition fmt_u (n : Z) : text := to_digits 10 10 (u32 n) [].
Definition fmt_0u (width : nat) (n : Z) : text := pad width "0" (fmt_u n).
Definition fmt_su (width : nat) (n : Z) : text := pad width " " (fmt_u n).
Definition fmt_0x (width : nat) (n : Z) : text := pad width "0" (to_digits 8 16 (u32 n) []).
Definition fmt_d (n : Z) : text := if n <? 0 then "-"%char :: fmt_u (- n) else fmt_u n.

(** [snprintf (&b[o], size, ...)] of the text [t]: at most [size] bytes with the
    NUL are stored, the length of the whole text is returned. *)
Definition snprintf (b : text) (o : Z) (size : Z) (t : text) : option (text * Z) :=
  if size =? 0 then Some (b, Z.of_nat (length t)) else
  let w := take (Z.to_nat size - 1) t ++ [NUL] in
  if (o <? 0) || (Z.of_nat (length b) <? o + Z.of_nat (length w)) then UB
  else Some (take (Z.to_nat o) b ++ w ++ drop (Z.to_nat o + length w) b, Z.of_nat (length t)).

(** The string at the start of [b], undefined when no NUL ends it. *)
Fixpoint c_string (b : text) : option text :=
  match b with
  | a :: b => if Ascii.eqb a NUL then Some [] else l ← c_string b; Some (a :: l)
  | [] => UB
  end.

(** ** Times *)

Definition ptu_text (u : ptu) : text :=
  let neg := u_nsec u <? 0 in
  let nsec := if neg then s64 (- u_nsec u) else u_nsec u in
  let sub := Z.land nsec 65535 in
  let nsec := Z.shiftr nsec SCALED_NANOSEC_S in
  (if (u_sec u =? 0) && neg then chars "-0." ++ fmt_0u 9 nsec
   else fmt_d (s32 (u_sec u)) ++ chars "." ++ fmt_0u 9 nsec) ++ chars "." ++ fmt_0x 4 sub.
Definition ptu_str (u : ptu) (str : text) (size : Z) : option (text * Z) :=
  snprintf str 0 size (ptu_text u).

Definition s64_text (n : Z) : text :=
  let sec := Z.quot n NANOSEC_IN_SEC in
  let nsec := Z.rem n NANOSEC_IN_SEC in
  let nsec := if sec <? 0 then - nsec else nsec in
  if (sec =? 0) && (nsec <? 0) then chars "-0." ++ fmt_0u 9 (- nsec)
  else fmt_d (s32 sec) ++ chars "." ++ fmt_0u 9 nsec.
Definition s64_str (n : Z) (str : text) (size : Z) : option (text * Z) :=
  snprintf str 0 size (s64_text n).

Definition timestamp_text (lsec nsec : Z) : text :=
  let sec := lsec mod 60 in
  let min := (lsec - sec) / 60 in
  let hour := min / 60 in
  let min := min mod 60 in
  let day := hour / 24 in
  let hour := hour mod 24 in
  if truthy day then
    fmt_u day ++ chars "." ++ fmt_0u 2 hour ++ chars ":" ++ fmt_0u 2 min ++ chars ":" ++
    fmt_0u 2 sec ++ chars "." ++ fmt_0u 9 nsec
  else if truthy hour then
    fmt_u hour ++ chars ":" ++ fmt_0u 2 min ++ chars ":" ++ fmt_0u 2 sec ++ chars "." ++
    fmt_0u 9 nsec
  else if truthy min then
    fmt_u min ++ chars ":" ++ fmt_0u 2 sec ++ chars "." ++ fmt_0u 9 nsec
  else fmt_u sec ++ chars "." ++ fmt_0u 9 nsec.
Definition timestamp_str (lsec nsec : Z) (str : text) (size : Z) : option (text * Z) :=
  snprintf str 0 size (timestamp_text lsec nsec).

(** ** Readers *)

(** A number and what follows it. *)
Fixpoint number (base acc : Z) (l : text) : Z * text :=
  match l with
  | a :: r => match digit base a with Some d => number base (acc * base + d) r | None => (acc, l) end
  | [] => (acc, [])
  end.
(** Numbers with separators between them: the separators in front. *)
Fixpoint numbers (bases : list Z) (l : text) : list (Z * option ascii) :=
  match bases with
  | [] => []
  | b :: bases =>
      match number b 0 l with
      | (v, c :: r) => (v, Some c) :: numbers bases r
      | (v, []) => [(v, None)]
      end
  end.
(** Clock time: what stands before a colon counts sixty times, what stands
    before the point of the days twenty-four times. *)
Fixpoint read_clock (acc : Z) (l : list (Z * option ascii)) : option (Z * Z) :=
  match l with
  | [(v, None)] => Some (acc, v)
  | (v, Some ":"%char) :: r => read_clock ((acc + v) * 60) r
  | [(v, Some "."%char); (ns, None)] => Some (acc + v, ns)
  | (v, Some "."%char) :: r => read_clock ((acc + v) * 24) r
  | _ => None
  end.
Definition read_timestamp (l : text) : option (Z * Z) :=
  read_clock 0 (numbers [10; 10; 10; 10; 10] l).

(** Seconds and nanoseconds behind a sign, in nanoseconds. *)
Definition read_s64 (l : text) : option Z :=
  let '(neg, l) := sign l in
  match numbers [10; 10] l with
  | [(sec, Some "."%char); (nsec, None)] =>
      let v := sec * NANOSEC_IN_SEC + nsec in Some (if neg : bool then - v else v)
  | _ => None
  end.
(** With sixteen bits of fraction. *)
Definition read_ptu (l : text) : option Z :=
  let '(neg, l) := sign l in
  match numbers [10; 10; 16] l with
  | [(sec, Some "."%char); (nsec, Some "."%char); (sub, None)] =>
      let v := (sec * NANOSEC_IN_SEC + nsec) * 65536 + sub in Some (if neg : bool then - v else v)
  | _ => None
  end.

(** ** What is printed is read back *)

Definition base_ok (b : Z) : Prop := b = 10 \/ b = 16.
Lemma base10 : base_ok 10. Proof. by left. Qed.
Lemma base16 : base_ok 16. Proof. by right. Qed.
Create HintDb text.
#[export] Hint Resolve base10 base16 : text.

(** The sixteen digits, one by one. *)
Lemma digit_cases d : 0 <= d < 16 -> In d (seqZ 0 16).
Proof. intros H. apply list_elem_of_In, elem_of_seqZ. lia. Qed.
Ltac each_digit H :=
  apply digit_cases in H; simpl in H; repeat destruct H as [<-|H]; try destruct H.

Lemma digit_digit_char b d : base_ok b -> 0 <= d < b -> digit b (digit_char d) = Some d.
Proof.
  intros [->| ->] Hd; assert (Hd' : 0 <= d < 16) by lia; each_digit Hd'; done || lia.
Qed.
Lemma digit_char_not_NUL d : 0 <= d < 16 -> digit_char d <> NUL.
Proof. intros Hd. by each_digit Hd. Qed.

Lemma to_digits_app fuel b : forall n r r',
  to_digits fuel b n r ++ r' = to_digits fuel b n (r ++ r').
Proof.
  induction fuel as [|fuel IH]; intros n r r'; [done|]. simpl. destruct (n / b =? 0); [done|]. by rewrite IH.
Qed.
Lemma to_digits_length fuel b : forall n r, (length (to_digits fuel b n r) <= fuel + length r)%nat.
Proof.
  induction fuel as [|fuel IH]; intros n r; simpl; [lia|].
  destruct (n / b =? 0); simpl; [lia|]. etrans; [apply IH|]. simpl. lia.
Qed.

Lemma number_to_digits fuel b : base_ok b -> forall n r, 0 <= n < b ^ Z.of_nat fuel ->
  (0 < fuel)%nat -> number b 0 (to_digits fuel b n r) = number b n r.
Proof.
  intros Hb. assert (Hp : 1 < b) by (destruct Hb; lia).
  induction fuel as [|fuel IH]; intros n r Hn Hf; [lia|]. simpl.
  pose proof (Z.mod_pos_bound n b ltac:(lia)). pose proof (Z.div_mod n b ltac:(lia)) as D.
  rewrite Nat2Z.inj_succ, Z.pow_succ_r in Hn by lia.
  destruct (Z.eqb_spec (n / b) 0) as [E|E].
  - simpl. rewrite digit_digit_char by done. f_equal. lia.
  - pose proof (Z.div_pos n b ltac:(lia) ltac:(lia)).
    assert (n / b < b ^ Z.of_nat fuel) by (apply Z.div_lt_upper_bound; lia).
    destruct fuel as [|fuel]; [simpl in *; lia|].
    rewrite IH by lia. simpl. rewrite digit_digit_char by done. f_equal. lia.
Qed.

Lemma number_pad b w l : base_ok b -> number b 0 (pad w "0" l) = number b 0 l.
Proof.
  intros Hb. unfold pad. induction (w - length l)%nat as [|k IH]; simpl; [done|].
  change "0"%char with (digit_char 0). rewrite digit_digit_char by (done || destruct Hb; lia). done.
Qed.
Lemma pad_app w c l r : pad w c l ++ r = replicate (w - length l) c ++ l ++ r.
Proof. unfold pad. by rewrite app_assoc. Qed.

(** A separator is no digit. *)
Definition stops (r : text) : Prop :=
  match r with [] => True | a :: _ => digit 10 a = None /\ digit 16 a = None end.
Lemma number_stops b v r : base_ok b -> stops r -> number b v r = (v, r).
Proof. intros Hb Hr. destruct r as [|a r]; [done|]. simpl. destruct Hr, Hb as [->| ->]; case_match; congruence. Qed.

Lemma number_fmt b fuel w n r : base_ok b -> (0 < fuel)%nat -> 0 <= n < b ^ Z.of_nat fuel ->
  stops r -> number b 0 (pad w "0" (to_digits fuel b n []) ++ r) = (n, r).
Proof.
  intros Hb Hf Hn Hr. unfold pad. rewrite <- app_assoc, to_digits_app.
  replace (_ ++ to_digits _ _ _ _) with (pad (w - length (to_digits fuel b n []) + length (to_digits fuel b n r)) "0" (to_digits fuel b n r))
    by (unfold pad; do 2 f_equal; lia).
  rewrite number_pad, number_to_digits by done. by apply number_stops.
Qed.

Lemma read_fmt_0u w n r : stops r -> number 10 0 (fmt_0u w n ++ r) = (u32 n, r).
Proof.
  intros Hr. apply number_fmt; [apply base10|lia| |done].
  pose proof (uN_range 32 n ltac:(lia)). unfold u32, uN in *. change (10 ^ Z.of_nat 10) with 10000000000. lia.
Qed.
Lemma read_fmt_u n r : stops r -> number 10 0 (fmt_u n ++ r) = (u32 n, r).
Proof. apply (read_fmt_0u 0). Qed.
Lemma read_fmt_0x w n r : stops r -> number 16 0 (fmt_0x w n ++ r) = (u32 n, r).
Proof.
  intros Hr. apply number_fmt; [apply base16|lia| |done].
  pose proof (uN_range 32 n ltac:(lia)). unfold u32, uN in *. change (16 ^ Z.of_nat 8) with 4294967296. lia.
Qed.
Lemma numbers_cons b bs l v c r : number b 0 l = (v, c :: r) ->
  numbers (b :: bs) l = (v, Some c) :: numbers bs r.
Proof. intros E. simpl. by rewrite E. Qed.
Lemma numbers_last b bs l v : number b 0 l = (v, []) -> numbers (b :: bs) l = [(v, None)].
Proof. intros E. simpl. by rewrite E. Qed.

(** Reading a text from left to right. *)
Ltac read_numbers :=
  repeat first
    [ erewrite numbers_cons by (first [apply read_fmt_0u|apply read_fmt_u|apply read_fmt_0x]; done)
    | erewrite numbers_last by (rewrite <- (app_nil_r (fmt_0u _ _)); apply read_fmt_0u; done)
    | erewrite numbers_last by (rewrite <- (app_nil_r (fmt_0x _ _)); apply read_fmt_0x; done) ].

Lemma timestamp_text_read lsec nsec : 0 <= lsec < 2 ^ 32 -> 0 <= nsec < 2 ^ 32 ->
  read_timestamp (timestamp_text lsec nsec) = Some (lsec, nsec).
Proof.
  intros Hl Hn. unfold read_timestamp, timestamp_text. cbv zeta. change (chars ".") with ["."%char].
  change (chars ":") with [":"%char].
  pose proof (Z.div_mod lsec 60). pose proof (Z.mod_pos_bound lsec 60).
  replace ((lsec - lsec mod 60) / 60) with (lsec / 60) by (rewrite (Z.div_unique (lsec - lsec mod 60) 60 (lsec / 60) 0); lia).
  set (s := lsec mod 60) in *. set (m := lsec / 60) in *.
  pose proof (Z.div_mod m 60). pose proof (Z.mod_pos_bound m 60). set (mi := m mod 60) in *. set (h := m / 60) in *.
  pose proof (Z.div_mod h 24). pose proof (Z.mod_pos_bound h 24). set (hr := h mod 24) in *. set (d := h / 24) in *.
  unfold truthy. repeat case_match; bools; cbn [app]; read_numbers; simpl; rewrite !u32_small by lia; do 2 f_equal; lia.
Qed.

Lemma to_digits_head fuel b : base_ok b -> forall n r, 0 <= n ->
  (0 < fuel)%nat \/ (exists d r', 0 <= d < 16 /\ r = digit_char d :: r') ->
  exists d r', 0 <= d < 16 /\ to_digits fuel b n r = digit_char d :: r'.
Proof.
  intros Hb. induction fuel as [|fuel IH]; intros n r Hn Hf; [destruct Hf; [lia|done]|]. simpl.
  assert (0 <= n mod b < 16) by (destruct Hb as [->| ->]; [pose proof (Z.mod_pos_bound n 10)|pose proof (Z.mod_pos_bound n 16)]; lia).
  destruct (n / b =? 0); [by eexists _, _|].
  apply IH; [apply Z.div_pos; destruct Hb; lia|]. right. by eexists _, _.
Qed.
Lemma sign_fmt_u n r : sign (fmt_u n ++ r) = (false, fmt_u n ++ r).
Proof.
  destruct (to_digits_head 10 10 base10 (u32 n) []) as (d & l & Hd & E);
    [apply uN_range; lia|left; lia|]. unfold fmt_u. rewrite E. by each_digit Hd.
Qed.
Lemma sign_fmt_d n r : - 2 ^ 31 <= n < 2 ^ 31 -> exists neg l, sign (fmt_d n ++ r) = (neg, fmt_u l ++ r) /\
  u32 l = Z.abs n /\ neg = (n <? 0).
Proof.
  intros Hn. unfold fmt_d. destruct (Z.ltb_spec n 0).
  - exists true, (- n). simpl. split_and!; [done|rewrite u32_small; lia|done].
  - exists false, n. rewrite sign_fmt_u. split_and!; [done|rewrite u32_small; lia|done].
Qed.

Lemma s64_text_read n : - 2 ^ 31 * NANOSEC_IN_SEC <= n < 2 ^ 31 * NANOSEC_IN_SEC ->
  read_s64 (s64_text n) = Some n.
Proof.
  intros Hn. unfold NANOSEC_IN_SEC in Hn. unfold read_s64, s64_text. cbv zeta.
  pose proof (Z.quot_rem' n NANOSEC_IN_SEC) as D. unfold NANOSEC_IN_SEC in *.
  assert (Hq : - 2 ^ 31 <= Z.quot n 1000000000 < 2 ^ 31) by (Z.quot_rem_to_equations; lia).
  assert (Hr : Z.abs (Z.rem n 1000000000) < 1000000000) by (Z.quot_rem_to_equations; lia).
  assert (Hs : 0 <= n /\ 0 <= Z.quot n 1000000000 /\ 0 <= Z.rem n 1000000000 \/
               n < 0 /\ Z.quot n 1000000000 <= 0 /\ Z.rem n 1000000000 <= 0) by (Z.quot_rem_to_equations; lia).
  set (q := Z.quot n 1000000000) in *. set (r := Z.rem n 1000000000) in *.
  rewrite (s32_small q) by lia.
  change (chars "-0." ++ ?x) with ("-"%char :: fmt_u 0 ++ "."%char :: x).
  change (chars ".") with ["."%char]. cbn [app].
  destruct ((q =? 0) && _) eqn:C.
  - bools. cbn [sign]. read_numbers. rewrite !u32_small by (case_match; bools; lia).
    case_match; bools; f_equal; lia.
  - destruct (sign_fmt_d q ("."%char :: fmt_0u 9 (if q <? 0 then - r else r)))
      as (neg & l & -> & El & ->); [lia|].
    read_numbers. rewrite El. rewrite !u32_small by (case_match; bools; lia).
    bools; case_match; bools; f_equal; lia.
Qed.

Lemma ptu_text_read u : - 2 ^ 31 <= u_sec u < 2 ^ 31 ->
  Z.abs (u_nsec u) < SCALED_NANOSEC_IN_SEC -> 0 <= u_sec u * u_nsec u ->
  read_ptu (ptu_text u) = Some (u_sec u * SCALED_NANOSEC_IN_SEC + u_nsec u).
Proof.
  destruct u as [q r]. simpl. rewrite SCALED_NANOSEC_IN_SEC_val. intros Hq Hr Hs.
  unfold read_ptu, ptu_text, NANOSEC_IN_SEC, SCALED_NANOSEC_S. cbn [u_sec u_nsec]. cbv zeta.
  rewrite (s64_small (- r)), (s32_small q) by lia.
  replace (if r <? 0 then - r else r) with (Z.abs r) by (case_match; bools; lia).
  change 65535 with (Z.ones 16). rewrite Z.land_ones, Z.shiftr_div_pow2 by lia.
  change (2 ^ 16) with 65536.
  pose proof (Z.div_mod (Z.abs r) 65536 ltac:(lia)) as D.
  pose proof (Z.mod_pos_bound (Z.abs r) 65536 ltac:(lia)) as B.
  assert (Hd : 0 <= Z.abs r / 65536 < 1000000000) by (split; [apply Z.div_pos|apply Z.div_lt_upper_bound]; lia).
  set (ns := Z.abs r / 65536) in *. set (x := Z.abs r mod 65536) in *.
  change (chars "-0." ++ ?y) with ("-"%char :: fmt_u 0 ++ "."%char :: y).
  change (chars ".") with ["."%char]. cbn [app].
  destruct ((q =? 0) && _) eqn:C.
  - bools. cbn [sign app]. rewrite <- app_assoc. cbn [app].
    read_numbers. rewrite !u32_small by lia. f_equal. lia.
  - rewrite <- app_assoc. cbn [app].
    destruct (sign_fmt_d q ("."%char :: fmt_0u 9 ns ++ "."%char :: fmt_0x 4 x))
      as (neg & l & -> & El & ->); [lia|].
    read_numbers. rewrite El, !u32_small by lia.
    bools; case_match; bools; f_equal; nia.
Qed.

(** ** Storing a text *)

(** Texts the conversions give: no NUL in them. *)
Definition no_NUL (t : text) : Prop := Forall (fun a => a <> NUL) t.
Lemma no_NUL_app a b : no_NUL a -> no_NUL b -> no_NUL (a ++ b).
Proof. intros. by apply Forall_app. Qed.
Lemma no_NUL_digits fuel b n : base_ok b -> 0 <= n -> forall r, no_NUL r -> no_NUL (to_digits fuel b n r).
Proof.
  intros Hb. revert n. induction fuel as [|fuel IH]; intros n Hn r Hr; [done|]. simpl.
  assert (no_NUL (digit_char (n mod b) :: r)).
  { constructor; [|done]. apply digit_char_not_NUL.
    destruct Hb as [->| ->]; [pose proof (Z.mod_pos_bound n 10)|pose proof (Z.mod_pos_bound n 16)]; lia. }
  case_match; [done|]. apply IH; [|done]. apply Z.div_pos; destruct Hb; lia.
Qed.
Lemma no_NUL_pad w c l : c <> NUL -> no_NUL l -> no_NUL (pad w c l).
Proof. intros Hc Hl. apply no_NUL_app; [by apply Forall_replicate|done]. Qed.
Lemma no_NUL_u32 fuel b n : base_ok b -> no_NUL (to_digits fuel b (u32 n) []).
Proof. intros Hb. apply no_NUL_digits; [done|apply uN_range; lia|constructor]. Qed.
Lemma no_NUL_fmt_u n : no_NUL (fmt_u n).
Proof. apply no_NUL_u32, base10. Qed.
Lemma no_NUL_fmt_0u w n : no_NUL (fmt_0u w n).
Proof. by apply no_NUL_pad, no_NUL_fmt_u. Qed.
Lemma no_NUL_fmt_su w n : no_NUL (fmt_su w n).
Proof. by apply no_NUL_pad, no_NUL_fmt_u. Qed.
Lemma no_NUL_fmt_0x w n : no_NUL (fmt_0x w n).
Proof. by apply no_NUL_pad, no_NUL_u32, base16. Qed.
Lemma no_NUL_fmt_d n : no_NUL (fmt_d n).
Proof. unfold fmt_d. case_match; [constructor; [done|]|]; apply no_NUL_fmt_u. Qed.
#[export] Hint Resolve no_NUL_app no_NUL_fmt_u no_NUL_fmt_0u no_NUL_fmt_su no_NUL_fmt_0x no_NUL_fmt_d : text.
#[export] Hint Extern 1 (no_NUL (chars _)) => repeat constructor; done : text.

Lemma fmt_u_length n : (length (fmt_u n) <= 10)%nat.
Proof. etrans; [apply to_digits_length|]. simpl. lia. Qed.
Lemma to_digits_length_le k b : 1 < b -> forall fuel n, 0 <= n < b ^ Z.of_nat k -> (0 < k)%nat ->
  (length (to_digits fuel b n []) <= k)%nat.
Proof.
  intros Hb fuel n Hn Hk. cut (forall r, (length (to_digits fuel b n r) <= k + length r)%nat).
  { intros H. specialize (H []). simpl in H. lia. }
  revert fuel n Hn. induction k as [|k IH]; intros [|fuel] n Hn r; simpl; try lia.
  destruct (Z.eqb_spec (n / b) 0) as [E|E]; [simpl; lia|].
  rewrite Nat2Z.inj_succ, Z.pow_succ_r in Hn by lia.
  assert (0 <= n / b < b ^ Z.of_nat k) by (split; [apply Z.div_pos|apply Z.div_lt_upper_bound]; lia).
  destruct k as [|k]; [simpl in *; lia|]. etrans; [apply IH; lia|]. simpl. lia.
Qed.
Lemma fmt_0u_length_le w n : (0 < w)%nat -> 0 <= n < 10 ^ Z.of_nat w -> n < 2 ^ 32 ->
  (length (fmt_0u w n) <= w)%nat.
Proof.
  intros Hw Hn Hn'. unfold fmt_0u, pad, fmt_u. rewrite u32_small by lia.
  pose proof (to_digits_length_le w 10 ltac:(lia) 10 n Hn Hw). rewrite length_app, length_replicate. lia.
Qed.
Lemma pad_length w c l k : (length l <= k)%nat -> (length (pad w c l) <= w `max` k)%nat.
Proof. intros. unfold pad. rewrite length_app, length_replicate. lia. Qed.
Lemma fmt_0u_length w n : (length (fmt_0u w n) <= w `max` 10)%nat.
Proof. apply pad_length, fmt_u_length. Qed.
Lemma fmt_su_length w n : (length (fmt_su w n) <= w `max` 10)%nat.
Proof. apply pad_length, fmt_u_length. Qed.
Lemma fmt_0x_length w n : (length (fmt_0x w n) <= w `max` 8)%nat.
Proof. apply pad_length, to_digits_length. Qed.
Lemma fmt_d_length n : (length (fmt_d n) <= 11)%nat.
Proof. unfold fmt_d. case_match; simpl; [pose proof (fmt_u_length (- n))|pose proof (fmt_u_length n)]; lia. Qed.

Lemma snprintf_fits b o size t : (1 <= size)%nat -> (o + size <= length b)%nat ->
  exists b', snprintf b (Z.of_nat o) (Z.of_nat size) t = Some (b', Z.of_nat (length t)) /\
    length b' = length b /\ take o b' = take o b /\
    drop o b' = take (size - 1) t ++ NUL :: drop (o + length (take (size - 1) t) + 1) b.
Proof.
  intros Hs Hb. unfold snprintf. rewrite Nat2Z.id. set (w := take (size - 1) t).
  pose proof (length_take t (size - 1)). fold w in H.
  destruct (Z.eqb_spec (Z.of_nat size) 0); [lia|]. rewrite length_app. simpl length.
  destruct (Z.ltb_spec (Z.of_nat o) 0); [lia|].
  destruct (Z.ltb_spec (Z.of_nat (length b)) (Z.of_nat o + Z.of_nat (length w + 1))); [lia|].
  simpl. rewrite !Nat2Z.id. eexists. split; [done|]. split_and!.
  - rewrite !length_app, length_take, length_drop. simpl. lia.
  - rewrite take_app_le, take_take by (rewrite length_take; lia). f_equal. lia.
  - rewrite drop_app_length' by (rewrite length_take; lia). rewrite <- app_assoc. simpl.
    by rewrite Nat.add_assoc.
Qed.

Lemma c_string_app t r : no_NUL t -> c_string (t ++ NUL :: r) = Some t.
Proof.
  induction 1 as [|a t Ha _ IH]; [done|]. simpl. destruct (Ascii.eqb_spec a NUL); [done|]. by rewrite IH.
Qed.

(** A text shorter than the buffer is stored whole. *)
Lemma snprintf_whole b size t : no_NUL t -> (length t < size <= length b)%nat ->
  exists b', snprintf b 0 (Z.of_nat size) t = Some (b', Z.of_nat (length t)) /\
    length b' = length b /\ c_string b' = Some t.
Proof.
  intros Hn Ht. destruct (snprintf_fits b 0 size t) as (b' & E & L & _ & D); [lia..|].
  exists b'. split_and!; [done..|]. rewrite drop_0, take_ge in D by lia. rewrite D. by apply c_string_app.
Qed.

(** [length] of a concatenation of conversions is at most ... *)
Ltac bound_length :=
  rewrite ?length_app; cbn [length String.list_ascii_of_string];
  repeat match goal with
    | |- context [length (fmt_u ?n)] => pose proof (fmt_u_length n); generalize dependent (length (fmt_u n)); intros
    | |- context [length (fmt_0u ?w ?n)] => pose proof (fmt_0u_length w n); generalize dependent (length (fmt_0u w n)); intros
    | |- context [length (fmt_su ?w ?n)] => pose proof (fmt_su_length w n); generalize dependent (length (fmt_su w n)); intros
    | |- context [length (fmt_0x ?w ?n)] => pose proof (fmt_0x_length w n); generalize dependent (length (fmt_0x w n)); intros
    | |- context [length (fmt_d ?n)] => pose proof (fmt_d_length n); generalize dependent (length (fmt_d n)); intros
    end; lia.

Lemma ptu_text_shape u : no_NUL (ptu_text u) /\ (length (ptu_text u) < 40)%nat.
Proof. unfold ptu_text. split; case_match; auto 8 with text; bound_length. Qed.
Lemma s64_text_shape n : no_NUL (s64_text n) /\ (length (s64_text n) < 40)%nat.
Proof. unfold s64_text. split; case_match; auto 8 with text; bound_length. Qed.
Lemma two_digits n m : 1 < m <= 60 -> (length (fmt_0u 2 (n mod m)) <= 2)%nat.
Proof. intros. pose proof (Z.mod_pos_bound n m). apply fmt_0u_length_le; simpl; lia. Qed.
Lemma timestamp_text_shape sec nsec :
  no_NUL (timestamp_text sec nsec) /\ (length (timestamp_text sec nsec) <= 30)%nat.
Proof.
  unfold timestamp_text. split; repeat case_match; auto 12 with text;
    pose proof (two_digits sec 60); pose proof (two_digits ((sec - sec mod 60) / 60) 60);
    pose proof (two_digits ((sec - sec mod 60) / 60 / 60) 24); bound_length.
Qed.

(** C40: the times of the log are printed exactly: a buffer of 40 bytes (80 for
    timestamps) is enough for every value, and the string in it reads as the
    nanoseconds, the scaled time or the seconds and nanoseconds given; so sign
    and leading zeros are right also around zero and with days. *)
Theorem times_printed_exactly (b : text) (n : Z) (u : ptu) (lsec nsec : Z)
    (Hb : (80 <= length b)%nat)
    (Hn : - 2 ^ 31 * NANOSEC_IN_SEC <= n < 2 ^ 31 * NANOSEC_IN_SEC)
    (Hu : - 2 ^ 31 <= u_sec u < 2 ^ 31 /\ Z.abs (u_nsec u) < SCALED_NANOSEC_IN_SEC /\
          0 <= u_sec u * u_nsec u)
    (Ht : 0 <= lsec < 2 ^ 32 /\ 0 <= nsec < 2 ^ 32) :
  exists b1 b2 b3 l1 l2 l3,
    s64_str n b 40 = Some (b1, l1) /\ (c_string b1 ≫= read_s64) = Some n /\
    ptu_str u b 40 = Some (b2, l2) /\
      (c_string b2 ≫= read_ptu) = Some (u_sec u * SCALED_NANOSEC_IN_SEC + u_nsec u) /\
    timestamp_str lsec nsec b 80 = Some (b3, l3) /\
      (c_string b3 ≫= read_timestamp) = Some (lsec, nsec).
Proof.
  destruct (s64_text_shape n) as [N1 L1], (ptu_text_shape u) as [N2 L2],
    (timestamp_text_shape lsec nsec) as [N3 L3].
  destruct (snprintf_whole b 40 _ N1) as (b1 & E1 & _ & S1); [lia|].
  destruct (snprintf_whole b 40 _ N2) as (b2 & E2 & _ & S2); [lia|].
  destruct (snprintf_whole b 80 _ N3) as (b3 & E3 & _ & S3); [lia|].
  exists b1, b2, b3. do 3 eexists. rewrite S1, S2, S3. cbn [mbind option_bind].
  rewrite s64_text_read, ptu_text_read, timestamp_text_read by tauto.
  split_and!; [exact E1|done|exact E2|done|exact E3|done].
Qed.

Lemma times_printed_exactly_witness : exists b1 b2 b3 l1 l2 l3,
  s64_str (-500) (replicate 80 NUL) 40 = Some (b1, l1) /\ (c_string b1 ≫= read_s64) = Some (-500) /\
  ptu_str (mk_ptu (-1) (-65537)) (replicate 80 NUL) 40 = Some (b2, l2) /\
    (c_string b2 ≫= read_ptu) = Some (-1 * SCALED_NANOSEC_IN_SEC + -65537) /\
  timestamp_str 90061 7 (replicate 80 NUL) 80 = Some (b3, l3) /\
    (c_string b3 ≫= read_timestamp) = Some (90061, 7).
Proof. apply (times_printed_exactly _ (-500) (mk_ptu (-1) (-65537)) 90061 7); vm_compute; repeat split; done || lia. Defined.
