(* ===== verification/Log.v ===== *)
(** * The logs (ptp_main.c)

    Debug messages and the event log are collected in two buffers and printed
    by a timer every half second, or when the event log is nearly full.  The
    buffers of the C code, with pointer and counter, are shown to keep the
    messages in order and inside their bounds. *)

From stdpp Require Import base list numbers option strings.
From Stdlib Require Import ZArith Ascii Lia.
From S2P Require Import Prelude ConfigStore Text.

Definition PRINT_MSG_SIZE : Z := 800.
Definition LOG_MSG_SIZE : Z := 400.

(** What is printed, by the function that prints it. *)
Inductive stream := dbg_stream | log_stream.
#[export] Instance stream_eq_dec : EqDecision stream.
Proof. solve_decision. Defined.

Record logs := mk_logs {
  dbg_on : Z; dbg_msg_buf : text; dbg_msg_ptr : Z; dbg_msg_cnt : Z;
  log_on : Z; log_msg_buf : text; log_msg_ptr : Z; log_msg_cnt : Z;
  stdout : list (stream * text) }.

(** The static variables; the flags are never assigned. *)
Definition logs0 : logs :=
  mk_logs 1 (replicate (Z.to_nat PRINT_MSG_SIZE) NUL) 0 0
          1 (replicate (Z.to_nat LOG_MSG_SIZE) NUL) 0 0 [].

(** [t] is the text [vsnprintf] makes of the format and the arguments. *)
Definition dbg_msg (t : text) (s : logs) : option logs :=
  let left := PRINT_MSG_SIZE - dbg_msg_cnt s in
  if left <=? 4 then Some s else
  '(b, n) ← snprintf (dbg_msg_buf s) (dbg_msg_ptr s) (u32 left) t;
  let left := if left >? n then n else left in
  let '(ptr, cnt) :=
    if n >? 0 then (dbg_msg_ptr s + left, dbg_msg_cnt s + left)
    else (dbg_msg_ptr s, dbg_msg_cnt s) in
  Some (mk_logs (dbg_on s) b ptr cnt
          (log_on s) (log_msg_buf s) (log_msg_ptr s) (log_msg_cnt s) (stdout s)).

Definition print_dbg_msg (s : logs) : option logs :=
  out ← (if truthy (dbg_on s) && truthy (dbg_msg_cnt s)
         then l ← c_string (dbg_msg_buf s); Some [(dbg_stream, l)] else Some []);
  Some (mk_logs (dbg_on s) (dbg_msg_buf s) 0 0
          (log_on s) (log_msg_buf s) (log_msg_ptr s) (log_msg_cnt s) (stdout s ++ out)).

Definition print_log (s : logs) : option logs :=
  out ← (if truthy (log_on s) && truthy (log_msg_cnt s)
         then l ← c_string (log_msg_buf s); Some [(log_stream, l)] else Some []);
  Some (mk_logs (dbg_on s) (dbg_msg_buf s) (dbg_msg_ptr s) (dbg_msg_cnt s)
          (log_on s) (log_msg_buf s) 0 0 (stdout s ++ out)).

Definition time_text (sec nsec : Z) : text :=
  fmt_u sec ++ chars ":" ++ fmt_su 9 nsec ++ chars "> ".

(** The time of a line: the clock when none is given. *)
Definition log_time (ptp_hw : Z) (clock : Z * Z * Z) (sec nsec : Z) : Z * Z :=
  if negb (truthy sec) && negb (truthy nsec) && truthy ptp_hw then
    let '(rc, sec, nsec) := clock in if truthy rc then (100, 100) else (sec, nsec)
  else (sec, nsec).

(** The part behind the flush.  [clock] is what [get_clock] answers, [log] and
    [time_log] are the local arrays. *)
Definition log_line (ptp_hw : Z) (clock : Z * Z * Z) (log time_log : text)
    (sec nsec : Z) (t : text) (left : Z) (s : logs) : option logs :=
  let '(sec, nsec) := log_time ptp_hw clock sec nsec in
  '(time_log, n) ← snprintf time_log 0 40 (time_text sec nsec);
  '(log, n) ← snprintf log 0 (u32 (left - n - 1)) t;
  if n >? 0 then
    time_log ← c_string time_log;
    log ← c_string log;
    '(b, n) ← snprintf (log_msg_buf s) (log_msg_ptr s) (u32 left)
                (time_log ++ log ++ ["010"%char]);
    Some (mk_logs (dbg_on s) (dbg_msg_buf s) (dbg_msg_ptr s) (dbg_msg_cnt s)
            (log_on s) b (log_msg_ptr s + n) (log_msg_cnt s + n) (stdout s))
  else Some s.
Definition exception_log (ptp_hw : Z) (clock : Z * Z * Z) (log time_log : text)
    (sec nsec : Z) (t : text) (s : logs) : option logs :=
  if negb (truthy (log_on s)) then Some s else
  let left := LOG_MSG_SIZE - log_msg_cnt s in
  '(s, left) ← (if left <=? 40 then s ← print_log s; Some (s, LOG_MSG_SIZE)
                else Some (s, left));
  log_line ptp_hw clock log time_log sec nsec t left s.

Definition log_func (s : logs) : option logs := s ← print_dbg_msg s; print_log s.

(** What the stack does with the logs. *)
Inductive log_call :=
  | Dbg (t : text)
  | Exc (ptp_hw : Z) (clock : Z * Z * Z) (log time_log : text) (sec nsec : Z) (t : text)
  | Tick.
Definition log_step (c : log_call) (s : logs) : option logs :=
  match c with
  | Dbg t => dbg_msg t s
  | Exc hw clock log time_log sec nsec t => exception_log hw clock log time_log sec nsec t s
  | Tick => log_func s
  end.
Fixpoint log_run (cs : list log_call) (s : logs) : option logs :=
  match cs with [] => Some s | c :: cs => s ← log_step c s; log_run cs s end.

(** The message of a clock that lost Sync, in the array [log] of 240 bytes:
    the first sentence, and what is known of the last Follow_Up. *)
Definition sync_lost_log (log rcv fup : text) (now : Z * Z) (last : option ((Z * Z) * (Z * Z)))
    : option text :=
  '(rcv, _) ← timestamp_str now.1 now.2 rcv 80;
  at_ ← c_string rcv;
  '(log, n) ← snprintf log 0 240 (chars "Sync lost at " ++ at_);
  match last with
  | None => c_string log
  | Some (rx, origin) =>
      let n := if u32 n >=? 240 then 240 else n in
      '(rcv, _) ← timestamp_str rx.1 rx.2 rcv 80;
      '(fup, _) ← timestamp_str origin.1 origin.2 fup 80;
      r ← c_string rcv; f ← c_string fup;
      '(log, _) ← snprintf log n (u32 (240 - n))
        ("010"%char :: chars " Last Follow_Up received by " ++ r ++ chars " " ++
         ("010"%char :: chars "  with timestamp " ++ f));
      c_string log
  end.
