(* ===== verification/LogProofs.v ===== *)
(** * The logs keep every message, in order, within their buffers *)

From stdpp Require Import base list numbers option strings.
From Stdlib Require Import ZArith Ascii Lia.
From S2P Require Import Prelude ConfigStore Text Log.

(** [b] begins with the text [t] and the NUL behind it. *)
Definition holds (size : nat) (b t : text) : Prop :=
  length b = size /\ no_NUL t /\ (length t < size)%nat /\
  exists r, b = t ++ r /\ (t <> [] -> head r = Some NUL).

Lemma holds_empty size b : length b = size -> (0 < size)%nat -> holds size b [].
Proof. intros L H. split_and!; [done|constructor|simpl; lia|]. by exists b. Qed.
Lemma holds_string size b t : holds size b t -> t <> [] -> c_string b = Some t.
Proof.
  intros (_ & Hn & _ & r & -> & Hr) Ht. specialize (Hr Ht). destruct r as [|a r]; [done|].
  injection Hr as ->. by apply c_string_app.
Qed.
Lemma no_NUL_take k t : no_NUL t -> no_NUL (take k t).
Proof. apply Forall_take. Qed.

(** Appending as much as there is room for. *)
Lemma holds_append size b t x room : holds size b t -> no_NUL x ->
  (1 <= room)%nat -> (length t + room <= size)%nat ->
  exists b', snprintf b (Z.of_nat (length t)) (Z.of_nat room) x = Some (b', Z.of_nat (length x)) /\
    holds size b' (t ++ take (room - 1) x).
Proof.
  intros (L & Hn & Hl & r & -> & Hr) Hx Hr1 Hs.
  destruct (snprintf_fits (t ++ r) (length t) room x Hr1) as (b' & E & L' & T & D); [lia|].
  exists b'. split; [done|]. pose proof (length_take x (room - 1)).
  split_and!; [congruence|by apply no_NUL_app, no_NUL_take|rewrite length_app; lia|].
  rewrite <- (take_drop (length t) b'), T, D, take_app_length. eexists. split; [by rewrite app_assoc|done].
Qed.

(** ** The texts the buffers hold *)

Record Inv (s : logs) (D L : text) : Prop := {
  inv_on : dbg_on s = 1 /\ log_on s = 1;
  inv_dbg : holds 800 (dbg_msg_buf s) D;
  inv_dbg_ptr : dbg_msg_ptr s = dbg_msg_cnt s;
  inv_dbg_cnt : dbg_msg_cnt s = Z.of_nat (length D) \/ dbg_msg_cnt s = 800 /\ length D = 799%nat;
  inv_log : holds 400 (log_msg_buf s) L;
  inv_log_ptr : log_msg_ptr s = log_msg_cnt s;
  inv_log_cnt : log_msg_cnt s = Z.of_nat (length L) }.

(** What a stream has printed. *)
Definition printed (st : stream) (s : logs) : text :=
  concat (map snd (filter (fun p => p.1 = st) (stdout s))).
Lemma printed_app st a : forall b : list (stream * text),
  concat (map snd (filter (fun p => p.1 = st) (a ++ b))) =
  concat (map snd (filter (fun p => p.1 = st) a)) ++ concat (map snd (filter (fun p => p.1 = st) b)).
Proof. intros b. by rewrite filter_app, map_app, concat_app. Qed.

Lemma inv_logs0 : Inv logs0 [] [].
Proof. split; try done; [apply holds_empty|left|apply holds_empty]; done || (simpl; lia). Qed.

Lemma dbg_msg_spec s D L t : Inv s D L -> no_NUL t ->
  exists s' x, dbg_msg t s = Some s' /\ Inv s' (D ++ x) L /\ stdout s' = stdout s /\
    x `prefix_of` t /\ ((length D < 796)%nat -> (length D + length t < 800)%nat -> x = t).
Proof.
  intros I Ht. destruct I as [On Hd Pd Cd Hl Pl Cl]. unfold dbg_msg, PRINT_MSG_SIZE.
  pose proof Hd as (_ & _ & Bd & _).
  destruct (Z.leb_spec (800 - dbg_msg_cnt s) 4) as [E|E].
  { exists s, []. rewrite app_nil_r. split_and!; try done; [apply prefix_nil|lia]. }
  assert (C : dbg_msg_cnt s = Z.of_nat (length D)) by lia. rewrite Pd, C in *.
  destruct (holds_append 800 _ D t (800 - length D) Hd Ht) as (b' & Es & Hb); [lia..|].
  replace (u32 _) with (Z.of_nat (800 - length D)) by (rewrite u32_small; lia).
  rewrite Es. cbn [mbind option_bind]. set (x := take (800 - length D - 1) t) in *.
  assert (Hx : length x = ((800 - length D - 1) `min` length t)%nat) by apply length_take.
  destruct (Z.gtb_spec (800 - Z.of_nat (length D)) (Z.of_nat (length t))),
    (Z.gtb_spec (Z.of_nat (length t)) 0); eexists _, x; (split_and!; [reflexivity|split|done|..]);
    simpl; rewrite ?length_app, ?Hx; try done; try lia; try apply prefix_take;
    intros; apply take_ge; lia.
Qed.

Lemma dbg_cnt_truthy s D L : Inv s D L -> truthy (dbg_msg_cnt s) = false <-> D = [].
Proof.
  intros []. unfold truthy. destruct D as [|a D]; simpl in *.
  - split; [done|]. intros _. destruct (Z.eqb_spec (dbg_msg_cnt s) 0); [done|]. lia.
  - split; [|done]. destruct (Z.eqb_spec (dbg_msg_cnt s) 0); [lia|done].
Qed.
Lemma log_cnt_truthy s D L : Inv s D L -> truthy (log_msg_cnt s) = false <-> L = [].
Proof.
  intros []. unfold truthy. destruct L as [|a L]; simpl in *.
  - split; [done|]. intros _. destruct (Z.eqb_spec (log_msg_cnt s) 0); [done|]. lia.
  - split; [|done]. destruct (Z.eqb_spec (log_msg_cnt s) 0); [lia|done].
Qed.

Lemma print_dbg_msg_spec s D L : Inv s D L ->
  exists s', print_dbg_msg s = Some s' /\ Inv s' [] L /\
    printed dbg_stream s' = printed dbg_stream s ++ D /\ printed log_stream s' = printed log_stream s.
Proof.
  intros I. pose proof (dbg_cnt_truthy s D L I) as T. destruct I as [[O1 O2] Hd Pd Cd Hl Pl Cl].
  assert (Hb : holds 800 (dbg_msg_buf s) []) by (apply holds_empty; [apply Hd|lia]).
  unfold print_dbg_msg. rewrite O1. change (truthy 1) with true. simpl andb.
  destruct (truthy (dbg_msg_cnt s)).
  - rewrite (holds_string _ _ _ Hd) by (intros ->; destruct T as [_ T]; by specialize (T eq_refl)).
    eexists. split; [done|]. unfold printed. simpl. rewrite !printed_app. simpl. rewrite !app_nil_r.
    split_and!; [|done..]. split; simpl; try done. by left.
  - rewrite (proj1 T eq_refl) in *. eexists. split; [done|]. unfold printed. simpl. rewrite !app_nil_r.
    split_and!; [|done..]. split; simpl; try done. by left.
Qed.
Lemma print_log_spec s D L : Inv s D L ->
  exists s', print_log s = Some s' /\ Inv s' D [] /\
    printed log_stream s' = printed log_stream s ++ L /\ printed dbg_stream s' = printed dbg_stream s.
Proof.
  intros I. pose proof (log_cnt_truthy s D L I) as T. destruct I as [[O1 O2] Hd Pd Cd Hl Pl Cl].
  assert (Hb : holds 400 (log_msg_buf s) []) by (apply holds_empty; [apply Hl|lia]).
  unfold print_log. rewrite O2. change (truthy 1) with true. simpl andb.
  destruct (truthy (log_msg_cnt s)).
  - rewrite (holds_string _ _ _ Hl) by (intros ->; destruct T as [_ T]; by specialize (T eq_refl)).
    eexists. split; [done|]. unfold printed. simpl. rewrite !printed_app. simpl. rewrite !app_nil_r.
    split_and!; done.
  - rewrite (proj1 T eq_refl) in *. eexists. split; [done|]. unfold printed. simpl. rewrite !app_nil_r.
    split_and!; done.
Qed.

Lemma time_text_shape sec nsec : no_NUL (time_text sec nsec) /\ (length (time_text sec nsec) <= 23)%nat.
Proof. unfold time_text. split; [auto 8 with text|bound_length]. Qed.

(** A line of the event log: time, message, end of the line; messages of up to
    sixteen characters are never cut. *)
Definition line_of (hw : Z) (clock : Z * Z * Z) (sec nsec : Z) (t l : text) : Prop :=
  exists x, l = time_text (log_time hw clock sec nsec).1 (log_time hw clock sec nsec).2 ++ x ++ ["010"%char] /\
    x `prefix_of` t /\ ((length t <= 16)%nat -> x = t).

Lemma log_line_spec hw clock log time_log sec nsec t s D L : Inv s D L -> no_NUL t ->
  length log = 400%nat -> length time_log = 40%nat -> (length L < 360)%nat ->
  exists s' l, log_line hw clock log time_log sec nsec t (400 - Z.of_nat (length L)) s = Some s' /\
    Inv s' D (L ++ l) /\ stdout s' = stdout s /\ (t = [] -> l = []) /\
    (t <> [] -> line_of hw clock sec nsec t l).
Proof.
  intros I Ht L1 L2 HL. unfold log_line, line_of. destruct (log_time hw clock sec nsec) as [sec' nsec']. simpl.
  destruct (time_text_shape sec' nsec') as [Nt Lt]. set (tm := time_text sec' nsec') in *.
  destruct (snprintf_whole time_log 40 tm Nt) as (tl & Etl & _ & Stl); [lia|].
  change (Z.of_nat 40) with 40 in Etl. rewrite Etl. cbn [mbind option_bind].
  set (room := (400 - length L - length tm - 1)%nat).
  replace (u32 (_ - 1)) with (Z.of_nat room) by (rewrite u32_small; lia).
  destruct (holds_append 400 log [] t room (holds_empty _ _ L1 ltac:(lia)) Ht) as (lg & El & Hlg); [simpl; lia..|].
  change (Z.of_nat (length (A := ascii) [])) with 0 in El. rewrite El. cbn [mbind option_bind]. simpl app in Hlg.
  destruct I as [On Hd Pd Cd Hl Pl Cl].
  destruct (Z.gtb_spec (Z.of_nat (length t)) 0) as [G|G].
  2:{ destruct t; [|simpl in G; lia]. exists s, []. rewrite app_nil_r. by split_and!. }
  rewrite Stl. cbn [mbind option_bind]. set (x := take (room - 1) t) in *.
  assert (Lx : length x = ((room - 1) `min` length t)%nat) by apply length_take.
  rewrite (holds_string _ _ _ Hlg) by (intros E; rewrite E in Lx; simpl in Lx; lia). cbn [mbind option_bind].
  set (l := tm ++ x ++ ["010"%char]). assert (Ll : (length l < 400 - length L)%nat).
  { unfold l. rewrite !length_app. simpl. lia. }
  assert (Nl : no_NUL l). { apply no_NUL_app; [done|]. apply no_NUL_app; [by apply no_NUL_take|by repeat constructor]. }
  destruct (holds_append 400 _ L l (400 - length L) Hl Nl) as (b' & Eb & Hb); [lia..|].
  rewrite Pl, Cl in *. replace (u32 _) with (Z.of_nat (400 - length L)) by (rewrite u32_small; lia).
  rewrite Eb. cbn [mbind option_bind]. rewrite take_ge in Hb by lia.
  eexists _, l. split_and!; [done| |done|by intros ->|].
  - split; simpl; try done; rewrite length_app; lia.
  - intros _. exists x. split_and!; [done|apply prefix_take|]. intros. apply take_ge. lia.
Qed.

Lemma exception_log_spec hw clock log time_log sec nsec t s D L : Inv s D L -> no_NUL t ->
  length log = 400%nat -> length time_log = 40%nat ->
  exists s' L' l, exception_log hw clock log time_log sec nsec t s = Some s' /\ Inv s' D L' /\
    printed log_stream s' ++ L' = (printed log_stream s ++ L) ++ l /\
    printed dbg_stream s' = printed dbg_stream s /\
    (t = [] -> l = []) /\ (t <> [] -> line_of hw clock sec nsec t l).
Proof.
  intros I Ht L1 L2. unfold exception_log. pose proof I as [[_ O2] _ _ _ _ _ Cl]. rewrite O2, Cl.
  change (truthy 1) with true. cbn [negb]. unfold LOG_MSG_SIZE.
  destruct (Z.leb_spec (400 - Z.of_nat (length L)) 40).
  - destruct (print_log_spec s D L I) as (s1 & -> & I1 & P1 & P2). cbn [mbind option_bind].
    destruct (log_line_spec hw clock log time_log sec nsec t s1 D [] I1 Ht L1 L2)
      as (s' & l & E & I' & O & Hl); [simpl; lia|].
    simpl length in E. exists s', l, l. split_and!; [exact E|done| | |apply Hl..];
      unfold printed in *; rewrite O; [by rewrite P1|done].
  - destruct (log_line_spec hw clock log time_log sec nsec t s D L I Ht L1 L2)
      as (s' & l & E & I' & O & Hl); [lia|].
    exists s', (L ++ l), l. split_and!; [exact E|done| | |apply Hl..];
      unfold printed in *; rewrite O; [by rewrite app_assoc|done].
Qed.

Lemma log_func_spec s D L : Inv s D L ->
  exists s', log_func s = Some s' /\ Inv s' [] [] /\
    printed dbg_stream s' = printed dbg_stream s ++ D /\
    printed log_stream s' = printed log_stream s ++ L.
Proof.
  intros I. unfold log_func. destruct (print_dbg_msg_spec s D L I) as (s1 & -> & I1 & P1 & P2).
  cbn [mbind option_bind]. destruct (print_log_spec s1 [] L I1) as (s2 & -> & I2 & P3 & P4).
  exists s2. split_and!; [done..|congruence|congruence].
Qed.

(** ** Every sequence of calls *)

Definition call_ok (c : log_call) : Prop :=
  match c with
  | Dbg t => no_NUL t
  | Exc _ _ log time_log _ _ t => no_NUL t /\ length log = 400%nat /\ length time_log = 40%nat
  | Tick => True
  end.
#[export] Instance call_ok_dec c : Decision (call_ok c).
Proof. destruct c; apply _. Defined.

(** The entries the two streams of output consist of, one for each call that has
    a message; [p] characters of debug messages have not been printed. *)
Inductive entries : list log_call -> nat -> list text -> list text -> Prop :=
  | entries_nil : entries [] 0 [] []
  | entries_dbg t x cs p ds ls : x `prefix_of` t ->
      ((p < 796)%nat -> (p + length t < 800)%nat -> x = t) -> entries cs p ds ls ->
      entries (cs ++ [Dbg t]) (p + length x) (ds ++ [x]) ls
  | entries_exc hw clock log time_log sec nsec t l cs p ds ls :
      t <> [] -> line_of hw clock sec nsec t l -> entries cs p ds ls ->
      entries (cs ++ [Exc hw clock log time_log sec nsec t]) p ds (ls ++ [l])
  | entries_none hw clock log time_log sec nsec cs p ds ls : entries cs p ds ls ->
      entries (cs ++ [Exc hw clock log time_log sec nsec []]) p ds ls
  | entries_tick cs p ds ls : entries cs p ds ls -> entries (cs ++ [Tick]) 0 ds ls.

Lemma log_run_app a : forall b s, log_run (a ++ b) s = s ← log_run a s; log_run b s.
Proof.
  induction a as [|c a IH]; intros b s; [done|]. simpl. destruct (log_step c s); [apply IH|done].
Qed.
Lemma concat_snoc (ls : list text) l : concat (ls ++ [l]) = concat ls ++ l.
Proof. rewrite concat_app. simpl. by rewrite app_nil_r. Qed.

Lemma log_run_spec cs : Forall call_ok cs ->
  exists s D L ds ls, log_run cs logs0 = Some s /\ Inv s D L /\ entries cs (length D) ds ls /\
    printed dbg_stream s ++ D = concat ds /\ printed log_stream s ++ L = concat ls.
Proof.
  induction cs as [|c cs IH] using rev_ind; intros H.
  { exists logs0, [], [], [], []. split_and!; [done|apply inv_logs0|constructor|done..]. }
  apply Forall_app in H as [H1 H2]. inversion_clear H2 as [|? ? Hc _].
  destruct (IH H1) as (s & D & L & ds & ls & E & I & En & Pd & Pl). rewrite log_run_app, E.
  cbn [mbind option_bind log_run]. destruct c as [t|hw clock log time_log sec nsec t|].
  - destruct (dbg_msg_spec s D L t I Hc) as (s' & x & E' & I' & O & Px & Pw). cbn [log_step].
    rewrite E'. cbn [mbind option_bind]. exists s', (D ++ x), L, (ds ++ [x]), ls.
    unfold printed in *. rewrite O, concat_snoc, <- Pd, app_assoc. split_and!; try done.
    rewrite length_app. by constructor.
  - destruct Hc as (Ht & L1 & L2). cbn [log_step].
    destruct (exception_log_spec hw clock log time_log sec nsec t s D L I Ht L1 L2)
      as (s' & L' & l & -> & I' & P' & Pd' & H0 & Hl). cbn [mbind option_bind].
    destruct (decide (t = [])) as [->|Hn].
    + exists s', D, L', ds, ls. rewrite P', H0, Pd', app_nil_r by done. split_and!; try done. by constructor.
    + exists s', D, L', ds, (ls ++ [l]). rewrite P', Pd', Pl, concat_snoc.
      split_and!; try done. constructor; auto.
  - destruct (log_func_spec s D L I) as (s' & E' & I' & P1 & P2). cbn [log_step].
    rewrite E'. cbn [mbind option_bind]. exists s', [], [], ds, ls. rewrite P1, P2, !app_nil_r.
    split_and!; try done. by econstructor.
Qed.


Definition exc (t : text) : log_call :=
  Exc 1 (0, 12, 34) (replicate 400 "?"%char) (replicate 40 "?"%char) 0 0 t.

(** ** The message of a lost Sync *)

Definition follow_up_text (rx origin : Z * Z) : text :=
  "010"%char :: chars " Last Follow_Up received by " ++ timestamp_text rx.1 rx.2 ++
  chars " " ++ ("010"%char :: chars "  with timestamp " ++ timestamp_text origin.1 origin.2).
Definition sync_lost_text (now : Z * Z) (last : option ((Z * Z) * (Z * Z))) : text :=
  chars "Sync lost at " ++ timestamp_text now.1 now.2 ++
  match last with None => [] | Some (rx, origin) => follow_up_text rx origin end.

Lemma follow_up_text_shape rx origin :
  no_NUL (follow_up_text rx origin) /\ (length (follow_up_text rx origin) <= 109)%nat.
Proof.
  destruct (timestamp_text_shape rx.1 rx.2), (timestamp_text_shape origin.1 origin.2).
  unfold follow_up_text. split.
  - constructor; [done|]. apply no_NUL_app; [auto with text|]. apply no_NUL_app; [done|].
    apply no_NUL_app; [auto with text|]. constructor; [done|]. apply no_NUL_app; [auto with text|done].
  - cbn [length]. rewrite !length_app. cbn [length]. rewrite !length_app. simpl. lia.
Qed.

(** The message is complete, for every time: no part is cut. *)
Lemma sync_lost_log_spec log rcv fup now last : length log = 240%nat ->
  length rcv = 80%nat -> length fup = 80%nat ->
  sync_lost_log log rcv fup now last = Some (sync_lost_text now last).
Proof.
  intros Hl Hr Hf. unfold sync_lost_log, sync_lost_text, timestamp_str.
  destruct (timestamp_text_shape now.1 now.2) as [Nn Ln].
  destruct (snprintf_whole rcv 80 _ Nn) as (rcv1 & E1 & R1 & S1); [lia|].
  change (Z.of_nat 80) with 80 in E1. rewrite E1. cbn [mbind option_bind]. rewrite S1. cbn [mbind option_bind].
  set (h := chars "Sync lost at " ++ _). assert (Hh : (length h <= 43)%nat) by (unfold h; rewrite length_app; simpl; lia).
  assert (Nh : no_NUL h) by (apply no_NUL_app; auto with text).
  destruct (holds_append 240 log [] h 240 (holds_empty _ _ Hl ltac:(lia)) Nh) as (b & Eb & Hb); [simpl; lia..|].
  change (Z.of_nat (length (A := ascii) [])) with 0 in Eb. change (Z.of_nat 240) with 240 in Eb. rewrite Eb.
  cbn [mbind option_bind]. rewrite take_ge in Hb by lia. simpl app in Hb.
  destruct last as [[rx og]|].
  2:{ rewrite (holds_string _ _ _ Hb) by done. by rewrite app_nil_r. }
  destruct (timestamp_text_shape rx.1 rx.2) as [Nr Lr], (timestamp_text_shape og.1 og.2) as [No Lo].
  destruct (Z.geb_spec (u32 (Z.of_nat (length h))) 240) as [G|G]; [rewrite u32_small in G; lia|].
  destruct (snprintf_whole rcv1 80 _ Nr) as (rcv2 & E2 & _ & S2); [lia|].
  destruct (snprintf_whole fup 80 _ No) as (fup1 & E3 & _ & S3); [lia|].
  change (Z.of_nat 80) with 80 in *. rewrite E2. cbn [mbind option_bind]. rewrite E3. cbn [mbind option_bind].
  rewrite S2, S3. cbn [mbind option_bind]. change ("010"%char :: _) with (follow_up_text rx og).
  destruct (follow_up_text_shape rx og) as [Nx Hx]. set (x := follow_up_text rx og) in *.
  destruct (holds_append 240 b h x (240 - length h) Hb Nx) as (b' & Eb' & Hb'); [lia..|].
  replace (u32 _) with (Z.of_nat (240 - length h)) by (rewrite u32_small; lia).
  rewrite Eb'. cbn [mbind option_bind]. rewrite take_ge in Hb' by lia.
  rewrite (holds_string _ _ _ Hb') by done. unfold h. by rewrite <- app_assoc.
Qed.
