(* ===== verification/Dlr.v ===== *)
(** * Supervising a device level ring (nettest/network: dlr.c, ksz_dlr_net.c)

    The test program [dlr] keeps the devices of a ring it hears of in a sorted
    linked list, finds the active supervisor among them and answers their
    messages.  List nodes live in a heap: [next] pointers, the cursor [last] and
    the pointer to the active node are addresses in it, and so are the arrays
    of ring participants.  Memory from malloc holds what the environment says.

    The layout of a message header is not part of the sources: a message is its
    fields and the bytes behind the header, the size of the header is a
    parameter. *)

From stdpp Require Import base list numbers option gmap.
From Stdlib Require Import ZArith Lia.
From S2P Require Import Prelude Wire.

(** ** Constants of ksz_dlr_api.h *)

Definition SVC_DLR_VERIFY_FAULT_LOCATION : Z := 75.
Definition SVC_DLR_CLEAR_RAPID_FAULTS : Z := 76.
Definition SVC_DLR_RESTART_SIGN_ON : Z := 77.
Definition SVC_DLR_CLEAR_GATEWAY_PARTIAL_FAULT : Z := 78.
Definition DLR_GET_REVISION : Z := 1.
Definition DLR_GET_NETWORK_TOPOLOGY : Z := 1.
Definition DLR_GET_NETWORK_STATUS : Z := 2.
Definition DLR_GET_RING_SUPERVISOR_STATUS : Z := 3.
Definition DLR_SET_RING_SUPERVISOR_CONFIG : Z := 4.
Definition DLR_SET_RING_FAULT_COUNT : Z := 5.
Definition DLR_GET_LAST_ACTIVE_NODE_ON_PORT_1 : Z := 6.
Definition DLR_GET_RING_PARTICIPANTS_COUNT : Z := 8.
Definition DLR_GET_RING_PARTICIPANTS_LIST : Z := 9.
Definition DLR_GET_ACTIVE_SUPERVISOR_ADDRESS : Z := 10.
Definition DLR_GET_ACTIVE_SUPERVISOR_PRECEDENCE : Z := 11.
Definition DLR_GET_CAPABILITY_FLAGS : Z := 12.
Definition DLR_SET_IP_ADDRESS : Z := 17.
Definition DLR_STAT_ACTIVE_SUPERVISOR : Z := 1.
Definition ETH_ALEN : nat := 6.
(** Sizes of the packed structures. *)
Definition SIZE_active_node : nat := 10.
Definition SIZE_super_cfg : nat := 12.
Definition SIZE_gateway_capable : nat := 77.

(** ** Data *)

Abbreviation loc := positive.

(** Structures that are only copied are their bytes; [di_nodes] is a pointer to
    the array of ring participants. *)
Record dlr_info := mk_info {
  di_network : Z; di_prec : Z; di_super_status : Z; di_topology : Z; di_err : Z;
  di_fault_cnt : Z; di_node_cnt : Z; di_rev : Z; di_flags : Z;
  di_capable : buf; di_super_cfg : buf; di_last_active : buf; di_super_addr : buf;
  di_node : buf; di_nodes : option loc; di_max_cnt : Z }.
#[export] Instance eta_dlr_info : Eta dlr_info := fun x =>
  mk_info (di_network x) (di_prec x) (di_super_status x) (di_topology x) (di_err x)
    (di_fault_cnt x) (di_node_cnt x) (di_rev x) (di_flags x) (di_capable x) (di_super_cfg x)
    (di_last_active x) (di_super_addr x) (di_node x) (di_nodes x) (di_max_cnt x).
Definition set_network v (x : dlr_info) : dlr_info := ltac:(field_set di_network v x).
Definition set_prec v (x : dlr_info) : dlr_info := ltac:(field_set di_prec v x).
Definition set_super_status v (x : dlr_info) : dlr_info := ltac:(field_set di_super_status v x).
Definition set_topology v (x : dlr_info) : dlr_info := ltac:(field_set di_topology v x).
Definition set_err v (x : dlr_info) : dlr_info := ltac:(field_set di_err v x).
Definition set_fault_cnt v (x : dlr_info) : dlr_info := ltac:(field_set di_fault_cnt v x).
Definition set_node_cnt v (x : dlr_info) : dlr_info := ltac:(field_set di_node_cnt v x).
Definition set_rev v (x : dlr_info) : dlr_info := ltac:(field_set di_rev v x).
Definition set_flags v (x : dlr_info) : dlr_info := ltac:(field_set di_flags v x).
Definition set_capable v (x : dlr_info) : dlr_info := ltac:(field_set di_capable v x).
Definition set_super_cfg v (x : dlr_info) : dlr_info := ltac:(field_set di_super_cfg v x).
Definition set_last_active v (x : dlr_info) : dlr_info := ltac:(field_set di_last_active v x).
Definition set_super_addr v (x : dlr_info) : dlr_info := ltac:(field_set di_super_addr v x).
Definition set_info_node v (x : dlr_info) : dlr_info := ltac:(field_set di_node v x).
Definition set_nodes v (x : dlr_info) : dlr_info := ltac:(field_set di_nodes v x).
Definition set_max_cnt v (x : dlr_info) : dlr_info := ltac:(field_set di_max_cnt v x).

(** A device: IP and MAC address, and what it told. *)
Record dlr_net_info := mk_net_info { ni_ip : list Z; ni_mac : list Z; ni_dlr : dlr_info }.
Record dlr_node := mk_node { nd_data : dlr_net_info; nd_next : option loc; nd_link : Z }.

(** Where a pointer to a node may point: into the anchor or at a node. *)
Inductive node_ref := Anchor | Node (l : loc).
#[export] Instance node_ref_eq_dec : EqDecision node_ref.
Proof. solve_decision. Defined.

Record dlr_list := mk_list { dl_heap : gmap loc dlr_node; dl_next : option loc; dl_last : node_ref }.

Definition cmp_dlr (a b : list Z) : Z := memcmp a b.
Definition node_ip (n : dlr_node) : list Z := ni_ip (nd_data n).

(** ** The list *)

Definition set_dl_heap h (x : dlr_list) : dlr_list := mk_list h (dl_next x) (dl_last x).
Definition set_dl_last r (x : dlr_list) : dlr_list := mk_list (dl_heap x) (dl_next x) r.

(** [p->next] and [p->next = v]. *)
Definition next_of (x : dlr_list) (r : node_ref) : option (option loc) :=
  match r with
  | Anchor => Some (dl_next x)
  | Node l => n ← dl_heap x !! l; Some (nd_next n)
  end.
Definition set_next (x : dlr_list) (r : node_ref) (v : option loc) : option dlr_list :=
  match r with
  | Anchor => Some (mk_list (dl_heap x) v (dl_last x))
  | Node l => n ← dl_heap x !! l;
              Some (set_dl_heap (<[l := mk_node (nd_data n) v (nd_link n)]> (dl_heap x)) x)
  end.

Definition dlr_init_list (x : dlr_list) : dlr_list := mk_list (dl_heap x) None Anchor.

(** The loops over the list: [stop] tells from the comparison [c] of a node with
    the address whether the loop ends there.  Each round goes to another node,
    so the number of nodes is enough fuel. *)
Section walk.
Context {R : Type} (stop : node_ref -> loc -> Z -> option R) (at_end : node_ref -> R).
Fixpoint walk (fuel : nat) (x : dlr_list) (ip : list Z) (prev : node_ref)
    (next : option loc) : option R :=
  match next with
  | None => Some (at_end prev)
  | Some l =>
      match fuel with
      | O => UB
      | S fuel =>
          n ← dl_heap x !! l;
          match stop prev l (cmp_dlr (node_ip n) ip) with
          | Some r => Some r
          | None => walk fuel x ip (Node l) (nd_next n)
          end
      end
  end.
End walk.

Definition find_stop (prev : node_ref) (l : loc) (c : Z) : option (node_ref * option loc) :=
  if c =? 0 then Some (prev, Some l) else if c >? 0 then Some (prev, None) else None.
Definition find_loop := walk find_stop (fun prev => (prev, None)).
Definition dlr_find_node (x : dlr_list) (ip : list Z) : option (option loc * dlr_list) :=
  '(prev, next) ← find_loop (S (size (dl_heap x))) x ip Anchor (dl_next x);
  Some (next, set_dl_last prev x).

Definition insert_stop (prev : node_ref) (l : loc) (c : Z) : option node_ref :=
  if c >? 0 then Some prev else None.
Definition insert_loop := walk insert_stop (fun prev => prev).
(** [this->next = prev->next; prev->next = this; last = &anchor]. *)
Definition link_after (x : dlr_list) (prev : node_ref) (this : loc) : option dlr_list :=
  next ← next_of x prev;
  x ← set_next x (Node this) next;
  x ← set_next x prev (Some this);
  Some (set_dl_last Anchor x).
(** The comparison of the node behind the cursor: 1 without one. *)
Definition cmp_next (x : dlr_list) (next : option loc) (ip : list Z) : option Z :=
  match next with
  | None => Some 1
  | Some l => n ← dl_heap x !! l; Some (cmp_dlr (node_ip n) ip)
  end.
Definition dlr_insert_node (x : dlr_list) (this : loc) : option dlr_list :=
  t ← dl_heap x !! this;
  here ← (if decide (dl_last x = Anchor) then Some false
          else next ← next_of x (dl_last x);
               c ← cmp_next x next (node_ip t); Some (c >? 0));
  if here : bool then link_after x (dl_last x) this
  else prev ← insert_loop (S (size (dl_heap x))) x (node_ip t) Anchor (dl_next x);
       link_after x prev this.

(** The search of [dlr_delete_node]: the node that is unlinked, with the one
    before it. *)
Definition delete_stop (prev : node_ref) (l : loc) (c : Z) : option (option (node_ref * loc)) :=
  if c =? 0 then Some (Some (prev, l)) else if c >? 0 then Some None else None.
Definition delete_loop := walk delete_stop (fun _ => None).
Definition delete_here (x : dlr_list) (this : loc) (ip : list Z)
    : option (option (node_ref * loc)) :=
  if decide (dl_last x = Anchor) then Some None else
  next ← next_of x (dl_last x);
  match next with
  | None => Some None
  | Some l =>
      c ← (if decide (l = this) then Some 0 else cmp_next x next ip);
      Some (if c =? 0 then Some (dl_last x, l) else None)
  end.
(** ** Arrays of ring participants *)

Abbreviation blocks := (gmap loc buf).
Definition free_block (p : option loc) (b : blocks) : option blocks :=
  match p with
  | None => Some b
  | Some p => if decide (is_Some (b !! p)) then Some (delete p b) else UB
  end.
(** [fill] is what a new array holds; without memory the answer is null. *)
Definition malloc_block (nomem : bool) (fill : buf) (b : blocks) : option loc * blocks :=
  if nomem then (None, b) else let p := fresh (dom b) in (Some p, <[p := fill]> b).

(** Freeing a node frees its array first, when its counter says it has one. *)
Definition dlr_free_node (h : gmap loc dlr_node) (b : blocks) (l : loc)
    : option (gmap loc dlr_node * blocks) :=
  n ← h !! l;
  let info := ni_dlr (nd_data n) in
  b ← (if truthy (di_max_cnt info) then free_block (di_nodes info) b else Some b);
  Some (delete l h, b).

Definition dlr_delete_node (x : dlr_list) (b : blocks) (this : loc) : option (dlr_list * blocks) :=
  t ← dl_heap x !! this;
  here ← delete_here x this (node_ip t);
  found ← (match here with
           | Some f => Some (Some f)
           | None => delete_loop (S (size (dl_heap x))) x (node_ip t) Anchor (dl_next x)
           end);
  match found with
  | None => Some (x, b)
  | Some (prev, next) =>
      x ← set_next x prev (nd_next t);
      '(h, b) ← dlr_free_node (dl_heap x) b next;
      Some (mk_list h (dl_next x) Anchor, b)
  end.

Fixpoint exit_loop (fuel : nat) (next : option loc) (h : gmap loc dlr_node) (b : blocks)
    : option (gmap loc dlr_node * blocks) :=
  match next with
  | None => Some (h, b)
  | Some l =>
      match fuel with
      | O => UB
      | S fuel => n ← h !! l; '(h, b) ← dlr_free_node h b l; exit_loop fuel (nd_next n) h b
      end
  end.
(** The cursor stays where it is. *)
Definition dlr_exit_list (x : dlr_list) (b : blocks) : option (dlr_list * blocks) :=
  '(h, b) ← exit_loop (S (size (dl_heap x))) (dl_next x) (dl_heap x) b;
  Some (mk_list h None (dl_last x), b).

(** A new node with the content of the memory it is made of. *)
Definition dlr_alloc_node (nomem : bool) (mem : dlr_node) (x : dlr_list) : option loc * dlr_list :=
  if nomem then (None, x)
  else let l := fresh (dom (dl_heap x)) in (Some l, set_dl_heap (<[l := mem]> (dl_heap x)) x).

(** The node of a sender: its address is known, the MAC address is set when the
    device tells it.  With IPv6 the address compared is not initialised. *)
Definition AF_INET : Z := 2.
Definition dlr_get_node (nomem : bool) (mem : dlr_node) (family : Z) (ip : list Z)
    (x : dlr_list) : option (option loc * dlr_list) :=
  if negb (family =? AF_INET) then UB else
  '(node, x) ← dlr_find_node x ip;
  match node with
  | Some l => Some (Some l, x)
  | None =>
      match dlr_alloc_node nomem mem x with
      | (None, x) => Some (None, x)
      | (Some l, x) =>
          let n := mk_node (mk_net_info ip (replicate ETH_ALEN 0) (ni_dlr (nd_data mem)))
                     (nd_next mem) (nd_link mem) in
          x ← dlr_insert_node (set_dl_heap (<[l := n]> (dl_heap x)) x) l;
          Some (Some l, x)
      end
  end.
