(* ===== verification/DlrProofs.v ===== *)
(** * The list of devices is a sorted map *)

From stdpp Require Import base list numbers option gmap sorting.
From Stdlib Require Import ZArith Lia.
From S2P Require Import Prelude Wire Dlr.

(** ** Chains of nodes

    What a node on the list holds, with its address; the pointers follow from
    the order. *)

Definition entry : Type := loc * (dlr_net_info * Z).
Definition entry_ip (e : entry) : list Z := ni_ip e.2.1.

(** The address of the first of [es], or what follows them. *)
Definition start (es : list entry) (q : option loc) : option loc :=
  match es with [] => q | e :: _ => Some e.1 end.
Fixpoint chain (es : list entry) (q : option loc) : list (loc * dlr_node) :=
  match es with
  | [] => []
  | e :: es => (e.1, mk_node e.2.1 (start es q) e.2.2) :: chain es q
  end.
Definition last_ref (es : list entry) : node_ref :=
  match last es with None => Anchor | Some e => Node e.1 end.
Definition heap_of (es : list entry) : gmap loc dlr_node := list_to_map (chain es None).

Lemma start_app a b q : start (a ++ b) q = start a (start b q).
Proof. by destruct a. Qed.
Lemma chain_app a b q : chain (a ++ b) q = chain a (start b q) ++ chain b q.
Proof. induction a as [|e a IH]; [done|]. simpl. by rewrite start_app, IH. Qed.
Lemma chain_fst es q : (chain es q).*1 = es.*1.
Proof. induction es as [|e es IH]; [done|]. cbn [chain]. by rewrite !fmap_cons, IH. Qed.
Lemma last_ref_snoc es e : last_ref (es ++ [e]) = Node e.1.
Proof. unfold last_ref. by rewrite last_snoc. Qed.

Lemma heap_of_lookup a e b : NoDup (a ++ e :: b).*1 ->
  heap_of (a ++ e :: b) !! e.1 = Some (mk_node e.2.1 (start b None) e.2.2).
Proof.
  intros Hn. apply elem_of_list_to_map; [by rewrite chain_fst|].
  rewrite chain_app. apply elem_of_app. right. simpl. by left.
Qed.
Lemma heap_of_None es l : l ∉ es.*1 -> heap_of es !! l = None.
Proof. intros H. apply not_elem_of_list_to_map. by rewrite chain_fst. Qed.
Lemma heap_of_size es : NoDup es.*1 -> size (heap_of es) = length es.
Proof.
  intros H. unfold heap_of. rewrite map_size_list_to_map by (by rewrite chain_fst).
  by rewrite <- (length_fmap fst), chain_fst, length_fmap.
Qed.

(** A chain that goes on at [q], with other nodes in the heap. *)
Definition view (a : list entry) (q : option loc) (rest : list (loc * dlr_node)) : gmap loc dlr_node :=
  list_to_map (chain a q ++ rest).
Lemma heap_of_view a b : heap_of (a ++ b) = view a (start b None) (chain b None).
Proof. unfold heap_of, view. by rewrite chain_app. Qed.

Lemma list_to_map_mid {A} (l1 : list (loc * A)) k v l2 : k ∉ l1.*1 ->
  (list_to_map (l1 ++ (k, v) :: l2) : gmap loc A) = <[k := v]> (list_to_map (l1 ++ l2)).
Proof.
  induction l1 as [|[k' v'] l1 IH]; intros H; [done|].
  rewrite fmap_cons, not_elem_of_cons in H. destruct H as [H1 H2]. simpl in *.
  rewrite IH by done. by rewrite insert_insert_ne.
Qed.
Lemma view_insert a q rest l n : l ∉ a.*1 -> <[l := n]> (view a q rest) = view a q ((l, n) :: rest).
Proof. intros H. unfold view. by rewrite list_to_map_mid by (by rewrite chain_fst). Qed.
Lemma view_snoc a e q rest : e.1 ∉ a.*1 ->
  view (a ++ [e]) q rest = <[e.1 := mk_node e.2.1 q e.2.2]> (view a (Some e.1) rest).
Proof.
  intros H. unfold view. rewrite chain_app. simpl. rewrite <- app_assoc. simpl.
  by rewrite list_to_map_mid by (by rewrite chain_fst).
Qed.

Lemma NoDup_snoc_inv (a : list entry) e : NoDup (a ++ [e]).*1 -> e.1 ∉ a.*1.
Proof.
  rewrite fmap_app, NoDup_app. intros (_ & H & _) Hin. specialize (H _ Hin). apply H. simpl. by left.
Qed.

Lemma next_of_view a q rest c : NoDup a.*1 ->
  next_of (mk_list (view a q rest) (start a q) c) (last_ref a) = Some q.
Proof.
  destruct a as [|e a _] using rev_ind; intros H; [done|]. rewrite last_ref_snoc.
  apply NoDup_snoc_inv in H. simpl. rewrite view_snoc by done. by rewrite lookup_insert_eq.
Qed.
Lemma set_next_view a q q' rest c : NoDup a.*1 ->
  set_next (mk_list (view a q rest) (start a q) c) (last_ref a) q' =
  Some (mk_list (view a q' rest) (start a q') c).
Proof.
  destruct a as [|e a _] using rev_ind; intros H; [done|]. rewrite last_ref_snoc.
  apply NoDup_snoc_inv in H. simpl. rewrite !view_snoc by done. rewrite lookup_insert_eq. simpl.
  unfold set_dl_heap. simpl. by rewrite insert_insert_eq, !start_app.
Qed.

(** ** The order *)

Definition ip_lt (a b : entry) : Prop := memcmp (entry_ip a) (entry_ip b) < 0.
(** A sorted list of devices, in heap and pointers. *)
Record sorted_list (es : list entry) : Prop := {
  sl_nodup : NoDup es.*1;
  sl_sorted : StronglySorted ip_lt es;
  sl_ips : Forall (fun e => length (entry_ip e) = 4%nat) es }.

Lemma sorted_list_app a b : sorted_list (a ++ b) ->
  sorted_list a /\ sorted_list b /\ Forall (fun x => Forall (ip_lt x) b) a.
Proof.
  intros [Hn Hs Hi]. rewrite fmap_app, NoDup_app in Hn. destruct Hn as (N1 & _ & N2).
  apply Forall_app in Hi as [I1 I2].
  assert (S : StronglySorted ip_lt a /\ StronglySorted ip_lt b /\ Forall (fun x => Forall (ip_lt x) b) a).
  { clear -Hs. induction a as [|e a IH]; [by split_and!; [constructor| |constructor]|].
    simpl in Hs. apply StronglySorted_inv in Hs as [Hs He]. destruct (IH Hs) as (S1 & S2 & F).
    apply Forall_app in He as [E1 E2]. split_and!; [by constructor|done|by constructor]. }
  destruct S as (S1 & S2 & F). by split_and!.
Qed.

Definition below (ip : list Z) (e : entry) : Prop := memcmp (entry_ip e) ip < 0.
Definition above (ip : list Z) (e : entry) : Prop := memcmp (entry_ip e) ip > 0.

(** An address is on the list, or there is a place for it. *)
Lemma locate es ip : sorted_list es -> length ip = 4%nat ->
  (exists a e b, es = a ++ e :: b /\ entry_ip e = ip /\ Forall (below ip) a) \/
  (exists a b, es = a ++ b /\ Forall (below ip) a /\ Forall (above ip) b).
Proof.
  intros H Hip. induction es as [|e es IH].
  { right. exists [], []. by split_and!. }
  pose proof (sorted_list_app [e] es H) as (_ & Hs & Hf). inversion_clear Hf as [|? ? He _].
  destruct H as [_ _ I]. inversion_clear I as [|? ? Ie Ies].
  destruct (memcmp_values (entry_ip e) ip) as [E|[E|E]].
  - destruct (IH Hs) as [(a & e' & b & -> & He' & Ha)|(a & b & -> & Ha & Hb)].
    + left. exists (e :: a), e', b. split_and!; [done..|]. constructor; [|done]. unfold below. lia.
    + right. exists (e :: a), b. split_and!; [done| |done]. constructor; [|done]. unfold below. lia.
  - left. exists [], e, es. split_and!; [done| |constructor]. apply memcmp_eq; [congruence|done].
  - right. exists [], (e :: es). split_and!; [done|constructor|]. constructor; [unfold above; lia|].
    rewrite Forall_forall in He, Ies |- *. intros f Hf. specialize (He f Hf). unfold above, ip_lt in *.
    rewrite memcmp_antisym in E |- *. specialize (Ies f Hf).
    pose proof (memcmp_trans ip (entry_ip e) (entry_ip f)). lia.
Qed.

(** The loops pass over the devices with smaller addresses. *)
Section loops.
Context (x : dlr_list) (ip : list Z).

Lemma node_at a e b : heap_of (a ++ e :: b) ⊆ dl_heap x -> NoDup (a ++ e :: b).*1 ->
  dl_heap x !! e.1 = Some (mk_node e.2.1 (start b None) e.2.2).
Proof. intros H Hn. eapply lookup_weaken; [by apply heap_of_lookup|done]. Qed.

Context {R : Type} (stop : node_ref -> loc -> Z -> option R) (at_end : node_ref -> R).
Context (Hstop : forall prev l c, c < 0 -> stop prev l c = None).

Lemma walk_skip a2 : forall a1 b fuel, heap_of (a1 ++ a2 ++ b) ⊆ dl_heap x ->
  NoDup (a1 ++ a2 ++ b).*1 -> Forall (below ip) a2 ->
  walk stop at_end (length a2 + fuel) x ip (last_ref a1) (start (a2 ++ b) None) =
  walk stop at_end fuel x ip (last_ref (a1 ++ a2)) (start b None).
Proof.
  induction a2 as [|e a2 IH]; intros a1 b fuel Hh Hn Hb; [by rewrite app_nil_r|].
  inversion_clear Hb as [|? ? He Hb']. simpl in *. rewrite (node_at _ _ _ Hh Hn). simpl.
  rewrite Hstop by done. rewrite <- (last_ref_snoc a1 e). change (e :: a2) with ([e] ++ a2).
  rewrite !app_assoc. apply IH; [by rewrite <- app_assoc..|done].
Qed.

(** The result of a loop that starts at the anchor: the device behind the
    smaller ones decides. *)
Lemma walk_spec a b : heap_of (a ++ b) ⊆ dl_heap x -> NoDup (a ++ b).*1 -> Forall (below ip) a ->
  (forall e b', b = e :: b' -> stop (last_ref a) e.1 (memcmp (entry_ip e) ip) <> None) ->
  walk stop at_end (S (size (dl_heap x))) x ip Anchor (start (a ++ b) None) =
  match b with
  | [] => Some (at_end (last_ref a))
  | e :: _ => stop (last_ref a) e.1 (memcmp (entry_ip e) ip)
  end.
Proof.
  intros Hh Hn Ha Hb. assert (Hl : (length a <= size (dl_heap x))%nat).
  { rewrite <- (map_subseteq_size _ _ Hh), heap_of_size, length_app by done. lia. }
  replace (S _) with (length a + S (size (dl_heap x) - length a))%nat by lia.
  change Anchor with (last_ref []). rewrite walk_skip by done. destruct b as [|e b]; [done|].
  simpl. rewrite (node_at _ _ _ Hh Hn). simpl. specialize (Hb e b eq_refl).
  unfold cmp_dlr, node_ip. simpl. unfold entry_ip in *. by destruct (stop _ _ _).
Qed.
End loops.

(** ** The operations *)

Definition rep (es : list entry) (c : node_ref) : dlr_list := mk_list (heap_of es) (start es None) c.

Lemma sorted_app_nodup a b : sorted_list (a ++ b) -> NoDup a.*1.
Proof. intros (H & _ & _)%sorted_list_app. apply H. Qed.

(** The verdicts of the loops on the three results of a comparison. *)
Lemma stops_lt prev l c : c < 0 ->
  find_stop prev l c = None /\ insert_stop prev l c = None /\ delete_stop prev l c = None.
Proof.
  intros H. unfold find_stop, insert_stop, delete_stop.
  destruct (Z.eqb_spec c 0), (Z.gtb_spec c 0); try lia; by split_and!.
Qed.
Lemma stops_gt prev l c : c > 0 ->
  find_stop prev l c = Some (prev, None) /\ insert_stop prev l c = Some prev /\
  delete_stop prev l c = Some None.
Proof.
  intros H. unfold find_stop, insert_stop, delete_stop.
  destruct (Z.eqb_spec c 0), (Z.gtb_spec c 0); try lia; by split_and!.
Qed.

Lemma find_present a e b c : sorted_list (a ++ e :: b) -> Forall (below (entry_ip e)) a ->
  dlr_find_node (rep (a ++ e :: b) c) (entry_ip e) = Some (Some e.1, rep (a ++ e :: b) (last_ref a)).
Proof.
  intros H Ha. unfold dlr_find_node, find_loop. simpl dl_next.
  rewrite walk_spec; [by rewrite memcmp_refl|by intros; apply stops_lt|done|apply H|done|].
  intros ? ? [= <- <-]. by rewrite memcmp_refl.
Qed.
Lemma find_absent a b ip c : sorted_list (a ++ b) -> Forall (below ip) a -> Forall (above ip) b ->
  dlr_find_node (rep (a ++ b) c) ip = Some (None, rep (a ++ b) (last_ref a)).
Proof.
  intros H Ha Hb. unfold dlr_find_node, find_loop. simpl dl_next.
  rewrite walk_spec; [|by intros; apply stops_lt|done|apply H|done|].
  - destruct b as [|e b]; [done|]. inversion_clear Hb as [|? ? He _].
    by rewrite (proj1 (stops_gt _ _ _ He)).
  - intros e b' ->. inversion_clear Hb as [|? ? He _]. by rewrite (proj1 (stops_gt _ _ _ He)).
Qed.

(** Linking a node between [a] and [b]. *)
Lemma link_after_spec a b l d nx k c : NoDup a.*1 -> l ∉ a.*1 ->
  link_after (mk_list (<[l := mk_node d nx k]> (heap_of (a ++ b))) (start (a ++ b) None) c)
    (last_ref a) l = Some (rep (a ++ (l, (d, k)) :: b) Anchor).
Proof.
  intros Ha Hl. unfold link_after. rewrite heap_of_view, start_app, view_insert by done.
  rewrite next_of_view by done. cbn [mbind option_bind set_next dl_heap].
  rewrite <- view_insert, lookup_insert_eq by done. cbn [mbind option_bind]. unfold set_dl_heap.
  simpl. rewrite insert_insert_eq, view_insert, set_next_view by done. simpl.
  unfold rep. by rewrite heap_of_view, start_app.
Qed.

Lemma insert_spec a b l d nx k c : sorted_list (a ++ b) -> l ∉ (a ++ b).*1 ->
  Forall (below (ni_ip d)) a -> Forall (above (ni_ip d)) b -> c = Anchor \/ c = last_ref a ->
  dlr_insert_node (mk_list (<[l := mk_node d nx k]> (heap_of (a ++ b))) (start (a ++ b) None) c) l =
  Some (rep (a ++ (l, (d, k)) :: b) Anchor).
Proof.
  intros H Hl Ha Hb Hc. pose proof (sorted_app_nodup _ _ H) as Hna.
  assert (Hla : l ∉ a.*1) by (rewrite fmap_app in Hl; set_solver).
  unfold dlr_insert_node. set (x := mk_list _ _ c). simpl (dl_heap x !! l).
  rewrite lookup_insert_eq. cbn [mbind option_bind]. simpl (dl_last x).
  assert (Hb' : forall e b', b = e :: b' -> memcmp (entry_ip e) (ni_ip d) > 0).
  { intros e b' ->. by inversion_clear Hb. }
  destruct (decide (c = Anchor)) as [->|Hn].
  - cbn [mbind option_bind]. unfold insert_loop. simpl (dl_next x).
    rewrite walk_spec; [|by intros; apply stops_lt| |apply H|done|].
    + destruct b as [|e b]; [|rewrite (proj1 (proj2 (stops_gt _ _ _ (Hb' _ _ eq_refl))))];
        by apply link_after_spec.
    + simpl. apply insert_subseteq, heap_of_None. done.
    + intros e b' E. by rewrite (proj1 (proj2 (stops_gt _ _ _ (Hb' _ _ E)))).
  - destruct Hc as [->| ->]; [done|]. unfold x.
    rewrite heap_of_view, start_app, view_insert, next_of_view by done.
    rewrite <- view_insert, <- heap_of_view, <- start_app by done. cbn [mbind option_bind].
    assert (E : cmp_next x (start b None) (ni_ip d) = Some 1 \/
                exists v, cmp_next x (start b None) (ni_ip d) = Some v /\ v > 0).
    { destruct b as [|e b]; [by left|right]. specialize (Hb' _ _ eq_refl). simpl.
      rewrite lookup_insert_ne, heap_of_lookup; [by eexists|apply H|set_solver]. }
    fold x. change (node_ip _) with (ni_ip d). destruct E as [->|(v & -> & Hv)]; cbn [mbind option_bind];
      [|rewrite (proj2 (Z.gtb_lt v 0)) by lia]; by apply link_after_spec.
Qed.

(** What freeing a device does to the arrays. *)
Definition free_info (i : dlr_info) (b : blocks) : option blocks :=
  if truthy (di_max_cnt i) then free_block (di_nodes i) b else Some b.

Lemma view_lookup a q rest l n : l ∉ a.*1 -> view a q ((l, n) :: rest) !! l = Some n.
Proof. intros H. by rewrite <- view_insert, lookup_insert_eq. Qed.
Lemma view_delete a q rest l n : l ∉ a.*1 -> l ∉ rest.*1 ->
  delete l (view a q ((l, n) :: rest)) = view a q rest.
Proof.
  intros H1 H2. rewrite <- view_insert by done. apply delete_insert_id. unfold view.
  apply not_elem_of_list_to_map. rewrite fmap_app, chain_fst. set_solver.
Qed.

Lemma delete_spec a e b c bl : sorted_list (a ++ e :: b) -> Forall (below (entry_ip e)) a ->
  c = Anchor \/ c = last_ref a ->
  dlr_delete_node (rep (a ++ e :: b) c) bl e.1 =
  (bl ← free_info (ni_dlr e.2.1) bl; Some (rep (a ++ b) Anchor, bl)).
Proof.
  intros H Ha Hc. pose proof (sl_nodup _ H) as Hn. pose proof (sorted_app_nodup _ _ H) as Hna.
  assert (Hea : e.1 ∉ a.*1 /\ e.1 ∉ b.*1).
  { rewrite fmap_app, NoDup_app in Hn. destruct Hn as (_ & N & [Ne _]%NoDup_cons).
    split; [|done]. intros Hin. apply (N _ Hin). by left. }
  unfold dlr_delete_node. set (x := rep _ c). simpl (dl_heap x !! e.1).
  rewrite heap_of_lookup by done. cbn [mbind option_bind]. change (node_ip _) with (entry_ip e).
  assert (E : (here ← delete_here x e.1 (entry_ip e);
               match here with
               | Some f => Some (Some f)
               | None => delete_loop (S (size (dl_heap x))) x (entry_ip e) Anchor (dl_next x)
               end) = Some (Some (last_ref a, e.1))).
  { unfold delete_here. simpl (dl_last x). destruct (decide (c = Anchor)) as [->|Hne].
    - cbn [mbind option_bind]. unfold delete_loop. simpl (dl_next x).
      rewrite walk_spec; [by rewrite memcmp_refl|by intros; apply stops_lt|done|done|done|].
      intros ? ? [= <- <-]. by rewrite memcmp_refl.
    - destruct Hc as [->| ->]; [done|]. unfold x, rep. rewrite heap_of_view, start_app, next_of_view by done.
      cbn [mbind option_bind start]. by rewrite decide_True. }
  destruct (delete_here x e.1 (entry_ip e)) as [here|]; [|done]. cbn [mbind option_bind] in *.
  rewrite E. cbn [mbind option_bind]. unfold x, rep. rewrite heap_of_view, start_app, set_next_view by done.
  cbn [mbind option_bind nd_next dl_heap chain]. unfold dlr_free_node. rewrite view_lookup by apply Hea.
  cbn [mbind option_bind nd_data]. fold (free_info (ni_dlr e.2.1) bl).
  destruct (free_info (ni_dlr e.2.1) bl) as [bl'|]; [|done]. cbn [mbind option_bind dl_next].
  rewrite view_delete by (rewrite ?chain_fst; apply Hea). by rewrite <- heap_of_view, <- start_app.
Qed.

(** ** The node of an address *)

Lemma sorted_list_insert a b e : sorted_list (a ++ b) -> e.1 ∉ (a ++ b).*1 ->
  length (entry_ip e) = 4%nat -> Forall (below (entry_ip e)) a -> Forall (above (entry_ip e)) b ->
  sorted_list (a ++ e :: b).
Proof.
  intros H Hl Hi Ha Hb. pose proof (sorted_list_app a b H) as (Sa & Sb & Fab).
  pose proof (sl_nodup _ H) as Hn. rewrite fmap_app in Hn, Hl. apply NoDup_app in Hn as (N1 & N2 & N3).
  split.
  - rewrite fmap_app, fmap_cons. apply NoDup_app. split_and!; [done| |].
    + intros x Hx [->|Hx']%elem_of_cons; [set_solver|by apply (N2 x)].
    + apply NoDup_cons. split; [set_solver|done].
  - apply StronglySorted_app. split_and!; [|apply Sa|].
    + intros x1 x2 H1 [->|H2]%elem_of_cons.
      * rewrite Forall_forall in Ha. by apply Ha.
      * rewrite Forall_forall in Fab. specialize (Fab _ H1). rewrite Forall_forall in Fab. by apply Fab.
    + constructor; [apply Sb|]. eapply Forall_impl; [done|]. intros x Hx. unfold above, ip_lt in *.
      rewrite memcmp_antisym. lia.
  - apply Forall_app. split; [apply Sa|]. constructor; [done|apply Sb].
Qed.
Lemma sorted_list_delete a b e : sorted_list (a ++ e :: b) -> sorted_list (a ++ b).
Proof.
  intros [Hn Hs Hi]. split.
  - rewrite fmap_app, fmap_cons in Hn. rewrite fmap_app.
    rewrite <- Permutation_middle in Hn. by apply NoDup_cons in Hn as [_ Hn].
  - apply StronglySorted_app in Hs as (H1 & H2 & H3). apply StronglySorted_app.
    split_and!; [|done|by apply StronglySorted_inv in H3 as [? _]]. intros. apply H1; [done|by right].
  - rewrite Forall_app, Forall_cons in Hi. apply Forall_app. tauto.
Qed.
Lemma sorted_list_update a b e d : sorted_list (a ++ e :: b) -> ni_ip d = entry_ip e ->
  sorted_list (a ++ (e.1, (d, e.2.2)) :: b).
Proof.
  intros [Hn Hs Hi] Hd. set (e' := (e.1, (d, e.2.2))).
  assert (E : entry_ip e' = entry_ip e) by done.
  split.
  - rewrite fmap_app, fmap_cons in *. done.
  - clear -Hs E. induction a as [|f a IH]; simpl in *; apply StronglySorted_inv in Hs as [Hs Hf]; constructor.
    + done.
    + eapply Forall_impl; [done|]. intros x Hx. unfold ip_lt in *. by rewrite E.
    + by apply IH.
    + apply Forall_app in Hf as [F1 F2]. apply Forall_app. split; [done|]. inversion_clear F2.
      constructor; [|done]. unfold ip_lt in *. by rewrite E.
  - rewrite Forall_app, Forall_cons in *. by rewrite E.
Qed.

Lemma get_node_present nomem mem a e b c : sorted_list (a ++ e :: b) ->
  Forall (below (entry_ip e)) a ->
  dlr_get_node nomem mem AF_INET (entry_ip e) (rep (a ++ e :: b) c) =
  Some (Some e.1, rep (a ++ e :: b) (last_ref a)).
Proof. intros H Ha. unfold dlr_get_node. simpl. by rewrite find_present. Qed.
Lemma fresh_entry es : NoDup es.*1 -> fresh (dom (heap_of es)) ∉ es.*1.
Proof.
  intros Hn Hl. set (l := fresh _) in *. assert (Hf : l ∉ dom (heap_of es)) by apply is_fresh. contradict Hf.
  apply list_elem_of_fmap in Hl as ([l' x] & -> & Hin). apply list_elem_of_split in Hin as (u & v & E).
  apply elem_of_dom. eexists. rewrite E in Hn |- *. by apply (heap_of_lookup u (l', x) v).
Qed.
Lemma get_node_absent nomem mem a b ip c : sorted_list (a ++ b) ->
  Forall (below ip) a -> Forall (above ip) b ->
  dlr_get_node nomem mem AF_INET ip (rep (a ++ b) c) =
  if nomem then Some (None, rep (a ++ b) (last_ref a)) else
  let l := fresh (dom (heap_of (a ++ b))) in
  Some (Some l, rep (a ++ (l, (mk_net_info ip (replicate ETH_ALEN 0) (ni_dlr (nd_data mem)), nd_link mem)) :: b) Anchor).
Proof.
  intros H Ha Hb. unfold dlr_get_node. simpl. rewrite (find_absent _ _ _ _ H Ha Hb).
  cbn [mbind option_bind]. unfold dlr_alloc_node. destruct nomem; [done|]. cbv zeta. simpl.
  rewrite insert_insert_eq. set (l := fresh _).
  change (set_dl_heap ?h (set_dl_heap _ (rep ?es ?c))) with (mk_list h (start es None) c).
  rewrite insert_spec; [done|done|by apply fresh_entry, sl_nodup|done|done|by right].
Qed.

(** ** Leaving the program *)

Fixpoint free_all (es : list entry) (b : blocks) : option blocks :=
  match es with
  | [] => Some b
  | e :: es => b ← free_info (ni_dlr e.2.1) b; free_all es b
  end.

Lemma exit_loop_spec es : forall fuel b, NoDup es.*1 -> (length es <= fuel)%nat ->
  exit_loop fuel (start es None) (heap_of es) b = (b ← free_all es b; Some (∅, b)).
Proof.
  induction es as [|e es IH]; intros [|fuel] b Hn Hf; simpl in Hf; [done|done|lia|].
  pose proof (heap_of_lookup [] e es Hn) as El. cbn [app] in El.
  cbn [exit_loop start free_all]. rewrite El. cbn [mbind option_bind nd_next]. unfold dlr_free_node.
  rewrite El. cbn [mbind option_bind nd_data]. fold (free_info (ni_dlr e.2.1) b).
  rewrite fmap_cons, NoDup_cons in Hn. destruct Hn as [Hne Hn].
  destruct (free_info (ni_dlr e.2.1) b) as [b'|]; [|done]. cbn [mbind option_bind].
  unfold heap_of at 1. cbn [chain list_to_map foldr]. simpl.
  rewrite delete_insert_id by (by apply heap_of_None). apply IH; [done|lia].
Qed.
Lemma exit_list_spec es c b : NoDup es.*1 ->
  dlr_exit_list (rep es c) b = (b ← free_all es b; Some (mk_list ∅ None c, b)).
Proof.
  intros H. unfold dlr_exit_list. cbn [dl_heap dl_next dl_last rep].
  rewrite exit_loop_spec; [|done|rewrite heap_of_size by done; lia].
  by destruct (free_all es b).
Qed.
