(* ===== verification/DlrNet.v ===== *)
(** * Messages of the ring devices (nettest/network: ksz_dlr_net.c, dlr.c)

    Reading and writing of the messages and what the program does with each.
    What is only printed is left out, but not the memory accesses of printing. *)

From stdpp Require Import base list numbers option gmap.
From Stdlib Require Import ZArith Lia.
From S2P Require Import Prelude Wire Dlr.

Definition DEV_MOD_DLR : Z := 3.

(** The fields of a header, in host order, and the bytes behind it. *)
Record dlr_msg := mk_msg {
  mg_mod : Z; mg_svc : Z; mg_class : Z; mg_id : Z; mg_seqid : Z; mg_length : Z; mg_data : buf }.
(** A message in the receive buffer, with its length; the bytes of the buffer
    behind the message are part of the data. *)
Record dlr_net := mk_net { nt_msg : dlr_msg; nt_len : Z }.

Section net.
(** [sizeof(struct ksz_net_hdr)] *)
Context (SIZE_net_hdr : Z).

(** ** Writing *)

(** The message, its length and the next sequence number.  The message is a
    local variable with room for the largest structure; [n] bytes of [data] are
    copied into it. *)
Definition set_net_req (mod_ svc class id : Z) (data : option buf) (n : nat) (net_seqid : Z)
    : option (dlr_msg * Z * Z) :=
  d ← (match data with
       | None => Some []
       | Some d => if (SIZE_gateway_capable <? n)%nat then UB else bytes d 0 n
       end);
  let len := SIZE_net_hdr + Z.of_nat (length d) in
  Some (mk_msg mod_ svc class id (u16 net_seqid) (u16 len) d, len, u16 (net_seqid + 1)).

Definition w_dlr_byte (byte : option Z) (id : Z) :=
  set_net_req DEV_MOD_DLR 0 0 id (le_bytes 1 <$> byte) 1.
Definition w_dlr_word (word : option Z) (id : Z) :=
  set_net_req DEV_MOD_DLR 0 0 id (le_bytes 2 <$> word) 2.
Definition w_dlr_dword (dword : option Z) (id : Z) :=
  set_net_req DEV_MOD_DLR 0 0 id (le_bytes 4 <$> dword) 4.
Definition w_dlr_node (node : option buf) (id : Z) :=
  set_net_req DEV_MOD_DLR 0 0 id node SIZE_active_node.
Definition w_dlr_revision (rev : option Z) :=
  set_net_req DEV_MOD_DLR 0 DLR_GET_REVISION 0 (le_bytes 2 <$> rev) 2.
Definition w_dlr_all (capable : option buf) :=
  set_net_req DEV_MOD_DLR 0 0 0 capable SIZE_gateway_capable.
Definition w_dlr_topology (v : option Z) := w_dlr_byte v DLR_GET_NETWORK_TOPOLOGY.
Definition w_dlr_network (v : option Z) := w_dlr_byte v DLR_GET_NETWORK_STATUS.
Definition w_dlr_super_status (v : option Z) := w_dlr_byte v DLR_GET_RING_SUPERVISOR_STATUS.
Definition w_dlr_super_cfg (cfg : option buf) :=
  set_net_req DEV_MOD_DLR 0 0 DLR_SET_RING_SUPERVISOR_CONFIG cfg SIZE_super_cfg.
Definition w_dlr_ring_fault_cnt (cnt : option Z) := w_dlr_word cnt DLR_SET_RING_FAULT_COUNT.
Definition w_dlr_active_node (node : option buf) :=
  set_net_req DEV_MOD_DLR 0 0 DLR_GET_LAST_ACTIVE_NODE_ON_PORT_1 node (SIZE_active_node * 2).
Definition w_dlr_ring_part_cnt (cnt : option Z) := w_dlr_word cnt DLR_GET_RING_PARTICIPANTS_COUNT.
Definition w_dlr_ring_part_list (node : option buf) (size : nat) :=
  set_net_req DEV_MOD_DLR 0 0 DLR_GET_RING_PARTICIPANTS_LIST node size.
Definition w_dlr_active_super_addr (node : option buf) :=
  w_dlr_node node DLR_GET_ACTIVE_SUPERVISOR_ADDRESS.
Definition w_dlr_active_super_prec (v : option Z) :=
  w_dlr_byte v DLR_GET_ACTIVE_SUPERVISOR_PRECEDENCE.
Definition w_dlr_cap (flags : option Z) := w_dlr_dword flags DLR_GET_CAPABILITY_FLAGS.
Definition w_svc (svc : Z) (err : option Z) :=
  set_net_req DEV_MOD_DLR svc 0 0 (le_bytes 1 <$> err) 1.
Definition w_dlr_verify_fault := w_svc SVC_DLR_VERIFY_FAULT_LOCATION.
Definition w_dlr_clear_rapid_fault := w_svc SVC_DLR_CLEAR_RAPID_FAULTS.
Definition w_dlr_restart_sign_on := w_svc SVC_DLR_RESTART_SIGN_ON.
Definition w_dlr_clear_gateway_fault := w_svc SVC_DLR_CLEAR_GATEWAY_PARTIAL_FAULT.
Definition w_dlr_ip_addr (node : option buf) := w_dlr_node node DLR_SET_IP_ADDRESS.

(** ** Reading

    The test of the length is done in unsigned arithmetic: a message shorter
    than its header passes it. *)

Definition has (net : dlr_net) (size : Z) : bool := u32 (nt_len net - SIZE_net_hdr) >=? size.

(** A member of [info] is replaced by the data of the message, if there are
    enough of them: [rc] is 1 then, else 0. *)
Definition r_dlr (net : dlr_net) (n : nat) (set : buf -> dlr_info -> dlr_info) (info : dlr_info)
    : option (Z * dlr_info) :=
  if has net (Z.of_nat n) then l ← bytes (mg_data (nt_msg net)) 0 n; Some (1, set l info)
  else Some (0, info).
Definition r_dlr_byte net set := r_dlr net 1 (fun l => set (le l)).
Definition r_dlr_word net set := r_dlr net 2 (fun l => set (le l)).
Definition r_dlr_dword net set := r_dlr net 4 (fun l => set (le l)).
Definition r_dlr_node net set := r_dlr net SIZE_active_node set.
Definition r_dlr_revision net := r_dlr_word net set_rev.
Definition r_dlr_all net := r_dlr net SIZE_gateway_capable set_capable.
Definition r_dlr_topology net := r_dlr_byte net set_topology.
Definition r_dlr_network net := r_dlr_byte net set_network.
Definition r_dlr_super_status net := r_dlr_byte net set_super_status.
Definition r_dlr_super_cfg net := r_dlr net SIZE_super_cfg set_super_cfg.
Definition r_dlr_ring_fault_cnt net := r_dlr_word net set_fault_cnt.
Definition r_dlr_active_node net := r_dlr net (SIZE_active_node * 2) set_last_active.
Definition r_dlr_ring_part_cnt net := r_dlr_word net set_node_cnt.
Definition r_dlr_active_super_addr net := r_dlr_node net set_super_addr.
Definition r_dlr_active_super_prec net := r_dlr_byte net set_prec.
Definition r_dlr_cap net := r_dlr_dword net set_flags.
Definition r_dlr_verify_fault net := r_dlr_byte net set_err.
Definition r_dlr_clear_rapid_fault net := r_dlr_byte net set_err.
Definition r_dlr_restart_sign_on net := r_dlr_byte net set_err.
Definition r_dlr_clear_gateway_fault net := r_dlr_byte net set_err.
Definition r_dlr_ip_addr net := r_dlr_node net set_info_node.

(** [memcpy] into an array of participants. *)
Definition copy_to (b : blocks) (p : option loc) (l : buf) : option blocks :=
  match l with
  | [] => Some b
  | _ => p ← p; a ← b !! p; a ← put a 0 l; Some (<[p := a]> b)
  end.
Definition r_dlr_ring_part_list (net : dlr_net) (nodes : option loc) (size : Z) (b : blocks)
    : option (Z * blocks) :=
  if has net size then
    l ← bytes (mg_data (nt_msg net)) 0 (Z.to_nat size); b ← copy_to b nodes l; Some (1, b)
  else Some (0, b).

Definition no_blocks (b : blocks) (r : option (Z * dlr_info)) : option (Z * dlr_info * blocks) :=
  '(rc, info) ← r; Some (rc, info, b).

Definition proc_dlr_msg (net : dlr_net) (info : dlr_info) (b : blocks)
    : option (Z * dlr_info * blocks) :=
  let msg := nt_msg net in
  if mg_class msg =? DLR_GET_REVISION then no_blocks b (r_dlr_revision net info) else
  let svc := mg_svc msg in
  if svc =? SVC_DLR_VERIFY_FAULT_LOCATION then no_blocks b (r_dlr_verify_fault net info)
  else if svc =? SVC_DLR_CLEAR_RAPID_FAULTS then no_blocks b (r_dlr_clear_rapid_fault net info)
  else if svc =? SVC_DLR_RESTART_SIGN_ON then no_blocks b (r_dlr_restart_sign_on net info)
  else if svc =? SVC_DLR_CLEAR_GATEWAY_PARTIAL_FAULT then no_blocks b (r_dlr_clear_gateway_fault net info)
  else
  let id := mg_id msg in
  if id =? 0 then no_blocks b (r_dlr_all net info)
  else if id =? DLR_GET_NETWORK_TOPOLOGY then no_blocks b (r_dlr_topology net info)
  else if id =? DLR_GET_NETWORK_STATUS then no_blocks b (r_dlr_network net info)
  else if id =? DLR_GET_RING_SUPERVISOR_STATUS then no_blocks b (r_dlr_super_status net info)
  else if id =? DLR_SET_RING_SUPERVISOR_CONFIG then no_blocks b (r_dlr_super_cfg net info)
  else if id =? DLR_SET_RING_FAULT_COUNT then no_blocks b (r_dlr_ring_fault_cnt net info)
  else if id =? DLR_GET_LAST_ACTIVE_NODE_ON_PORT_1 then no_blocks b (r_dlr_active_node net info)
  else if id =? DLR_GET_RING_PARTICIPANTS_COUNT then no_blocks b (r_dlr_ring_part_cnt net info)
  else if id =? DLR_GET_RING_PARTICIPANTS_LIST then
    '(rc, b) ← r_dlr_ring_part_list net (di_nodes info)
                 (u16 (Z.of_nat SIZE_active_node * di_node_cnt info)) b;
    Some (rc, info, b)
  else if id =? DLR_GET_ACTIVE_SUPERVISOR_ADDRESS then no_blocks b (r_dlr_active_super_addr net info)
  else if id =? DLR_GET_ACTIVE_SUPERVISOR_PRECEDENCE then no_blocks b (r_dlr_active_super_prec net info)
  else if id =? DLR_GET_CAPABILITY_FLAGS then no_blocks b (r_dlr_cap net info)
  else if id =? DLR_SET_IP_ADDRESS then no_blocks b (r_dlr_ip_addr net info)
  else Some (-1, info, b).

(** ** The program *)

(** The global variables: the list, the arrays, the active supervisor and what
    is known of it, the address [w_] functions send to (none: the group), the
    own address, the sequence number, and what has been sent. *)
Record dlr := mk_dlr {
  ds_list : dlr_list; ds_blocks : blocks; ds_active : option loc; ds_active_dlr : dlr_info;
  ds_addr : option (list Z); ds_node : buf; ds_seqid : Z;
  ds_sent : list (option (list Z) * dlr_msg * Z) }.
#[local] Instance eta_dlr : Eta dlr := fun x =>
  mk_dlr (ds_list x) (ds_blocks x) (ds_active x) (ds_active_dlr x) (ds_addr x) (ds_node x)
    (ds_seqid x) (ds_sent x).
Definition set_ds_list v (x : dlr) : dlr := ltac:(field_set ds_list v x).
Definition set_ds_blocks v (x : dlr) : dlr := ltac:(field_set ds_blocks v x).
Definition set_ds_active v (x : dlr) : dlr := ltac:(field_set ds_active v x).
Definition set_ds_active_dlr v (x : dlr) : dlr := ltac:(field_set ds_active_dlr v x).
Definition set_ds_addr v (x : dlr) : dlr := ltac:(field_set ds_addr v x).

(** What malloc gives: no memory, or memory with this content. *)
Record dlr_mem := mk_mem { me_none : bool; me_node : dlr_node; me_fill : buf }.

(** Sending what a [w_] function has written. *)
Definition send (w : Z -> option (dlr_msg * Z * Z)) (s : dlr) : option dlr :=
  '(msg, len, seqid) ← w (ds_seqid s);
  Some (mk_dlr (ds_list s) (ds_blocks s) (ds_active s) (ds_active_dlr s) (ds_addr s) (ds_node s)
          seqid (ds_sent s ++ [(ds_addr s, msg, len)])).

(** The data of a node. *)
Definition node_data (s : dlr) (l : loc) : option dlr_net_info :=
  n ← dl_heap (ds_list s) !! l; Some (nd_data n).
Definition set_node_data (l : loc) (d : dlr_net_info) (s : dlr) : option dlr :=
  n ← dl_heap (ds_list s) !! l;
  Some (set_ds_list (set_dl_heap (<[l := mk_node d (nd_next n) (nd_link n)]> (dl_heap (ds_list s)))
          (ds_list s)) s).

(** An answer of the active supervisor is copied. *)
Definition if_active (l : loc) (f : dlr_info -> dlr_info) (s : dlr) : dlr :=
  if decide (ds_active s = Some l) then set_ds_active_dlr (f (ds_active_dlr s)) s else s.

(** All attributes: a device that is active supervisor becomes the active node. *)
Definition resp_all (l : loc) (ip : list Z) (info : dlr_info) (s : dlr) : option dlr :=
  status ← rd (di_capable info) 2 1;
  if status =? DLR_STAT_ACTIVE_SUPERVISOR then
    topology ← rd (di_capable info) 0 1;
    network ← rd (di_capable info) 1 1;
    cfg ← bytes (di_capable info) 3 SIZE_super_cfg;
    last ← bytes (di_capable info) 17 (SIZE_active_node * 2);
    cap ← rd (di_capable info) 50 4;
    Some (set_ds_active (Some l) (set_ds_addr (Some ip) (set_ds_active_dlr
      (set_flags cap (set_super_addr (di_super_addr info) (set_last_active last
        (set_super_cfg cfg (set_super_status status (set_network network (set_topology topology
          (set_capable (di_capable info) (ds_active_dlr s))))))))) s)))
  else Some s.

(** The arrays grow with the number of participants: that of the node, and that
    of the active supervisor. *)
Definition grow (mem : dlr_mem) (cnt : Z) (i : dlr_info) (b : blocks) : option (dlr_info * blocks) :=
  if di_max_cnt i <? cnt then
    b ← (if truthy (di_max_cnt i) then free_block (di_nodes i) b else Some b);
    let '(p, b) := malloc_block (me_none mem)
                     (take (SIZE_active_node * Z.to_nat cnt) (me_fill mem ++ replicate (SIZE_active_node * Z.to_nat cnt) 0)) b in
    Some (set_nodes p (set_max_cnt cnt i), b)
  else Some (i, b).
Definition resp_count (mem mem' : dlr_mem) (l : loc) (info : dlr_info) (s : dlr) : option dlr :=
  if decide (ds_active s = Some l) then
    let active := set_node_cnt (di_node_cnt info) (ds_active_dlr s) in
    '(info, b) ← grow mem (di_node_cnt info) info (ds_blocks s);
    d ← node_data s l;
    s ← set_node_data l (mk_net_info (ni_ip d) (ni_mac d) info) s;
    '(active, b) ← grow mem' (di_node_cnt active) active b;
    Some (set_ds_active_dlr active (set_ds_blocks b s))
  else Some s.

(** The participants are printed, and copied when they fit. *)
Definition read_nodes (b : blocks) (p : option loc) (n : nat) : option buf :=
  if (n =? 0)%nat then Some [] else p ← p; a ← b !! p; bytes a 0 n.
Definition resp_list (l : loc) (info : dlr_info) (s : dlr) : option dlr :=
  let size := (SIZE_active_node * Z.to_nat (di_node_cnt info))%nat in
  nodes ← read_nodes (ds_blocks s) (di_nodes info) size;
  if decide (ds_active s = Some l) then
    if di_max_cnt (ds_active_dlr s) >=? di_node_cnt info then
      b ← copy_to (ds_blocks s) (di_nodes (ds_active_dlr s)) nodes;
      Some (set_ds_blocks b s)
    else Some s
  else Some s.

(** A device that tells its address gets asked for everything unless [link] is
    set; one without an address leaves. *)
Definition resp_ip (l : loc) (info : dlr_info) (s : dlr) : option dlr :=
  ip ← rd (di_node info) 0 4;
  if truthy ip then
    mac ← bytes (di_node info) 4 ETH_ALEN;
    n ← dl_heap (ds_list s) !! l;
    s ← set_node_data l (mk_net_info (ni_ip (nd_data n)) mac (ni_dlr (nd_data n))) s;
    if truthy (nd_link n) then Some s else send (w_dlr_all None) s
  else
    let s := if decide (ds_active s = Some l) then set_ds_active None s else s in
    '(x, b) ← dlr_delete_node (ds_list s) (ds_blocks s) l;
    Some (set_ds_list x (set_ds_blocks b s)).

Definition is_svc (svc : Z) : bool :=
  (svc =? SVC_DLR_VERIFY_FAULT_LOCATION) || (svc =? SVC_DLR_CLEAR_RAPID_FAULTS) ||
  (svc =? SVC_DLR_RESTART_SIGN_ON) || (svc =? SVC_DLR_CLEAR_GATEWAY_PARTIAL_FAULT).

Definition proc_dlr_resp (mem mem' : dlr_mem) (l : loc) (msg : dlr_msg) (s : dlr) : option dlr :=
  d ← node_data s l;
  let info := ni_dlr d in
  if is_svc (mg_svc msg) then Some s
  else if mg_class msg =? DLR_GET_REVISION then Some s
  else
  let id := mg_id msg in
  if id =? 0 then resp_all l (ni_ip d) info s
  else if id =? DLR_GET_NETWORK_TOPOLOGY then Some (if_active l (set_topology (di_topology info)) s)
  else if id =? DLR_GET_NETWORK_STATUS then Some (if_active l (set_network (di_network info)) s)
  else if id =? DLR_GET_RING_SUPERVISOR_STATUS then
    Some (if_active l (set_super_status (di_super_status info)) s)
  else if id =? DLR_SET_RING_SUPERVISOR_CONFIG then
    Some (if_active l (set_super_cfg (di_super_cfg info)) s)
  else if id =? DLR_SET_RING_FAULT_COUNT then Some (if_active l (set_fault_cnt (di_fault_cnt info)) s)
  else if id =? DLR_GET_LAST_ACTIVE_NODE_ON_PORT_1 then
    Some (if_active l (set_last_active (di_last_active info)) s)
  else if id =? DLR_GET_RING_PARTICIPANTS_COUNT then resp_count mem mem' l info s
  else if id =? DLR_GET_RING_PARTICIPANTS_LIST then resp_list l info s
  else if id =? DLR_GET_ACTIVE_SUPERVISOR_ADDRESS then
    Some (if_active l (set_super_addr (di_super_addr info)) s)
  else if id =? DLR_GET_ACTIVE_SUPERVISOR_PRECEDENCE then Some (if_active l (set_prec (di_prec info)) s)
  else if id =? DLR_GET_CAPABILITY_FLAGS then Some (if_active l (set_flags (di_flags info)) s)
  else if id =? DLR_SET_IP_ADDRESS then resp_ip l info s
  else Some s.

(** A message of the device at [l]: what it says is stored, then acted on. *)
Definition proc_node (mem1 mem2 : dlr_mem) (l : loc) (net : dlr_net) (s : dlr) : option dlr :=
  let msg := nt_msg net in
  d ← node_data s l;
  '(rc, info, b) ← proc_dlr_msg net (ni_dlr d) (ds_blocks s);
  s ← set_node_data l (mk_net_info (ni_ip d) (ni_mac d) info) s;
  let s := set_ds_blocks b s in
  if rc =? 1 then proc_dlr_resp mem1 mem2 l msg s
  else if (rc =? 0) && (mg_id msg =? DLR_SET_IP_ADDRESS) then send (w_dlr_ip_addr (Some (ds_node s))) s
  else Some s.

(** A message from the address [ip]; [family] is that of the sockets. *)
Definition proc_msg (mem mem1 mem2 : dlr_mem) (family : Z) (ip : list Z) (net : dlr_net) (s : dlr)
    : option dlr :=
  if negb (mg_mod (nt_msg net) =? DEV_MOD_DLR) then Some s else
  '(node, x) ← dlr_get_node (me_none mem) (me_node mem) family ip (ds_list s);
  let s := set_ds_list x s in
  match node with
  | None => Some s
  | Some l => proc_node mem1 mem2 l net s
  end.

(** A round of the receive task that hands a datagram on: answers go to its
    sender. *)
Definition dlr_receive (mem mem1 mem2 : dlr_mem) (family : Z) (ip : list Z) (net : dlr_net) (s : dlr)
    : option dlr := proc_msg mem mem1 mem2 family ip net (set_ds_addr (Some ip) s).

(** Datagrams one after the other, with the memory malloc gives meanwhile. *)
Record datagram := mk_dg {
  dg_ip : list Z; dg_net : dlr_net; dg_mem : dlr_mem; dg_mem1 : dlr_mem; dg_mem2 : dlr_mem }.
Fixpoint dlr_run (family : Z) (gs : list datagram) (s : dlr) : option dlr :=
  match gs with
  | [] => Some s
  | g :: gs =>
      s ← dlr_receive (dg_mem g) (dg_mem1 g) (dg_mem2 g) family (dg_ip g) (dg_net g) s;
      dlr_run family gs s
  end.

(** The variables when the task starts: an empty list, no arrays. *)
Definition dlr_start (active : dlr_info) (own : buf) (seqid : Z) : dlr :=
  mk_dlr (dlr_init_list (mk_list ∅ None Anchor)) ∅ None (set_max_cnt 0 active) None own seqid [].
End net.
