(* ===== verification/DlrNetProofs.v ===== *)
(** * The table of ring devices under any sequence of messages *)

From stdpp Require Import base list numbers option gmap sorting.
From Stdlib Require Import ZArith Lia.
From S2P Require Import Prelude Wire WireProofs TlvProofs Dlr DlrProofs DlrNet.

(** ** Arrays of participants: who owns which *)

Definition owned (i : dlr_info) : option loc := if truthy (di_max_cnt i) then di_nodes i else None.
Definition info_of (e : entry) : dlr_info := ni_dlr e.2.1.

(** The arrays in use are those the counters speak of, each once. *)
Record arrays (is_ : list dlr_info) (b : blocks) : Prop := {
  ar_nodup : NoDup (omap owned is_);
  ar_dom : forall p, p ∈ dom b <-> p ∈ omap owned is_ }.

Lemma arrays_perm is_ is' b : is_ ≡ₚ is' -> arrays is_ b -> arrays is' b.
Proof. intros E [H1 H2]. split; [by rewrite <- E|]. intros p. rewrite H2. by rewrite E. Qed.
Lemma arrays_owned is_ is' b : omap owned is_ = omap owned is' -> arrays is_ b -> arrays is' b.
Proof. intros E [H1 H2]. split; [by rewrite <- E|]. intros p. by rewrite H2, E. Qed.
Lemma arrays_cons_owned i i' is_ b : owned i = owned i' -> arrays (i :: is_) b -> arrays (i' :: is_) b.
Proof. intros E. apply arrays_owned. cbn [omap list_omap]. by rewrite E. Qed.
Lemma arrays_nil_owned i is_ b : owned i = None -> arrays is_ b -> arrays (i :: is_) b.
Proof. intros E. apply arrays_owned. cbn [omap list_omap]. by rewrite E. Qed.

(** The array of [i] can be freed. *)
Lemma arrays_free i is_ b : arrays (i :: is_) b ->
  exists b', free_info i b = Some b' /\ arrays is_ b'.
Proof.
  intros [H1 H2]. unfold free_info, owned in *. cbn [omap list_omap] in *.
  destruct (truthy (di_max_cnt i)); [|by exists b].
  destruct (di_nodes i) as [p|] eqn:E; [|by exists b]. cbn [free_block].
  assert (Hp : is_Some (b !! p)) by (apply elem_of_dom, H2; by left).
  rewrite decide_True by done. exists (delete p b). split; [done|].
  apply NoDup_cons in H1 as [Hn H1]. split; [done|]. intros q. rewrite dom_delete, elem_of_difference, H2.
  rewrite elem_of_cons, elem_of_singleton. set_solver.
Qed.
(** A new array for [i]. *)
Lemma arrays_malloc i is_ b nomem fill p b' : arrays is_ b -> malloc_block nomem fill b = (p, b') ->
  (owned i = p \/ owned i = None /\ p = None) -> arrays (i :: is_) b'.
Proof.
  intros [H1 H2] E Hi. assert (Hi' : owned i = p) by naive_solver. clear Hi.
  unfold malloc_block in E. destruct nomem; injection E as <- <-.
  - by apply arrays_nil_owned.
  - assert (Hf : fresh (dom b) ∉ omap owned is_) by (rewrite <- H2; apply is_fresh).
    split; cbn [omap list_omap]; rewrite Hi'.
    + by constructor.
    + intros q. rewrite dom_insert, elem_of_union, elem_of_singleton, H2. set_solver.
Qed.

Lemma grow_spec mem cnt i is_ b : arrays (i :: is_) b -> 0 <= di_max_cnt i ->
  exists i' b', grow mem cnt i b = Some (i', b') /\ arrays (i' :: is_) b' /\ 0 <= di_max_cnt i'.
Proof.
  intros H Hc. unfold grow. destruct (Z.ltb_spec (di_max_cnt i) cnt); [|by exists i, b].
  destruct (arrays_free _ _ _ H) as (b1 & E & H1). fold (free_info i b). rewrite E. cbn [mbind option_bind].
  destruct (malloc_block _ _ b1) as [p b2] eqn:Em. eexists _, b2. split_and!; [done| |simpl; lia].
  eapply arrays_malloc; [done|done|]. left. unfold owned, truthy. simpl.
  by destruct (Z.eqb_spec cnt 0); [lia|].
Qed.

(** ** What a message makes of what is known of its sender *)

Ltac unfold_readers :=
  unfold r_dlr_revision, r_dlr_verify_fault, r_dlr_clear_rapid_fault, r_dlr_restart_sign_on,
    r_dlr_clear_gateway_fault, r_dlr_all, r_dlr_topology, r_dlr_network, r_dlr_super_status,
    r_dlr_super_cfg, r_dlr_ring_fault_cnt, r_dlr_active_node, r_dlr_ring_part_cnt,
    r_dlr_active_super_addr, r_dlr_active_super_prec, r_dlr_cap, r_dlr_ip_addr, r_dlr_byte,
    r_dlr_word, r_dlr_dword, r_dlr_node.

Section net.
Context (SIZE_net_hdr : Z).

Definition same_arrays (i i' : dlr_info) : Prop :=
  di_nodes i' = di_nodes i /\ di_max_cnt i' = di_max_cnt i.
Definition keeps_arrays (set : buf -> dlr_info -> dlr_info) : Prop := forall l i, same_arrays i (set l i).

Lemma r_dlr_spec net n set info : keeps_arrays set -> (n <= length (mg_data (nt_msg net)))%nat ->
  exists rc info', r_dlr SIZE_net_hdr net n set info = Some (rc, info') /\ same_arrays info info' /\
    rc = b2z (has SIZE_net_hdr net (Z.of_nat n)) /\
    (rc = 1 -> info' = set (take n (mg_data (nt_msg net))) info).
Proof.
  intros Hs Hn. unfold r_dlr. destruct (has SIZE_net_hdr net (Z.of_nat n)).
  - rewrite bytes_Some by lia. cbn [mbind option_bind]. rewrite drop_0. eexists _, _. split_and!; done || apply Hs.
  - by exists 0, info.
Qed.

Definition is_list (msg : dlr_msg) : bool := mg_id msg =? DLR_GET_RING_PARTICIPANTS_LIST.

(** Messages with a class or a service of their own. *)
Definition plain_msg (msg : dlr_msg) : bool :=
  negb (mg_class msg =? DLR_GET_REVISION) && negb (is_svc (mg_svc msg)).

Lemma proc_dlr_msg_spec net info b :
  is_list (nt_msg net) = false -> (SIZE_gateway_capable <= length (mg_data (nt_msg net)))%nat ->
  exists rc info', proc_dlr_msg SIZE_net_hdr net info b = Some (rc, info', b) /\ same_arrays info info' /\
    (plain_msg (nt_msg net) = true -> mg_id (nt_msg net) = 0 -> rc = 1 ->
       di_capable info' = take SIZE_gateway_capable (mg_data (nt_msg net))) /\
    (plain_msg (nt_msg net) = true -> mg_id (nt_msg net) = DLR_SET_IP_ADDRESS ->
       rc = b2z (has SIZE_net_hdr net 10) /\
       (rc = 1 -> di_node info' = take SIZE_active_node (mg_data (nt_msg net)))).
Proof.
  intros Hl Hd. unfold SIZE_gateway_capable in Hd. unfold is_list in Hl.
  unfold proc_dlr_msg, plain_msg, is_svc. set (msg := nt_msg net) in *. cbv zeta.
  destruct (Z.eqb_spec (mg_id msg) DLR_GET_RING_PARTICIPANTS_LIST) as [|Nl]; [done|].
  repeat match goal with
    | |- context [if ?c =? ?d then _ else _] => destruct (Z.eqb_spec c d)
    end; unfold_readers.
  all: try match goal with
    | |- context [r_dlr ?h ?net ?n ?set ?info] =>
        destruct (r_dlr_spec net n set info) as (rc & info' & E & S & R & V);
          [by split|subst msg; unfold SIZE_active_node, SIZE_super_cfg, SIZE_gateway_capable; lia|];
        rewrite E; exists rc, info'; split_and!; try done;
        first [by match goal with H : mg_id _ = _ |- _ => rewrite H end|by intros _ _ H; rewrite (V H)|by intros _ _; split; [|intros H; rewrite (V H)]]
    end.
  exists (-1), info. by split_and!.
Qed.

(** ** The invariant *)

Record Inv (s : dlr) (es : list entry) (c : node_ref) : Prop := {
  iv_list : ds_list s = rep es c;
  iv_last : c = Anchor \/ exists l, c = Node l /\ l ∈ es.*1;
  iv_sorted : sorted_list es;
  iv_active : forall l, ds_active s = Some l -> l ∈ es.*1;
  iv_arrays : arrays (ds_active_dlr s :: (info_of <$> es)) (ds_blocks s);
  iv_counts : Forall (fun i => 0 <= di_max_cnt i) (ds_active_dlr s :: (info_of <$> es));
  iv_node : length (ds_node s) = SIZE_active_node }.

(** A device in the middle of the list, to which the cursor may point. *)
Definition At (s : dlr) (a : list entry) (e : entry) (b : list entry) : Prop :=
  exists c, Inv s (a ++ e :: b) c /\ (c = Anchor \/ c = last_ref a) /\ Forall (below (entry_ip e)) a.

Definition with_data (e : entry) (d : dlr_net_info) : entry := (e.1, (d, e.2.2)).

Lemma heap_update a e b d : NoDup (a ++ e :: b).*1 ->
  <[e.1 := mk_node d (start b None) e.2.2]> (heap_of (a ++ e :: b)) = heap_of (a ++ with_data e d :: b).
Proof.
  intros Hn. assert (He : e.1 ∉ a.*1).
  { rewrite fmap_app, NoDup_app in Hn. destruct Hn as (_ & N & _). intros H. apply (N _ H). by left. }
  rewrite !heap_of_view. cbn [chain start with_data fst snd]. rewrite <- !view_insert by done.
  by rewrite insert_insert_eq.
Qed.
Lemma start_update a e b d : start (a ++ with_data e d :: b) None = start (a ++ e :: b) None.
Proof. by destruct a. Qed.
Lemma fst_update a e b d : (a ++ with_data e d :: b).*1 = (a ++ e :: b).*1.
Proof. by rewrite !fmap_app, !fmap_cons. Qed.

Lemma node_data_spec s a e b c : ds_list s = rep (a ++ e :: b) c -> NoDup (a ++ e :: b).*1 ->
  dl_heap (ds_list s) !! e.1 = Some (mk_node e.2.1 (start b None) e.2.2) /\ node_data s e.1 = Some e.2.1.
Proof.
  intros E Hn. unfold node_data. rewrite E. cbn [dl_heap rep]. by rewrite heap_of_lookup.
Qed.
Lemma set_node_data_spec s a e b c d : ds_list s = rep (a ++ e :: b) c -> NoDup (a ++ e :: b).*1 ->
  set_node_data e.1 d s = Some (set_ds_list (rep (a ++ with_data e d :: b) c) s).
Proof.
  intros E Hn. unfold set_node_data. destruct (node_data_spec s a e b c E Hn) as [-> _].
  cbn [mbind option_bind]. rewrite E. unfold set_dl_heap. cbn [dl_heap rep dl_next dl_last nd_next nd_link].
  rewrite heap_update by done. unfold rep. by rewrite start_update.
Qed.

(** Replacing the data of a device, the arrays being those of [is_]. *)
Lemma At_update s a e b d bl : At s a e b -> ni_ip d = entry_ip e -> 0 <= di_max_cnt (ni_dlr d) ->
  arrays (ni_dlr d :: ds_active_dlr s :: (info_of <$> a ++ b)) bl ->
  exists s', set_node_data e.1 d s = Some s' /\ At (set_ds_blocks bl s') a (with_data e d) b /\
    set_ds_blocks bl s' = set_ds_list (ds_list s') (set_ds_blocks bl s).
Proof.
  intros (c & [L La So Ac Ar Co No] & Hc & Hb) Hd Hm Hbl.
  pose proof (set_node_data_spec s a e b c d L (sl_nodup _ So)) as E.
  eexists. split; [exact E|]. split; [|done]. exists c. split; [|split; [done|]].
  - split; simpl; rewrite ?fst_update; try done.
    + by apply sorted_list_update.
    + eapply arrays_perm; [|exact Hbl]. rewrite !fmap_app, fmap_cons. cbn [info_of with_data fst snd].
      rewrite <- Permutation_middle. apply Permutation_swap.
    + rewrite !Forall_cons, !fmap_app, !Forall_app, ?fmap_cons, ?Forall_cons in *. naive_solver.
  - unfold with_data, entry_ip in *. cbn [fst snd]. by rewrite Hd.
Qed.

Lemma same_arrays_owned i i' : same_arrays i i' -> owned i = owned i'.
Proof. intros [E1 E2]. unfold owned. by rewrite E1, E2. Qed.
Lemma At_active_dlr s a e b i : At s a e b -> same_arrays (ds_active_dlr s) i ->
  At (set_ds_active_dlr i s) a e b.
Proof.
  intros (c & [L La So Ac Ar Co No] & Hc & Hb) Hi. exists c. split; [|done].
  split; simpl; try done.
  - eapply arrays_cons_owned; [by apply same_arrays_owned|done].
  - rewrite Forall_cons in *. destruct Hi as [_ ->]. done.
Qed.
Lemma At_if_active s a e b f : At s a e b -> (forall i, same_arrays i (f i)) ->
  At (if_active e.1 f s) a e b.
Proof.
  intros H Hf. unfold if_active. destruct (decide _); [|done]. by apply At_active_dlr.
Qed.
Lemma At_addr s a e b ip : At s a e b -> At (set_ds_addr ip s) a e b.
Proof. intros (c & [] & H). exists c. split; [by split|done]. Qed.
Lemma At_set_active s a e b : At s a e b -> At (set_ds_active (Some e.1) s) a e b.
Proof.
  intros (c & [L La So Ac Ar Co No] & H). exists c. split; [|done]. split; simpl; try done.
  intros l [= <-]. rewrite fmap_app. apply elem_of_app. right. by left.
Qed.

Lemma resp_all_spec s a e b ip info : At s a e b -> length (di_capable info) = SIZE_gateway_capable ->
  exists s', resp_all e.1 ip info s = Some s' /\ At s' a e b.
Proof.
  intros H Hl. unfold resp_all, rd. unfold SIZE_gateway_capable in Hl.
  rewrite !bytes_Some by (unfold SIZE_super_cfg, SIZE_active_node; lia). cbn [fmap option_fmap option_map mbind option_bind].
  destruct (_ =? DLR_STAT_ACTIVE_SUPERVISOR); [|by eexists]. eexists. split; [done|].
  apply At_set_active, At_addr, At_active_dlr; [done|by split].
Qed.

Lemma At_sorted s a e b : At s a e b -> sorted_list (a ++ e :: b).
Proof. intros (c & [] & _). done. Qed.
Lemma At_data s a e b : At s a e b ->
  dl_heap (ds_list s) !! e.1 = Some (mk_node e.2.1 (start b None) e.2.2) /\ node_data s e.1 = Some e.2.1.
Proof. intros (c & [] & _). by eapply node_data_spec, sl_nodup. Qed.
Lemma At_arrays s a e b : At s a e b ->
  arrays (info_of e :: ds_active_dlr s :: (info_of <$> a ++ b)) (ds_blocks s) /\
  Forall (fun i => 0 <= di_max_cnt i) (info_of e :: ds_active_dlr s :: (info_of <$> a ++ b)).
Proof.
  intros (c & [] & _). rewrite !fmap_app, fmap_cons in *. split.
  - eapply arrays_perm; [|exact iv_arrays0]. rewrite <- Permutation_middle. apply Permutation_swap.
  - rewrite !Forall_cons, !Forall_app, ?Forall_cons in *. naive_solver.
Qed.

Lemma resp_count_spec mem mem' s a e b : At s a e b ->
  exists s' d, resp_count mem mem' e.1 (info_of e) s = Some s' /\ At s' a (with_data e d) b /\
    ni_ip d = entry_ip e.
Proof.
  intros H. unfold resp_count. destruct (decide (ds_active s = Some e.1)) as [Ha|Ha].
  2:{ exists s, e.2.1. split_and!; [done| |done]. by destruct e as [l [d k]]. }
  destruct (At_arrays _ _ _ _ H) as [A C]. inversion_clear C as [|? ? C1 C']. inversion_clear C' as [|? ? C2 C3].
  destruct (grow_spec mem (di_node_cnt (info_of e)) _ _ _ A C1) as (i & bl & -> & A1 & Ci). cbn [mbind option_bind].
  rewrite (proj2 (At_data _ _ _ _ H)). cbn [mbind option_bind].
  set (d := mk_net_info _ _ i).
  destruct (At_update s a e b d bl H eq_refl Ci A1) as (s1 & -> & H1 & _). cbn [mbind option_bind].
  cbn [di_node_cnt set_node_cnt].
  assert (A2 : arrays (set_node_cnt (di_node_cnt (info_of e)) (ds_active_dlr s) :: i :: (info_of <$> a ++ b)) bl).
  { apply (arrays_cons_owned (ds_active_dlr s)); [by apply same_arrays_owned|]. eapply arrays_perm; [|exact A1]. apply Permutation_swap. }
  destruct (grow_spec mem' (di_node_cnt (info_of e)) _ _ _ A2 C2) as (act & bl' & E & A3 & Ca).
  cbn [set_node_cnt di_node_cnt] in E. rewrite E. cbn [mbind option_bind].
  eexists _, d. split_and!; [done| |done].
  destruct H1 as (c & [L La So Ac Ar Co No] & Hc). exists c. split; [|done].
  split; simpl in *; try done.
  - rewrite fmap_app, fmap_cons. eapply arrays_perm; [|exact A3]. rewrite fmap_app.
    by rewrite (Permutation_middle (info_of <$> a)).
  - rewrite Forall_cons in *. split; [done|apply Co].
Qed.

Lemma At_send s a e b w msg len seqid : At s a e b -> w (ds_seqid s) = Some (msg, len, seqid) ->
  exists s', send w s = Some s' /\ At s' a e b.
Proof.
  intros (c & [] & H) E. unfold send. rewrite E. cbn [mbind option_bind]. eexists. split; [done|].
  exists c. split; [by split|done].
Qed.

(** A device that leaves. *)
Lemma At_delete s a e b : At s a e b ->
  exists x bl, dlr_delete_node (ds_list s) (ds_blocks s) e.1 = Some (x, bl) /\
    Inv (set_ds_list x (set_ds_blocks bl
          (if decide (ds_active s = Some e.1) then set_ds_active None s else s))) (a ++ b) Anchor.
Proof.
  intros H. pose proof (At_arrays _ _ _ _ H) as [A C]. destruct (arrays_free _ _ _ A) as (bl & Ef & A').
  destruct H as (c & [L La So Ac Ar Co No] & Hc & Hb). rewrite L, delete_spec by done.
  change (ni_dlr e.2.1) with (info_of e). rewrite Ef. cbn [mbind option_bind].
  eexists _, bl. split; [done|]. split.
  - by destruct (decide _).
  - by left.
  - by eapply sorted_list_delete.
  - intros l. assert (Hin : l ∈ (a ++ e :: b).*1 -> l ≠ e.1 -> l ∈ (a ++ b).*1).
    { rewrite !fmap_app, fmap_cons, !elem_of_app, elem_of_cons. naive_solver. }
    destruct (decide _); [done|]. simpl. intros E. apply Hin; [by apply Ac|congruence].
  - by destruct (decide _).
  - inversion_clear C as [|? ? _ C']. by destruct (decide _).
  - by destruct (decide _).
Qed.

Lemma resp_ip_spec s a e b : At s a e b -> length (di_node (info_of e)) = SIZE_active_node ->
  if le (take 4 (di_node (info_of e))) =? 0 then
    exists s', resp_ip SIZE_net_hdr e.1 (info_of e) s = Some s' /\ Inv s' (a ++ b) Anchor
  else exists s' d, resp_ip SIZE_net_hdr e.1 (info_of e) s = Some s' /\
    At s' a (with_data e d) b /\ ni_ip d = entry_ip e.
Proof.
  intros H Hl. unfold resp_ip, rd. unfold SIZE_active_node in Hl.
  rewrite !bytes_Some by (unfold ETH_ALEN; lia). rewrite drop_0.
  cbn [fmap option_fmap option_map mbind option_bind]. unfold truthy.
  destruct (le (take 4 (di_node (info_of e))) =? 0) eqn:E; cbn [negb].
  - destruct (At_delete _ _ _ _ H) as (x & bl & Ed & I). eexists. split; [|exact I].
    replace (ds_list (if decide _ then _ else s)) with (ds_list s) by (by destruct (decide _)).
    replace (ds_blocks (if decide _ then _ else s)) with (ds_blocks s) by (by destruct (decide _)).
    by rewrite Ed.
  - destruct (At_data _ _ _ _ H) as [-> _]. cbn [mbind option_bind nd_data nd_link].
    set (d := mk_net_info _ _ _). destruct (At_arrays _ _ _ _ H) as [A C]. inversion_clear C as [|? ? C1 _].
    destruct (At_update s a e b d (ds_blocks s) H eq_refl C1 A) as (s1 & Es & H1 & E1).
    assert (Eb : set_ds_blocks (ds_blocks s) s1 = s1).
    { unfold set_node_data in Es. destruct (dl_heap (ds_list s) !! e.1); [|done]. by injection Es as <-. }
    rewrite Eb in H1. rewrite Es. cbn [mbind option_bind]. destruct (negb (_ =? 0)).
    + exists s1, d. by split_and!.
    + destruct (At_send s1 a (with_data e d) b (w_dlr_all SIZE_net_hdr None)
        (mk_msg DEV_MOD_DLR 0 0 0 (u16 (ds_seqid s1)) (u16 (SIZE_net_hdr + 0)) []) (SIZE_net_hdr + 0)
        (u16 (ds_seqid s1 + 1)) H1 eq_refl) as (s2 & -> & H2).
      exists s2, d. by split_and!.
Qed.

(** What a message of a device on the list does. *)
Definition leaving (msg : dlr_msg) (info : dlr_info) : bool :=
  plain_msg msg && (mg_id msg =? DLR_SET_IP_ADDRESS) && (le (take 4 (di_node info)) =? 0).
Lemma proc_dlr_resp_spec mem mem' msg s a e b : At s a e b -> is_list msg = false ->
  (plain_msg msg = true -> mg_id msg = 0 -> length (di_capable (info_of e)) = SIZE_gateway_capable) ->
  (plain_msg msg = true -> mg_id msg = DLR_SET_IP_ADDRESS ->
     length (di_node (info_of e)) = SIZE_active_node) ->
  if leaving msg (info_of e) then
    exists s', proc_dlr_resp SIZE_net_hdr mem mem' e.1 msg s = Some s' /\ Inv s' (a ++ b) Anchor
  else exists s' d, proc_dlr_resp SIZE_net_hdr mem mem' e.1 msg s = Some s' /\
    At s' a (with_data e d) b /\ ni_ip d = entry_ip e.
Proof.
  intros H Hl Hcap Hnode. unfold proc_dlr_resp. rewrite (proj2 (At_data _ _ _ _ H)).
  cbn [mbind option_bind]. change (ni_dlr e.2.1) with (info_of e). unfold leaving, plain_msg, is_list in *.
  assert (Hid : with_data e e.2.1 = e) by (by destruct e as [l [d k]]).
  assert (Hs : forall s', At s' a e b -> exists s'' d, Some s' = Some s'' /\ At s'' a (with_data e d) b /\
    ni_ip d = entry_ip e) by (intros s' H'; exists s', e.2.1; by rewrite Hid).
  destruct (is_svc (mg_svc msg)).
  { rewrite andb_false_r. by apply Hs. }
  destruct (mg_class msg =? DLR_GET_REVISION); [by apply Hs|]. cbn [negb andb] in *.
  repeat match goal with
    | |- context [if ?c =? ?d then _ else _] => destruct (Z.eqb_spec c d)
    end.
  all: try match goal with E : mg_id ?m = ?c |- context [mg_id ?m =? DLR_SET_IP_ADDRESS] =>
      rewrite E; change (c =? DLR_SET_IP_ADDRESS) with false end; cbn [andb].
  all: try (apply Hs, At_if_active; [done|by split]).
  - destruct (resp_all_spec s a e b (ni_ip e.2.1) (info_of e) H) as (s' & -> & H'); [auto|by apply Hs].
  - by apply resp_count_spec.
  - done.
  - apply resp_ip_spec; auto.
  - by apply Hs.
Qed.

(** ** A datagram *)

(** The device takes back its address. *)
Definition leaves (net : dlr_net) : bool :=
  plain_msg (nt_msg net) && (mg_id (nt_msg net) =? DLR_SET_IP_ADDRESS) &&
  has SIZE_net_hdr net (Z.of_nat SIZE_active_node) && (le (take 4 (mg_data (nt_msg net))) =? 0).

Definition left_or_kept (r : option dlr) (a : list entry) (e : entry) (b : list entry) (gone : bool) : Prop :=
  if gone then exists s', r = Some s' /\ Inv s' (a ++ b) Anchor
  else exists s' d, r = Some s' /\ At s' a (with_data e d) b /\ ni_ip d = entry_ip e.

Lemma leaves_leaving net info rc :
  (plain_msg (nt_msg net) = true -> mg_id (nt_msg net) = DLR_SET_IP_ADDRESS ->
     rc = b2z (has SIZE_net_hdr net 10) /\
     (rc = 1 -> di_node info = take SIZE_active_node (mg_data (nt_msg net)))) ->
  leaves net = (rc =? 1) && leaving (nt_msg net) info.
Proof.
  intros Hip. unfold leaves, leaving. destruct (plain_msg (nt_msg net)); [|by rewrite andb_false_r].
  destruct (Z.eqb_spec (mg_id (nt_msg net)) DLR_SET_IP_ADDRESS) as [E|]; cbn [andb];
    [|by rewrite andb_false_r].
  destruct (Hip eq_refl E) as [-> Hn]. change (Z.of_nat SIZE_active_node) with 10.
  destruct (has _ _ 10); [|done]. rewrite Hn by done. by rewrite take_take.
Qed.

Lemma proc_node_spec mem1 mem2 net s a e b : At s a e b -> is_list (nt_msg net) = false ->
  (SIZE_gateway_capable <= length (mg_data (nt_msg net)))%nat ->
  left_or_kept (proc_node SIZE_net_hdr mem1 mem2 e.1 net s) a e b (leaves net).
Proof.
  intros H Hl Hd. unfold proc_node. rewrite (proj2 (At_data _ _ _ _ H)). cbn [mbind option_bind].
  destruct (proc_dlr_msg_spec net (ni_dlr e.2.1) (ds_blocks s) Hl Hd) as (rc & info & -> & Sa & Hcap & Hip).
  cbn [mbind option_bind]. set (d := mk_net_info _ _ info).
  destruct (At_arrays _ _ _ _ H) as [A C]. inversion_clear C as [|? ? C1 _].
  assert (A1 : arrays (ni_dlr d :: ds_active_dlr s :: (info_of <$> a ++ b)) (ds_blocks s)).
  { apply (arrays_cons_owned (info_of e)); [by apply same_arrays_owned|exact A]. }
  destruct (At_update s a e b d (ds_blocks s) H eq_refl) as (s1 & -> & H1 & _);
    [simpl; by rewrite (proj2 Sa)|done|]. cbn [mbind option_bind].
  set (s2 := set_ds_blocks (ds_blocks s) s1) in *. set (e1 := with_data e d) in *.
  rewrite (leaves_leaving net info rc Hip). unfold left_or_kept.
  destruct (Z.eqb_spec rc 1) as [->|Hr]; cbn [andb].
  - pose proof (proc_dlr_resp_spec mem1 mem2 (nt_msg net) s2 a e1 b H1 Hl) as P.
    change (info_of e1) with info in P. change (e1.1) with e.1 in P.
    assert (Hcap' : plain_msg (nt_msg net) = true -> mg_id (nt_msg net) = 0 ->
      length (di_capable info) = SIZE_gateway_capable).
    { intros Hp Hi. rewrite Hcap, length_take by done. lia. }
    assert (Hip' : plain_msg (nt_msg net) = true -> mg_id (nt_msg net) = DLR_SET_IP_ADDRESS ->
      length (di_node info) = SIZE_active_node).
    { intros Hp Hi. rewrite (proj2 (Hip Hp Hi)), length_take by done.
      unfold SIZE_active_node, SIZE_gateway_capable in *. lia. }
    specialize (P Hcap' Hip'). destruct (leaving (nt_msg net) info); [done|].
    destruct P as (s' & d' & E & P' & Ed). exists s', d'. by split_and!.
  - destruct ((rc =? 0) && _); [|exists s2, d; by split_and!].
    assert (Hn : length (ds_node s2) = SIZE_active_node) by (by destruct H1 as (c & [] & _)).
    edestruct (At_send s2 a e1 b (w_dlr_ip_addr SIZE_net_hdr (Some (ds_node s2)))) as (s' & E & H');
      [exact H1| |exists s', d; by split_and!].
    unfold w_dlr_ip_addr, w_dlr_node, set_net_req. cbn [Nat.ltb Nat.leb SIZE_gateway_capable SIZE_active_node].
    rewrite (bytes_Some (ds_node s2)) by (rewrite Hn; done). reflexivity.
Qed.

Lemma last_ref_in a es : last_ref a = Anchor \/ exists l, last_ref a = Node l /\ l ∈ (a ++ es).*1.
Proof.
  destruct a as [|e a _] using rev_ind; [by left|]. right. exists e.1. rewrite last_ref_snoc. split; [done|].
  rewrite !fmap_app. set_solver.
Qed.

(** What a datagram may hold, and what malloc may give: a receive buffer is
    larger than any structure, and the counter in the memory of a new node is
    zero. *)
Definition dg_ok (g : datagram) : Prop :=
  length (dg_ip g) = 4%nat /\ is_list (nt_msg (dg_net g)) = false /\
  (SIZE_gateway_capable <= length (mg_data (nt_msg (dg_net g))))%nat /\
  di_max_cnt (ni_dlr (nd_data (me_node (dg_mem g)))) = 0.
#[export] Instance dg_ok_dec g : Decision (dg_ok g).
Proof. unfold dg_ok. apply _. Defined.

(** Whether its sender is on the list afterwards. *)
Definition listed (g : datagram) (was : bool) : bool :=
  if negb (mg_mod (nt_msg (dg_net g)) =? DEV_MOD_DLR) then was
  else if me_none (dg_mem g) && negb was then false else negb (leaves (dg_net g)).

Definition on_list (es : list entry) (ip : list Z) : bool := bool_decide (ip ∈ entry_ip <$> es).
Lemma on_list_mid a e b ip : on_list (a ++ e :: b) ip = bool_decide (entry_ip e = ip) || on_list (a ++ b) ip.
Proof.
  unfold on_list. rewrite <- bool_decide_or. apply bool_decide_ext.
  rewrite !fmap_app, fmap_cons, !elem_of_app, elem_of_cons. naive_solver.
Qed.
Lemma below_not ip es : Forall (below ip) es \/ Forall (above ip) es -> on_list es ip = false.
Proof.
  intros H. apply bool_decide_eq_false. intros (e & -> & Hin)%list_elem_of_fmap.
  destruct H as [H|H]; rewrite Forall_forall in H; specialize (H _ Hin); unfold below, above in H;
    rewrite memcmp_refl in H; lia.
Qed.
Lemma on_list_app a b ip : on_list (a ++ b) ip = on_list a ip || on_list b ip.
Proof.
  unfold on_list. rewrite <- bool_decide_or. apply bool_decide_ext. by rewrite fmap_app, elem_of_app.
Qed.
Lemma on_list_rest a e b : sorted_list (a ++ e :: b) -> on_list (a ++ b) (entry_ip e) = false.
Proof.
  intros H. pose proof (sorted_list_app a _ H) as (_ & Hb & Hf).
  pose proof (sorted_list_app [e] b Hb) as (_ & _ & He). inversion_clear He as [|? ? He' _].
  rewrite on_list_app, !below_not; [done| |].
  - right. eapply Forall_impl; [done|]. intros x Hx. unfold above, ip_lt in *. rewrite memcmp_antisym. lia.
  - left. eapply Forall_impl; [done|]. intros x Hx. by inversion_clear Hx.
Qed.

(** The rest of a round once the sender has its place on the list. *)
Lemma round_spec mem1 mem2 net s a e b : At s a e b -> is_list (nt_msg net) = false ->
  (SIZE_gateway_capable <= length (mg_data (nt_msg net)))%nat ->
  exists s' es' c', proc_node SIZE_net_hdr mem1 mem2 e.1 net s = Some s' /\ Inv s' es' c' /\
    forall ip, on_list es' ip = if decide (ip = entry_ip e) then negb (leaves net) else on_list (a ++ b) ip.
Proof.
  intros H Hl Hd. pose proof (proc_node_spec mem1 mem2 net s a e b H Hl Hd) as P.
  pose proof (on_list_rest _ _ _ (At_sorted _ _ _ _ H)) as Hr. unfold left_or_kept in P.
  destruct (leaves net).
  - destruct P as (s' & E & I). exists s', (a ++ b), Anchor. split_and!; [done..|]. intros ip.
    by destruct (decide _) as [->|].
  - destruct P as (s' & d & E & (c & I & _) & Ed). exists s', (a ++ with_data e d :: b), c.
    split_and!; [done..|]. intros ip. rewrite on_list_mid. change (ni_ip d) with (entry_ip (with_data e d)) in Ed.
    destruct (decide (ip = entry_ip e)) as [->|N]; [by rewrite bool_decide_true|].
    by rewrite bool_decide_false by congruence.
Qed.

Lemma Inv_addr s es c ip : Inv s es c -> Inv (set_ds_addr ip s) es c.
Proof. intros []. by split. Qed.
(** The cursor after a search. *)
Lemma Inv_found s a b c : Inv s (a ++ b) c ->
  Inv (set_ds_list (rep (a ++ b) (last_ref a)) s) (a ++ b) (last_ref a).
Proof. intros []. split; simpl; try done. apply last_ref_in. Qed.
Lemma At_new s a b c e : Inv s (a ++ b) c -> e.1 ∉ (a ++ b).*1 -> length (entry_ip e) = 4%nat ->
  Forall (below (entry_ip e)) a -> Forall (above (entry_ip e)) b -> di_max_cnt (info_of e) = 0 ->
  At (set_ds_list (rep (a ++ e :: b) Anchor) s) a e b.
Proof.
  intros [L La So Ac Ar Co No] Hf Hip Ha Hb Hm. exists Anchor. split; [|split; [by left|done]].
  split; simpl; try done.
  - by left.
  - by apply sorted_list_insert.
  - intros l Hl'. specialize (Ac l Hl'). rewrite !fmap_app, fmap_cons in *. set_solver.
  - eapply arrays_perm; [|apply (arrays_nil_owned (info_of e)); [|exact Ar]].
    + rewrite !fmap_app, fmap_cons, <- Permutation_middle. apply Permutation_swap.
    + unfold owned. by rewrite Hm.
  - rewrite !fmap_app, fmap_cons, !Forall_cons, !Forall_app, !Forall_cons in *.
    rewrite Hm. naive_solver lia.
Qed.

Lemma receive_spec g s es c : Inv s es c -> dg_ok g ->
  exists s' es' c', dlr_receive SIZE_net_hdr (dg_mem g) (dg_mem1 g) (dg_mem2 g) AF_INET (dg_ip g) (dg_net g) s = Some s' /\
    Inv s' es' c' /\
    forall ip, on_list es' ip = if decide (ip = dg_ip g) then listed g (on_list es ip) else on_list es ip.
Proof.
  intros I0 (Hip & Hl & Hd & Hm). unfold dlr_receive, proc_msg, listed.
  apply (Inv_addr _ _ _ (Some (dg_ip g))) in I0. set (s0 := set_ds_addr _ s) in *.
  destruct (negb (mg_mod (nt_msg (dg_net g)) =? DEV_MOD_DLR)).
  { exists s0, es, c. split_and!; [done..|]. intros ip. by destruct (decide _). }
  rewrite (iv_list _ _ _ I0). pose proof (iv_sorted _ _ _ I0) as So.
  destruct (locate es (dg_ip g) So Hip) as [(a & e & b & -> & He & Ha)|(a & b & -> & Ha & Hb)].
  - rewrite <- He in *. rewrite get_node_present by done. cbn [mbind option_bind].
    destruct (round_spec (dg_mem1 g) (dg_mem2 g) (dg_net g)
      (set_ds_list (rep (a ++ e :: b) (last_ref a)) s0) a e b) as (s' & es' & c' & E & I & P); [|done..|].
    { exists (last_ref a). split; [by eapply Inv_found|]. split; [by right|done]. }
    exists s', es', c'. split_and!; [exact E|done|]. intros ip. rewrite P, on_list_mid.
    destruct (decide (ip = entry_ip e)) as [->|N]; [|by rewrite bool_decide_false].
    rewrite bool_decide_true by done. by rewrite andb_false_r.
  - rewrite get_node_absent by done. assert (Hnot : on_list (a ++ b) (dg_ip g) = false).
    { rewrite on_list_app, !below_not; auto. }
    destruct (me_none (dg_mem g)).
    { eexists _, (a ++ b), (last_ref a). split_and!; [done|by eapply Inv_found|].
      intros ip. destruct (decide _) as [->|]; [by rewrite Hnot|done]. }
    cbv zeta. cbn [mbind option_bind]. set (e := (_, _) : entry).
    destruct (round_spec (dg_mem1 g) (dg_mem2 g) (dg_net g)
      (set_ds_list (rep (a ++ e :: b) Anchor) s0) a e b) as (s' & es' & c' & E & I & P); [|done..|].
    { eapply At_new; try done. by apply fresh_entry, sl_nodup. }
    exists s', es', c'. split_and!; [exact E|done|]. intros ip. rewrite P.
    change (entry_ip e) with (dg_ip g). by destruct (decide (ip = dg_ip g)) as [->|].
Qed.

(** ** Any sequence of datagrams *)

Definition listed_after (gs : list datagram) (ip : list Z) (was : bool) : bool :=
  foldl (fun was g => if decide (ip = dg_ip g) then listed g was else was) was gs.

Lemma run_spec gs : forall s es c, Inv s es c -> Forall dg_ok gs ->
  exists s' es' c', dlr_run SIZE_net_hdr AF_INET gs s = Some s' /\ Inv s' es' c' /\
    forall ip, on_list es' ip = listed_after gs ip (on_list es ip).
Proof.
  induction gs as [|g gs IH]; intros s es c I Hok; [by exists s, es, c|].
  inversion_clear Hok as [|? ? Hg Hok']. destruct (receive_spec g s es c I Hg) as (s1 & es1 & c1 & E & I1 & P).
  cbn [dlr_run]. rewrite E. cbn [mbind option_bind].
  destruct (IH s1 es1 c1 I1 Hok') as (s' & es' & c' & E' & I' & P'). exists s', es', c'.
  split_and!; [done..|]. intros ip. rewrite P', P. done.
Qed.

Lemma start_inv info own seqid : length own = SIZE_active_node -> Inv (dlr_start info own seqid) [] Anchor.
Proof.
  intros Hn. split; simpl; try done.
  - by left.
  - by split; constructor.
  - split; simpl; [constructor|]. intros p. unfold owned. simpl. rewrite dom_empty. set_solver.
  - by repeat constructor.
Qed.

Lemma free_all_spec i es : forall b, arrays (i :: (info_of <$> es)) b ->
  exists b', free_all es b = Some b' /\ arrays [i] b'.
Proof.
  induction es as [|e es IH]; intros b H; [by exists b|]. cbn [free_all].
  destruct (arrays_free (info_of e) (i :: (info_of <$> es)) b) as (b1 & E & H1).
  { eapply arrays_perm; [|exact H]. apply Permutation_swap. }
  change (ni_dlr e.2.1) with (info_of e). rewrite E. by apply IH.
Qed.
End net.


(** A device tells its address, a second one too, the first one leaves. *)
Definition info0 : dlr_info :=
  mk_info 0 0 0 0 0 0 0 0 0 [] [] [] [] [] None 0.
Definition mem0 : dlr_mem :=
  mk_mem false (mk_node (mk_net_info [] [] info0) None 0) [].
Definition tell (ip : list Z) (told : list Z) : datagram :=
  mk_dg ip (mk_net (mk_msg DEV_MOD_DLR 0 0 DLR_SET_IP_ADDRESS 0 18 (told ++ replicate 100 7)) 18)
    mem0 mem0 mem0.
Definition story : list datagram :=
  [tell [10; 0; 0; 9] [10; 0; 0; 9]; tell [10; 0; 0; 2] [10; 0; 0; 2]; tell [10; 0; 0; 9] [0; 0; 0; 0]].
Example story_lists : map (fun ip => listed_after 8 story ip false) [[10; 0; 0; 2]; [10; 0; 0; 9]; [10; 0; 0; 3]] =
  [true; false; false].
Proof. vm_compute. reflexivity. Qed.

(** The array of a device that is not the active supervisor is not allocated
    when it tells the number of participants; the list it sends afterwards is
    written through whatever pointer malloc left there. *)
Definition from (id : Z) (data : list Z) : datagram :=
  mk_dg [10; 0; 0; 9] (mk_net (mk_msg DEV_MOD_DLR 0 0 id 0 0 (data ++ replicate 100 7)) (8 + Z.of_nat (length data)))
    mem0 mem0 mem0.
Lemma participants_without_array :
  dlr_run 8 AF_INET [from DLR_GET_RING_PARTICIPANTS_COUNT [1; 0];
    from DLR_GET_RING_PARTICIPANTS_LIST (replicate 10 5)] (dlr_start info0 (replicate 10 1) 0) = None.
Proof. vm_compute. reflexivity. Qed.

(** ** Attributes from one program to another *)

Inductive attribute :=
  | ARevision (v : Z) | AAll (l : buf) | ATopology (v : Z) | ANetwork (v : Z) | ASuperStatus (v : Z)
  | ASuperCfg (l : buf) | AFaultCnt (v : Z) | ALastActive (l : buf) | ANodeCnt (v : Z)
  | ASuperAddr (l : buf) | APrec (v : Z) | AFlags (v : Z) | AIpAddr (l : buf) | AVerify (v : Z).

Definition attribute_ok (a : attribute) : Prop :=
  match a with
  | ARevision v | AFaultCnt v | ANodeCnt v => 0 <= v < 2 ^ 16
  | AAll l => length l = SIZE_gateway_capable
  | ATopology v | ANetwork v | ASuperStatus v | APrec v | AVerify v => 0 <= v < 2 ^ 8
  | ASuperCfg l => length l = SIZE_super_cfg
  | ALastActive l => length l = (SIZE_active_node * 2)%nat
  | ASuperAddr l | AIpAddr l => length l = SIZE_active_node
  | AFlags v => 0 <= v < 2 ^ 32
  end.

(** The function that writes an attribute, and the member it is read into. *)
Definition write_attribute (hdr : Z) (a : attribute) : Z -> option (dlr_msg * Z * Z) :=
  match a with
  | ARevision v => w_dlr_revision hdr (Some v)
  | AAll l => w_dlr_all hdr (Some l)
  | ATopology v => w_dlr_topology hdr (Some v)
  | ANetwork v => w_dlr_network hdr (Some v)
  | ASuperStatus v => w_dlr_super_status hdr (Some v)
  | ASuperCfg l => w_dlr_super_cfg hdr (Some l)
  | AFaultCnt v => w_dlr_ring_fault_cnt hdr (Some v)
  | ALastActive l => w_dlr_active_node hdr (Some l)
  | ANodeCnt v => w_dlr_ring_part_cnt hdr (Some v)
  | ASuperAddr l => w_dlr_active_super_addr hdr (Some l)
  | APrec v => w_dlr_active_super_prec hdr (Some v)
  | AFlags v => w_dlr_cap hdr (Some v)
  | AIpAddr l => w_dlr_ip_addr hdr (Some l)
  | AVerify v => w_dlr_verify_fault hdr (Some v)
  end.
Definition store_attribute (a : attribute) : dlr_info -> dlr_info :=
  match a with
  | ARevision v => set_rev v | AAll l => set_capable l | ATopology v => set_topology v
  | ANetwork v => set_network v | ASuperStatus v => set_super_status v
  | ASuperCfg l => set_super_cfg l | AFaultCnt v => set_fault_cnt v
  | ALastActive l => set_last_active l | ANodeCnt v => set_node_cnt v
  | ASuperAddr l => set_super_addr l | APrec v => set_prec v | AFlags v => set_flags v
  | AIpAddr l => set_info_node l | AVerify v => set_err v
  end.

(** The message in the buffer of another program: [rest] is what an older
    message left behind it. *)
Definition received (m : dlr_msg) (len : Z) (rest : buf) : dlr_net :=
  mk_net (mk_msg (mg_mod m) (mg_svc m) (mg_class m) (mg_id m) (mg_seqid m) (mg_length m)
            (mg_data m ++ rest)) len.

Lemma r_dlr_received hdr m rest n set info : length (mg_data m) = n -> 0 <= hdr -> (n < 1000)%nat ->
  r_dlr hdr (received m (hdr + Z.of_nat n) rest) n set info = Some (1, set (mg_data m) info).
Proof.
  intros <- Hh Hn. unfold r_dlr, has, received. cbn [nt_len nt_msg mg_data].
  replace (hdr + _ - hdr) with (Z.of_nat (length (mg_data m))) by lia. rewrite u32_small by lia.
  rewrite Z.geb_leb, Z.leb_refl. pose proof (bytes_mid [] (mg_data m) rest) as E.
  cbn [app length] in E. by rewrite E.
Qed.
Lemma set_net_req_Some hdr svc class id l n seqid : length l = n -> (n <= SIZE_gateway_capable)%nat ->
  set_net_req hdr DEV_MOD_DLR svc class id (Some l) n seqid =
  Some (mk_msg DEV_MOD_DLR svc class id (u16 seqid) (u16 (hdr + Z.of_nat n)) l, hdr + Z.of_nat n, u16 (seqid + 1)).
Proof.
  intros <- Hn. unfold set_net_req. destruct (Nat.ltb_spec SIZE_gateway_capable (length l)); [lia|].
  rewrite bytes_Some, drop_0, take_ge by lia. done.
Qed.

(** An attribute that one program writes is stored by another, whatever its
    buffer held before, and nothing else changes. *)
Theorem attribute_roundtrip (hdr : Z) (a : attribute) (seqid : Z) (rest : buf) (info : dlr_info)
    (b : blocks) (Hhdr : 0 <= hdr) (Ha : attribute_ok a) :
  exists m len seqid', write_attribute hdr a seqid = Some (m, len, seqid') /\
    proc_dlr_msg hdr (received m len rest) info b = Some (1, store_attribute a info, b).
Proof.
  destruct a; cbn [attribute_ok write_attribute store_attribute] in *.
  all: unfold w_dlr_revision, w_dlr_all, w_dlr_topology, w_dlr_network, w_dlr_super_status,
    w_dlr_super_cfg, w_dlr_ring_fault_cnt, w_dlr_active_node, w_dlr_ring_part_cnt,
    w_dlr_active_super_addr, w_dlr_active_super_prec, w_dlr_cap, w_dlr_ip_addr, w_dlr_verify_fault,
    w_svc, w_dlr_byte, w_dlr_word, w_dlr_dword, w_dlr_node; cbn [fmap option_fmap option_map].
  all: rewrite set_net_req_Some by (rewrite ?le_bytes_length; done || (unfold SIZE_gateway_capable, SIZE_super_cfg, SIZE_active_node; lia)).
  all: eexists _, _, _; (split; [reflexivity|]); unfold proc_dlr_msg.
  all: repeat match goal with
    | |- context [mg_class (nt_msg (received ?m _ _))] => change (mg_class (nt_msg (received m _ _))) with (mg_class m)
    | |- context [mg_svc (nt_msg (received ?m _ _))] => change (mg_svc (nt_msg (received m _ _))) with (mg_svc m)
    | |- context [mg_id (nt_msg (received ?m _ _))] => change (mg_id (nt_msg (received m _ _))) with (mg_id m)
    end; cbn [mg_class mg_svc mg_id].
  all: repeat match goal with |- context [?x =? ?y] =>
      let v := eval vm_compute in (x =? y) in change (x =? y) with v; cbv iota end.
  all: unfold_readers; rewrite r_dlr_received by
    (cbn [mg_data]; rewrite ?le_bytes_length; try done; unfold SIZE_gateway_capable, SIZE_super_cfg, SIZE_active_node; lia).
  all: cbn [mg_data]; rewrite ?le_le_bytes by (cbn; lia); reflexivity.
Qed.
