(* ===== verification/DlrCmd.v ===== *)
(** * Commands of the ring program (nettest/network/dlr.c)

    [get_dlr_cmd] reads lines and sends requests to the active supervisor, or to
    the group when none is known. *)

From stdpp Require Import base list numbers option strings gmap.
From Stdlib Require Import ZArith Lia Ascii.
From Stdlib Require String.
From S2P Require Import Prelude ConfigStore Wire Command Dlr DlrProofs DlrNet DlrNetProofs.

#[local] Open Scope char_scope.
#[local] Open Scope Z_scope.

(** The variables the commands set. *)
Record dlr_con := mk_dcon { dc_interval : Z; dc_timeout : Z; dc_prec : Z; dc_vid : Z }.
Definition dlr_con0 : dlr_con := mk_dcon 400 1960 0 0.

(** The word of a line, the number of items read and the first number. *)
Definition dlr_args (line : list ascii) : string * Z * Z :=
  match scan_s (until "000" line) with
  | None => (""%string, -1, 0)
  | Some (name, r) =>
      let d := scan_ints 10 4 r in (name, 1 + Z.of_nat (length d), nth 0 d 0)
  end.

Definition dlr_set (c : ascii) (num : Z) (k : dlr_con) : dlr_con :=
  if Ascii.eqb c "i" then mk_dcon (u16 num) (dc_timeout k) (dc_prec k) (dc_vid k)
  else if Ascii.eqb c "t" then mk_dcon (dc_interval k) (u16 num) (dc_prec k) (dc_vid k)
  else if Ascii.eqb c "p" then mk_dcon (dc_interval k) (dc_timeout k) (u8 num) (dc_vid k)
  else if Ascii.eqb c "v" then mk_dcon (dc_interval k) (dc_timeout k) (dc_prec k) (u16 num)
  else k.

(** [struct ksz_dlr_super_cfg]. *)
Definition super_cfg (enable : Z) (k : dlr_con) : buf :=
  [b2z (truthy enable); dc_prec k] ++ le_bytes 4 (dc_interval k) ++ le_bytes 4 (dc_timeout k) ++
  le_bytes 2 (dc_vid k).

(** What is sent for the letter of a command. *)
Definition dlr_request (hdr : Z) (c : ascii) (count num : Z) (k : dlr_con)
    : option (Z -> option (dlr_msg * Z * Z)) :=
  if Ascii.eqb c "t" then Some (w_dlr_topology hdr None)
  else if Ascii.eqb c "n" then Some (w_dlr_network hdr None)
  else if Ascii.eqb c "a" then Some (w_dlr_all hdr None)
  else if Ascii.eqb c "v" then Some (w_dlr_revision hdr None)
  else if Ascii.eqb c "s" then Some (w_dlr_super_status hdr None)
  else if Ascii.eqb c "C" then
    Some (w_dlr_super_cfg hdr (if count >=? 2 then Some (super_cfg num k) else None))
  else if Ascii.eqb c "F" then
    Some (w_dlr_ring_fault_cnt hdr (if count >=? 2 then Some (u16 num) else None))
  else if Ascii.eqb c "e" then Some (w_dlr_active_node hdr None)
  else if Ascii.eqb c "r" then Some (w_dlr_ring_part_cnt hdr None)
  else if Ascii.eqb c "l" then Some (w_dlr_ring_part_list hdr None 0)
  else if Ascii.eqb c "d" then Some (w_dlr_active_super_addr hdr None)
  else if Ascii.eqb c "p" then Some (w_dlr_active_super_prec hdr None)
  else if Ascii.eqb c "c" then Some (w_dlr_cap hdr None)
  else if Ascii.eqb c "V" then Some (w_dlr_verify_fault hdr None)
  else if Ascii.eqb c "R" then Some (w_dlr_clear_rapid_fault hdr None)
  else if Ascii.eqb c "S" then Some (w_dlr_restart_sign_on hdr None)
  else if Ascii.eqb c "G" then Some (w_dlr_clear_gateway_fault hdr None)
  else None.

(** A line: with an active supervisor its address is used.  The answer tells
    whether the loop ends, and with which value. *)
Definition dlr_line (hdr : Z) (line : list ascii) (k : dlr_con) (s : dlr)
    : option (dlr_con * dlr * option Z) :=
  let '(cmd, count, num) := dlr_args line in
  s ← (match ds_active s with
       | None => Some s
       | Some l => d ← node_data s l; Some (set_ds_addr (Some (ni_ip d)) s)
       end);
  if String.eqb cmd "sw" then Some (k, s, Some 3)
  else if String.eqb cmd "hsr" then Some (k, s, Some 2)
  else if String.eqb cmd "dlr" then Some (k, s, None)
  else
  let c := nth 0 line "000" in
  if Ascii.eqb (nth 1 line "000") "b" then
    Some (if count >=? 2 then dlr_set c num k else k, s, None)
  else if Ascii.eqb c "q" then Some (k, s, Some 0)
  else match dlr_request hdr c count num k with
       | Some w => s ← send w s; Some (k, s, None)
       | None => Some (k, s, None)
       end.

Fixpoint get_dlr_cmd (hdr : Z) (fuel : nat) (input : list ascii) (k : dlr_con) (s : dlr)
    : option (dlr_con * dlr * Z) :=
  match fuel with
  | O => UB
  | S fuel =>
      match fgets 80 input with
      | ([], _) => Some (k, s, 0)
      | (line, input) =>
          '(k, s, r) ← dlr_line hdr line k s;
          match r with Some r => Some (k, s, r) | None => get_dlr_cmd hdr fuel input k s end
      end
  end.

(** ** The commands keep the list, and the configuration arrives *)

Lemma Inv_sent s es c x seqid sent : Inv s es c ->
  Inv (mk_dlr (ds_list s) (ds_blocks s) (ds_active s) (ds_active_dlr s) x (ds_node s) seqid sent) es c.
Proof. intros []. by split. Qed.
Lemma super_cfg_length enable k : length (super_cfg enable k) = SIZE_super_cfg.
Proof. done. Qed.
Lemma request_Some hdr c count num k w seqid : dlr_request hdr c count num k = Some w ->
  exists r, w seqid = Some r.
Proof.
  unfold dlr_request. intros E.
  repeat match type of E with context [Ascii.eqb ?a ?b] => destruct (Ascii.eqb a b) end;
    try discriminate E; injection E as <-; try (by eexists); case_match; by eexists.
Qed.

Lemma dlr_line_keeps hdr line k s es c : Inv s es c ->
  exists k' s' r, dlr_line hdr line k s = Some (k', s', r) /\ Inv s' es c.
Proof.
  intros I. unfold dlr_line. destruct (dlr_args line) as [[cmd count] num].
  assert (X : exists s1, (match ds_active s with
       | None => Some s
       | Some l => d ← node_data s l; Some (set_ds_addr (Some (ni_ip d)) s)
       end) = Some s1 /\ Inv s1 es c).
  { destruct (ds_active s) as [l|] eqn:Ea; [|by exists s].
    pose proof (iv_active _ _ _ I l Ea) as Hl. apply list_elem_of_fmap in Hl as (e & -> & Hin).
    apply list_elem_of_split in Hin as (a & b & ->).
    rewrite (proj2 (node_data_spec s a e b c (iv_list _ _ _ I) (sl_nodup _ (iv_sorted _ _ _ I)))).
    eexists. split; [done|]. by apply Inv_addr. }
  destruct X as (s1 & -> & I1). cbn [mbind option_bind].
  repeat case_match; try (by eexists _, _, _).
  match goal with H : dlr_request _ _ _ _ _ = Some ?w |- _ => rename H into E;
    destruct (request_Some _ _ _ _ _ w (ds_seqid s1) E) as [[[m len] q] Ew] end.
  unfold send. rewrite Ew. cbn [mbind option_bind]. eexists _, _, _. split; [done|]. by apply Inv_sent.
Qed.

(** The configuration set on the console of one program is what the other one
    stores. *)
Theorem super_cfg_arrives hdr count num k seqid rest info b w :
  0 <= hdr -> 2 <= count -> dlr_request hdr "C" count num k = Some w ->
  exists m len seqid', w seqid = Some (m, len, seqid') /\
    proc_dlr_msg hdr (received m len rest) info b = Some (1, set_super_cfg (super_cfg num k) info, b).
Proof.
  intros Hh Hc E. unfold dlr_request in E. cbn in E. rewrite (proj2 (Z.geb_le _ _)) in E by lia.
  injection E as <-. by apply (attribute_roundtrip hdr (ASuperCfg (super_cfg num k))).
Qed.
