(* ===== verification/Md5.v ===== *)
(** * MD5 (nettest/network/ksz_radius.c)

    The message digest of the authentication program [authtest]: a context
    takes a message in pieces of any size, and gives the digest at the end.
    Words of 32 bits are [Z]; a byte string is a list of [Z]. *)

From stdpp Require Import base list numbers option.
From Stdlib Require Import ZArith Lia.
From S2P Require Import Prelude Wire.

Definition MD5_BLOCK_LENGTH : nat := 64.
Definition MD5_DIGEST_LENGTH : nat := 16.

(** ** The transformation of a block *)

Definition add32 (a b : Z) : Z := u32 (a + b).
Definition rotl32 (x s : Z) : Z := Z.lor (u32 (Z.shiftl x s)) (Z.shiftr x (32 - s)).

Definition F1 (x y z : Z) : Z := Z.lxor z (Z.land x (Z.lxor y z)).
Definition F2 (x y z : Z) : Z := F1 z x y.
Definition F3 (x y z : Z) : Z := Z.lxor (Z.lxor x y) z.
Definition F4 (x y z : Z) : Z := Z.lxor y (Z.lor x (u32 (Z.lnot z))).

(** The value [MD5STEP] leaves in [w]. *)
Definition MD5STEP (f : Z -> Z -> Z -> Z) (w x y z data s : Z) : Z :=
  add32 (rotl32 (add32 w (add32 (f x y z) data)) s) x.

(** The variables [a], [b], [c] and [d]. *)
Record regs := mk_regs { ra : Z; rb : Z; rc : Z; rd_ : Z }.
Inductive reg := RA | RB | RC | RD.
(** [MD5STEP(f, w, x, y, z, in[k] + t, s)]; the four variables are always in one
    of the orders [a b c d], [d a b c], [c d a b] and [b c d a], which the first
    tells. *)
Record md5_step := mk_step { ms_f : Z -> Z -> Z -> Z; ms_w : reg; ms_k : nat; ms_t : Z; ms_s : Z }.
Definition run_step (inp : list Z) (r : regs) (m : md5_step) : regs :=
  let step w x y z := MD5STEP (ms_f m) w x y z (add32 (nth (ms_k m) inp 0) (ms_t m)) (ms_s m) in
  let '(mk_regs a b c d) := r in
  match ms_w m with
  | RA => mk_regs (step a b c d) b c d
  | RD => mk_regs a b c (step d a b c)
  | RC => mk_regs a b (step c d a b) d
  | RB => mk_regs a (step b c d a) c d
  end.

Definition md5_steps_1 : list md5_step := [
  mk_step F1 RA 0 0xd76aa478 7; mk_step F1 RD 1 0xe8c7b756 12;
  mk_step F1 RC 2 0x242070db 17; mk_step F1 RB 3 0xc1bdceee 22;
  mk_step F1 RA 4 0xf57c0faf 7; mk_step F1 RD 5 0x4787c62a 12;
  mk_step F1 RC 6 0xa8304613 17; mk_step F1 RB 7 0xfd469501 22;
  mk_step F1 RA 8 0x698098d8 7; mk_step F1 RD 9 0x8b44f7af 12;
  mk_step F1 RC 10 0xffff5bb1 17; mk_step F1 RB 11 0x895cd7be 22;
  mk_step F1 RA 12 0x6b901122 7; mk_step F1 RD 13 0xfd987193 12;
  mk_step F1 RC 14 0xa679438e 17; mk_step F1 RB 15 0x49b40821 22].
Definition md5_steps_2 : list md5_step := [
  mk_step F2 RA 1 0xf61e2562 5; mk_step F2 RD 6 0xc040b340 9;
  mk_step F2 RC 11 0x265e5a51 14; mk_step F2 RB 0 0xe9b6c7aa 20;
  mk_step F2 RA 5 0xd62f105d 5; mk_step F2 RD 10 0x02441453 9;
  mk_step F2 RC 15 0xd8a1e681 14; mk_step F2 RB 4 0xe7d3fbc8 20;
  mk_step F2 RA 9 0x21e1cde6 5; mk_step F2 RD 14 0xc33707d6 9;
  mk_step F2 RC 3 0xf4d50d87 14; mk_step F2 RB 8 0x455a14ed 20;
  mk_step F2 RA 13 0xa9e3e905 5; mk_step F2 RD 2 0xfcefa3f8 9;
  mk_step F2 RC 7 0x676f02d9 14; mk_step F2 RB 12 0x8d2a4c8a 20].
Definition md5_steps_3 : list md5_step := [
  mk_step F3 RA 5 0xfffa3942 4; mk_step F3 RD 8 0x8771f681 11;
  mk_step F3 RC 11 0x6d9d6122 16; mk_step F3 RB 14 0xfde5380c 23;
  mk_step F3 RA 1 0xa4beea44 4; mk_step F3 RD 4 0x4bdecfa9 11;
  mk_step F3 RC 7 0xf6bb4b60 16; mk_step F3 RB 10 0xbebfbc70 23;
  mk_step F3 RA 13 0x289b7ec6 4; mk_step F3 RD 0 0xeaa127fa 11;
  mk_step F3 RC 3 0xd4ef3085 16; mk_step F3 RB 6 0x04881d05 23;
  mk_step F3 RA 9 0xd9d4d039 4; mk_step F3 RD 12 0xe6db99e5 11;
  mk_step F3 RC 15 0x1fa27cf8 16; mk_step F3 RB 2 0xc4ac5665 23].
Definition md5_steps_4 : list md5_step := [
  mk_step F4 RA 0 0xf4292244 6; mk_step F4 RD 7 0x432aff97 10;
  mk_step F4 RC 14 0xab9423a7 15; mk_step F4 RB 5 0xfc93a039 21;
  mk_step F4 RA 12 0x655b59c3 6; mk_step F4 RD 3 0x8f0ccc92 10;
  mk_step F4 RC 10 0xffeff47d 15; mk_step F4 RB 1 0x85845dd1 21;
  mk_step F4 RA 8 0x6fa87e4f 6; mk_step F4 RD 15 0xfe2ce6e0 10;
  mk_step F4 RC 6 0xa3014314 15; mk_step F4 RB 13 0x4e0811a1 21;
  mk_step F4 RA 4 0xf7537e82 6; mk_step F4 RD 11 0xbd3af235 10;
  mk_step F4 RC 2 0x2ad7d2bb 15; mk_step F4 RB 9 0xeb86d391 21].
Definition md5_steps : list md5_step := md5_steps_1 ++ md5_steps_2 ++ md5_steps_3 ++ md5_steps_4.

(** The words of a block, from its bytes. *)
Fixpoint block_words (l : list Z) : list Z :=
  match l with
  | b0 :: b1 :: b2 :: b3 :: l =>
      Z.lor (Z.lor (Z.lor b0 (Z.shiftl b1 8)) (Z.shiftl b2 16)) (Z.shiftl b3 24)
      :: block_words l
  | _ => []
  end.

Definition fr_MD5Transform (state : regs) (block : list Z) : regs :=
  let inp := block_words block in
  let '(mk_regs a b c d) := foldl (run_step inp) state md5_steps in
  mk_regs (add32 (ra state) a) (add32 (rb state) b) (add32 (rc state) c) (add32 (rd_ state) d).

(** ** The context *)

Record fr_md5_ctx := mk_ctx { mc_state : regs; mc_count0 : Z; mc_count1 : Z; mc_buffer : buf }.

Definition fr_MD5Init (ctx : fr_md5_ctx) : fr_md5_ctx :=
  mk_ctx (mk_regs 0x67452301 0xefcdab89 0x98badcfe 0x10325476) 0 0 (mc_buffer ctx).

(** The loop over the whole blocks of the input; it returns what is left.  A
    round takes 64 bytes, so the length is enough fuel. *)
Fixpoint update_blocks (fuel : nat) (state : regs) (input : list Z) : regs * list Z :=
  match fuel with
  | S fuel =>
      if (MD5_BLOCK_LENGTH <=? length input)%nat
      then update_blocks fuel (fr_MD5Transform state (take MD5_BLOCK_LENGTH input))
             (drop MD5_BLOCK_LENGTH input)
      else (state, input)
  | O => (state, input)
  end.

(** The bit counter after [len] more bytes. *)
Definition md5_count (count0 count1 len : Z) : Z * Z :=
  let c0 := u32 (count0 + u32 (Z.shiftl len 3)) in
  let c1 := if c0 <? u32 len then u32 (count1 + 1) else count1 in
  (c0, u32 (c1 + Z.shiftr (u32 len) 29)).

(** Bytes waiting in the buffer. *)
Definition md5_have (ctx : fr_md5_ctx) : nat :=
  Z.to_nat (Z.land (Z.shiftr (mc_count0 ctx) 3) 63).

(** The state and the input left, once the buffer and then the input have been
    taken by blocks; [have] is what the buffer still holds. *)
Definition update_full (ctx : fr_md5_ctx) (have : nat) (input : list Z)
    : option (regs * buf * nat * list Z) :=
  let need := (MD5_BLOCK_LENGTH - have)%nat in
  if (need <=? length input)%nat then
    '(state, b, have, input) ←
      (if negb (Nat.eqb have 0) then
         b ← put (mc_buffer ctx) have (take need input);
         blk ← bytes b 0 MD5_BLOCK_LENGTH;
         Some (fr_MD5Transform (mc_state ctx) blk, b, O, drop need input)
       else Some (mc_state ctx, mc_buffer ctx, have, input));
    let '(state, input) := update_blocks (length input) state input in
    Some (state, b, have, input)
  else Some (mc_state ctx, mc_buffer ctx, have, input).

Definition fr_MD5Update (ctx : fr_md5_ctx) (input : list Z) : option fr_md5_ctx :=
  let '(c0, c1) := md5_count (mc_count0 ctx) (mc_count1 ctx) (Z.of_nat (length input)) in
  '(state, b, have, input) ← update_full ctx (md5_have ctx) input;
  b ← (if negb (Nat.eqb (length input) 0) then put b have input else Some b);
  Some (mk_ctx state c0 c1 b).

Definition PADDING : list Z := 128 :: replicate 63 0.

Definition put_state (r : regs) : list Z :=
  le_bytes 4 (ra r) ++ le_bytes 4 (rb r) ++ le_bytes 4 (rc r) ++ le_bytes 4 (rd_ r).

(** The number of bytes of padding and counter. *)
Definition md5_padlen (ctx : fr_md5_ctx) : nat :=
  let padlen := (MD5_BLOCK_LENGTH - md5_have ctx)%nat in
  if (padlen <? 1 + 8)%nat then (padlen + MD5_BLOCK_LENGTH)%nat else padlen.

(** The digest; the context is cleared behind it. *)
Definition fr_MD5Final (ctx : fr_md5_ctx) : option (list Z * fr_md5_ctx) :=
  let count := le_bytes 4 (mc_count0 ctx) ++ le_bytes 4 (mc_count1 ctx) in
  let padlen := md5_padlen ctx in
  pad ← bytes PADDING 0 (padlen - 8);
  ctx ← fr_MD5Update ctx pad;
  ctx ← fr_MD5Update ctx count;
  Some (put_state (mc_state ctx), mk_ctx (mk_regs 0 0 0 0) 0 0 (replicate MD5_BLOCK_LENGTH 0)).

Definition fr_md5_calc (ctx : fr_md5_ctx) (input : list Z) : option (list Z) :=
  ctx ← fr_MD5Update (fr_MD5Init ctx) input;
  fst <$> fr_MD5Final ctx.

(** Several pieces, one after the other. *)
Fixpoint updates (ctx : fr_md5_ctx) (ls : list (list Z)) : option fr_md5_ctx :=
  match ls with
  | [] => Some ctx
  | l :: ls => ctx ← fr_MD5Update ctx l; updates ctx ls
  end.

(** ** The algorithm of RFC 1321

    The specification the context implements.  [T i] is the integer part of
    2^32 times abs(sin(i + 1)); the sine is its series, with 160 binary digits
    behind the point. *)

Definition one160 : Z := Z.shiftl 1 160.
Fixpoint sine_series (n : nat) (k x2 term acc : Z) : Z :=
  match n with
  | O => acc
  | S n => let term := - (term * x2) / ((2 * k) * (2 * k + 1)) in
           sine_series n (k + 1) x2 term (acc + term)
  end.
Definition rfc_T (i : nat) : Z :=
  let x := Z.of_nat i + 1 in
  Z.shiftr (Z.abs (sine_series 110 1 (x * x) (x * one160) (x * one160))) 128.

Definition rfc_F (i : nat) (x y z : Z) : Z :=
  match (i / 16)%nat with
  | 0%nat => Z.lor (Z.land x y) (Z.land (Z.lnot x) z)
  | 1%nat => Z.lor (Z.land x z) (Z.land y (Z.lnot z))
  | 2%nat => Z.lxor (Z.lxor x y) z
  | _ => Z.lxor y (Z.lor x (u32 (Z.lnot z)))
  end.
Definition rfc_k (i : nat) : nat :=
  match (i / 16)%nat with
  | 0%nat => i mod 16
  | 1%nat => (1 + 5 * i) mod 16
  | 2%nat => (5 + 3 * i) mod 16
  | _ => (7 * i) mod 16
  end.
Definition rfc_s (i : nat) : Z :=
  nth (i mod 4) (nth (i / 16) [[7; 12; 17; 22]; [5; 9; 14; 20]; [4; 11; 16; 23]; [6; 10; 15; 21]] []) 0.

(** Operation [i]: a := b + ((a + F(b, c, d) + X[k] + T[i]) <<< s), and the names
    of the variables move on. *)
Definition rfc_op (X : list Z) (r : regs) (i : nat) : regs :=
  let '(mk_regs a b c d) := r in
  mk_regs d (u32 (b + rotl32 (u32 (a + rfc_F i b c d + nth (rfc_k i) X 0 + rfc_T i)) (rfc_s i))) b c.
Fixpoint rfc_words (l : list Z) : list Z :=
  match l with
  | b0 :: b1 :: b2 :: b3 :: l => le [b0; b1; b2; b3] :: rfc_words l
  | _ => []
  end.
Definition rfc_block (r : regs) (block : list Z) : regs :=
  let r' := foldl (rfc_op (rfc_words block)) r (seq 0 64) in
  mk_regs (u32 (ra r + ra r')) (u32 (rb r + rb r')) (u32 (rc r + rc r')) (u32 (rd_ r + rd_ r')).
Fixpoint rfc_blocks (n : nat) (r : regs) (l : list Z) : regs :=
  match n with
  | O => r
  | S n => rfc_blocks n (rfc_block r (take 64 l)) (drop 64 l)
  end.
(** One bit 1, zeros up to 56 modulo 64 bytes, and the length in bits. *)
Definition rfc_pad (m : list Z) : list Z :=
  m ++ 128 :: replicate (Z.to_nat ((55 - Z.of_nat (length m)) mod 64)) 0
    ++ le_bytes 8 (8 * Z.of_nat (length m)).
Definition md5 (m : list Z) : list Z :=
  let p := rfc_pad m in
  put_state (rfc_blocks (length p / 64) (mk_regs 0x67452301 0xefcdab89 0x98badcfe 0x10325476) p).
