(* ===== verification/Md5Proofs.v ===== *)
(** * The digest context computes MD5

    [fr_MD5Transform] is the block operation of RFC 1321, and a context that
    has taken a message in any pieces gives the digest of the whole. *)

From stdpp Require Import base list numbers option.
From Stdlib Require Import ZArith Lia.
From S2P Require Import Prelude Wire WireProofs TlvProofs Bytes Md5.

Abbreviation is_byte := (fun x : Z => 0 <= x < 256).

(** ** A block *)

Lemma u32_idemp_l a b : u32 (u32 a + b) = u32 (a + b).
Proof. unfold uN. by rewrite Zplus_mod_idemp_l. Qed.
Lemma u32_idemp_r a b : u32 (a + u32 b) = u32 (a + b).
Proof. unfold uN. by rewrite Zplus_mod_idemp_r. Qed.

Lemma F1_spec x y z : F1 x y z = Z.lor (Z.land x y) (Z.land (Z.lnot x) z).
Proof.
  apply Z.bits_inj'. intros n Hn. unfold F1.
  rewrite !Z.lxor_spec, !Z.land_spec, Z.lor_spec, !Z.land_spec, Z.lnot_spec, Z.lxor_spec by lia.
  by destruct (Z.testbit x n), (Z.testbit y n), (Z.testbit z n).
Qed.
Lemma F2_spec x y z : F2 x y z = Z.lor (Z.land x z) (Z.land y (Z.lnot z)).
Proof. unfold F2. rewrite F1_spec, (Z.land_comm z x), (Z.land_comm (Z.lnot z) y). done. Qed.

(** The registers as the step that assigns to [w] names them. *)
Definition view (w : reg) (r : regs) : regs :=
  let '(mk_regs a b c d) := r in
  match w with
  | RA => mk_regs a b c d | RD => mk_regs d a b c
  | RC => mk_regs c d a b | RB => mk_regs b c d a
  end.
Definition next_reg (w : reg) : reg :=
  match w with RA => RD | RD => RC | RC => RB | RB => RA end.
Definition step_is (m : md5_step) (i : nat) : Prop :=
  (forall x y z, ms_f m x y z = rfc_F i x y z) /\
  (ms_k m, ms_t m, ms_s m) = (rfc_k i, rfc_T i, rfc_s i).

Lemma md5step_op f w x y z k t s :
  MD5STEP f w x y z (add32 k t) s = u32 (x + rotl32 (u32 (w + f x y z + k + t)) s).
Proof.
  unfold MD5STEP, add32.
  by rewrite (u32_idemp_r w), Z.add_assoc, u32_idemp_r, Z.add_assoc, (Z.add_comm _ x).
Qed.
Lemma run_step_op inp r m i :
  step_is m i -> view (next_reg (ms_w m)) (run_step inp r m) = rfc_op inp (view (ms_w m) r) i.
Proof.
  intros [Hf [= Hk Ht Hs]]. destruct r as [a b c d]. unfold rfc_op, run_step.
  destruct (ms_w m); cbn [view next_reg]; by rewrite md5step_op, Hf, Hk, Ht, Hs.
Qed.

Fixpoint in_turn (w : reg) (ms : list md5_step) : Prop :=
  match ms with
  | [] => w = RA
  | m :: ms => ms_w m = w /\ in_turn (next_reg w) ms
  end.
Lemma run_steps_ops inp ms is_ : forall w r,
  Forall2 step_is ms is_ -> in_turn w ms ->
  foldl (run_step inp) r ms = foldl (rfc_op inp) (view w r) is_.
Proof.
  intros w r H. revert w r. induction H as [|m i ms is_ Hm _ IH]; intros w r Ht.
  - simpl in *. subst w. by destruct r.
  - destruct Ht as [<- Ht]. simpl. rewrite (IH (next_reg (ms_w m))) by done.
    by rewrite (run_step_op _ _ _ i).
Qed.

Lemma md5_table :
  map (fun m => (ms_k m, ms_t m, ms_s m)) md5_steps =
  map (fun i => (rfc_k i, rfc_T i, rfc_s i)) (seq 0 64).
Proof. vm_compute. reflexivity. Qed.
Lemma md5_functions :
  Forall2 (fun m i => forall x y z, ms_f m x y z = rfc_F i x y z) md5_steps (seq 0 64).
Proof. repeat constructor; intros; first [apply F1_spec | apply F2_spec | reflexivity]. Qed.
Lemma md5_steps_rfc : Forall2 step_is md5_steps (seq 0 64).
Proof.
  apply Forall2_same_length_lookup_2; [reflexivity|]. intros k m i Hm Hi. split.
  - exact (Forall2_lookup_lr _ _ _ _ _ _ md5_functions Hm Hi).
  - pose proof (f_equal (fun l => l !! k) md5_table) as E. cbv beta in E.
    rewrite !list_lookup_fmap, Hm, Hi in E. exact (inj Some _ _ E).
Qed.

Lemma word_le b0 b1 b2 b3 :
  0 <= b0 < 256 -> 0 <= b1 < 256 -> 0 <= b2 < 256 -> 0 <= b3 < 256 ->
  Z.lor (Z.lor (Z.lor b0 (Z.shiftl b1 8)) (Z.shiftl b2 16)) (Z.shiftl b3 24) = le [b0; b1; b2; b3].
Proof.
  intros. simpl.
  rewrite (Z.lor_comm b0), lor_shift by (simpl; lia).
  rewrite (Z.lor_comm _ (Z.shiftl b2 16)), lor_shift by (simpl; lia).
  rewrite (Z.lor_comm _ (Z.shiftl b3 24)), lor_shift by (simpl; lia). simpl. lia.
Qed.
Lemma words_rfc n : forall l, length l = (4 * n)%nat -> Forall is_byte l -> block_words l = rfc_words l.
Proof.
  induction n as [|n IH]; intros l Hl H; [by destruct l|].
  destruct l as [|b0 [|b1 [|b2 [|b3 l]]]]; simpl in Hl; try lia.
  repeat match goal with H : Forall _ (_ :: _) |- _ => apply Forall_cons_1 in H as [? H] end.
  cbn [block_words rfc_words]. rewrite word_le by done. f_equal. apply IH; [lia|done].
Qed.

Lemma transform_rfc r block :
  length block = 64%nat -> Forall is_byte block -> fr_MD5Transform r block = rfc_block r block.
Proof.
  intros Hl H. unfold fr_MD5Transform, rfc_block. rewrite (words_rfc 16) by done.
  rewrite (run_steps_ops _ md5_steps (seq 0 64) RA); [|apply md5_steps_rfc|by vm_compute].
  destruct r as [a b c d]. cbn [view]. by destruct (foldl _ _ _).
Qed.

(** ** Pieces of a message *)

Definition absorbed (r : regs) (l : list Z) : regs := rfc_blocks (length l / 64) r l.

Lemma rfc_blocks_app n : forall m r l l', length l = (64 * n)%nat ->
  rfc_blocks (n + m) r (l ++ l') = rfc_blocks m (rfc_blocks n r l) l'.
Proof.
  induction n as [|n IH]; intros m r l l' H; [by destruct l|]. cbn [rfc_blocks Nat.add].
  rewrite take_app_le, drop_app_le by lia. apply IH. rewrite length_drop. lia.
Qed.
Lemma rfc_blocks_take n : forall r l, (64 * n <= length l)%nat ->
  rfc_blocks n r (take (64 * n) l) = rfc_blocks n r l.
Proof.
  induction n as [|n IH]; intros r l H; [done|]. cbn [rfc_blocks].
  rewrite take_take, Nat.min_l, skipn_firstn_comm by lia.
  replace (64 * S n - 64)%nat with (64 * n)%nat by lia. rewrite IH; [done|rewrite length_drop; lia].
Qed.
Lemma absorbed_app r l l' n : length l = (64 * n)%nat ->
  absorbed r (l ++ l') = absorbed (rfc_blocks n r l) l'.
Proof.
  intros H. unfold absorbed. rewrite length_app, H, (Nat.mul_comm 64), Nat.div_add_l by lia.
  by apply rfc_blocks_app.
Qed.
Lemma absorbed_small r l : (length l < 64)%nat -> absorbed r l = r.
Proof. intros H. unfold absorbed. by rewrite Nat.div_small. Qed.

Lemma update_blocks_spec fuel : forall r l, (length l <= 64 * fuel + 63)%nat -> Forall is_byte l ->
  update_blocks fuel r l = (absorbed r l, drop (64 * (length l / 64)) l).
Proof.
  induction fuel as [|fuel IH]; intros r l Hl Hb; cbn [update_blocks].
  - rewrite absorbed_small, Nat.div_small by lia. done.
  - unfold MD5_BLOCK_LENGTH. destruct (64 <=? length l)%nat eqn:E.
    + apply Nat.leb_le in E. rewrite IH by (rewrite ?length_drop; try lia; by apply Forall_drop).
      rewrite transform_rfc by (rewrite ?length_take; try lia; by apply Forall_take).
      pose proof (absorbed_app r (take 64 l) (drop 64 l) 1 ltac:(rewrite length_take; lia)) as A.
      rewrite take_drop in A. rewrite A. cbn [rfc_blocks]. rewrite take_take, Nat.min_id.
      f_equal. rewrite drop_drop, length_drop. f_equal.
      replace (length l) with (1 * 64 + (length l - 64))%nat at 2 by lia.
      rewrite Nat.div_add_l by lia. lia.
    + apply Nat.leb_gt in E. by rewrite absorbed_small, Nat.div_small by lia.
Qed.

(** A context that has taken the message [m]: the whole blocks [a] are in the
    state, the bytes [t] behind them in the buffer. *)
Definition md5_init : regs := mk_regs 0x67452301 0xefcdab89 0x98badcfe 0x10325476.
Definition taken (c : fr_md5_ctx) (m : list Z) : Prop :=
  exists q a t, m = a ++ t /\ length a = (64 * q)%nat /\ (length t < 64)%nat /\
    mc_state c = rfc_blocks q md5_init a /\ take (length t) (mc_buffer c) = t /\
    length (mc_buffer c) = 64%nat /\ mc_count0 c = 8 * Z.of_nat (length m) /\ mc_count1 c = 0.

Lemma md5_have_spec c n : mc_count0 c = 8 * Z.of_nat n -> md5_have c = (n mod 64)%nat.
Proof.
  intros H. unfold md5_have. rewrite H, Z.shiftr_div_pow2 by lia. change (2 ^ 3) with 8.
  rewrite Z.mul_comm, Z.div_mul by lia. change 63 with (Z.ones 6). rewrite Z.land_ones by lia.
  change (2 ^ 6) with (Z.of_nat 64). by rewrite <- Nat2Z.inj_mod, Nat2Z.id.
Qed.

Lemma md5_count_spec n l : (8 * Z.of_nat (n + l) < 2 ^ 32) ->
  md5_count (8 * Z.of_nat n) 0 (Z.of_nat l) = (8 * Z.of_nat (n + l), 0).
Proof.
  intros H. unfold md5_count. rewrite Z.shiftl_mul_pow2 by lia. change (2 ^ 3) with 8.
  cint_with ltac:(split; simpl Z.pow in *; lia).
  destruct (_ <? _) eqn:E; bools; [lia|]. rewrite Z.shiftr_div_pow2, Z.div_small by (simpl Z.pow in *; lia).
  f_equal. lia.
Qed.

Lemma taken_init c : length (mc_buffer c) = 64%nat -> taken (fr_MD5Init c) [].
Proof. intros H. exists 0%nat, [], []. split_and!; simpl; done || lia. Qed.

(** Whole blocks from a context without waiting bytes. *)
Lemma update_blocks_aligned q a x : length a = (64 * q)%nat -> Forall is_byte x ->
  exists q' a' t, a ++ x = a' ++ t /\ length a' = (64 * q')%nat /\ (length t < 64)%nat /\
    update_blocks (length x) (rfc_blocks q md5_init a) x = (rfc_blocks q' md5_init a', t).
Proof.
  intros Ha Hx. set (n := (length x / 64)%nat).
  assert (Hn : (64 * n <= length x < 64 * n + 64)%nat).
  { pose proof (Nat.div_mod_eq (length x) 64). pose proof (Nat.mod_upper_bound (length x) 64). lia. }
  exists (q + n)%nat, (a ++ take (64 * n) x), (drop (64 * n) x).
  rewrite <- app_assoc, take_drop, length_app, length_take, length_drop. split_and!; [done|lia..|].
  rewrite update_blocks_spec by (done || lia).
  rewrite rfc_blocks_app, rfc_blocks_take by lia. done.
Qed.

Lemma put_0 (b l : list Z) : (length l <= length b)%nat ->
  put b 0 l = Some (l ++ drop (length l) b).
Proof. intros H. unfold put. by rewrite (proj2 (in_buf_true _ _ _)) by lia. Qed.

(** The buffer behind [t] takes [x]. *)
Lemma put_behind (b t x : list Z) : take (length t) b = t -> (length t + length x <= length b)%nat ->
  exists r, put b (length t) x = Some (t ++ x ++ r) /\ length (t ++ x ++ r) = length b.
Proof.
  intros Ht Hl. exists (drop (length t + length x) b). unfold put.
  rewrite (proj2 (in_buf_true _ _ _)) by lia. rewrite Ht. split; [done|].
  rewrite !length_app, length_drop. lia.
Qed.

Lemma taken_have c (a t : list Z) q : length a = (64 * q)%nat -> (length t < 64)%nat ->
  mc_count0 c = 8 * Z.of_nat (length (a ++ t)) -> md5_have c = length t.
Proof.
  intros Ha Ht Hc. rewrite (md5_have_spec c _ Hc), length_app, Ha, (Nat.mul_comm 64), Nat.add_comm,
    Nat.Div0.mod_add. by apply Nat.mod_small.
Qed.

(** The whole blocks of a piece. *)
Lemma update_full_spec c a t q x : length a = (64 * q)%nat -> (length t < 64)%nat ->
  mc_state c = rfc_blocks q md5_init a -> take (length t) (mc_buffer c) = t ->
  length (mc_buffer c) = 64%nat -> Forall is_byte (t ++ x) ->
  exists q' a' t' x' b, (a ++ t) ++ x = a' ++ t' ++ x' /\ length a' = (64 * q')%nat /\
    (length (t' ++ x') < 64)%nat /\ take (length t') b = t' /\ length b = 64%nat /\
    update_full c (length t) x = Some (rfc_blocks q' md5_init a', b, length t', x').
Proof.
  intros Ha Ht Hs Hb Hl Hx. pose proof Hx as [Hxt Hxx]%Forall_app. unfold update_full, MD5_BLOCK_LENGTH.
  destruct (64 - length t <=? length x)%nat eqn:E.
  2:{ apply Nat.leb_gt in E. exists q, a, t, x, (mc_buffer c). rewrite Hs, app_assoc, length_app.
      split_and!; [done..|lia|done|done|done]. }
  apply Nat.leb_le in E. destruct (length t =? 0)%nat eqn:Et; cbn [negb].
  { apply Nat.eqb_eq in Et. apply nil_length_inv in Et as ->. simpl. rewrite Hs, app_nil_r.
    destruct (update_blocks_aligned q a x Ha Hxx) as (q' & a' & t' & -> & Ha' & Ht' & ->).
    exists q', a', [], t', (mc_buffer c). split_and!; done. }
  apply Nat.eqb_neq in Et. set (n := (64 - length t)%nat) in *.
  assert (Hn : length (take n x) = n) by (rewrite length_take; lia).
  destruct (put_behind (mc_buffer c) t (take n x) Hb ltac:(lia)) as (r & -> & Hr).
  cbn [mbind option_bind]. rewrite !length_app, Hn, Hl in Hr.
  assert (r = []) as -> by (apply nil_length_inv; lia). rewrite app_nil_r.
  rewrite bytes_Some by (rewrite length_app; lia). cbn [mbind option_bind].
  rewrite drop_0, take_ge by (rewrite length_app; lia).
  rewrite transform_rfc; [|rewrite length_app; lia|apply Forall_app; split; [done|by apply Forall_take]].
  assert (Hb' : rfc_block (mc_state c) (t ++ take n x) = rfc_blocks (q + 1) md5_init (a ++ t ++ take n x)).
  { rewrite rfc_blocks_app by done. cbn [rfc_blocks]. by rewrite Hs, (take_ge (t ++ take n x)) by (rewrite length_app; lia). }
  rewrite Hb'. destruct (update_blocks_aligned (q + 1) (a ++ t ++ take n x) (drop n x))
    as (q' & a' & t' & E' & Ha' & Ht' & ->); [rewrite !length_app; lia|by apply Forall_drop|].
  exists q', a', [], t', (t ++ take n x). simpl app. rewrite <- E', <- !app_assoc, take_drop.
  split_and!; try done. rewrite length_app. lia.
Qed.

Lemma update_taken c m x : taken c m -> Forall is_byte (m ++ x) ->
  8 * Z.of_nat (length (m ++ x)) < 2 ^ 32 ->
  exists c', fr_MD5Update c x = Some c' /\ taken c' (m ++ x).
Proof.
  intros (q & a & t & -> & Ha & Ht & Hs & Hb & Hl & H0 & H1) Hx Hlen.
  pose proof Hx as [[_ Hxt]%Forall_app Hxx]%Forall_app.
  rewrite length_app in Hlen. unfold fr_MD5Update.
  rewrite H0, H1, md5_count_spec, (taken_have c a t q Ha Ht H0) by done.
  destruct (update_full_spec c a t q x Ha Ht Hs Hb Hl) as (q' & a' & t' & x' & b & E & Ha' & Ht' & Hb' & Hl' & ->).
  { by apply Forall_app. }
  cbn [mbind option_bind]. rewrite length_app in Ht'.
  assert (exists b', (if negb (length x' =? 0)%nat then put b (length t') x' else Some b) = Some b' /\
    length b' = 64%nat /\ take (length (t' ++ x')) b' = t' ++ x') as (b' & -> & Hl'' & Hb'').
  { destruct x' as [|z x']; [rewrite app_nil_r; by exists b|]. simpl negb.
    destruct (put_behind b t' (z :: x') Hb' ltac:(lia)) as (r & -> & Hr).
    eexists. split_and!; [done|lia|]. by rewrite app_assoc, take_app_length. }
  eexists. split; [done|]. exists q', a', (t' ++ x'). rewrite E. split_and!; try done.
  - rewrite length_app. lia.
  - cbn [mc_count0]. rewrite <- E, !length_app. lia.
Qed.

Lemma updates_taken ls : forall c m, taken c m -> Forall is_byte (m ++ concat ls) ->
  8 * Z.of_nat (length (m ++ concat ls)) < 2 ^ 32 ->
  exists c', updates c ls = Some c' /\ taken c' (m ++ concat ls).
Proof.
  induction ls as [|l ls IH]; intros c m Hc Hb Hl; simpl in *; [rewrite app_nil_r; by exists c|].
  rewrite (app_assoc m l) in *. pose proof Hb as [Hb1 _]%Forall_app.
  destruct (update_taken c m l Hc Hb1) as (c1 & -> & H1); [|by apply IH].
  rewrite !length_app in *. lia.
Qed.

(** ** The end of the message *)

Lemma padding_length n : (n < 64)%nat ->
  let p := (64 - n)%nat in
  let p := if (p <? 1 + 8)%nat then (p + 64)%nat else p in
  (p - 8 = S (Z.to_nat ((55 - Z.of_nat n) mod 64)))%nat.
Proof.
  intros H. simpl. destruct (_ <? _)%nat eqn:E.
  - apply Nat.ltb_lt in E. rewrite <- (Z.mod_add _ 1), Z.mod_small by lia. lia.
  - apply Nat.ltb_ge in E. rewrite Z.mod_small by lia. lia.
Qed.

Lemma padding_take n : (n <= 63)%nat -> bytes PADDING 0 (S n) = Some (128 :: replicate n 0).
Proof.
  intros H. rewrite bytes_Some by (simpl; lia). unfold PADDING.
  rewrite drop_0. cbn [take]. by rewrite take_replicate, Nat.min_l by lia.
Qed.

Lemma le_bytes_8 n : 0 <= n < 2 ^ 32 -> le_bytes 4 n ++ le_bytes 4 0 = le_bytes 8 n.
Proof.
  intros H. simpl. do 4 f_equal.
  assert (n / 256 / 256 / 256 / 256 = 0) as ->.
  { rewrite !Z.div_div by lia. apply Z.div_small. simpl in *. lia. }
  done.
Qed.
Lemma le_bytes_byte n : forall v, Forall is_byte (le_bytes n v).
Proof.
  induction n as [|n IH]; intros v; simpl; constructor; [|done].
  apply Z.mod_pos_bound. lia.
Qed.

Lemma rfc_pad_aligned m : exists n, length (rfc_pad m) = (64 * n)%nat.
Proof.
  exists (Z.to_nat ((Z.of_nat (length m) + (55 - Z.of_nat (length m)) mod 64 + 9) / 64)).
  unfold rfc_pad. rewrite !length_app, length_cons, length_app, length_replicate, le_bytes_length.
  pose proof (Z.div_mod (55 - Z.of_nat (length m)) 64 ltac:(lia)) as E.
  pose proof (Z.mod_pos_bound (55 - Z.of_nat (length m)) 64 ltac:(lia)).
  set (r := (55 - Z.of_nat (length m)) mod 64) in *. set (d := (55 - Z.of_nat (length m)) / 64) in *.
  replace (Z.of_nat (length m) + r + 9) with ((1 - d) * 64) by lia. rewrite Z.div_mul; lia.
Qed.
Lemma taken_aligned c m : taken c m -> (exists n, length m = (64 * n)%nat) ->
  mc_state c = rfc_blocks (length m / 64) md5_init m.
Proof.
  intros (q & a & t & -> & Ha & Ht & -> & _) [n Hn]. rewrite length_app in Hn.
  assert (t = []) as -> by (apply nil_length_inv; lia).
  by rewrite app_nil_r, Ha, Nat.mul_comm, Nat.div_mul.
Qed.

Lemma final_taken c m : taken c m -> Forall is_byte m -> Z.of_nat (length m) + 72 < 2 ^ 29 ->
  fst <$> fr_MD5Final c = Some (md5 m).
Proof.
  intros Hc Hm Hl. pose proof Hc as (q & a & t & E & Ha & Ht & _ & _ & _ & H0 & H1).
  set (k := Z.to_nat ((55 - Z.of_nat (length m)) mod 64)).
  assert (Hk : (k < 64)%nat) by (unfold k; pose proof (Z.mod_pos_bound (55 - Z.of_nat (length m)) 64); lia).
  unfold fr_MD5Final, md5_padlen, MD5_BLOCK_LENGTH. rewrite H0, H1.
  assert (md5_have c = length t) as -> by (apply (taken_have c a t q); congruence).
  rewrite (padding_length (length t) Ht).
  assert (Z.to_nat ((55 - Z.of_nat (length t)) mod 64) = k) as ->.
  { unfold k. rewrite E, length_app, Ha. f_equal. rewrite Nat2Z.inj_add, Nat2Z.inj_mul.
    rewrite <- (Z.mod_add (55 - _) (- Z.of_nat q)) by lia. f_equal. lia. }
  rewrite padding_take by lia. cbn [mbind option_bind].
  destruct (update_taken c m (128 :: replicate k 0) Hc) as (c1 & -> & Hc1).
  { apply Forall_app. split; [done|]. constructor; [lia|]. by apply Forall_replicate. }
  { rewrite length_app. simpl length. rewrite length_replicate. simpl Z.pow in *. lia. }
  cbn [mbind option_bind]. rewrite le_bytes_8 by (simpl Z.pow in *; lia).
  destruct (update_taken c1 _ (le_bytes 8 (8 * Z.of_nat (length m))) Hc1) as (c2 & -> & Hc2).
  { rewrite !Forall_app. split_and!; [done| |apply le_bytes_byte]. constructor; [lia|]. by apply Forall_replicate. }
  { rewrite !length_app, le_bytes_length. simpl length. rewrite length_replicate. simpl Z.pow in *. lia. }
  cbn [mbind option_bind fmap option_fmap option_map fst mc_state]. f_equal. unfold md5.
  rewrite <- app_assoc in Hc2. cbn [app] in Hc2. change (taken c2 (rfc_pad m)) in Hc2.
  by rewrite (taken_aligned _ _ Hc2 (rfc_pad_aligned m)).
Qed.

(** C15: A digest context of ksz_radius.c computes MD5 (RFC 1321), whatever the
    pieces are in which it gets a message of less than 2^29 - 72 bytes, the
    buffer of the context holds at first, and however the pieces straddle the
    blocks; no piece is written outside of the buffer. *)
Theorem md5_of_pieces c ls :
  length (mc_buffer c) = MD5_BLOCK_LENGTH -> Forall is_byte (concat ls) ->
  Z.of_nat (length (concat ls)) + 72 < 2 ^ 29 ->
  exists c', updates (fr_MD5Init c) ls = Some c' /\ fst <$> fr_MD5Final c' = Some (md5 (concat ls)).
Proof.
  intros Hc Hb Hl.
  destruct (updates_taken ls (fr_MD5Init c) [] (taken_init c Hc) Hb) as (c' & E & H').
  { simpl in *. lia. }
  exists c'. split; [exact E|]. by apply final_taken.
Qed.

(** The digests of "" and of "abc" in the test suite of the RFC. *)
Definition md5_ctx0 : fr_md5_ctx := mk_ctx (mk_regs 0 0 0 0) 0 0 (replicate 64 165).
Lemma md5_of_pieces_witness :
  exists c', updates (fr_MD5Init md5_ctx0) [[97]; []; [98; 99]] = Some c' /\
    fst <$> fr_MD5Final c' = Some (md5 [97; 98; 99]).
Proof.
  apply (md5_of_pieces md5_ctx0 [[97]; []; [98; 99]]); [reflexivity| |vm_compute; reflexivity].
  repeat constructor; lia.
Defined.
Example md5_abc : fr_md5_calc md5_ctx0 [97; 98; 99] = Some
  [0x90; 0x01; 0x50; 0x98; 0x3c; 0xd2; 0x4f; 0xb0; 0xd6; 0x96; 0x3f; 0x7d; 0x28; 0xe1; 0x7f; 0x72].
Proof. vm_compute. reflexivity. Qed.
Example md5_empty : fr_md5_calc md5_ctx0 [] = Some
  [0xd4; 0x1d; 0x8c; 0xd9; 0x8f; 0x00; 0xb2; 0x04; 0xe9; 0x80; 0x09; 0x98; 0xec; 0xf8; 0x42; 0x7e].
Proof. vm_compute. reflexivity. Qed.

(** The carry of the bit counter is found by comparing it with the number of
    bytes, not of bits: with 2^29 - 1 bytes taken, 100 more bytes lose it. *)
Lemma md5_count_carry_lost :
  md5_count (2 ^ 32 - 8) 0 100 = (792, 0) /\ (2 ^ 32 - 8) + 8 * 100 = 792 + 1 * 2 ^ 32.
Proof. by vm_compute. Qed.
