(* ===== verification/Isaac.v ===== *)
(** * Random numbers of the authentication program (nettest/network/ksz_radius.c)

    The generator ISAAC behind the authenticators of requests: its pool, how it
    is filled, and that no pointer of it leaves the pool. *)

From stdpp Require Import base list numbers option.
From Stdlib Require Import ZArith Lia.
From S2P Require Import Prelude Wire WireProofs TlvProofs Bytes Md5 Md5Proofs.

Definition RANDSIZ : nat := 256.
Definition AUTH_VECTOR_LEN : nat := 16.

Record fr_randctx := mk_rand {
  randcnt : Z; randrsl : list Z; randmem : list Z; randa : Z; randb : Z; randc : Z }.

(** ** A round of the generator *)

Definition ind (mm : list Z) (x : Z) : option Z := mm !! Z.to_nat (Z.land (Z.shiftr x 2) 255).

(** The variables of [fr_isaac]: [a], [b] and the two arrays; the pointers [m]
    and [r] are at [i], [m2] at [j]. *)
Record isaac := mk_isaac { is_a : Z; is_b : Z; is_mem : list Z; is_rsl : list Z }.
Definition rngstep (mix : Z -> Z) (i j : nat) (s : isaac) : option isaac :=
  x ← is_mem s !! i;
  v ← is_mem s !! j;
  let a := u32 (Z.lxor (is_a s) (mix (is_a s)) + v) in
  w ← ind (is_mem s) x;
  let y := u32 (w + a + is_b s) in
  mem ← aset (is_mem s) (Z.of_nat i) y;
  w ← ind mem (Z.shiftr y 8);
  let b := u32 (w + x) in
  rsl ← aset (is_rsl s) (Z.of_nat i) b;
  Some (mk_isaac a b mem rsl).

(** Four steps of the loop, and the loop from [i] on, [m2] being at [j]. *)
Definition rngsteps (i j : nat) (s : isaac) : option isaac :=
  s ← rngstep (fun a => u32 (Z.shiftl a 13)) i j s;
  s ← rngstep (fun a => Z.shiftr a 6) (i + 1) (j + 1) s;
  s ← rngstep (fun a => u32 (Z.shiftl a 2)) (i + 2) (j + 2) s;
  rngstep (fun a => Z.shiftr a 16) (i + 3) (j + 3) s.
Fixpoint isaac_loop (n i j : nat) (s : isaac) : option isaac :=
  match n with
  | O => Some s
  | S n => s ← rngsteps i j s; isaac_loop n (i + 4) (j + 4) s
  end.

Definition fr_isaac (ctx : fr_randctx) : option fr_randctx :=
  let c := u32 (randc ctx + 1) in
  s ← isaac_loop 32 0 128 (mk_isaac (randa ctx) (u32 (randb ctx + c)) (randmem ctx) (randrsl ctx));
  s ← isaac_loop 32 128 0 s;
  Some (mk_rand (randcnt ctx) (is_rsl s) (is_mem s) (is_a s) (is_b s) c).

(** ** Filling the pool *)

Record eight := mk_eight { e0 : Z; e1 : Z; e2 : Z; e3 : Z; e4 : Z; e5 : Z; e6 : Z; e7 : Z }.
Definition mix (x : eight) : eight :=
  let '(mk_eight a b c d e f g h) := x in
  let a := Z.lxor a (u32 (Z.shiftl b 11)) in let d := add32 d a in let b := add32 b c in
  let b := Z.lxor b (Z.shiftr c 2) in let e := add32 e b in let c := add32 c d in
  let c := Z.lxor c (u32 (Z.shiftl d 8)) in let f := add32 f c in let d := add32 d e in
  let d := Z.lxor d (Z.shiftr e 16) in let g := add32 g d in let e := add32 e f in
  let e := Z.lxor e (u32 (Z.shiftl f 10)) in let h := add32 h e in let f := add32 f g in
  let f := Z.lxor f (Z.shiftr g 4) in let a := add32 a f in let g := add32 g h in
  let g := Z.lxor g (u32 (Z.shiftl h 8)) in let b := add32 b g in let h := add32 h a in
  let h := Z.lxor h (Z.shiftr a 9) in let c := add32 c h in let a := add32 a b in
  mk_eight a b c d e f g h.

Definition add_eight (x : eight) (l : list Z) : option eight :=
  match l with
  | [v0; v1; v2; v3; v4; v5; v6; v7] =>
      Some (mk_eight (add32 (e0 x) v0) (add32 (e1 x) v1) (add32 (e2 x) v2) (add32 (e3 x) v3)
              (add32 (e4 x) v4) (add32 (e5 x) v5) (add32 (e6 x) v6) (add32 (e7 x) v7))
  | _ => UB
  end.
Definition eight_list (x : eight) : list Z := [e0 x; e1 x; e2 x; e3 x; e4 x; e5 x; e6 x; e7 x].

(** The loop over the pool from [i] on; [src m] is the array that is mixed in, if one is. *)
Fixpoint scramble (n i : nat) (src : list Z -> option (list Z)) (x : eight) (m : list Z)
    : option (eight * list Z) :=
  match n with
  | O => Some (x, m)
  | S n =>
      x ← match src m with
          | None => Some x
          | Some l => l ← bytes l i 8; add_eight x l
          end;
      let x := mix x in
      m ← put m i (eight_list x);
      scramble n (i + 8) src x m
  end.

Definition golden : eight :=
  let g := 0x9e3779b9 in mk_eight g g g g g g g g.
Definition fr_randinit (ctx : fr_randctx) (flag : bool) : option fr_randctx :=
  let x := mix (mix (mix (mix golden))) in
  m ← (if flag then
         '(x, m) ← scramble 32 0 (fun _ => Some (randrsl ctx)) x (randmem ctx);
         snd <$> scramble 32 0 Some x m
       else snd <$> scramble 32 0 (fun _ => None) x (randmem ctx));
  ctx ← fr_isaac (mk_rand (randcnt ctx) (randrsl ctx) m 0 0 0);
  Some (mk_rand (Z.of_nat RANDSIZ) (randrsl ctx) (randmem ctx) (randa ctx) (randb ctx) (randc ctx)).

(** Where the first contents come from: what the calls of [read] on
    /dev/urandom give, until one fails, or the time and the error code. *)
Inductive pool_source := Urandom (reads : list (list Z)) | NoDevice (now err : Z).

Definition words_of (b : list Z) : list Z := rfc_words b.
Definition bytes_of (l : list Z) : list Z := concat (map (le_bytes 4) l).
(** The loop of [read]: every call writes to the start of the array. *)
Fixpoint read_pool (reads : list (list Z)) (total : nat) (b : list Z) : option (list Z) :=
  if (total <? 4 * RANDSIZ)%nat then
    match reads with
    | [] => Some b
    | l :: reads => b ← put b 0 l; read_pool reads (total + length l) b
    end
  else Some b.

Definition fr_rand_fill (src : pool_source) : option fr_randctx :=
  let zeros := replicate RANDSIZ 0 in
  rsl ← match src with
        | Urandom reads => words_of <$> read_pool reads 0 (bytes_of zeros)
        | NoDevice now err => Some (u32 (-1) :: u32 now :: u32 err :: drop 3 zeros)
        end;
  ctx ← fr_randinit (mk_rand 0 rsl zeros 0 0 0) true;
  Some (mk_rand 0 (randrsl ctx) (randmem ctx) (randa ctx) (randb ctx) (randc ctx)).

(** ** Drawing numbers

    The pool is [None] until [fr_rand_initialized] is set. *)

Abbreviation rand_pool := (option fr_randctx).
Definition pool_ready (src : pool_source) (p : rand_pool) : option fr_randctx :=
  match p with Some ctx => Some ctx | None => fr_rand_fill src end.

Definition fr_rand (src : pool_source) (p : rand_pool) : option (Z * rand_pool) :=
  ctx ← pool_ready src p;
  num ← aget (randrsl ctx) (randcnt ctx);
  let cnt := u32 (randcnt ctx + 1) in
  let ctx := mk_rand cnt (randrsl ctx) (randmem ctx) (randa ctx) (randb ctx) (randc ctx) in
  ctx ← (if cnt >=? 256 then
           fr_isaac (mk_rand 0 (randrsl ctx) (randmem ctx) (randa ctx) (randb ctx) (randc ctx))
         else Some ctx);
  Some (num, Some ctx).

Definition FNV_MAGIC_INIT : Z := 0x811c9dc5.
Definition FNV_MAGIC_PRIME : Z := 0x01000193.
Definition fr_hash (data : list Z) : Z :=
  foldl (fun hash p => u32 (Z.lxor hash p * FNV_MAGIC_PRIME)) FNV_MAGIC_INIT data.
Definition fr_hash_update (data : list Z) (hash : Z) : Z :=
  foldl (fun hash p => Z.lxor (u32 (hash * FNV_MAGIC_PRIME)) p) hash data.

Definition fr_rand_seed (src : pool_source) (p : rand_pool) (data : option (list Z)) : option rand_pool :=
  ctx ← pool_ready src p;
  match data with
  | None => Some (Some ctx)
  | Some data =>
      '(hash, p) ← fr_rand src (Some ctx);
      '(hash, p) ← (if hash =? 0 then fr_rand src p else Some (hash, p));
      let hash := fr_hash_update data hash in
      ctx ← p;
      m ← aget (randmem ctx) (randcnt ctx);
      mem ← aset (randmem ctx) (randcnt ctx) (Z.lxor m hash);
      Some (Some (mk_rand (randcnt ctx) (randrsl ctx) mem (randa ctx) (randb ctx) (randc ctx)))
  end.

(** The authenticator of a request, and the pool behind it. *)
Fixpoint vector_words (n : nat) (src : pool_source) (base : Z) (p : rand_pool)
    : option (list Z * rand_pool) :=
  match n with
  | O => Some ([], p)
  | S n =>
      '(hash, p) ← fr_rand src p;
      '(l, p) ← vector_words n src base p;
      Some (le_bytes 4 (Z.lxor hash base) ++ l, p)
  end.
Definition prep_radius_req (src : pool_source) (p : rand_pool) : option (list Z * rand_pool) :=
  '(base, p) ← fr_rand src p;
  '(l, p) ← vector_words (AUTH_VECTOR_LEN / 4) src base p;
  '(_, p) ← fr_rand src p;
  Some (l, p).

(** ** The pool is never left *)

Definition word (z : Z) : Prop := 0 <= z < 2 ^ 32.
Record pool_ok (ctx : fr_randctx) : Prop := mk_pool_ok {
  ok_rsl : length (randrsl ctx) = RANDSIZ; ok_mem : length (randmem ctx) = RANDSIZ;
  ok_words : Forall word (randrsl ctx) }.
Definition rand_ok (p : rand_pool) : Prop :=
  match p with None => True | Some ctx => pool_ok ctx /\ 0 <= randcnt ctx < 256 end.
(** Each call of [read] gives at most the bytes it was asked for. *)
Fixpoint reads_ok (total : nat) (reads : list (list Z)) : Prop :=
  match reads with
  | [] => True
  | l :: reads => (total + length l <= 4 * RANDSIZ)%nat /\ reads_ok (total + length l) reads
  end.
Definition source_ok (src : pool_source) : Prop :=
  match src with
  | Urandom reads => reads_ok 0 reads /\ Forall (Forall is_byte) reads
  | NoDevice _ _ => True
  end.

Lemma word_u32 z : word (u32 z).
Proof. apply (uN_range 32). lia. Qed.

Definition isaac_ok (s : isaac) : Prop :=
  length (is_mem s) = RANDSIZ /\ length (is_rsl s) = RANDSIZ /\ Forall word (is_rsl s).

Lemma ind_Some mm x : length mm = RANDSIZ -> is_Some (ind mm x).
Proof.
  intros H. apply lookup_lt_is_Some. rewrite H. change 255 with (Z.ones 8).
  rewrite Z.land_ones by lia. pose proof (Z.mod_pos_bound (Z.shiftr x 2) (2 ^ 8)).
  unfold RANDSIZ. lia.
Qed.
Lemma aset_ok (l : list Z) i v : (i < length l)%nat ->
  exists l', aset l (Z.of_nat i) v = Some l' /\ length l' = length l /\
    (Forall word l -> word v -> Forall word l').
Proof.
  intros H. exists (<[i := v]> l). split_and!; [by apply aset_Some|apply length_insert|].
  intros Hl Hv. by apply Forall_insert.
Qed.

Lemma rngstep_ok mix i j s : isaac_ok s -> (i < RANDSIZ)%nat -> (j < RANDSIZ)%nat ->
  exists s', rngstep mix i j s = Some s' /\ isaac_ok s'.
Proof.
  intros (Hm & Hr & Hw) Hi Hj. unfold rngstep.
  destruct (lookup_lt_is_Some_2 (is_mem s) i) as [x ->]; [lia|].
  destruct (lookup_lt_is_Some_2 (is_mem s) j) as [v ->]; [lia|]. cbn [mbind option_bind].
  destruct (ind_Some (is_mem s) x Hm) as [w ->]. cbn [mbind option_bind].
  edestruct (aset_ok (is_mem s) i) as (mem & -> & Hm' & _); [lia|]. cbn [mbind option_bind].
  edestruct (ind_Some mem) as [w' ->]; [congruence|]. cbn [mbind option_bind].
  edestruct (aset_ok (is_rsl s) i) as (rsl & -> & Hr' & Hw'); [lia|]. cbn [mbind option_bind].
  eexists. split; [done|]. split_and!; [simpl; congruence..|]. apply Hw'; [done|apply word_u32].
Qed.
Lemma isaac_loop_ok n : forall i j s, isaac_ok s ->
  (i + 4 * n <= RANDSIZ)%nat -> (j + 4 * n <= RANDSIZ)%nat ->
  exists s', isaac_loop n i j s = Some s' /\ isaac_ok s'.
Proof.
  induction n as [|n IH]; intros i j s Hs Hi Hj; [by exists s|]. cbn [isaac_loop]. unfold rngsteps.
  do 4 (edestruct rngstep_ok as (? & -> & ?); [eassumption|lia..|]; cbn [mbind option_bind]).
  apply IH; [done|lia..].
Qed.
Lemma fr_isaac_ok ctx : pool_ok ctx ->
  exists ctx', fr_isaac ctx = Some ctx' /\ pool_ok ctx' /\ randcnt ctx' = randcnt ctx.
Proof.
  intros [Hr Hm Hw]. unfold fr_isaac.
  edestruct (isaac_loop_ok 32 0 128) as (s1 & -> & H1); [|unfold RANDSIZ; lia..|]; [done|].
  cbn [mbind option_bind].
  edestruct (isaac_loop_ok 32 128 0 s1 H1) as (s2 & -> & (? & ? & ?)); [unfold RANDSIZ; lia..|].
  eexists. done.
Qed.

Lemma add_eight_Some x l : length l = 8%nat -> is_Some (add_eight x l).
Proof. intros H. do 8 (destruct l as [|? l]; [done|]). by destruct l. Qed.
Lemma scramble_ok n : forall i src x m, length m = RANDSIZ ->
  (forall m l, length m = RANDSIZ -> src m = Some l -> length l = RANDSIZ) ->
  (i + 8 * n <= RANDSIZ)%nat ->
  exists x' m', scramble n i src x m = Some (x', m') /\ length m' = RANDSIZ.
Proof.
  induction n as [|n IH]; intros i src x m Hm Hs Hi; [by exists x, m|]. cbn [scramble].
  assert (exists y, match src m with
    | None => Some x | Some l => l ← bytes l i 8; add_eight x l end = Some y) as [y ->].
  { specialize (Hs m). destruct (src m) as [l|]; [|by exists x]. specialize (Hs l Hm eq_refl).
    rewrite bytes_Some by lia. apply add_eight_Some. rewrite length_take, length_drop. lia. }
  cbn [mbind option_bind].
  destruct (put_Some m i (eight_list (mix y))) as (m' & -> & Hm'); [simpl; lia|].
  apply IH; [congruence|done|lia].
Qed.
Lemma fr_randinit_ok ctx flag : pool_ok ctx ->
  exists ctx', fr_randinit ctx flag = Some ctx' /\ pool_ok ctx'.
Proof.
  intros [Hr Hm Hw]. unfold fr_randinit. generalize (mix (mix (mix (mix golden)))) as x. intros x.
  assert (exists m, (if flag then
      '(x, m) ← scramble 32 0 (fun _ => Some (randrsl ctx)) x (randmem ctx);
      snd <$> scramble 32 0 Some x m
    else snd <$> scramble 32 0 (fun _ => None) x (randmem ctx)) = Some m /\
    length m = RANDSIZ) as (m & -> & Hm').
  { assert (S32 : (0 + 8 * 32 <= RANDSIZ)%nat) by (unfold RANDSIZ; lia). destruct flag.
    - destruct (scramble_ok 32 0 (fun _ => Some (randrsl ctx)) x (randmem ctx) Hm) as (x1 & m1 & -> & H1);
        [naive_solver|done|]. cbn [mbind option_bind].
      destruct (scramble_ok 32 0 Some x1 m1 H1) as (x2 & m2 & -> & H2); [naive_solver|done|].
      by exists m2.
    - destruct (scramble_ok 32 0 (fun _ => None) x (randmem ctx) Hm) as (x1 & m1 & -> & H1);
        [naive_solver|done|]. by exists m1. }
  cbn [mbind option_bind]. edestruct fr_isaac_ok as (c & -> & [] & _); [by split|].
  cbn [mbind option_bind]. eexists. split; [done|]. by split.
Qed.

Lemma rfc_words_ok n : forall l, length l = (4 * n)%nat -> Forall is_byte l ->
  length (rfc_words l) = n /\ Forall word (rfc_words l).
Proof.
  induction n as [|n IH]; intros l Hl H; [by destruct l|].
  destruct l as [|b0 [|b1 [|b2 [|b3 l]]]]; simpl in Hl; try lia.
  repeat match goal with H : Forall _ (_ :: _) |- _ => apply Forall_cons_1 in H as [? H] end.
  destruct (IH l) as [E F]; [lia|done|]. cbn [rfc_words length]. split; [by rewrite E|].
  constructor; [|done]. unfold word. simpl in *. lia.
Qed.
Lemma read_pool_ok reads : forall total b, reads_ok total reads -> Forall (Forall is_byte) reads ->
  length b = (4 * RANDSIZ)%nat -> Forall is_byte b ->
  exists b', read_pool reads total b = Some b' /\ length b' = (4 * RANDSIZ)%nat /\ Forall is_byte b'.
Proof.
  induction reads as [|l reads IH]; intros total b Hr Hb Hl H; cbn [read_pool];
    (case_match; [|by exists b]); [by exists b|].
  destruct Hr as [Hr1 Hr]. apply Forall_cons_1 in Hb as [Hb1 Hb].
  rewrite put_0 by lia. cbn [mbind option_bind]. apply IH; [done|done| |].
  - rewrite length_app, length_drop. lia.
  - apply Forall_app. split; [done|]. by apply Forall_drop.
Qed.

Lemma bytes_of_byte l : Forall is_byte (bytes_of l).
Proof. induction l; [done|]. apply Forall_app. split; [apply le_bytes_byte|done]. Qed.

Lemma fr_rand_fill_ok src : source_ok src ->
  exists ctx, fr_rand_fill src = Some ctx /\ pool_ok ctx /\ 0 <= randcnt ctx < 256.
Proof.
  intros H. unfold fr_rand_fill.
  assert (exists rsl, match src with
    | Urandom reads => words_of <$> read_pool reads 0 (bytes_of (replicate RANDSIZ 0))
    | NoDevice now err => Some (u32 (-1) :: u32 now :: u32 err :: drop 3 (replicate RANDSIZ 0))
    end = Some rsl /\ length rsl = RANDSIZ /\ Forall word rsl) as (rsl & -> & Hl & Hw).
  { destruct src as [reads|now err]; simpl in H.
    - destruct H as [H1 H2].
      destruct (read_pool_ok reads 0 (bytes_of (replicate RANDSIZ 0)) H1 H2) as (b & -> & Hb & Hf);
        [reflexivity| |].
      { apply bytes_of_byte. }
      destruct (rfc_words_ok RANDSIZ b Hb Hf). by eexists.
    - eexists. split_and!; [done|reflexivity|].
      repeat (constructor; [apply word_u32|]). apply Forall_drop, Forall_replicate. by unfold word. }
  cbn [mbind option_bind].
  edestruct fr_randinit_ok as (ctx & -> & []); [|cbn [mbind option_bind]].
  { split; [exact Hl|reflexivity|exact Hw]. }
  eexists. split; [done|]. split; [by split|]. simpl. lia.
Qed.

Lemma pool_ready_ok src p : source_ok src -> rand_ok p ->
  exists ctx, pool_ready src p = Some ctx /\ pool_ok ctx /\ 0 <= randcnt ctx < 256.
Proof. intros Hs Hp. destruct p as [ctx|]; [by exists ctx|]. by apply fr_rand_fill_ok. Qed.

Lemma fr_rand_ok src p : source_ok src -> rand_ok p ->
  exists num ctx, fr_rand src p = Some (num, Some ctx) /\ word num /\ rand_ok (Some ctx).
Proof.
  intros Hs Hp. unfold fr_rand. destruct (pool_ready_ok src p Hs Hp) as (ctx & -> & [Hr Hm Hw] & Hc).
  cbn [mbind option_bind]. rewrite <- (Z2Nat.id (randcnt ctx)), aget_Some by lia.
  destruct (lookup_lt_is_Some_2 (randrsl ctx) (Z.to_nat (randcnt ctx))) as [num Hn].
  { rewrite Hr. unfold RANDSIZ. lia. }
  rewrite Hn, Z2Nat.id, u32_small by lia. cbn [mbind option_bind].
  assert (word num) by (by eapply Forall_lookup_1). destruct (_ >=? 256) eqn:E; bools.
  - edestruct fr_isaac_ok as (c & -> & Ho & Hc'); [by split|]. cbn [mbind option_bind].
    eexists _, _. split_and!; [done|done|]. split; [done|]. rewrite Hc'. simpl. lia.
  - cbn [mbind option_bind]. eexists _, _. split_and!; [done|done|].
    split; [by split|]. simpl. lia.
Qed.

Lemma vector_words_ok n src base : forall p, source_ok src -> rand_ok p ->
  exists l p', vector_words n src base p = Some (l, p') /\ length l = (4 * n)%nat /\
    Forall is_byte l /\ rand_ok p'.
Proof.
  induction n as [|n IH]; intros p Hs Hp; [by exists [], p|]. cbn [vector_words].
  destruct (fr_rand_ok src p Hs Hp) as (h & p1 & -> & _ & H1). cbn [mbind option_bind].
  destruct (IH (Some p1) Hs H1) as (l & p2 & -> & Hl & Hb & H2). cbn [mbind option_bind].
  eexists _, _. split_and!; [done| | |done].
  - rewrite length_app, le_bytes_length. lia.
  - apply Forall_app. split; [apply le_bytes_byte|done].
Qed.

(** What comes out of it is 16 bytes. *)
Lemma vector_words_shape n src base : forall p l p', vector_words n src base p = Some (l, p') ->
  length l = (4 * n)%nat /\ Forall is_byte l.
Proof.
  induction n as [|n IH]; intros p l p'; cbn [vector_words]; [intros H; injection H as <- _; by split|].
  intros H. apply bind_Some in H as ([h q] & _ & H). apply bind_Some in H as ([l1 q1] & H1 & H).
  apply (inj Some), pair_equal_spec in H as [<- _].
  apply IH in H1 as [Hl Hb]. split; [rewrite length_app, le_bytes_length; lia|].
  apply Forall_app. split; [apply le_bytes_byte|done].
Qed.
Lemma prep_radius_req_shape src p v p' : prep_radius_req src p = Some (v, p') ->
  length v = AUTH_VECTOR_LEN /\ Forall is_byte v.
Proof.
  unfold prep_radius_req. intros H. apply bind_Some in H as ([b q] & _ & H).
  apply bind_Some in H as ([l q1] & H1 & H). apply bind_Some in H as ([h q2] & _ & H). injection H as <- _.
  by apply vector_words_shape in H1.
Qed.
Lemma prep_radius_req_ok src p : source_ok src -> rand_ok p ->
  exists v p', prep_radius_req src p = Some (v, p') /\ length v = AUTH_VECTOR_LEN /\
    Forall is_byte v /\ rand_ok p'.
Proof.
  intros Hs Hp. unfold prep_radius_req.
  destruct (fr_rand_ok src p Hs Hp) as (h & p1 & -> & _ & H1). cbn [mbind option_bind].
  destruct (vector_words_ok (AUTH_VECTOR_LEN / 4) src h (Some p1) Hs H1) as (l & p2 & -> & Hl & Hb & H2).
  cbn [mbind option_bind]. destruct (fr_rand_ok src p2 Hs H2) as (h' & p3 & -> & _ & H3).
  by exists l, (Some p3).
Qed.

(** C26: Every request gets an authenticator of 16 bytes, whatever
    /dev/urandom gives, whether it exists or not, and however many numbers
    have been drawn: no index of the generator leaves its pool. *)
Theorem prep_radius_req_safe src p : source_ok src -> rand_ok p ->
  exists v p', prep_radius_req src p = Some (v, p') /\ length v = AUTH_VECTOR_LEN /\
    Forall is_byte v /\ rand_ok p'.
Proof. apply prep_radius_req_ok. Qed.
Lemma prep_radius_req_safe_witness :
  exists v p', prep_radius_req (Urandom [replicate 1000 7; [1; 2; 3]]) None = Some (v, p') /\
    length v = AUTH_VECTOR_LEN /\ Forall is_byte v /\ rand_ok p'.
Proof.
  apply (prep_radius_req_safe (Urandom [replicate 1000 7; [1; 2; 3]]) None); [|done].
  split; [simpl; unfold RANDSIZ; lia|].
  constructor; [apply Forall_replicate; lia|].
  repeat (constructor; [|]); try lia; try done.
Defined.

Lemma fr_rand_seed_ok src p data : source_ok src -> rand_ok p ->
  exists p', fr_rand_seed src p data = Some p' /\ rand_ok p'.
Proof.
  intros Hs Hp. unfold fr_rand_seed. destruct (pool_ready_ok src p Hs Hp) as (ctx & -> & Ho & Hc).
  cbn [mbind option_bind]. destruct data as [data|]; [|by eexists].
  destruct (fr_rand_ok src (Some ctx) Hs ltac:(done)) as (h & p1 & -> & _ & H1). cbn [mbind option_bind].
  assert (exists h' p2, (if h =? 0 then fr_rand src (Some p1) else Some (h, Some p1)) = Some (h', Some p2) /\
    rand_ok (Some p2)) as (h' & p2 & -> & [Hr Hm Hw] & Hc2).
  { destruct (h =? 0); [|by exists h, p1].
    destruct (fr_rand_ok src (Some p1) Hs H1) as (h' & p2 & ? & _ & ?). by exists h', p2. }
  cbn [mbind option_bind]. rewrite <- (Z2Nat.id (randcnt p2)), aget_Some by lia.
  destruct (lookup_lt_is_Some_2 (randmem p2) (Z.to_nat (randcnt p2))) as [m ->].
  { rewrite Hm. unfold RANDSIZ. lia. }
  cbn [mbind option_bind].
  edestruct (aset_ok (randmem p2) (Z.to_nat (randcnt p2))) as (mem & -> & Hl & _); [rewrite Hm; unfold RANDSIZ; lia|].
  rewrite Z2Nat.id by lia. eexists. split; [done|]. split; [|done]. split; simpl; congruence.
Qed.
