(* ===== verification/Radius.v ===== *)
(** * Authentication of RADIUS packets (nettest/network/ksz_radius.c)

    HMAC-MD5, hidden passwords, the authenticators of packets and the answers to
    challenges.  A packet is its descriptor and the buffer it lies in.  A shared
    secret or password is its characters, without the NUL; [stack] is what an
    automatic MD5 context holds before [fr_MD5Init]. *)

From stdpp Require Import base list numbers option.
From Stdlib Require Import ZArith Lia.
From S2P Require Import Prelude Wire Md5 Isaac.

Definition AUTH_HDR_LEN : nat := 20.
Definition MAX_PASS_LEN : nat := 128.

(** ** Codes of ksz_802_1x.h *)

Definition RADIUS_CODE_ACCESS_REQUEST : Z := 1.
Definition RADIUS_CODE_ACCESS_ACCEPT : Z := 2.
Definition RADIUS_CODE_ACCESS_REJECT : Z := 3.
Definition RADIUS_CODE_ACCNT_REQUEST : Z := 4.
Definition RADIUS_CODE_ACCNT_RESPONSE : Z := 5.
Definition RADIUS_CODE_ACCESS_CHALLENGE : Z := 11.
Definition RADIUS_CODE_STATUS_SERVER : Z := 12.
Definition RADIUS_MESSAGE_AUTHENTICATOR : Z := 80.

(** The descriptor of a packet; its [data] is the buffer that goes with it. *)
Record radius_packet := mk_packet {
  rp_code : Z; rp_data_len : nat; rp_offset : nat; rp_state : buf; rp_vector : buf }.
Definition set_rp_vector v (p : radius_packet) : radius_packet :=
  mk_packet (rp_code p) (rp_data_len p) (rp_offset p) (rp_state p) v.

Section radius.
Context (stack : fr_md5_ctx).

(** The digest of several pieces: a context is initialised, takes them, and is
    finished. *)
Definition digest_of (ls : list (list Z)) : option (list Z) :=
  c ← updates (fr_MD5Init stack) ls; fst <$> fr_MD5Final c.

(** ** HMAC *)

Definition xor_with (c : Z) (b : buf) : buf :=
  map (fun x => Z.lxor x c) (take 64 b) ++ drop 64 b.
Definition fr_hmac_md5 (text key : list Z) : option (list Z) :=
  key ← (if (64 <? length key)%nat then digest_of [key] else Some key);
  k_ipad ← put (replicate 65 0) 0 key;
  k_opad ← put (replicate 65 0) 0 key;
  let k_ipad := xor_with 0x36 k_ipad in
  let k_opad := xor_with 0x5c k_opad in
  ipad ← bytes k_ipad 0 64;
  digest ← digest_of [ipad; text];
  opad ← bytes k_opad 0 64;
  digest_of [opad; digest].

(** ** Passwords *)

Definition zip_xor (a b : list Z) : list Z := zip_with Z.lxor a b.
(** [b[n + i] ^= d[i]]. *)
Definition xor_at (b : buf) (n : nat) (d : list Z) : option buf :=
  l ← bytes b n (length d); put b n (zip_xor l d).

(** The length in whole blocks. *)
Definition round_pass (len : nat) : nat :=
  if Nat.eqb len 0 then AUTH_VECTOR_LEN
  else if Nat.eqb (len mod 16) 0 then len else (len + (16 - len mod 16))%nat.

(** The loop that hides the password from [n] on: each block is combined with
    the digest of the secret and the block before it, hidden already. *)
Fixpoint hide_loop (fuel : nat) (old : fr_md5_ctx) (vector : buf) (n len : nat) (passwd : buf)
    : option buf :=
  match fuel with
  | O => Some passwd
  | S fuel =>
      if (n <? len)%nat then
        prev ← (if Nat.eqb n 0 then bytes vector 0 AUTH_VECTOR_LEN
                else bytes passwd (n - AUTH_VECTOR_LEN) AUTH_VECTOR_LEN);
        context ← fr_MD5Update old prev;
        '(digest, _) ← fr_MD5Final context;
        passwd ← xor_at passwd n digest;
        hide_loop fuel old vector (n + AUTH_VECTOR_LEN) len passwd
      else Some passwd
  end.

(** [output] and [*outlen]. *)
Definition make_passwd (input : list Z) (inlen : nat) (secret vector : list Z) : option (list Z * nat) :=
  let len := Nat.min inlen MAX_PASS_LEN in
  input ← bytes input 0 len;
  let passwd := input ++ replicate (MAX_PASS_LEN - len) 0 in
  let len := round_pass len in
  old ← fr_MD5Update (fr_MD5Init stack) secret;
  passwd ← hide_loop len old vector 0 len passwd;
  output ← bytes passwd 0 len;
  Some (output, len).

(** In place; nothing of the program calls it. *)
Definition rad_pwencode (passwd : buf) (pwlen : nat) (secret vector : list Z) : option (buf * nat) :=
  let n := Nat.min pwlen 128 in
  let len := round_pass n in
  passwd ← put passwd n (replicate (len - n) 0);
  old ← fr_MD5Update (fr_MD5Init stack) secret;
  passwd ← hide_loop len old vector 0 len passwd;
  Some (passwd, len).

(** The loop that shows it again: the context has taken what the digest of the
    block at [n] needs. *)
Fixpoint show_loop (fuel : nat) (old context : fr_md5_ctx) (n pwlen : nat) (passwd : buf)
    : option buf :=
  match fuel with
  | O => Some passwd
  | S fuel =>
      if (n <? pwlen)%nat then
        '(digest, _) ← fr_MD5Final context;
        context ← (if (n + AUTH_VECTOR_LEN <? pwlen)%nat
                   then b ← bytes passwd n AUTH_VECTOR_LEN; fr_MD5Update old b
                   else Some old);
        passwd ← xor_at passwd n digest;
        show_loop fuel old context (n + AUTH_VECTOR_LEN) pwlen passwd
      else Some passwd
  end.

(** [strlen]: undefined without a NUL. *)
Fixpoint strlen (b : list Z) : option nat :=
  match b with
  | [] => UB
  | x :: b => if x =? 0 then Some O else S <$> strlen b
  end.

Definition rad_pwdecode (passwd : buf) (pwlen : nat) (secret vector : list Z) : option (nat * buf) :=
  let pwlen := Nat.min pwlen 128 in
  passwd ← (if Nat.eqb pwlen 0 then Some passwd
            else
              old ← fr_MD5Update (fr_MD5Init stack) secret;
              v ← bytes vector 0 AUTH_VECTOR_LEN;
              context ← fr_MD5Update old v;
              show_loop pwlen old context 0 pwlen passwd);
  passwd ← put passwd pwlen [0];
  n ← strlen passwd;
  Some (n, passwd).

(** ** Authenticators *)

Definition rad_digest_cmp (a b : list Z) (length : nat) : option Z :=
  a ← bytes a 0 length; b ← bytes b 0 length;
  Some (foldl Z.lor 0 (zip_xor a b)).

Definition zero_vector : list Z := replicate AUTH_VECTOR_LEN 0.

Definition calc_acctdigest (packet : radius_packet) (data secret : list Z) : option (Z * buf) :=
  data ← put data 4 zero_vector;
  d ← bytes data 0 (rp_data_len packet);
  digest ← digest_of [d; secret];
  c ← rad_digest_cmp digest (rp_vector packet) AUTH_VECTOR_LEN;
  Some (if negb (c =? 0) then 2 else 0, data).

Definition calc_replydigest (packet : radius_packet) (data : buf) (original : option radius_packet)
    (secret : list Z) : option (Z * buf) :=
  match original with
  | None => Some (3, data)
  | Some original =>
      v ← bytes (rp_vector original) 0 AUTH_VECTOR_LEN;
      data ← put data 4 v;
      d ← bytes data 0 (rp_data_len packet);
      calc_digest ← digest_of [d; secret];
      v ← bytes (rp_vector packet) 0 AUTH_VECTOR_LEN;
      data ← put data 4 v;
      c ← rad_digest_cmp (rp_vector packet) calc_digest AUTH_VECTOR_LEN;
      Some (if negb (c =? 0) then 2 else 0, data)
  end.

(** The authenticator a Message-Authenticator is computed with: it is cleared,
    it is that of the request, or it stays; [None] is the return of -1. *)
Definition mac_header (packet : radius_packet) (original : option radius_packet) (data : buf)
    : option (option buf) :=
  let code := rp_code packet in
  let do_ack := match original with
                | None => Some (None : option buf)
                | Some original => v ← bytes (rp_vector original) 0 AUTH_VECTOR_LEN;
                                   Some <$> put data 4 v
                end in
  if code =? RADIUS_CODE_ACCNT_RESPONSE then
    match original with
    | Some o => if rp_code o =? RADIUS_CODE_STATUS_SERVER then do_ack
                else Some <$> put data 4 zero_vector
    | None => Some <$> put data 4 zero_vector
    end
  else if code =? RADIUS_CODE_ACCNT_REQUEST then Some <$> put data 4 zero_vector
  else if (code =? RADIUS_CODE_ACCESS_ACCEPT) || (code =? RADIUS_CODE_ACCESS_REJECT)
          || (code =? RADIUS_CODE_ACCESS_CHALLENGE) then do_ack
  else Some (Some data).

(** A Message-Authenticator at [ptr]: whether it is right, and the buffer. *)
Definition verify_mac (packet : radius_packet) (original : option radius_packet) (secret : list Z)
    (data : buf) (ptr : nat) : option (bool * buf) :=
  msg_auth_vector ← bytes data (ptr + 2) AUTH_VECTOR_LEN;
  data ← put data (ptr + 2) zero_vector;
  h ← mac_header packet original data;
  match h with
  | None => Some (false, data)
  | Some data =>
      d ← bytes data 0 (rp_data_len packet);
      calc_auth_vector ← fr_hmac_md5 d secret;
      c ← rad_digest_cmp calc_auth_vector msg_auth_vector AUTH_VECTOR_LEN;
      if negb (c =? 0) then Some (false, data)
      else
        data ← put data (ptr + 2) msg_auth_vector;
        v ← bytes (rp_vector packet) 0 AUTH_VECTOR_LEN;
        data ← put data 4 v;
        Some (true, data)
  end.

(** The loop over the attributes.  One with length 0 keeps it where it is, for
    ever: the fuel is the number of bytes, any other attribute takes some. *)
Fixpoint verify_attrs (fuel : nat) (packet : radius_packet) (original : option radius_packet)
    (secret : list Z) (data : buf) (ptr : nat) (length : Z) : option (bool * buf) :=
  if length >? 0 then
    match fuel with
    | O => UB
    | S fuel =>
        attrlen ← rd data (ptr + 1) 1;
        t ← rd data ptr 1;
        '(ok, data) ← (if t =? RADIUS_MESSAGE_AUTHENTICATOR
                       then verify_mac packet original secret data ptr else Some (true, data));
        if (ok : bool) then
          verify_attrs fuel packet original secret data (ptr + Z.to_nat attrlen) (length - attrlen)
        else Some (false, data)
    end
  else Some (true, data).

Definition rad_verify (packet : radius_packet) (data : buf) (original : option radius_packet)
    (secret : list Z) : option (Z * buf) :=
  '(ok, data) ← verify_attrs (rp_data_len packet) packet original secret data AUTH_HDR_LEN
                  (Z.of_nat (rp_data_len packet) - Z.of_nat AUTH_HDR_LEN);
  if negb (ok : bool) then Some (-1, data)
  else
    let code := rp_code packet in
    if (code =? RADIUS_CODE_ACCESS_REQUEST) || (code =? RADIUS_CODE_STATUS_SERVER) then Some (0, data)
    else if code =? RADIUS_CODE_ACCNT_REQUEST then
      '(rcode, data) ← calc_acctdigest packet data secret;
      Some (if rcode >? 1 then -1 else 0, data)
    else if (code =? RADIUS_CODE_ACCESS_ACCEPT) || (code =? RADIUS_CODE_ACCESS_REJECT)
            || (code =? RADIUS_CODE_ACCESS_CHALLENGE) || (code =? RADIUS_CODE_ACCNT_RESPONSE) then
      '(rcode, data) ← calc_replydigest packet data original secret;
      Some (if rcode >? 1 then -1 else 0, data)
    else Some (-1, data).

(** The Message-Authenticator of a packet that is sent. *)
Definition sign_mac (packet : radius_packet) (original : option radius_packet) (secret : list Z)
    (data : buf) : option (option buf) :=
  h ← mac_header packet original data;
  match h with
  | None => Some (None : option buf)
  | Some data =>
      d ← bytes data 0 (rp_data_len packet);
      calc_auth_vector ← fr_hmac_md5 d secret;
      data ← put data (rp_offset packet + 2) calc_auth_vector;
      v ← bytes (rp_vector packet) 0 AUTH_VECTOR_LEN;
      Some <$> put data 4 v
  end.
Definition rad_sign (packet : radius_packet) (data : buf) (original : option radius_packet)
    (secret : list Z) : option (Z * radius_packet * buf) :=
  h ← (if (0 <? rp_offset packet)%nat then sign_mac packet original secret data else Some (Some data));
  match h with
  | None => Some (-1, packet, data)
  | Some data =>
      let code := rp_code packet in
      if (code =? RADIUS_CODE_ACCESS_REQUEST) || (code =? RADIUS_CODE_STATUS_SERVER)
      then Some (0, packet, data)
      else
        d ← bytes data 0 (rp_data_len packet);
        digest ← digest_of [d; secret];
        data ← put data 4 digest;
        Some (0, set_rp_vector digest packet, data)
  end.

(** ** Answers to challenges

    [eap_data] is the length of the challenge and the challenge. *)

Definition eap_md5 (id : Z) (password : list Z) (eap_data : buf) : option (list Z) :=
  valuesize ← rd eap_data 0 1;
  value ← bytes eap_data 1 (Z.to_nat valuesize);
  digest_of [[id]; password; value].

(** In place: the answer takes the place of the challenge. *)
Definition respond_eap_md5 (eap_id : Z) (password : list Z) (eap_data : buf) : option buf :=
  response ← eap_md5 eap_id password eap_data;
  put eap_data 1 response.
End radius.
