(* ===== verification/RadiusProofs.v ===== *)
(** * Passwords, HMAC and the authenticators of RADIUS packets *)

From stdpp Require Import base list numbers option.
From Stdlib Require Import ZArith Lia.
From S2P Require Import Prelude Wire WireProofs TlvProofs Bytes Md5 Md5Proofs Isaac Radius.

(** ** The specifications: RFC 2104, and section 5.2 of RFC 2865 *)

Definition rfc_hmac (key text : list Z) : list Z :=
  let k := if (64 <? length key)%nat then md5 key else key in
  let k := k ++ replicate (64 - length k) 0 in
  md5 (map (fun x => Z.lxor x 0x5c) k ++ md5 (map (fun x => Z.lxor x 0x36) k ++ text)).

Fixpoint rfc_hide (n : nat) (secret prev p : list Z) : list Z :=
  match n with
  | O => []
  | S n => let c := zip_xor (take 16 p) (md5 (secret ++ prev)) in
           c ++ rfc_hide n secret c (drop 16 p)
  end.
Fixpoint rfc_show (n : nat) (secret prev c : list Z) : list Z :=
  match n with
  | O => []
  | S n => zip_xor (take 16 c) (md5 (secret ++ prev)) ++ rfc_show n secret (take 16 c) (drop 16 c)
  end.

(** ** Digests *)

Lemma md5_length m : length (md5 m) = 16%nat.
Proof. unfold md5, put_state. by rewrite !length_app, !le_bytes_length. Qed.
Lemma md5_byte m : Forall is_byte (md5 m).
Proof. unfold md5, put_state. rewrite !Forall_app. repeat split; apply le_bytes_byte. Qed.

#[local] Opaque md5.

Lemma lxor_byte a b : 0 <= a < 256 -> 0 <= b < 256 -> 0 <= Z.lxor a b < 256.
Proof.
  intros Ha Hb. rewrite <- (Z.mod_small a (2 ^ 8)), <- (Z.mod_small b (2 ^ 8)) by (simpl; lia).
  assert (Z.lxor (a mod 2 ^ 8) (b mod 2 ^ 8) = Z.lxor a b mod 2 ^ 8) as ->.
  { apply Z.bits_inj'. intros n Hn. rewrite Z.lxor_spec. destruct (decide (n < 8)).
    - by rewrite !Z.mod_pow2_bits_low, Z.lxor_spec.
    - by rewrite !Z.mod_pow2_bits_high by lia. }
  by apply Z.mod_pos_bound.
Qed.
Lemma zip_xor_byte a b : Forall is_byte a -> Forall is_byte b -> Forall is_byte (zip_xor a b).
Proof.
  intros Ha. revert b. induction Ha as [|x a Hx _ IH]; intros b Hb; [constructor|].
  destruct Hb; [constructor|]. constructor; [by apply lxor_byte|by apply IH].
Qed.
Lemma zip_xor_length a b : length a = length b -> length (zip_xor a b) = length a.
Proof. intros H. unfold zip_xor. rewrite length_zip_with. lia. Qed.
Lemma zip_xor_twice a b : length a = length b -> zip_xor (zip_xor a b) b = a.
Proof.
  revert b. induction a as [|x a IH]; intros [|y b] H; try done. simpl. injection H as H.
  rewrite IH by done. by rewrite Z.lxor_assoc, Z.lxor_nilpotent, Z.lxor_0_r.
Qed.
Lemma map_xor_byte c l : 0 <= c < 256 -> Forall is_byte l -> Forall is_byte (map (fun x => Z.lxor x c) l).
Proof. intros Hc H. induction H; constructor; [by apply lxor_byte|done]. Qed.

(** A piece of input: bytes, and few enough of them that the bit counter does
    not overflow. *)
Definition MAX_PIECE : Z := 100000.
Definition piece (l : list Z) : Prop := Forall is_byte l /\ Z.of_nat (length l) <= MAX_PIECE.

Lemma final_digest c m : taken c m -> Forall is_byte m -> Z.of_nat (length m) <= 4 * MAX_PIECE ->
  exists c', fr_MD5Final c = Some (md5 m, c').
Proof.
  intros Hc Hm Hl. pose proof (final_taken c m Hc Hm) as E. unfold MAX_PIECE in Hl.
  assert (72 + Z.of_nat (length m) < 2 ^ 29) as Hb by (apply (Z.le_lt_trans _ 400072); lia).
  specialize (E ltac:(lia)). destruct (fr_MD5Final c) as [[d c']|]; [|done]. injection E as ->. by exists c'.
Qed.
Lemma update_piece c m x : taken c m -> Forall is_byte (m ++ x) -> Z.of_nat (length (m ++ x)) <= 4 * MAX_PIECE ->
  exists c', fr_MD5Update c x = Some c' /\ taken c' (m ++ x).
Proof.
  intros Hc Hm Hl. apply update_taken; [done..|]. unfold MAX_PIECE in Hl.
  apply (Z.le_lt_trans _ 3200000); lia.
Qed.

(** ** Passwords *)

Lemma rfc_hide_length n : forall s prev p, length p = (16 * n)%nat -> length (rfc_hide n s prev p) = (16 * n)%nat.
Proof.
  induction n as [|n IH]; intros s prev p H; [done|]. cbn [rfc_hide].
  rewrite length_app, zip_xor_length, IH by (rewrite ?length_take, ?length_drop, ?md5_length; lia).
  rewrite length_take. lia.
Qed.
Lemma rfc_hide_byte n : forall s prev p, Forall is_byte p -> Forall is_byte (rfc_hide n s prev p).
Proof.
  induction n as [|n IH]; intros s prev p H; [constructor|]. cbn [rfc_hide]. apply Forall_app. split.
  - apply zip_xor_byte; [by apply Forall_take|apply md5_byte].
  - by apply IH, Forall_drop.
Qed.
Lemma rfc_show_length n : forall s prev c, length c = (16 * n)%nat -> length (rfc_show n s prev c) = (16 * n)%nat.
Proof.
  induction n as [|n IH]; intros s prev c H; [done|]. cbn [rfc_show].
  rewrite length_app, zip_xor_length, IH by (rewrite ?length_take, ?length_drop, ?md5_length; lia).
  rewrite length_take. lia.
Qed.
Lemma rfc_show_byte n : forall s prev c, Forall is_byte c -> Forall is_byte (rfc_show n s prev c).
Proof.
  induction n as [|n IH]; intros s prev c H; [constructor|]. cbn [rfc_show]. apply Forall_app. split.
  - apply zip_xor_byte; [by apply Forall_take|apply md5_byte].
  - by apply IH, Forall_drop.
Qed.
(** What was hidden is shown. *)
Lemma rfc_show_hide n : forall s prev p, length p = (16 * n)%nat ->
  rfc_show n s prev (rfc_hide n s prev p) = p.
Proof.
  induction n as [|n IH]; intros s prev p H; [by destruct p|]. cbn [rfc_hide rfc_show].
  set (c := zip_xor (take 16 p) (md5 (s ++ prev))).
  assert (Hc : length c = 16%nat) by (unfold c; rewrite zip_xor_length; rewrite ?md5_length, length_take; lia).
  rewrite take_app_le, drop_app_le, take_ge, drop_ge by lia. simpl app.
  rewrite IH by (rewrite length_drop; lia). unfold c.
  rewrite zip_xor_twice by (rewrite md5_length, length_take; lia). apply take_drop.
Qed.

Lemma xor_at_mid pre b d r : length b = length d ->
  xor_at (pre ++ b ++ r) (length pre) d = Some (pre ++ zip_xor b d ++ r).
Proof.
  intros H. unfold xor_at. rewrite <- H, bytes_mid. cbn [mbind option_bind].
  apply put_mid. rewrite zip_xor_length; lia.
Qed.

Lemma prev_digest old s prev : taken old s -> piece s -> length prev = 16%nat -> Forall is_byte prev ->
  exists c c', fr_MD5Update old prev = Some c /\ fr_MD5Final c = Some (md5 (s ++ prev), c').
Proof.
  intros Ho [Hs Hl] Hp Hb. unfold MAX_PIECE in Hl.
  destruct (update_piece old s prev Ho) as (c & E & Hc).
  { by apply Forall_app. } { rewrite length_app. unfold MAX_PIECE. lia. }
  destruct (final_digest c (s ++ prev) Hc) as [c' E'].
  { by apply Forall_app. } { rewrite length_app. unfold MAX_PIECE. lia. }
  by exists c, c'.
Qed.

(** The loop behind the blocks [pre] that are hidden, the last of which is [prev]. *)
Lemma hide_loop_spec k : forall fuel old s vector prev pre p r, taken old s -> piece s ->
  bytes vector 0 16 = Some (take 16 vector) -> length prev = 16%nat -> Forall is_byte prev ->
  (if Nat.eqb (length pre) 0 then prev = take 16 vector else exists h, pre = h ++ prev) ->
  length p = (16 * k)%nat -> Forall is_byte p -> (k <= fuel)%nat ->
  hide_loop fuel old vector (length pre) (length pre + 16 * k) (pre ++ p ++ r) =
    Some (pre ++ rfc_hide k s prev p ++ r).
Proof.
  induction k as [|k IH]; intros fuel old s vector prev pre p r Ho Hs Hv Hp Hpb Hpre Hl Hb Hf.
  { apply nil_length_inv in Hl as ->. destruct fuel as [|fuel]; [done|]. cbn [hide_loop].
    destruct (_ <? _)%nat eqn:E; [apply Nat.ltb_lt in E; lia|done]. }
  destruct fuel as [|fuel]; [lia|]. cbn [hide_loop].
  rewrite (proj2 (Nat.ltb_lt _ _)) by lia.
  assert ((if Nat.eqb (length pre) 0 then bytes vector 0 AUTH_VECTOR_LEN
           else bytes (pre ++ p ++ r) (length pre - AUTH_VECTOR_LEN) AUTH_VECTOR_LEN) = Some prev) as ->.
  { unfold AUTH_VECTOR_LEN. destruct (Nat.eqb _ 0); [by rewrite Hv, Hpre|]. destruct Hpre as [h ->].
    rewrite length_app, Hp, Nat.add_sub. rewrite <- Hp at 1. rewrite <- app_assoc. apply bytes_mid. }
  cbn [mbind option_bind]. destruct (prev_digest old s prev Ho Hs Hp Hpb) as (c & c' & -> & E).
  cbn [mbind option_bind]. rewrite E. cbn [mbind option_bind].
  rewrite <- (take_drop 16 p) at 1. rewrite <- app_assoc.
  rewrite xor_at_mid by (rewrite md5_length, length_take; lia). cbn [mbind option_bind rfc_hide].
  set (b := zip_xor (take 16 p) (md5 (s ++ prev))).
  assert (Hlb : length b = 16%nat) by (unfold b; rewrite zip_xor_length; rewrite ?md5_length, length_take; lia).
  assert (Hbb : Forall is_byte b) by (apply zip_xor_byte; [by apply Forall_take|apply md5_byte]).
  rewrite (app_assoc pre b). replace (length pre + AUTH_VECTOR_LEN)%nat with (length (pre ++ b)) by (by rewrite length_app, Hlb).
  replace (length pre + 16 * S k)%nat with (length (pre ++ b) + 16 * k)%nat by (rewrite length_app; lia).
  rewrite (IH fuel old s vector b); [by rewrite <- !app_assoc|done..| |rewrite length_drop; lia|by apply Forall_drop|lia].
  destruct (Nat.eqb_spec (length (pre ++ b)) 0) as [E0|_]; [rewrite length_app in E0; lia|by exists pre].
Qed.

(** The loop at the block behind [pre]: the context has taken the block [prev] before. *)
Lemma show_loop_spec k : forall fuel old context s prev pre c r, taken old s -> piece s ->
  taken context (s ++ prev) -> length prev = 16%nat -> Forall is_byte prev ->
  length c = (16 * k)%nat -> Forall is_byte c -> (k <= fuel)%nat ->
  show_loop fuel old context (length pre) (length pre + 16 * k) (pre ++ c ++ r) =
    Some (pre ++ rfc_show k s prev c ++ r).
Proof.
  induction k as [|k IH]; intros fuel old context s prev pre c r Ho Hs Hc Hp Hpb Hl Hb Hf.
  { apply nil_length_inv in Hl as ->. destruct fuel as [|fuel]; [done|]. cbn [show_loop].
    destruct (_ <? _)%nat eqn:E; [apply Nat.ltb_lt in E; lia|done]. }
  destruct fuel as [|fuel]; [lia|]. cbn [show_loop rfc_show].
  rewrite (proj2 (Nat.ltb_lt _ _)) by lia. pose proof Hs as [Hsb Hsl]. unfold MAX_PIECE in Hsl.
  destruct (final_digest context (s ++ prev) Hc) as [c' ->].
  { by apply Forall_app. } { rewrite length_app. unfold MAX_PIECE. lia. }
  cbn [mbind option_bind]. set (b := take 16 c).
  assert (Hlb : length b = 16%nat) by (unfold b; rewrite length_take; lia).
  assert (Hbb : Forall is_byte b) by by apply Forall_take.
  destruct (update_piece old s b Ho) as (next & En & Hn).
  { by apply Forall_app. } { rewrite length_app. unfold MAX_PIECE. lia. }
  assert (c ++ r = b ++ drop 16 c ++ r) as -> by (unfold b; by rewrite app_assoc, take_drop).
  unfold AUTH_VECTOR_LEN. pose proof (bytes_mid pre b (drop 16 c ++ r)) as Eb. rewrite Hlb in Eb.
  rewrite Eb. cbn [mbind option_bind]. rewrite En.
  assert (exists ctx, (if (length pre + 16 <? length pre + 16 * S k)%nat then Some next else Some old) = Some ctx /\
    (k = 0%nat \/ taken ctx (s ++ b))) as (ctx & -> & Hctx).
  { destruct (_ <? _)%nat eqn:E; eexists; (split; [done|]); [by right|].
    apply Nat.ltb_ge in E. left. lia. }
  cbn [mbind option_bind]. rewrite xor_at_mid by (rewrite md5_length; lia). cbn [mbind option_bind].
  set (d := zip_xor b (md5 (s ++ prev))).
  assert (Hld : length d = 16%nat) by (unfold d; rewrite zip_xor_length; rewrite ?md5_length; lia).
  rewrite (app_assoc pre d). replace (length pre + 16)%nat with (length (pre ++ d)) by (by rewrite length_app, Hld).
  replace (length pre + 16 * S k)%nat with (length (pre ++ d) + 16 * k)%nat by (rewrite length_app; lia).
  destruct Hctx as [->|Hctx].
  - assert (drop 16 c = []) as -> by (apply nil_length_inv; rewrite length_drop; lia).
    destruct fuel as [|fuel]; [by rewrite <- !app_assoc|]. cbn [show_loop].
    destruct (_ <? _)%nat eqn:E; [apply Nat.ltb_lt in E; lia|]. by rewrite <- !app_assoc.
  - rewrite (IH fuel old ctx s b); [by rewrite <- !app_assoc|done..|rewrite length_drop; lia|by apply Forall_drop|lia].
Qed.

Definition pass_blocks (n : nat) : nat := (round_pass n / 16)%nat.
Lemma round_pass_blocks n : (n <= 128)%nat ->
  round_pass n = (16 * pass_blocks n)%nat /\ (n <= 16 * pass_blocks n <= 128)%nat /\ (0 < pass_blocks n)%nat.
Proof.
  intros H. unfold pass_blocks. assert (exists k, round_pass n = k * 16 /\ n <= k * 16 <= 128 /\ 0 < k)%nat
    as (k & E & ? & ?).
  { unfold round_pass. destruct (Nat.eqb_spec n 0) as [->|]; [exists 1%nat; unfold AUTH_VECTOR_LEN; lia|].
    pose proof (Nat.div_mod_eq n 16). pose proof (Nat.mod_upper_bound n 16).
    destruct (Nat.eqb_spec (n mod 16) 0); [exists (n / 16)%nat|exists (S (n / 16))]; lia. }
  rewrite E, Nat.div_mul by done. lia.
Qed.

(** The password, filled with zeros to whole blocks. *)
Definition padded (n : nat) (pw : list Z) : list Z := take n pw ++ replicate (16 * pass_blocks n - n) 0.
Lemma padded_length n pw : (n <= 128)%nat -> (n <= length pw)%nat -> length (padded n pw) = (16 * pass_blocks n)%nat.
Proof.
  intros H Hp. destruct (round_pass_blocks n H) as (_ & ? & _).
  unfold padded. rewrite length_app, length_take, length_replicate. lia.
Qed.
Lemma padded_byte n pw : Forall is_byte pw -> Forall is_byte (padded n pw).
Proof. intros H. apply Forall_app. split; [by apply Forall_take|by apply Forall_replicate]. Qed.

Lemma strlen_text t r : Forall (fun x => x <> 0) t -> strlen (t ++ 0 :: r) = Some (length t).
Proof.
  intros H. induction H as [|x t Hx _ IH]; [done|]. simpl.
  destruct (x =? 0) eqn:E; bools; [done|]. by rewrite IH.
Qed.

Section proofs.
Context (stack : fr_md5_ctx) (Hstack : length (mc_buffer stack) = 64%nat).

Lemma secret_taken s : piece s ->
  exists old, fr_MD5Update (fr_MD5Init stack) s = Some old /\ taken old s.
Proof.
  intros [Hs Hl]. apply (update_piece (fr_MD5Init stack) [] s); [by apply taken_init|done|].
  simpl. unfold MAX_PIECE in *. lia.
Qed.

Lemma digest_of_md5 ls : Forall is_byte (concat ls) -> Z.of_nat (length (concat ls)) <= 4 * MAX_PIECE ->
  digest_of stack ls = Some (md5 (concat ls)).
Proof.
  intros Hb Hl. unfold digest_of.
  destruct (updates_taken ls (fr_MD5Init stack) [] (taken_init stack Hstack) Hb) as (c & -> & Hc).
  { simpl. unfold MAX_PIECE in Hl. apply (Z.le_lt_trans _ 3200000); lia. }
  cbn [mbind option_bind]. by destruct (final_digest c (concat ls) Hc Hb Hl) as [c' ->].
Qed.

(** ** HMAC *)

Lemma pad_key c key : (length key <= 64)%nat ->
  (b ← put (replicate 65 0) 0 key; bytes (xor_with c b) 0 64) =
  Some (map (fun x => Z.lxor x c) (key ++ replicate (64 - length key) 0)).
Proof.
  intros H. rewrite put_0 by (rewrite length_replicate; lia). cbn [mbind option_bind].
  rewrite drop_replicate. unfold xor_with.
  replace (65 - length key)%nat with ((64 - length key) + 1)%nat by lia.
  rewrite replicate_add, app_assoc.
  set (k := key ++ replicate (64 - length key) 0).
  assert (Hk : length k = 64%nat) by (unfold k; rewrite length_app, length_replicate; lia).
  rewrite take_app_le, drop_app_le, (take_ge k), (drop_ge k) by lia.
  rewrite bytes_Some by (rewrite length_app, length_map; lia).
  by rewrite drop_0, take_app_le, take_ge by (rewrite length_map; lia).
Qed.

Lemma fr_hmac_md5_spec text key : piece text -> piece key ->
  fr_hmac_md5 stack text key = Some (rfc_hmac key text).
Proof.
  intros [Ht Htl] [Hk Hkl]. unfold fr_hmac_md5, rfc_hmac.
  assert (exists k, (if (64 <? length key)%nat then digest_of stack [key] else Some key) = Some k /\
    k = (if (64 <? length key)%nat then md5 key else key) /\ (length k <= 64)%nat /\ Forall is_byte k)
    as (k & -> & <- & Hl & Hb).
  { destruct (_ <? _)%nat eqn:E.
    - exists (md5 key). rewrite digest_of_md5; simpl; rewrite ?app_nil_r; [|done|unfold MAX_PIECE in *; lia].
      split_and!; [done..|rewrite md5_length; lia|apply md5_byte].
    - apply Nat.ltb_ge in E. by exists key. }
  cbn [mbind option_bind].
  pose proof (pad_key 0x36 k Hl) as E1. pose proof (pad_key 0x5c k Hl) as E2.
  destruct (put (replicate 65 0) 0 k) as [b|]; [|done]. cbn [mbind option_bind] in *.
  rewrite E1. cbn [mbind option_bind]. set (kk := k ++ replicate (64 - length k) 0).
  assert (length kk = 64%nat) as Lk by (unfold kk; rewrite length_app, length_replicate; lia).
  assert (Forall is_byte kk) as Bk by (apply Forall_app; split; [done|by apply Forall_replicate]).
  assert (MP : forall c : Z, length (map (fun x => Z.lxor x c) kk) = 64%nat) by (intros; by rewrite length_map).
  rewrite digest_of_md5; cbn [concat]; rewrite ?app_nil_r; cycle 1.
  { apply Forall_app. split; [by apply map_xor_byte|done]. }
  { rewrite length_app, MP. unfold MAX_PIECE in *. lia. }
  cbn [mbind option_bind]. rewrite E2. cbn [mbind option_bind].
  rewrite digest_of_md5; cbn [concat]; rewrite ?app_nil_r; [done| |].
  { apply Forall_app. split; [by apply map_xor_byte|apply md5_byte]. }
  { rewrite length_app, MP, md5_length. unfold MAX_PIECE in *. lia. }
Qed.

(** ** Hiding and showing a password *)

Lemma make_passwd_spec input inlen secret vector :
  let n := Nat.min inlen 128 in
  piece secret -> (16 <= length vector)%nat -> Forall is_byte vector -> Forall is_byte input ->
  (inlen <= length input)%nat ->
  make_passwd stack input inlen secret vector =
    Some (rfc_hide (pass_blocks n) secret (take 16 vector) (padded n input), round_pass n).
Proof.
  intros n Hs Hv Hvb Hi Hl. unfold make_passwd. change (Nat.min inlen MAX_PASS_LEN) with n.
  rewrite bytes_Some by (unfold n; lia). rewrite drop_0. cbn [mbind option_bind].
  destruct (secret_taken secret Hs) as (old & -> & Ho). cbn [mbind option_bind].
  destruct (round_pass_blocks n ltac:(unfold n; lia)) as (E & Hk & _).
  assert (take n input ++ replicate (MAX_PASS_LEN - n) 0 =
    padded n input ++ replicate (128 - 16 * pass_blocks n) 0) as ->.
  { unfold padded. rewrite <- app_assoc, <- replicate_add. do 2 f_equal. unfold MAX_PASS_LEN. lia. }
  pose proof (padded_length n input ltac:(unfold n; lia) ltac:(unfold n; lia)) as Hpl.
  rewrite E.
  pose proof (hide_loop_spec (pass_blocks n) (16 * pass_blocks n) old secret vector (take 16 vector) []
    (padded n input) (replicate (128 - 16 * pass_blocks n) 0)) as L. cbn [length app Nat.add Nat.eqb] in L. rewrite L; clear L;
    try done; [|by rewrite bytes_Some by lia|rewrite length_take; lia|by apply Forall_take|by apply padded_byte|lia].
  cbn [mbind option_bind]. pose proof (rfc_hide_length (pass_blocks n) secret (take 16 vector) _ Hpl) as Hh.
  rewrite bytes_Some by (rewrite length_app; lia).
  by rewrite drop_0, take_app_le, take_ge by lia.
Qed.

Lemma rad_pwdecode_spec c r secret vector k : piece secret -> (16 <= length vector)%nat ->
  Forall is_byte vector -> length c = (16 * k)%nat -> (0 < k <= 8)%nat -> Forall is_byte c ->
  r <> [] ->
  rad_pwdecode stack (c ++ r) (16 * k) secret vector =
    (let b := rfc_show k secret (take 16 vector) c ++ 0 :: drop 1 r in n ← strlen b; Some (n, b)).
Proof.
  intros Hs Hv Hvb Hl Hk Hb Hr. unfold rad_pwdecode. rewrite Nat.min_l by lia.
  destruct (Nat.eqb_spec (16 * k) 0); [lia|].
  destruct (secret_taken secret Hs) as (old & -> & Ho). cbn [mbind option_bind].
  rewrite bytes_Some by (unfold AUTH_VECTOR_LEN; lia). rewrite drop_0. cbn [mbind option_bind].
  pose proof Hs as [Hsb Hsl]. unfold MAX_PIECE in Hsl. unfold AUTH_VECTOR_LEN.
  assert (Hv16 : length (take 16 vector) = 16%nat) by (rewrite length_take; lia).
  destruct (update_piece old secret (take 16 vector) Ho) as (ctx & -> & Hc).
  { apply Forall_app. split; [done|by apply Forall_take]. } { rewrite length_app. unfold MAX_PIECE. lia. }
  cbn [mbind option_bind].
  pose proof (show_loop_spec k (16 * k) old ctx secret (take 16 vector) [] c r Ho Hs Hc Hv16) as L.
  cbn [length app Nat.add] in L. rewrite L by first [by apply Forall_take | done | lia]. clear L. cbn [mbind option_bind].
  set (d := rfc_show k secret (take 16 vector) c).
  assert (Hd : length d = (16 * k)%nat).
  { unfold d. clear -Hl. revert Hl. generalize (take 16 vector) as prev. revert c.
    induction k as [|k IH]; intros c prev H; [done|]. cbn [rfc_show].
    rewrite length_app, zip_xor_length, IH by (rewrite ?length_take, ?length_drop, ?md5_length; lia).
    rewrite length_take. lia. }
  destruct r as [|x r]; [done|]. rewrite <- Hd. change (x :: r) with ([x] ++ r).
  rewrite put_mid by done. done.
Qed.

(** C21: A password of at most 128 characters is hidden as RFC 2865 says, and
    whoever has the secret and the authenticator of the request shows it again
    as it was, with its length, whatever the buffer it is shown in held. *)
Theorem password_hidden_shown pw secret vector :
  Forall (fun x => 0 < x < 256) pw -> (length pw <= 128)%nat -> piece secret ->
  length vector = 16%nat -> Forall is_byte vector ->
  exists enc len, make_passwd stack pw (length pw) secret vector = Some (enc, len) /\
    enc = rfc_hide (len / 16) secret vector (pw ++ replicate (len - length pw) 0) /\
    length enc = len /\ (len <= 128)%nat /\
    forall b, length b = 129%nat ->
      exists b', (b ← put b 0 enc; rad_pwdecode stack b len secret vector) = Some (length pw, b') /\
        take (length pw) b' = pw /\ length b' = 129%nat.
Proof.
  intros Hpw Hl Hs Hv Hvb.
  assert (Hpb : Forall is_byte pw) by (eapply Forall_impl; [|exact Hpw]; simpl; lia).
  destruct (round_pass_blocks (length pw) Hl) as (E & Hk & Hk0).
  pose proof (make_passwd_spec pw (length pw) secret vector Hs ltac:(lia) Hvb Hpb ltac:(lia)) as M.
  cbv zeta in M. rewrite Nat.min_l, (take_ge vector) in M by lia. rewrite M. clear M.
  set (k := pass_blocks (length pw)) in *.
  pose proof (padded_length (length pw) pw Hl ltac:(lia)) as Hp. fold k in Hp.
  pose proof (rfc_hide_length k secret vector _ Hp) as Hh. rewrite E. eexists _, _. split; [done|].
  assert (padded (length pw) pw = pw ++ replicate (16 * k - length pw) 0) as Ep.
  { unfold padded. by rewrite take_ge. }
  split_and!; [by rewrite (Nat.mul_comm 16), Nat.div_mul, Ep, Nat.mul_comm by done|done|lia|].
  intros b Hb. rewrite put_0 by lia. cbn [mbind option_bind].
  rewrite (rad_pwdecode_spec _ _ secret vector k Hs); [|lia|done|done|lia| |].
  2:{ apply rfc_hide_byte, padded_byte, Hpb. }
  2:{ intros H%(f_equal length). rewrite length_drop in H. simpl in H. lia. }
  cbv zeta. rewrite (take_ge vector), rfc_show_hide, Ep by (done || lia). rewrite <- !app_assoc.
  set (r := drop 1 _). assert (exists r', replicate (16 * k - length pw) 0 ++ 0 :: r = 0 :: r' /\
    length r' = (16 * k - length pw + length r)%nat) as (r' & -> & Hr').
  { destruct (16 * k - length pw)%nat as [|j]; [by exists r|]. simpl. eexists. split; [done|].
    rewrite length_app, length_replicate. simpl. lia. }
  rewrite strlen_text by (eapply Forall_impl; [|exact Hpw]; simpl; lia). cbn [mbind option_bind].
  eexists. split_and!; [done|by rewrite take_app_length|].
  rewrite length_app. cbn [length]. rewrite Hr'. unfold r. rewrite !length_drop. rewrite Ep in Hh. lia.
Qed.
End proofs.

Lemma password_hidden_shown_witness :
  exists enc len, make_passwd md5_ctx0 [112; 119] 2 [115] (replicate 16 9) = Some (enc, len) /\
    enc = rfc_hide (len / 16) [115] (replicate 16 9) ([112; 119] ++ replicate (len - 2) 0) /\
    length enc = len /\ (len <= 128)%nat /\
    forall b, length b = 129%nat ->
      exists b', (b ← put b 0 enc; rad_pwdecode md5_ctx0 b len [115] (replicate 16 9)) = Some (2%nat, b') /\
        take 2 b' = [112; 119] /\ length b' = 129%nat.
Proof.
  apply (password_hidden_shown md5_ctx0 eq_refl [112; 119] [115] (replicate 16 9)).
  - repeat constructor; lia.
  - simpl. lia.
  - split; [repeat constructor; lia|vm_compute; discriminate].
  - reflexivity.
  - apply Forall_replicate. lia.
Defined.
