(* ===== verification/SignProofs.v ===== *)
(** * A packet that is signed is accepted, and no other

    [rad_sign] and [rad_verify] agree on the authenticator of a packet and on its
    Message-Authenticator. *)

From stdpp Require Import base list numbers option.
From Stdlib Require Import ZArith Lia.
From S2P Require Import Prelude Wire WireProofs TlvProofs Bytes Md5 Md5Proofs Isaac Radius RadiusProofs.

(** ** Attributes *)

Record attr := mk_attr { at_type : Z; at_value : list Z }.
Definition attr_bytes (a : attr) : list Z :=
  at_type a :: (2 + Z.of_nat (length (at_value a))) :: at_value a.
Definition attr_ok (a : attr) : Prop :=
  0 <= at_type a < 256 /\ (length (at_value a) <= 253)%nat /\ Forall is_byte (at_value a).
Definition attrs_bytes (l : list attr) : list Z := concat (map attr_bytes l).

Lemma attr_bytes_length a : length (attr_bytes a) = (2 + length (at_value a))%nat.
Proof. done. Qed.
Lemma attrs_bytes_app l l' : attrs_bytes (l ++ l') = attrs_bytes l ++ attrs_bytes l'.
Proof. unfold attrs_bytes. by rewrite map_app, concat_app. Qed.
Lemma attrs_bytes_cons a l : attrs_bytes (a :: l) = attr_bytes a ++ attrs_bytes l.
Proof. done. Qed.
Lemma attrs_bytes_byte l : Forall attr_ok l -> Forall is_byte (attrs_bytes l).
Proof.
  intros H. induction H as [|a l (Ht & Hl & Hv) _ IH]; [constructor|]. apply Forall_app. split; [|done].
  constructor; [done|]. constructor; [lia|done].
Qed.

Lemma rd_byte pre (x : Z) r : rd (pre ++ x :: r) (length pre) 1 = Some x.
Proof.
  unfold rd. pose proof (bytes_mid pre [x] r) as E. simpl length in E. simpl app in E. rewrite E. simpl.
  f_equal. lia.
Qed.
Lemma rd_attr_type pre a r : rd (pre ++ attr_bytes a ++ r) (length pre) 1 = Some (at_type a).
Proof. apply rd_byte. Qed.
Lemma rd_attr_len pre a r :
  rd (pre ++ attr_bytes a ++ r) (length pre + 1) 1 = Some (2 + Z.of_nat (length (at_value a))).
Proof.
  pose proof (rd_byte (pre ++ [at_type a]) (2 + Z.of_nat (length (at_value a))) (at_value a ++ r)) as E.
  rewrite length_app, <- app_assoc in E. exact E.
Qed.

Lemma rad_digest_cmp_spec a b : length a = 16%nat -> length b = 16%nat ->
  exists c, rad_digest_cmp a b AUTH_VECTOR_LEN = Some c /\ (c = 0 <-> a = b).
Proof.
  intros Ha Hb. unfold rad_digest_cmp, AUTH_VECTOR_LEN. rewrite !bytes_Some by lia.
  rewrite !drop_0, !take_ge by lia. cbn [mbind option_bind]. eexists. split; [done|].
  assert (H : forall a b acc, length a = length b -> foldl Z.lor acc (zip_xor a b) = 0 <-> acc = 0 /\ a = b).
  { clear. intros a. induction a as [|x a IH]; intros [|y b] acc Hl; try done; [simpl; naive_solver|].
    injection Hl as Hl. cbn [zip_xor zip_with foldl]. change (zip_with Z.lxor a b) with (zip_xor a b).
    rewrite (IH b) by done. rewrite Z.lor_eq_0_iff, Z.lxor_eq_0_iff. naive_solver. }
  rewrite H by congruence. naive_solver.
Qed.

Section sign.
Context (stack : fr_md5_ctx) (Hstack : length (mc_buffer stack) = 64%nat).
Context (secret : list Z) (Hsecret : piece secret).

(** The header of a packet: code, identifier, length, and the authenticator [w]. *)
Definition header (h4 w : list Z) : Prop :=
  length h4 = 4%nat /\ length w = 16%nat /\ Forall is_byte h4 /\ Forall is_byte w.

Lemma put_vector h4 w v rest : header h4 w -> length v = 16%nat ->
  put (h4 ++ w ++ rest) 4 v = Some (h4 ++ v ++ rest).
Proof. intros (<- & Hw & _) Hv. apply put_mid. lia. Qed.
Lemma take_packet (d t : list Z) : bytes (d ++ t) 0 (length d) = Some d.
Proof. exact (bytes_mid [] d t). Qed.
Lemma all_bytes (v : list Z) : length v = 16%nat -> bytes v 0 AUTH_VECTOR_LEN = Some v.
Proof. intros H. rewrite bytes_Some by (rewrite H; done). rewrite drop_0, take_ge; [done|]. rewrite H. done. Qed.

(** The authenticator the Message-Authenticator is computed with. *)
Definition mac_vector (p : radius_packet) (original : option radius_packet) (w : list Z) : option (list Z) :=
  if rp_code p =? RADIUS_CODE_ACCESS_REQUEST then Some w
  else if (rp_code p =? RADIUS_CODE_ACCESS_ACCEPT) || (rp_code p =? RADIUS_CODE_ACCESS_REJECT)
          || (rp_code p =? RADIUS_CODE_ACCESS_CHALLENGE) then rp_vector <$> original
  else None.

Lemma mac_header_spec p o h4 w hv rest : mac_vector p o w = Some hv -> header h4 w -> length hv = 16%nat ->
  mac_header p o (h4 ++ w ++ rest) = Some (Some (h4 ++ hv ++ rest)).
Proof.
  unfold mac_vector, mac_header. intros E Hh Hl. destruct (rp_code p =? RADIUS_CODE_ACCESS_REQUEST) eqn:E1.
  { bools. rewrite E1. injection E as <-. done. }
  destruct (_ || _) eqn:E2 in E; [|done]. rewrite E2. apply fmap_Some in E as (q & -> & ->).
  assert ((rp_code p =? RADIUS_CODE_ACCNT_RESPONSE) = false /\ (rp_code p =? RADIUS_CODE_ACCNT_REQUEST) = false)
    as [-> ->].
  { clear E1. split; apply Z.eqb_neq; unfold RADIUS_CODE_ACCESS_ACCEPT, RADIUS_CODE_ACCESS_REJECT,
      RADIUS_CODE_ACCESS_CHALLENGE, RADIUS_CODE_ACCNT_RESPONSE, RADIUS_CODE_ACCNT_REQUEST in *; bools; lia. }
  rewrite all_bytes by done. cbn [mbind option_bind]. by rewrite (put_vector _ _ _ _ Hh Hl).
Qed.

(** The attributes around a Message-Authenticator. *)
Definition mac_attr (m : list Z) : attr := mk_attr RADIUS_MESSAGE_AUTHENTICATOR m.

(** The packet as it is when the code is computed. *)
Definition mac_text (h4 hv : list Z) (pre post : list attr) : list Z :=
  h4 ++ hv ++ attrs_bytes (pre ++ mac_attr zero_vector :: post).
Lemma mac_text_split h4 hv pre post t :
  mac_text h4 hv pre post ++ t =
  h4 ++ hv ++ attrs_bytes pre ++ [RADIUS_MESSAGE_AUTHENTICATOR; 18] ++ zero_vector ++ attrs_bytes post ++ t.
Proof. unfold mac_text. rewrite attrs_bytes_app. unfold attrs_bytes at 2. simpl map. simpl concat. by rewrite <- !app_assoc. Qed.

Record mac_packet (p : radius_packet) (o : option radius_packet) (h4 w hv : list Z) (pre post : list attr) : Prop := {
  mp_vector : mac_vector p o w = Some hv; mp_header : header h4 w; mp_hv : header h4 hv;
  mp_pre : Forall attr_ok pre; mp_post : Forall attr_ok post;
  mp_len : rp_data_len p = length (mac_text h4 hv pre post);
  mp_max : Z.of_nat (rp_data_len p) < 65536 }.

Definition with_mac (h4 w : list Z) (pre post : list attr) (m t : list Z) : list Z :=
  h4 ++ w ++ attrs_bytes pre ++ [RADIUS_MESSAGE_AUTHENTICATOR; 18] ++ m ++ attrs_bytes post ++ t.

Lemma mac_attr_bytes m : length m = 16%nat ->
  attr_bytes (mac_attr m) = [RADIUS_MESSAGE_AUTHENTICATOR; 18] ++ m.
Proof. intros Hm. unfold attr_bytes. simpl at_value. by rewrite Hm. Qed.
Lemma with_mac_attrs h4 w pre post m t : length m = 16%nat ->
  with_mac h4 w pre post m t = h4 ++ w ++ attrs_bytes (pre ++ mac_attr m :: post) ++ t.
Proof.
  intros Hm. unfold with_mac. rewrite attrs_bytes_app, attrs_bytes_cons, mac_attr_bytes by done.
  by rewrite <- !app_assoc.
Qed.
Lemma put_mac h4 w pre post m m' t : header h4 w -> length m = 16%nat -> length m' = 16%nat ->
  put (with_mac h4 w pre post m t) (20 + length (attrs_bytes pre) + 2) m' = Some (with_mac h4 w pre post m' t).
Proof.
  intros (H4 & Hw & _) Hm Hm'. unfold with_mac.
  pose proof (put_mid (h4 ++ w ++ attrs_bytes pre ++ [RADIUS_MESSAGE_AUTHENTICATOR; 18]) m m'
    (attrs_bytes post ++ t) ltac:(lia)) as E.
  rewrite !length_app, H4, Hw in E. rewrite <- !app_assoc in E. rewrite <- E. f_equal; simpl; lia.
Qed.
Lemma bytes_mac h4 w pre post m t : header h4 w -> length m = 16%nat ->
  bytes (with_mac h4 w pre post m t) (20 + length (attrs_bytes pre) + 2) AUTH_VECTOR_LEN = Some m.
Proof.
  intros (H4 & Hw & _) Hm. unfold with_mac, AUTH_VECTOR_LEN.
  pose proof (bytes_mid (h4 ++ w ++ attrs_bytes pre ++ [RADIUS_MESSAGE_AUTHENTICATOR; 18]) m
    (attrs_bytes post ++ t)) as E.
  rewrite !length_app, H4, Hw, Hm in E. rewrite <- !app_assoc in E. rewrite <- E. f_equal; simpl; lia.
Qed.

(** The code computed over a packet. *)
Lemma mac_code p o h4 w hv pre post t : mac_packet p o h4 w hv pre post ->
  (d ← bytes (with_mac h4 hv pre post zero_vector t) 0 (rp_data_len p); fr_hmac_md5 stack d secret) =
  Some (rfc_hmac secret (mac_text h4 hv pre post)).
Proof.
  intros [_ _ (_ & _ & Hb4 & Hbv) Hpre Hpost Hlen Hmax]. rewrite with_mac_attrs by done.
  replace (h4 ++ hv ++ attrs_bytes (pre ++ mac_attr zero_vector :: post) ++ t)
    with (mac_text h4 hv pre post ++ t) by (unfold mac_text; by rewrite <- !app_assoc).
  rewrite Hlen, take_packet. cbn [mbind option_bind]. apply fr_hmac_md5_spec; [done| |done]. split.
  - unfold mac_text. rewrite !Forall_app. split_and!; [done..|]. apply attrs_bytes_byte.
    apply Forall_app. split; [done|]. constructor; [|done]. split_and!; try done; simpl; try lia.
    by apply Forall_replicate.
  - unfold MAX_PIECE. lia.
Qed.
Lemma rfc_hmac_length key text : length (rfc_hmac key text) = 16%nat.
Proof. apply md5_length. Qed.

Lemma put_vector_mac h4 w v pre post m t : header h4 w -> length v = 16%nat ->
  put (with_mac h4 w pre post m t) 4 v = Some (with_mac h4 v pre post m t).
Proof. intros Hh Hv. by apply put_vector. Qed.

Lemma mac_header_mac p o h4 w hv pre post m t : mac_packet p o h4 w hv pre post ->
  mac_header p o (with_mac h4 w pre post m t) = Some (Some (with_mac h4 hv pre post m t)).
Proof. intros [Hv Hh (_ & Hl & _) _ _ _ _]. by apply mac_header_spec. Qed.

Lemma verify_mac_spec p o h4 w hv pre post m t : mac_packet p o h4 w hv pre post ->
  rp_vector p = w -> length m = 16%nat ->
  verify_mac stack p o secret (with_mac h4 w pre post m t) (20 + length (attrs_bytes pre)) =
    if decide (m = rfc_hmac secret (mac_text h4 hv pre post))
    then Some (true, with_mac h4 w pre post m t)
    else Some (false, with_mac h4 hv pre post zero_vector t).
Proof.
  intros Hp Hw Hm. pose proof Hp as [Hv Hh Hhv _ _ _ _]. pose proof Hh as (_ & Hwl & _).
  pose proof Hhv as (_ & Hhvl & _). unfold verify_mac.
  rewrite bytes_mac by done. cbn [mbind option_bind]. rewrite put_mac by done. cbn [mbind option_bind].
  rewrite (mac_header_mac p o h4 w hv) by done. cbn [mbind option_bind].
  pose proof (mac_code p o h4 w hv pre post t Hp) as E.
  destruct (bytes _ 0 (rp_data_len p)) as [d|]; [|done]. cbn [mbind option_bind] in E |- *. rewrite E.
  cbn [mbind option_bind].
  destruct (rad_digest_cmp_spec (rfc_hmac secret (mac_text h4 hv pre post)) m (rfc_hmac_length _ _) Hm)
    as (c & -> & Hc). cbn [mbind option_bind].
  destruct (decide (m = _)) as [->|Hn].
  - rewrite (proj2 Hc eq_refl). simpl negb. cbv iota.
    rewrite put_mac by done. cbn [mbind option_bind]. rewrite Hw, all_bytes by done. cbn [mbind option_bind].
    by rewrite put_vector_mac.
  - destruct (c =? 0) eqn:Ec; bools; [apply Hc in Ec; congruence|]. done.
Qed.

Lemma sign_mac_spec p o h4 w hv pre post t : mac_packet p o h4 w hv pre post -> rp_vector p = w ->
  rp_offset p = (20 + length (attrs_bytes pre))%nat ->
  sign_mac stack p o secret (with_mac h4 w pre post zero_vector t) =
    Some (Some (with_mac h4 w pre post (rfc_hmac secret (mac_text h4 hv pre post)) t)).
Proof.
  intros Hp Hw Ho. pose proof Hp as [Hv Hh Hhv _ _ _ _]. pose proof Hh as (_ & Hwl & _).
  pose proof Hhv as (_ & Hhvl & _). unfold sign_mac.
  rewrite (mac_header_mac p o h4 w hv) by done. cbn [mbind option_bind].
  pose proof (mac_code p o h4 w hv pre post t Hp) as E.
  destruct (bytes _ 0 (rp_data_len p)) as [d|]; [|done]. cbn [mbind option_bind] in E |- *. rewrite E.
  cbn [mbind option_bind]. rewrite Ho.
  rewrite put_mac by (done || apply rfc_hmac_length). cbn [mbind option_bind]. rewrite Hw, all_bytes by done.
  cbn [mbind option_bind]. by rewrite put_vector_mac.
Qed.

(** ** The walk over the attributes *)

Definition plain_attr (a : attr) : Prop := attr_ok a /\ at_type a <> RADIUS_MESSAGE_AUTHENTICATOR.

Lemma verify_attrs_step fuel p o L a R n : attr_ok a -> 0 <= n ->
  verify_attrs stack (S fuel) p o secret (L ++ attr_bytes a ++ R) (length L) (Z.of_nat (length (attr_bytes a)) + n) =
    '(ok, data) ← (if at_type a =? RADIUS_MESSAGE_AUTHENTICATOR
                   then verify_mac stack p o secret (L ++ attr_bytes a ++ R) (length L)
                   else Some (true, L ++ attr_bytes a ++ R));
    if (ok : bool) then verify_attrs stack fuel p o secret data (length (L ++ attr_bytes a)) n
    else Some (false, data).
Proof.
  intros (Ht & Hl & _) Hn. cbn [verify_attrs]. rewrite rd_attr_len, rd_attr_type. cbn [mbind option_bind].
  rewrite attr_bytes_length. destruct (_ >? 0) eqn:E; bools; [|lia]. apply option_bind_ext_fun.
  intros [ok data]. rewrite length_app, attr_bytes_length. destruct ok; [|done]. f_equal; lia.
Qed.

Lemma verify_attrs_end fuel p o data ptr : verify_attrs stack fuel p o secret data ptr 0 = Some (true, data).
Proof. by destruct fuel. Qed.

Lemma verify_attrs_plain l : forall fuel p o L R n, Forall plain_attr l -> (length l <= fuel)%nat -> 0 <= n ->
  verify_attrs stack fuel p o secret (L ++ attrs_bytes l ++ R) (length L) (Z.of_nat (length (attrs_bytes l)) + n) =
  verify_attrs stack (fuel - length l) p o secret (L ++ attrs_bytes l ++ R) (length (L ++ attrs_bytes l)) n.
Proof.
  induction l as [|a l IH]; intros fuel p o L R n Hl Hf Hn.
  { simpl. by rewrite app_nil_r, Nat.sub_0_r. }
  apply Forall_cons_1 in Hl as [[Ha Ht] Hl]. destruct fuel as [|fuel]; [simpl in Hf; lia|].
  rewrite attrs_bytes_cons, length_app, Nat2Z.inj_add, <- Z.add_assoc, <- (app_assoc (attr_bytes a)).
  rewrite verify_attrs_step by (done || lia). rewrite (proj2 (Z.eqb_neq _ _)) by done. cbn [mbind option_bind].
  pose proof (IH fuel p o (L ++ attr_bytes a) R n Hl ltac:(simpl in Hf; lia) Hn) as E.
  rewrite <- !app_assoc in E. rewrite !app_assoc in E |- *. exact E.
Qed.

(** A message: attributes, of which at most one is a Message-Authenticator. *)
Definition message (pre : list attr) (mac : option (list Z)) (post : list attr) : list attr :=
  pre ++ match mac with Some m => [mac_attr m] | None => [] end ++ post.
(** The authenticator is the digest of the packet with that of the request in
    its place, and the secret; the Message-Authenticator is the code of the
    packet. *)
Definition reply_digest (h4 ov : list Z) (l : list attr) : list Z := md5 (h4 ++ ov ++ attrs_bytes l ++ secret).
Definition mac_right (h4 hv : list Z) (pre : list attr) (mac : option (list Z)) (post : list attr) : Prop :=
  match mac with None => True | Some m => m = rfc_hmac secret (mac_text h4 hv pre post) end.
#[export] Instance mac_right_dec h4 hv pre mac post : Decision (mac_right h4 hv pre mac post).
Proof. unfold mac_right. destruct mac; apply _. Defined.

Record message_ok (p : radius_packet) (o : option radius_packet) (h4 w hv : list Z)
    (pre : list attr) (mac : option (list Z)) (post : list attr) : Prop := {
  mo_vector : mac_vector p o w = Some hv; mo_header : header h4 w; mo_hv : header h4 hv;
  mo_pre : Forall plain_attr pre; mo_post : Forall plain_attr post;
  mo_mac : match mac with Some m => length m = 16%nat /\ Forall is_byte m | None => True end;
  mo_w : rp_vector p = w;
  mo_len : rp_data_len p = (20 + length (attrs_bytes (message pre mac post)))%nat;
  mo_max : Z.of_nat (rp_data_len p) < 65536 }.

Definition packet_bytes (h4 w : list Z) (l : list attr) (t : list Z) : list Z :=
  h4 ++ w ++ attrs_bytes l ++ t.

Lemma attrs_count l : Forall attr_ok l -> (length l <= length (attrs_bytes l))%nat.
Proof.
  intros H. induction H as [|a l Ha _ IH]; [done|].
  rewrite attrs_bytes_cons, length_app, attr_bytes_length. simpl length. lia.
Qed.
Lemma plain_ok l : Forall plain_attr l -> Forall attr_ok l.
Proof. intros H. eapply Forall_impl; [|exact H]. by intros a []. Qed.

Lemma mac_packet_of p o h4 w hv pre m post : message_ok p o h4 w hv pre (Some m) post ->
  mac_packet p o h4 w hv pre post.
Proof.
  intros [Hv Hh Hhv Hpre Hpost [Hm _] Hw Hlen Hmax].
  split; [done..|by apply plain_ok|by apply plain_ok| |done]. destruct Hhv as (H4 & Hl & _).
  rewrite Hlen. unfold mac_text, message.
  rewrite !length_app, !attrs_bytes_app, !length_app, !attrs_bytes_cons, length_app, !attr_bytes_length.
  rewrite !length_app, !attr_bytes_length. simpl at_value. rewrite Hm.
  change (length zero_vector) with 16%nat. change (attrs_bytes []) with (@nil Z). simpl length. lia.
Qed.

(** The rest of the walk: the Message-Authenticator and what is behind it. *)
Lemma verify_rest p o h4 w hv pre mac post t fuel : message_ok p o h4 w hv pre mac post ->
  (S (length post) <= fuel)%nat ->
  let data := packet_bytes h4 w (message pre mac post) t in
  exists data', verify_attrs stack fuel p o secret data (20 + length (attrs_bytes pre))
      (Z.of_nat (length (attrs_bytes match mac with Some m => [mac_attr m] | None => [] end)) +
       Z.of_nat (length (attrs_bytes post))) =
    Some (bool_decide (mac_right h4 hv pre mac post), data') /\
    (mac_right h4 hv pre mac post -> data' = data).
Proof.
  intros Hok Hf data. pose proof Hok as [Hv Hh Hhv Hpre Hpost Hmac Hw Hlen Hmax].
  pose proof Hh as (H4 & Hwl & _). destruct fuel as [|fuel]; [lia|].
  assert (HL : forall l : list Z, length (h4 ++ w ++ l) = (20 + length l)%nat)
    by (intros; rewrite !length_app, H4, Hwl; lia).
  destruct mac as [m|].
  - destruct Hmac as [Hm Hmb]. assert (Hma : attr_ok (mac_attr m)) by (repeat split; simpl; done || lia).
    pose proof (verify_mac_spec p o h4 w hv pre post m t (mac_packet_of _ _ _ _ _ _ _ _ Hok) Hw Hm) as E.
    rewrite with_mac_attrs in E by done.
    change (h4 ++ w ++ attrs_bytes (pre ++ mac_attr m :: post) ++ t) with data in E.
    assert (Ed : data = (h4 ++ w ++ attrs_bytes pre) ++ attr_bytes (mac_attr m) ++ attrs_bytes post ++ t).
    { unfold data, packet_bytes, message. rewrite !attrs_bytes_app. change (attrs_bytes [mac_attr m]) with (attr_bytes (mac_attr m) ++ []).
      by rewrite app_nil_r, <- !app_assoc. }
    change (attrs_bytes [mac_attr m]) with (attr_bytes (mac_attr m) ++ []). rewrite app_nil_r.
    rewrite <- (HL (attrs_bytes pre)). rewrite <- (HL (attrs_bytes pre)) in E. rewrite Ed.
    rewrite verify_attrs_step; [|done|lia].
    rewrite <- Ed. simpl at_type. rewrite Z.eqb_refl, E.
    simpl mac_right. destruct (decide _) as [Hr|Hr].
    + cbn [mbind option_bind]. exists data. rewrite bool_decide_eq_true_2 by done. split; [|done].
      rewrite Ed, (app_assoc (h4 ++ w ++ attrs_bytes pre)).
      pose proof (verify_attrs_plain post fuel p o ((h4 ++ w ++ attrs_bytes pre) ++ attr_bytes (mac_attr m)) t 0
        Hpost ltac:(lia) ltac:(lia)) as Ep.
      rewrite Z.add_0_r, verify_attrs_end in Ep. exact Ep.
    + cbn [mbind option_bind]. eexists. rewrite bool_decide_eq_false_2 by done. by split.
  - exists data. split; [|done]. rewrite bool_decide_eq_true_2 by done. simpl.
    assert (Ed : data = (h4 ++ w ++ attrs_bytes pre) ++ attrs_bytes post ++ t).
    { unfold data, packet_bytes, message. rewrite !attrs_bytes_app. by rewrite <- !app_assoc. }
    pose proof (verify_attrs_plain post (S fuel) p o (h4 ++ w ++ attrs_bytes pre) t 0 Hpost ltac:(lia) ltac:(lia)) as Ep.
    rewrite Z.add_0_r, verify_attrs_end, <- Ed, HL in Ep. exact Ep.
Qed.

Lemma verify_attrs_message p o h4 w hv pre mac post t : message_ok p o h4 w hv pre mac post ->
  let data := packet_bytes h4 w (message pre mac post) t in
  exists data', verify_attrs stack (rp_data_len p) p o secret data AUTH_HDR_LEN
    (Z.of_nat (rp_data_len p) - Z.of_nat AUTH_HDR_LEN) =
    Some (bool_decide (mac_right h4 hv pre mac post), data') /\
    (mac_right h4 hv pre mac post -> data' = data).
Proof.
  intros Hok data. pose proof Hok as [_ (H4 & Hwl & _) _ Hpre Hpost _ _ Hlen _].
  pose proof (attrs_count _ (plain_ok _ Hpre)). pose proof (attrs_count _ (plain_ok _ Hpost)).
  set (M := attrs_bytes match mac with Some m => [mac_attr m] | None => [] end).
  assert (Hl : length (attrs_bytes (message pre mac post)) =
    (length (attrs_bytes pre) + (length M + length (attrs_bytes post)))%nat).
  { unfold message, M. by rewrite !attrs_bytes_app, !length_app. }
  destruct (verify_rest p o h4 w hv pre mac post t (rp_data_len p - length pre) Hok ltac:(lia)) as (d & E & Hd).
  exists d. split; [|exact Hd].
  assert (Ed : data = (h4 ++ w) ++ attrs_bytes pre ++ (M ++ attrs_bytes post ++ t)).
  { unfold data, packet_bytes, message, M. rewrite !attrs_bytes_app. by rewrite <- !app_assoc. }
  pose proof (verify_attrs_plain pre (rp_data_len p) p o (h4 ++ w) (M ++ attrs_bytes post ++ t)
    (Z.of_nat (length M) + Z.of_nat (length (attrs_bytes post))) Hpre ltac:(lia) ltac:(lia)) as Ep.
  rewrite <- Ed, !length_app, H4, Hwl in Ep.
  refine (eq_trans _ (eq_trans Ep E)). unfold AUTH_HDR_LEN. f_equal. lia.
Qed.

(** ** The authenticators of answers *)

Definition is_reply (code : Z) : bool :=
  (code =? RADIUS_CODE_ACCESS_ACCEPT) || (code =? RADIUS_CODE_ACCESS_REJECT)
  || (code =? RADIUS_CODE_ACCESS_CHALLENGE).
Lemma is_reply_code code : is_reply code = true -> code = 2 \/ code = 3 \/ code = 11.
Proof using.
  clear.
  unfold is_reply, RADIUS_CODE_ACCESS_ACCEPT, RADIUS_CODE_ACCESS_REJECT, RADIUS_CODE_ACCESS_CHALLENGE.
  intros H. bools; lia.
Qed.

Lemma message_bytes_ok p o h4 w hv pre mac post : message_ok p o h4 w hv pre mac post ->
  Forall is_byte (attrs_bytes (message pre mac post)).
Proof.
  intros [_ _ _ Hpre Hpost Hmac _ _ _]. apply attrs_bytes_byte. unfold message.
  rewrite !Forall_app. split_and!; [by apply plain_ok| |by apply plain_ok].
  destruct mac as [m|]; [|done]. destruct Hmac as [Hm Hb]. constructor; [|done].
  repeat split; simpl; done || lia.
Qed.

(** The digest of a packet with an authenticator in it. *)
Lemma packet_digest p o h4 w hv pre mac post x t : message_ok p o h4 w hv pre mac post -> header h4 x ->
  (d ← bytes (packet_bytes h4 x (message pre mac post) t) 0 (rp_data_len p); digest_of stack [d; secret]) =
  Some (reply_digest h4 x (message pre mac post)).
Proof.
  intros Hok (H4 & Hx & Hb4 & Hbx). pose proof (message_bytes_ok _ _ _ _ _ _ _ _ Hok) as Hb.
  pose proof Hok as [_ _ _ _ _ _ _ Hlen Hmax]. destruct Hsecret as [Hs Hsl].
  unfold packet_bytes, reply_digest. 
  assert (h4 ++ x ++ attrs_bytes (message pre mac post) ++ t =
    (h4 ++ x ++ attrs_bytes (message pre mac post)) ++ t) as -> by (by rewrite <- !app_assoc).
  replace (rp_data_len p) with (length (h4 ++ x ++ attrs_bytes (message pre mac post)))
    by (rewrite !length_app, H4, Hx; lia).
  rewrite take_packet. cbn [mbind option_bind].
  rewrite digest_of_md5; cbn [concat]; rewrite ?app_nil_r, <- ?app_assoc; [done|done| |].
  - by rewrite !Forall_app.
  - rewrite !length_app, H4, Hx. unfold MAX_PIECE in *. lia.
Qed.

Lemma rad_verify_reply p q h4 w pre mac post t :
  is_reply (rp_code p) = true -> message_ok p (Some q) h4 w (rp_vector q) pre mac post ->
  exists r data, rad_verify stack p (packet_bytes h4 w (message pre mac post) t) (Some q) secret = Some (r, data) /\
    (r = 0 <-> w = reply_digest h4 (rp_vector q) (message pre mac post) /\
              mac_right h4 (rp_vector q) pre mac post) /\
    (r = 0 -> data = packet_bytes h4 w (message pre mac post) t).
Proof.
  intros Hr Hok. pose proof Hok as [_ Hh Hhq _ _ _ Hw _ _]. pose proof Hh as (_ & Hwl & _).
  pose proof Hhq as (_ & Hql & _). unfold rad_verify.
  destruct (verify_attrs_message p (Some q) h4 w (rp_vector q) pre mac post t Hok) as (d & -> & Hd).
  cbn [mbind option_bind]. destruct (bool_decide_reflect (mac_right h4 (rp_vector q) pre mac post)) as [Hm|Hm].
  2:{ eexists _, _. split; [done|]. split; [|done]. split; [done|naive_solver]. }
  rewrite (Hd Hm). cbn [negb].
  assert ((rp_code p =? RADIUS_CODE_ACCESS_REQUEST) || (rp_code p =? RADIUS_CODE_STATUS_SERVER) = false /\
    (rp_code p =? RADIUS_CODE_ACCNT_REQUEST) = false) as [-> ->].
  { by destruct (is_reply_code _ Hr) as [->|[->| ->]]. }
  fold (is_reply (rp_code p)). rewrite Hr. cbn [orb]. unfold calc_replydigest.
  rewrite (all_bytes (rp_vector q) Hql). cbn [mbind option_bind]. unfold packet_bytes at 1 2.
  rewrite (put_vector h4 w (rp_vector q)) by done. cbn [mbind option_bind].
  pose proof (packet_digest p (Some q) h4 w (rp_vector q) pre mac post (rp_vector q) t Hok Hhq) as E.
  unfold packet_bytes in E. destruct (bytes _ 0 (rp_data_len p)) as [x|]; [|done].
  cbn [mbind option_bind] in E |- *. rewrite E. cbn [mbind option_bind].
  rewrite Hw, all_bytes by done. cbn [mbind option_bind]. rewrite put_vector by done. cbn [mbind option_bind].
  destruct (rad_digest_cmp_spec w (reply_digest h4 (rp_vector q) (message pre mac post)) Hwl (md5_length _))
    as (c & -> & Hc). cbn [mbind option_bind]. eexists _, _. split; [done|]. split; [|done].
  destruct (c =? 0) eqn:Ec; bools; simpl; split; try done; naive_solver.
Qed.
(** C6: An answer (Accept, Reject or Challenge) to a request is accepted exactly
    if its authenticator is the MD5 digest of the answer with the request's
    authenticator in its place, followed by the secret, and its
    Message-Authenticator, if it has one, is the HMAC-MD5 of the answer; an
    accepted packet is left as it was received. *)
Theorem reply_accepted_iff p q h4 w pre mac post t :
  is_reply (rp_code p) = true -> message_ok p (Some q) h4 w (rp_vector q) pre mac post ->
  exists r data, rad_verify stack p (packet_bytes h4 w (message pre mac post) t) (Some q) secret = Some (r, data) /\
    (r = 0 <-> w = reply_digest h4 (rp_vector q) (message pre mac post) /\
              mac_right h4 (rp_vector q) pre mac post) /\
    (r = 0 -> data = packet_bytes h4 w (message pre mac post) t).
Proof. apply rad_verify_reply. Qed.

(** ** Signing *)

Lemma rad_verify_request p o h4 w pre mac post t :
  rp_code p = RADIUS_CODE_ACCESS_REQUEST -> message_ok p o h4 w w pre mac post ->
  mac_right h4 w pre mac post ->
  rad_verify stack p (packet_bytes h4 w (message pre mac post) t) o secret =
    Some (0, packet_bytes h4 w (message pre mac post) t).
Proof.
  intros Hc Hok Hm. unfold rad_verify.
  destruct (verify_attrs_message p o h4 w w pre mac post t Hok) as (d & -> & Hd).
  cbn [mbind option_bind]. rewrite bool_decide_eq_true_2 by done. cbn [negb]. rewrite (Hd Hm).
  by rewrite Hc.
Qed.

(** The Message-Authenticator of the packet as it is signed: its code, if it has one. *)
Definition signed_mac (h4 hv : list Z) (pre post : list attr) (mac : bool) : option (list Z) :=
  if mac then Some (rfc_hmac secret (mac_text h4 hv pre post)) else None.
Definition unsigned_mac (mac : bool) : option (list Z) := if mac then Some zero_vector else None.

Lemma message_ok_mac p o h4 w hv pre mac post :
  message_ok p o h4 w hv pre (unsigned_mac mac) post ->
  message_ok p o h4 w hv pre (signed_mac h4 hv pre post mac) post.
Proof.
  intros [Hv Hh Hhv Hpre Hpost Hmac Hw Hlen Hmax]. split; try done.
  - destruct mac; [|done]. split; [apply rfc_hmac_length|]. apply md5_byte.
  - rewrite Hlen. destruct mac; [|done]. unfold message, unsigned_mac, signed_mac.
    rewrite !attrs_bytes_app, !length_app, !attrs_bytes_cons, !length_app, !attr_bytes_length. simpl at_value.
    by rewrite rfc_hmac_length.
Qed.

Lemma sign_mac_step p o h4 w hv pre mac post t :
  message_ok p o h4 w hv pre (unsigned_mac mac) post ->
  rp_offset p = (if mac then 20 + length (attrs_bytes pre) else 0)%nat ->
  (if (0 <? rp_offset p)%nat
   then sign_mac stack p o secret (packet_bytes h4 w (message pre (unsigned_mac mac) post) t)
   else Some (Some (packet_bytes h4 w (message pre (unsigned_mac mac) post) t))) =
  Some (Some (packet_bytes h4 w (message pre (signed_mac h4 hv pre post mac) post) t)).
Proof.
  intros Hok Ho. destruct mac; simpl in Ho; rewrite Ho; [|done]. simpl.
  pose proof (mac_packet_of _ _ _ _ _ _ _ _ Hok) as Hp. pose proof Hok as [_ _ _ _ _ _ Hw _ _].
  pose proof (sign_mac_spec p o h4 w hv pre post t Hp Hw Ho) as E.
  rewrite !with_mac_attrs in E by (done || apply rfc_hmac_length). exact E.
Qed.

(** The authenticator of a signed packet. *)
Definition signed_vector (code : Z) (h4 w : list Z) (l : list attr) : list Z :=
  if code =? RADIUS_CODE_ACCESS_REQUEST then w else reply_digest h4 w l.

Lemma rad_sign_spec p o h4 w hv pre mac post t :
  rp_code p = RADIUS_CODE_ACCESS_REQUEST \/ (is_reply (rp_code p) = true /\ w = hv) ->
  message_ok p o h4 w hv pre (unsigned_mac mac) post ->
  rp_offset p = (if mac then 20 + length (attrs_bytes pre) else 0)%nat ->
  let l := message pre (signed_mac h4 hv pre post mac) post in
  rad_sign stack p (packet_bytes h4 w (message pre (unsigned_mac mac) post) t) o secret =
    Some (0, set_rp_vector (signed_vector (rp_code p) h4 w l) p,
          packet_bytes h4 (signed_vector (rp_code p) h4 w l) l t).
Proof.
  intros Hc Hok Ho. pose proof (message_ok_mac _ _ _ _ _ _ _ _ Hok) as Hok'.
  pose proof Hok as [Hv (H4 & Hwl & Hb4 & Hwb) Hhv _ _ _ Hw _ _]. unfold rad_sign, signed_vector.
  rewrite (sign_mac_step p o h4 w hv) by done. cbn [mbind option_bind].
  destruct Hc as [Hc|[Hc ->]].
  - rewrite Hc. simpl. assert (set_rp_vector w p = p) as -> by (rewrite <- Hw; by destruct p). done.
  - assert ((rp_code p =? RADIUS_CODE_ACCESS_REQUEST) || (rp_code p =? RADIUS_CODE_STATUS_SERVER) = false /\
      (rp_code p =? RADIUS_CODE_ACCESS_REQUEST) = false) as [-> ->].
    { by destruct (is_reply_code _ Hc) as [->|[->| ->]]. }
    pose proof (packet_digest p o h4 hv hv pre (signed_mac h4 hv pre post mac) post hv t Hok' Hhv) as E.
    destruct (bytes _ 0 (rp_data_len p)) as [x|]; [|done].
    cbn [mbind option_bind] in E |- *. rewrite E. cbn [mbind option_bind].
    unfold packet_bytes at 1. by rewrite put_vector.
Qed.

(** C18: A request, or an answer to one, that [rad_sign] has signed is accepted
    by [rad_verify] of whoever has the secret and the authenticator of the
    request, with and without a Message-Authenticator, whatever the
    attributes; nothing but the two authenticators of the packet changes. *)
Theorem signed_packet_accepted p o p2 o2 h4 w hv pre mac post t :
  rp_code p = RADIUS_CODE_ACCESS_REQUEST \/
    (is_reply (rp_code p) = true /\ w = hv /\ rp_vector <$> o2 = Some hv) ->
  message_ok p o h4 w hv pre (unsigned_mac mac) post ->
  rp_offset p = (if mac then 20 + length (attrs_bytes pre) else 0)%nat ->
  exists w' m p', let data := packet_bytes h4 w' (message pre m post) t in
    rad_sign stack p (packet_bytes h4 w (message pre (unsigned_mac mac) post) t) o secret = Some (0, p', data) /\
    (rp_code p2 = rp_code p -> rp_data_len p2 = rp_data_len p -> rp_vector p2 = w' ->
     rad_verify stack p2 data o2 secret = Some (0, data)).
Proof.
  intros Hc Hok Ho. set (m := signed_mac h4 hv pre post mac).
  exists (signed_vector (rp_code p) h4 w (message pre m post)), m. eexists. cbv zeta.
  split; [apply (rad_sign_spec p o h4 w hv); [naive_solver|done..]|].
  intros Ec El Ew. assert (Hm : mac_right h4 hv pre m post) by (by unfold m; destruct mac).
  pose proof (message_ok_mac _ _ _ _ _ _ _ _ Hok) as [Hv Hh Hhv Hpre Hpost Hmac _ Hlen Hmax]. fold m in Hmac, Hlen.
  destruct Hc as [Hc|(Hc & -> & Hq)].
  - unfold signed_vector in *. rewrite Hc in Ew |- *. simpl in Ew |- *.
    assert (hv = w) as -> by (unfold mac_vector in Hv; rewrite Hc in Hv; by injection Hv).
    apply rad_verify_request; [congruence| |done].
    split; try done; [|congruence..]. unfold mac_vector. by rewrite Ec, Hc.
  - apply fmap_Some in Hq as (q & -> & ->).
    assert (Ed : signed_vector (rp_code p) h4 (rp_vector q) (message pre m post) =
      reply_digest h4 (rp_vector q) (message pre m post)).
    { unfold signed_vector. by destruct (is_reply_code _ Hc) as [->|[->| ->]]. }
    rewrite Ed in Ew |- *.
    assert (message_ok p2 (Some q) h4 (reply_digest h4 (rp_vector q) (message pre m post)) (rp_vector q) pre m post) as Hok2.
    { split; try done; [| |congruence..].
      - unfold mac_vector in *. rewrite Ec. destruct (is_reply_code _ Hc) as [E1|[E1|E1]]; by rewrite E1.
      - destruct Hh as (H4 & _ & Hb & _). split_and!; [done|apply md5_length|done|apply md5_byte]. }
    assert (Hc2 : is_reply (rp_code p2) = true) by congruence.
    destruct (rad_verify_reply p2 q h4 _ pre m post t Hc2 Hok2) as (r & dd & -> & [_ Hr] & Hdd).
    rewrite (Hr (conj eq_refl Hm)) in Hdd |- *. by rewrite (Hdd eq_refl).
Qed.
End sign.

(** An answer of 44 bytes: a name, a Message-Authenticator and a state. *)
Definition reply_vector : list Z := replicate 16 9.
Definition reply_packet : radius_packet := mk_packet RADIUS_CODE_ACCESS_ACCEPT 44 23 [] reply_vector.
Definition reply_name : attr := mk_attr 1 [97].
Definition reply_state : attr := mk_attr 24 [5].
Lemma reply_message_ok :
  message_ok reply_packet (Some reply_packet) [2; 7; 0; 44] reply_vector reply_vector [reply_name]
    (unsigned_mac true) [reply_state].
Proof.
  assert (H : header [2; 7; 0; 44] reply_vector).
  { split_and!; [done..|repeat constructor; lia|by apply Forall_replicate]. }
  split; try done; [repeat constructor; simpl; done || lia..|by split; [|apply Forall_replicate]].
Qed.
Lemma reply_secret_ok : piece [115].
Proof. split; [repeat constructor; lia|vm_compute; discriminate]. Qed.

Lemma reply_accepted_iff_witness : let m := message [reply_name] (unsigned_mac true) [reply_state] in
  exists r data, rad_verify md5_ctx0 reply_packet (packet_bytes [2; 7; 0; 44] reply_vector m [0])
      (Some reply_packet) [115] = Some (r, data) /\
    (r = 0 <-> reply_vector = reply_digest [115] [2; 7; 0; 44] reply_vector m /\
      mac_right [115] [2; 7; 0; 44] reply_vector [reply_name] (unsigned_mac true) [reply_state]) /\
    (r = 0 -> data = packet_bytes [2; 7; 0; 44] reply_vector m [0]).
Proof.
  exact (reply_accepted_iff md5_ctx0 eq_refl [115] reply_secret_ok reply_packet reply_packet
    [2; 7; 0; 44] reply_vector [reply_name] (unsigned_mac true) [reply_state] [0] eq_refl reply_message_ok).
Defined.

Definition reply_received (w : list Z) : radius_packet := mk_packet RADIUS_CODE_ACCESS_ACCEPT 44 0 [] w.
Lemma signed_packet_accepted_witness : let w2 := replicate 16 3 in
  exists w' m p', let data := packet_bytes [2; 7; 0; 44] w' (message [reply_name] m [reply_state]) [0] in
    rad_sign md5_ctx0 reply_packet
      (packet_bytes [2; 7; 0; 44] reply_vector (message [reply_name] (unsigned_mac true) [reply_state]) [0])
      (Some reply_packet) [115] = Some (0, p', data) /\
    (rp_code (reply_received w2) = rp_code reply_packet ->
     rp_data_len (reply_received w2) = rp_data_len reply_packet -> rp_vector (reply_received w2) = w' ->
     rad_verify md5_ctx0 (reply_received w2) data (Some reply_packet) [115] = Some (0, data)).
Proof.
  exact (signed_packet_accepted md5_ctx0 eq_refl [115] reply_secret_ok reply_packet (Some reply_packet)
    (reply_received (replicate 16 3)) (Some reply_packet)
    [2; 7; 0; 44] reply_vector reply_vector [reply_name] true [reply_state] [0]
    (or_intror (conj eq_refl (conj eq_refl eq_refl))) reply_message_ok eq_refl).
Defined.

(** An attribute of length 0 keeps the walk where it is, for ever. *)
Lemma zero_attribute_never_ends stack secret fuel p o L t R n :
  t <> RADIUS_MESSAGE_AUTHENTICATOR -> 0 < n ->
  verify_attrs stack fuel p o secret (L ++ t :: 0 :: R) (length L) n = UB.
Proof.
  intros Ht Hn. induction fuel as [|fuel IH]; cbn [verify_attrs].
  - destruct (n >? 0) eqn:E; bools; [done|lia].
  - destruct (n >? 0) eqn:E; bools; [|lia].
    pose proof (rd_byte (L ++ [t]) 0 R) as E0. rewrite length_app, <- app_assoc in E0. simpl in E0.
    rewrite E0. cbn [mbind option_bind]. rewrite rd_byte. cbn [mbind option_bind].
    rewrite (proj2 (Z.eqb_neq _ _)) by done. cbn [mbind option_bind].
    by rewrite Nat.add_0_r, Z.sub_0_r.
Qed.
