(* ===== verification/RadiusMsg.v ===== *)
(** * RADIUS messages (nettest/network/authtest.c)

    How the authentication program builds a RADIUS message from a
    [radius_info], what it stores from one it receives, and the answers of its
    server mode.  The frame of a [radius_info] is its [radius_data]; a frame that
    is received is a buffer.  The pointer [eap_data] is used by code that is
    compiled out only, and is left out. *)

From stdpp Require Import base list numbers option.
From Stdlib Require Import ZArith Lia.
From S2P Require Import Prelude Wire Md5 Isaac Radius.

(** ** Constants of ksz_802_1x.h *)

Definition EAP_CODE_REQUEST : Z := 1.
Definition EAP_CODE_RESPONSE : Z := 2.
Definition EAP_CODE_SUCCESS : Z := 3.
Definition EAP_CODE_FAILURE : Z := 4.
Definition EAP_TYPE_IDENTITY : Z := 1.
Definition EAP_TYPE_NAK : Z := 3.
Definition EAP_TYPE_MD5_CHALLENGE : Z := 4.
Definition RADIUS_USER_NAME : Z := 1.
Definition RADIUS_USER_PASSWORD : Z := 2.
Definition RADIUS_NAS_IP_ADDRESS : Z := 4.
Definition RADIUS_NAS_PORT : Z := 5.
Definition RADIUS_SERVICE_TYPE : Z := 6.
Definition SERVICE_TYPE_FRAMED : Z := 2.
Definition RADIUS_FRAMED_IP_ADDRESS : Z := 8.
Definition RADIUS_FRAMED_MTU : Z := 12.
Definition RADIUS_REPLY_MESSAGE : Z := 18.
Definition RADIUS_STATE : Z := 24.
Definition RADIUS_CALLED_STATION_ID : Z := 30.
Definition RADIUS_CALLING_STATION_ID : Z := 31.
Definition RADIUS_NAS_PORT_TYPE : Z := 61.
Definition NAS_PORT_TYPE_ETHERNET : Z := 15.
Definition RADIUS_EAP_MESSAGE : Z := 79.
(** Sizes of the packed structures. *)
Definition SIZE_radius_frame : nat := 20.
Definition SIZE_radius_attrib : nat := 2.
Definition SIZE_eap_frame : nat := 4.
Definition SIZE_eap_body : nat := 1.

(** ** The data of an exchange *)

Record radius_info := mk_radius {
  ri_code : Z; ri_id : Z; ri_eap_id : Z; ri_eap_code : Z; ri_eap_type : Z; ri_dst : buf;
  ri_src : buf; ri_ip_addr : buf; ri_port : Z; ri_mtu : Z; ri_framed : Z; ri_state : buf;
  ri_state_len : Z; ri_eap : buf; ri_eap_len : Z; ri_msg : buf; ri_msg_len : Z; ri_name : buf;
  ri_name_len : Z; ri_password : buf; ri_encrypted : buf; ri_password_len : Z; ri_authen : buf;
  ri_len : Z; ri_sent : bool; ri_radius_data : buf; ri_packet : radius_packet;
  ri_original : radius_packet }.
#[export] Instance eta_radius_info : Eta radius_info := fun x =>
  mk_radius
    (ri_code x) (ri_id x) (ri_eap_id x) (ri_eap_code x) (ri_eap_type x) (ri_dst x) (ri_src x)
    (ri_ip_addr x) (ri_port x) (ri_mtu x) (ri_framed x) (ri_state x) (ri_state_len x) (ri_eap x)
    (ri_eap_len x) (ri_msg x) (ri_msg_len x) (ri_name x) (ri_name_len x) (ri_password x)
    (ri_encrypted x) (ri_password_len x) (ri_authen x) (ri_len x) (ri_sent x) (ri_radius_data x)
    (ri_packet x) (ri_original x).
Definition put_code v (x : radius_info) : radius_info := ltac:(field_set ri_code v x).
Definition put_id v (x : radius_info) : radius_info := ltac:(field_set ri_id v x).
Definition put_eap_id v (x : radius_info) : radius_info := ltac:(field_set ri_eap_id v x).
Definition put_eap_code v (x : radius_info) : radius_info := ltac:(field_set ri_eap_code v x).
Definition put_eap_type v (x : radius_info) : radius_info := ltac:(field_set ri_eap_type v x).
Definition put_dst v (x : radius_info) : radius_info := ltac:(field_set ri_dst v x).
Definition put_src v (x : radius_info) : radius_info := ltac:(field_set ri_src v x).
Definition put_ip_addr v (x : radius_info) : radius_info := ltac:(field_set ri_ip_addr v x).
Definition put_port v (x : radius_info) : radius_info := ltac:(field_set ri_port v x).
Definition put_mtu v (x : radius_info) : radius_info := ltac:(field_set ri_mtu v x).
Definition put_framed v (x : radius_info) : radius_info := ltac:(field_set ri_framed v x).
Definition put_state v (x : radius_info) : radius_info := ltac:(field_set ri_state v x).
Definition put_state_len v (x : radius_info) : radius_info := ltac:(field_set ri_state_len v x).
Definition put_eap v (x : radius_info) : radius_info := ltac:(field_set ri_eap v x).
Definition put_eap_len v (x : radius_info) : radius_info := ltac:(field_set ri_eap_len v x).
Definition put_msg v (x : radius_info) : radius_info := ltac:(field_set ri_msg v x).
Definition put_msg_len v (x : radius_info) : radius_info := ltac:(field_set ri_msg_len v x).
Definition put_name v (x : radius_info) : radius_info := ltac:(field_set ri_name v x).
Definition put_name_len v (x : radius_info) : radius_info := ltac:(field_set ri_name_len v x).
Definition put_password v (x : radius_info) : radius_info := ltac:(field_set ri_password v x).
Definition put_encrypted v (x : radius_info) : radius_info := ltac:(field_set ri_encrypted v x).
Definition put_password_len v (x : radius_info) : radius_info := ltac:(field_set ri_password_len v x).
Definition put_authen v (x : radius_info) : radius_info := ltac:(field_set ri_authen v x).
Definition put_len v (x : radius_info) : radius_info := ltac:(field_set ri_len v x).
Definition put_sent v (x : radius_info) : radius_info := ltac:(field_set ri_sent v x).
Definition put_radius_data v (x : radius_info) : radius_info := ltac:(field_set ri_radius_data v x).
Definition put_packet v (x : radius_info) : radius_info := ltac:(field_set ri_packet v x).
Definition put_original v (x : radius_info) : radius_info := ltac:(field_set ri_original v x).
Definition set_rp_code v (p : radius_packet) : radius_packet :=
  mk_packet v (rp_data_len p) (rp_offset p) (rp_state p) (rp_vector p).
Definition set_rp_data_len v (p : radius_packet) : radius_packet :=
  mk_packet (rp_code p) v (rp_offset p) (rp_state p) (rp_vector p).
Definition set_rp_offset v (p : radius_packet) : radius_packet :=
  mk_packet (rp_code p) (rp_data_len p) v (rp_state p) (rp_vector p).
Definition set_rp_state v (p : radius_packet) : radius_packet :=
  mk_packet (rp_code p) (rp_data_len p) (rp_offset p) v (rp_vector p).

(** Numbers in network order. *)
Definition be16 (v : Z) : list Z := reverse (le_bytes 2 v).
Definition be32 (v : Z) : list Z := reverse (le_bytes 4 v).
Definition rd_be16 (b : buf) (o : nat) : option Z := l ← bytes b o 2; Some (le (reverse l)).

(** ** Writing attributes

    The frame, where the next attribute goes ([data]), and the length so far. *)

Record build := mk_build { bd_frame : buf; bd_data : nat; bd_len : Z }.

(** The attribute at [data] is passed: its length is the byte in it. *)
Definition next_attrib (b : buf) (data : nat) (len : Z) : option build :=
  l ← rd b (data + 1) 1; Some (mk_build b (data + Z.to_nat l) (u32 (len + l))).
Definition set_val (type : Z) (val : list Z) (d : build) : option build :=
  b ← put (bd_frame d) (bd_data d) [u8 type; u8 (2 + Z.of_nat (length val))];
  b ← put b (bd_data d + 2) val;
  next_attrib b (bd_data d) (bd_len d).
Definition set_val_dword (type val : Z) (d : build) : option build :=
  b ← put (bd_frame d) (bd_data d) [u8 type; 6];
  b ← put b (bd_data d + 2) (be32 val);
  next_attrib b (bd_data d) (bd_len d).

(** "%02X-%02X-%02X-%02X-%02X-%02X", with the NUL that [sprintf] writes. *)
Definition hex_digit (x : Z) : Z := if x <? 10 then 48 + x else 55 + x.
Definition hex_byte (x : Z) : list Z := [hex_digit (x / 16); hex_digit (x mod 16)].
Fixpoint station_text (addr : list Z) : list Z :=
  match addr with
  | [] => []
  | [x] => hex_byte x
  | x :: addr => hex_byte x ++ [45] ++ station_text addr
  end.
Definition set_val_station (type : Z) (addr : buf) (d : build) : option build :=
  addr ← bytes addr 0 6;
  b ← put (bd_frame d) (bd_data d) [u8 type; 6 * 2 + 5 + 2];
  b ← put b (bd_data d + 2) (station_text addr ++ [0]);
  next_attrib b (bd_data d) (bd_len d).

Definition when (c : bool) (f : build -> option build) (d : build) : option build :=
  if c then f d else Some d.

(** The fragments of an EAP message. *)
Fixpoint set_eap (fuel : nat) (eap : buf) (eap_index : nat) (eap_len : Z) (d : build) : option build :=
  if eap_len =? 0 then Some d
  else
    match fuel with
    | O => UB
    | S fuel =>
        let eap_frag := if eap_len >? 255 then 255 else eap_len in
        v ← bytes eap eap_index (Z.to_nat eap_frag);
        d ← set_val RADIUS_EAP_MESSAGE v d;
        set_eap fuel eap (eap_index + Z.to_nat eap_frag) (eap_len - eap_frag) d
    end.

Section msg.
(** What automatic objects hold at first: an MD5 context, and the buffer of a
    password; the shared secret; the first contents of the random numbers. *)
Context (stack : fr_md5_ctx) (pw0 : buf) (secret : list Z) (src : pool_source).

(** The header of a message: the code, the identifier, and the authenticator,
    random numbers in a request, in an answer that of the request. *)
Definition prep_header (info : radius_info) (code id : Z) (pool : rand_pool)
    : option (radius_info * rand_pool) :=
  b ← put (ri_radius_data info) 0 [u8 code; u8 id];
  '(vector, pool) ← (if code =? RADIUS_CODE_ACCESS_REQUEST then prep_radius_req src pool
                     else v ← bytes (rp_vector (ri_original info)) 0 16; Some (v, pool));
  b ← put b 4 vector;
  Some (put_radius_data b (put_packet (set_rp_vector vector (ri_packet info)) info), pool).

(** The attributes up to the password. *)
Definition prep_attribs_1 (info : radius_info) (d : build) : option build :=
  ip0 ← ri_ip_addr info !! 0%nat;
  d ← when (truthy ip0) (fun d => v ← bytes (ri_ip_addr info) 0 4; set_val RADIUS_NAS_IP_ADDRESS v d) d;
  d ← when (truthy (ri_port info))
        (fun d => d ← set_val_dword RADIUS_NAS_PORT (ri_port info) d;
                  set_val_dword RADIUS_NAS_PORT_TYPE NAS_PORT_TYPE_ETHERNET d) d;
  when (truthy (ri_name_len info))
    (fun d => v ← bytes (ri_name info) 0 (Z.to_nat (ri_name_len info)); set_val RADIUS_USER_NAME v d) d.

(** The password, hidden in [encrypted]. *)
Definition prep_password (info : radius_info) (d : build) : option (radius_info * build) :=
  if truthy (ri_password_len info) then
    vector ← bytes (bd_frame d) 4 16;
    '(output, outlen) ← make_passwd stack (ri_password info) (Z.to_nat (ri_password_len info)) secret vector;
    encrypted ← put (ri_encrypted info) 0 output;
    let info := put_encrypted encrypted (put_password_len (Z.of_nat outlen) info) in
    v ← bytes (ri_encrypted info) 0 outlen;
    d ← set_val RADIUS_USER_PASSWORD v d;
    Some (info, d)
  else Some (info, d).

(** The attributes from the password to the state. *)
Definition prep_attribs_2 (info : radius_info) (d : build) : option build :=
  src0 ← ri_src info !! 0%nat;
  d ← when (negb (src0 =? 0xff)) (set_val_station RADIUS_CALLED_STATION_ID (ri_src info)) d;
  dst0 ← ri_dst info !! 0%nat;
  d ← when (negb (dst0 =? 0xff)) (set_val_station RADIUS_CALLING_STATION_ID (ri_dst info)) d;
  d ← when (truthy (ri_framed info)) (set_val_dword RADIUS_FRAMED_IP_ADDRESS (ri_framed info)) d;
  d ← set_val_dword RADIUS_SERVICE_TYPE SERVICE_TYPE_FRAMED d;
  d ← when (truthy (ri_mtu info)) (set_val_dword RADIUS_FRAMED_MTU (ri_mtu info)) d;
  when (truthy (ri_msg_len info))
    (fun d => v ← bytes (ri_msg info) 0 (Z.to_nat (ri_msg_len info)); set_val RADIUS_REPLY_MESSAGE v d) d.

Definition prep_state (info : radius_info) (d : build) : option (radius_info * build) :=
  if truthy (ri_state_len info) then
    v ← bytes (ri_state info) 0 (Z.to_nat (ri_state_len info));
    d ← set_val RADIUS_STATE v d;
    state ← put (rp_state (ri_original info)) 0 v;
    Some (put_original (set_rp_state state (ri_original info)) info, d)
  else Some (info, d).

(** The EAP message and the room for the Message-Authenticator. *)
Definition prep_eap (info : radius_info) (d : build) : option (radius_info * build) :=
  d ← set_eap (Z.to_nat (ri_eap_len info)) (ri_eap info) 0 (ri_eap_len info) d;
  let info := put_packet (set_rp_offset 0%nat (ri_packet info)) info in
  if truthy (ri_eap_len info) then
    let info := put_packet (set_rp_offset (bd_data d) (ri_packet info)) (put_authen zero_vector info) in
    d ← set_val RADIUS_MESSAGE_AUTHENTICATOR (ri_authen info) d;
    Some (info, d)
  else Some (info, d).

(** The length is stored, the packet signed, and a request remembered. *)
Definition prep_finish (info : radius_info) (code : Z) (d : build) : option radius_info :=
  b ← put (bd_frame d) 2 (be16 (u16 (bd_len d)));
  let info := put_len (s32 (bd_len d)) info in
  let packet := set_rp_data_len (Z.to_nat (u16 (bd_len d))) (set_rp_code code (ri_packet info)) in
  '(_, packet, b) ← rad_sign stack packet b (Some (ri_original info)) secret;
  let info := put_radius_data b (put_packet packet info) in
  if code =? RADIUS_CODE_ACCESS_REQUEST then
    v ← bytes b 4 16;
    Some (put_original (set_rp_vector v packet) info)
  else Some info.

Definition prep_radius_msg (info : radius_info) (code id : Z) (pool : rand_pool)
    : option (radius_info * rand_pool) :=
  '(info, pool) ← prep_header info code id pool;
  d ← prep_attribs_1 info (mk_build (ri_radius_data info) SIZE_radius_frame (Z.of_nat SIZE_radius_frame));
  '(info, d) ← prep_password info d;
  d ← prep_attribs_2 info d;
  '(info, d) ← prep_state info d;
  '(info, d) ← prep_eap info d;
  info ← prep_finish info code d;
  Some (info, pool).

(** ** Receiving *)

(** A string of the message, stored with a NUL behind it. *)
Definition store_string (dst : buf) (v : list Z) : option buf :=
  b ← put dst 0 v; put b (length v) [0].

(** [attrib->len - 2] bytes behind the header of the attribute; the number is
    converted to an unsigned type of [w] bits. *)
Definition attrib_value (w : Z) (radius : buf) (data : nat) (attrlen : Z) : option (list Z) :=
  bytes radius (data + 2) (Z.to_nat (uN w (attrlen - 2))).

(** The first fragment of an EAP message tells what it is. *)
Definition first_eap (info : radius_info) (server : bool) : option radius_info :=
  code ← rd (ri_eap info) 0 1; id ← rd (ri_eap info) 1 1; type ← rd (ri_eap info) 4 1;
  let info := put_eap_code code (put_eap_type type info) in
  if server then
    if (code =? EAP_CODE_RESPONSE) && (type =? EAP_TYPE_IDENTITY) then Some (put_eap_id id info)
    else Some info
  else Some (put_eap_id id info).

(** One attribute; [eap_index] goes with it. *)
Definition proc_attrib (radius : buf) (data : nat) (server : bool) (info : radius_info) (eap_index : nat)
    : option (radius_info * nat) :=
  val ← rd radius data 1;
  attrlen ← rd radius (data + 1) 1;
  if val =? RADIUS_USER_NAME then
    v ← attrib_value 16 radius data attrlen;
    name ← store_string (ri_name info) v;
    Some (put_name name (put_name_len (Z.of_nat (length v)) info), eap_index)
  else if val =? RADIUS_USER_PASSWORD then
    v ← attrib_value 32 radius data attrlen;
    password ← put pw0 0 v;
    vector ← bytes radius 4 16;
    '(_, password) ← rad_pwdecode stack password (length v) secret vector;
    n ← strlen password;
    v ← bytes password 0 n;
    p ← put (ri_password info) 0 v;
    Some (put_password p (put_password_len (Z.of_nat n) info), eap_index)
  else if val =? RADIUS_EAP_MESSAGE then
    v ← attrib_value 8 radius data attrlen;
    eap ← put (ri_eap info) eap_index v;
    let info := put_eap eap info in
    info ← (if Nat.eqb eap_index 0 then first_eap info server else Some info);
    Some (put_eap_len (u16 (ri_eap_len info + Z.of_nat (length v))) info, (eap_index + length v)%nat)
  else if val =? RADIUS_REPLY_MESSAGE then
    v ← attrib_value 16 radius data attrlen;
    msg ← store_string (ri_msg info) v;
    Some (put_msg msg (put_msg_len (Z.of_nat (length v)) info), eap_index)
  else if val =? RADIUS_STATE then
    v ← attrib_value 16 radius data attrlen;
    state ← put (ri_state info) 0 v;
    v ← bytes state 0 (length v);
    pstate ← put (rp_state (ri_packet info)) 0 v;
    Some (put_packet (set_rp_state pstate (ri_packet info))
            (put_state state (put_state_len (Z.of_nat (length v)) info)), eap_index)
  else if val =? RADIUS_MESSAGE_AUTHENTICATOR then
    if attrlen =? 18 then
      v ← bytes radius (data + 2) 16;
      authen ← put (ri_authen info) 0 v;
      Some (put_packet (set_rp_offset data (ri_packet info)) (put_authen authen info), eap_index)
    else Some (info, eap_index)
  else Some (info, eap_index).

(** The loop over the attributes; the comparison with the size of the header is
    one of unsigned numbers.  An attribute of length 0 keeps it where it is, for
    ever: the fuel is the number of bytes. *)
Fixpoint proc_attribs (fuel : nat) (radius : buf) (data : nat) (len : Z) (server : bool)
    (info : radius_info) (eap_index : nat) : option radius_info :=
  if u32 len >? Z.of_nat SIZE_radius_attrib then
    attrlen ← rd radius (data + 1) 1;
    if len >=? attrlen then
      match fuel with
      | O => UB
      | S fuel =>
          '(info, eap_index) ← proc_attrib radius data server info eap_index;
          proc_attribs fuel radius (data + Z.to_nat attrlen) (len - attrlen) server info eap_index
      end
    else Some info
  else Some info.

(** The message [radius] of [len] bytes.  Whether it is authentic is found out at
    the end, and not told: the function returns nothing. *)
Definition proc_radius_msg (radius : buf) (info : radius_info) (len : Z) (server : bool)
    : option radius_info :=
  msglen ← rd_be16 radius 2;
  let len := if len >? msglen then msglen else len in
  code ← rd radius 0 1; id ← rd radius 1 1;
  let info := put_code code info in
  if negb server && negb (id =? ri_id info) then Some info
  else
    let info := if server then put_id id info else info in
    vector ← bytes radius 4 16;
    let info := put_eap_code 0 (put_eap_len 0 (put_packet (set_rp_vector vector (ri_packet info)) info)) in
    let len := len - Z.of_nat SIZE_radius_frame in
    info ← proc_attribs (Z.to_nat len) radius SIZE_radius_frame len server info 0;
    let packet := set_rp_data_len (Z.to_nat msglen) (set_rp_code (ri_code info) (ri_packet info)) in
    let info := put_packet packet info in
    let info := if ri_code info =? RADIUS_CODE_ACCESS_REQUEST
                then put_original (set_rp_vector vector packet) info else info in
    '(r, _) ← rad_verify stack (ri_packet info) radius (Some (ri_original info)) secret;
    if truthy r then Some info else Some info.
End msg.
