(* ===== verification/RadiusServer.v ===== *)
(** * The messages of an exchange (nettest/network/authtest.c)

    The requests the program sends, and the answers of its server mode.  Texts
    are the codes of their characters. *)

From stdpp Require Import base list numbers option.
From Stdlib Require Import ZArith Lia.
From S2P Require Import Prelude Wire Md5 Isaac Radius RadiusMsg.

(** "testing", "password", "Hello, " and "Hello, %u". *)
Definition text_testing : list Z := [116; 101; 115; 116; 105; 110; 103].
Definition text_password : list Z := [112; 97; 115; 115; 119; 111; 114; 100].
Definition text_hello : list Z := [72; 101; 108; 108; 111; 44; 32].
Definition text_hello_u : list Z := text_hello ++ [37; 117].

(** [memset] with 0. *)
Definition zero_packet : radius_packet := mk_packet 0 0 0 (replicate 16 0) (replicate 16 0).
Definition zero_radius : radius_info :=
  mk_radius 0 0 0 0 0 (replicate 6 0) (replicate 6 0) (replicate 4 0) 0 0 0 (replicate 16 0) 0
    (replicate 1500 0) 0 (replicate 80 0) 0 (replicate 80 0) 0 (replicate 129 0) (replicate 128 0) 0
    (replicate 16 0) 0 false (replicate 1600 0) zero_packet zero_packet.

(** The header of the EAP message in [eap]: code, identifier and length. *)
Definition eap_header (code id len : Z) (info : radius_info) : option radius_info :=
  eap ← put (ri_eap info) 0 ([u8 code; u8 id] ++ be16 len); Some (put_eap eap info).

Section server.
Context (stack : fr_md5_ctx) (secret : list Z) (src : pool_source).
Definition prep := prep_radius_msg stack secret src.

(** The identifier of the next request; the counter is static. *)
Definition get_radius_id (info : radius_info) (radius_id : Z) : radius_info * Z :=
  (put_sent true (put_id radius_id info), u8 (radius_id + 1)).

Definition prep_access_request_simple_req (info : radius_info) (radius_id : Z) (pool : rand_pool)
    : option (radius_info * Z * rand_pool) :=
  name ← put (ri_name info) 0 (text_testing ++ [0]);
  password ← put (ri_password info) 0 (text_password ++ [0]);
  let info := put_name name (put_name_len 7 (put_password password (put_password_len 8 info))) in
  let info := put_msg_len 0 (put_state_len 0 (put_eap_len 0 info)) in
  let '(info, radius_id) := get_radius_id info radius_id in
  '(info, pool) ← prep info RADIUS_CODE_ACCESS_REQUEST (ri_id info) pool;
  Some (info, radius_id, pool).

Definition prep_access_request_req (info : radius_info) (radius_id : Z) (pool : rand_pool)
    : option (radius_info * Z * rand_pool) :=
  name ← put (ri_name info) 0 (text_testing ++ [0]);
  let info := put_name name (put_name_len 7 info) in
  let info := put_msg_len 0 (put_state_len 0 (put_eap_id 0 info)) in
  eap ← put (ri_eap info) 4 ([EAP_TYPE_IDENTITY] ++ text_testing ++ [0]);
  let info := put_eap_len (5 + ri_name_len info) (put_eap eap info) in
  info ← eap_header EAP_CODE_RESPONSE (ri_eap_id info) (ri_eap_len info) info;
  let '(info, radius_id) := get_radius_id info radius_id in
  '(info, pool) ← prep info RADIUS_CODE_ACCESS_REQUEST (ri_id info) pool;
  Some (info, radius_id, pool).

Definition prep_access_challenge_req (info : radius_info) (radius_id : Z) (pool : rand_pool)
    : option (radius_info * Z * rand_pool) :=
  let info := put_msg_len 0 info in
  eap ← put (ri_eap info) 4 [EAP_TYPE_MD5_CHALLENGE];
  let info := put_eap_len (5 + 17) (put_eap eap info) in
  info ← eap_header EAP_CODE_RESPONSE (ri_eap_id info) (ri_eap_len info) info;
  let '(info, radius_id) := get_radius_id info radius_id in
  '(info, pool) ← prep info RADIUS_CODE_ACCESS_REQUEST (ri_id info) pool;
  Some (info, radius_id, pool).

Definition prep_access_req (info : radius_info) (radius_id : Z) (pool : rand_pool)
    : option (radius_info * Z * rand_pool) :=
  let '(info, radius_id) := get_radius_id info radius_id in
  '(info, pool) ← prep info RADIUS_CODE_ACCESS_REQUEST (ri_id info) pool;
  Some (info, radius_id, pool).

(** The answer "Hello, " and the name; [snprintf] leaves at most 88 characters. *)
Definition hello (info : radius_info) : option radius_info :=
  n ← strlen (ri_name info);
  let info := put_password_len 0 (put_name_len (Z.of_nat n) info) in
  name ← bytes (ri_name info) 0 n;
  let buf := take 88 (text_hello ++ name) ++ [0] in
  v ← bytes buf 0 (n + 8);
  msg ← put (ri_msg info) 0 v;
  len ← strlen msg;
  Some (put_msg msg (put_msg_len (Z.of_nat len) info)).

Definition prep_access_accept_simple_rsp (info : radius_info) (pool : rand_pool)
    : option (radius_info * rand_pool) :=
  info ← hello info;
  prep (put_eap_len 0 (put_state_len 0 info)) RADIUS_CODE_ACCESS_ACCEPT (ri_id info) pool.

Definition prep_access_accept_rsp (info : radius_info) (pool : rand_pool)
    : option (radius_info * rand_pool) :=
  info ← hello info;
  let info := put_state_len 0 (put_eap_id (u8 (ri_eap_id info + 1)) info) in
  let info := put_eap_len 4 info in
  info ← eap_header EAP_CODE_SUCCESS (ri_eap_id info) (ri_eap_len info) info;
  prep info RADIUS_CODE_ACCESS_ACCEPT (ri_id info) pool.

Definition prep_access_challenge_rsp (info : radius_info) (pool : rand_pool)
    : option (radius_info * rand_pool) :=
  let info := put_name_len 0 info in
  msg ← put (ri_msg info) 0 (text_hello_u ++ [0]);
  let info := put_msg msg (put_msg_len 9 (put_password_len 0 info)) in
  state ← put (ri_state info) 0 (replicate 16 0xAC);
  let info := put_state state (put_state_len 16 (put_eap_id (u8 (ri_eap_id info + 1)) info)) in
  eap ← put (ri_eap info) 4 ([EAP_TYPE_MD5_CHALLENGE; 16] ++ replicate 16 0xAA);
  let info := put_eap_len (5 + 17) (put_eap eap info) in
  info ← eap_header EAP_CODE_REQUEST (ri_eap_id info) (ri_eap_len info) info;
  prep info RADIUS_CODE_ACCESS_CHALLENGE (ri_id info) pool.

(** [memcmp] of the first [n] bytes. *)
Definition memcmp_n (a b : buf) (n : nat) : option Z :=
  a ← bytes a 0 n; b ← bytes b 0 n; Some (memcmp a b).

(** What the server does with a request. *)
Definition answer_request (info : radius_info) (pool : rand_pool)
    : option (bool * radius_info * rand_pool) :=
  if ri_eap_code info =? EAP_CODE_RESPONSE then
    if ri_eap_type info =? EAP_TYPE_IDENTITY then
      '(info, pool) ← prep_access_challenge_rsp info pool; Some (true, info, pool)
    else if ri_eap_type info =? EAP_TYPE_MD5_CHALLENGE then
      c ← memcmp_n (rp_state (ri_packet info)) (rp_state (ri_original info)) (Z.to_nat (ri_state_len info));
      if truthy c then Some (false, info, pool)
      else '(info, pool) ← prep_access_accept_rsp info pool; Some (true, info, pool)
    else Some (false, info, pool)
  else
    c ← memcmp_n (ri_password info) (text_password ++ [0]) (Z.to_nat (ri_password_len info));
    if truthy c then Some (false, info, pool)
    else '(info, pool) ← prep_access_accept_simple_rsp info pool; Some (true, info, pool).

(** Whether there is an answer in the frame. *)
Definition resp_radius_msg (info : radius_info) (radius_id : Z) (pool : rand_pool)
    : option (bool * radius_info * Z * rand_pool) :=
  '(ret, info, pool) ← (if ri_code info =? RADIUS_CODE_ACCESS_REQUEST then answer_request info pool
                        else Some (false, info, pool));
  if ri_code info =? RADIUS_CODE_ACCESS_CHALLENGE then
    if (ri_eap_code info =? EAP_CODE_REQUEST) && (ri_eap_type info =? EAP_TYPE_MD5_CHALLENGE) then
      '(info, radius_id, pool) ← prep_access_challenge_req info radius_id pool;
      Some (true, info, radius_id, pool)
    else Some (ret, info, radius_id, pool)
  else Some (ret, info, radius_id, pool).

(** The first request for the identity of a supplicant, which the program makes
    itself. *)
Definition set_byte0 (b : buf) (v : Z) : option buf := put b 0 [v].
Definition prep_init_req (info : radius_info) (pool : rand_pool) : option (radius_info * rand_pool) :=
  a ← set_byte0 (ri_src info) 0xff; b ← set_byte0 (ri_dst info) 0xff;
  let info := put_src a (put_dst b info) in
  eap ← put (ri_eap info) 4 [EAP_TYPE_IDENTITY];
  let info := put_eap_len 5 (put_eap eap info) in
  info ← eap_header EAP_CODE_REQUEST (ri_eap_id info) (ri_eap_len info) info;
  prep info RADIUS_CODE_ACCESS_REQUEST (ri_id info) pool.

(** The commands that end an exchange: everything is cleared first. *)
Definition prep_end (code : Z) (pool : rand_pool) : option (radius_info * rand_pool) :=
  let info := zero_radius in
  a ← set_byte0 (ri_src info) 0xff; b ← set_byte0 (ri_dst info) 0xff;
  let info := put_src a (put_dst b info) in
  let info := put_eap_len 4 info in
  info ← eap_header code (ri_id info) (ri_eap_len info) info;
  prep (put_id (u8 (ri_id info + 1)) info) RADIUS_CODE_ACCESS_ACCEPT 0 pool.
Definition prep_success (info : radius_info) (pool : rand_pool) := prep_end EAP_CODE_SUCCESS pool.
Definition prep_fail (info : radius_info) (pool : rand_pool) := prep_end EAP_CODE_FAILURE pool.

Definition radius_init (src_addr ip_addr : buf) : option radius_info :=
  s ← bytes src_addr 0 6; ip ← bytes ip_addr 0 4;
  s ← put (ri_src zero_radius) 0 s; ip ← put (ri_ip_addr zero_radius) 0 ip;
  Some (put_src s (put_ip_addr ip (put_port 1 (put_mtu 1500 zero_radius)))).

(** What [main] changes for the server mode. *)
Definition FRAMED_IP_ADDRESS_ASSIGNED : Z := 0xfffffffe.
Definition server_info (info : radius_info) : option radius_info :=
  a ← set_byte0 (ri_src info) 0xff; b ← set_byte0 (ri_dst info) 0xff; ip ← set_byte0 (ri_ip_addr info) 0;
  Some (put_framed FRAMED_IP_ADDRESS_ASSIGNED (put_mtu 1500 (put_ip_addr ip (put_port 0 (put_dst b (put_src a info)))))).
(** A message that comes to the server, and the answer. *)
Definition serve (pw0 : buf) (msg : buf) (msglen : Z) (info : radius_info) (radius_id : Z) (pool : rand_pool)
    : option (option (list Z) * radius_info * Z * rand_pool) :=
  info ← proc_radius_msg stack pw0 secret msg info msglen true;
  '(ret, info, radius_id, pool) ← resp_radius_msg info radius_id pool;
  if (ret : bool) then
    v ← bytes (ri_radius_data info) 0 (Z.to_nat (ri_len info)); Some (Some v, info, radius_id, pool)
  else Some (None, info, radius_id, pool).
End server.
