(* ===== verification/RadiusMsgProofs.v ===== *)
(** * A RADIUS message is stored as it was sent

    What [prep_radius_msg] writes, as a list of attributes, and what
    [proc_radius_msg] stores of them. *)

From stdpp Require Import base list numbers option.
From Stdlib Require Import ZArith Lia.
From S2P Require Import Prelude Wire WireProofs TlvProofs Bytes Md5 Md5Proofs Isaac Radius RadiusProofs SignProofs RadiusMsg.

(** ** Numbers and texts *)

Lemma be32_length v : length (be32 v) = 4%nat.
Proof. unfold be32. by rewrite length_reverse, le_bytes_length. Qed.
Lemma be16_length v : length (be16 v) = 2%nat.
Proof. unfold be16. by rewrite length_reverse, le_bytes_length. Qed.
Lemma be32_byte v : Forall is_byte (be32 v).
Proof. apply Forall_reverse, le_bytes_byte. Qed.
Lemma be16_byte v : Forall is_byte (be16 v).
Proof. apply Forall_reverse, le_bytes_byte. Qed.
Lemma rd_be16_be16 pre v r : 0 <= v < 65536 -> rd_be16 (pre ++ be16 v ++ r) (length pre) = Some v.
Proof.
  intros H. unfold rd_be16. pose proof (bytes_mid pre (be16 v) r) as E. rewrite be16_length in E.
  rewrite E. cbn [mbind option_bind]. unfold be16. rewrite reverse_involutive, le_le_bytes; [done|]. simpl. lia.
Qed.

Lemma hex_digit_byte x : 0 <= x < 16 -> 0 <= hex_digit x < 256.
Proof. intros H. unfold hex_digit. case_match; lia. Qed.
Lemma hex_byte_byte x : 0 <= x < 256 -> Forall is_byte (hex_byte x).
Proof.
  intros H. unfold hex_byte. repeat constructor; apply hex_digit_byte;
    first [apply Z.mod_pos_bound; lia | split; [apply Z.div_pos; lia|apply Z.div_lt_upper_bound; lia]].
Qed.
Lemma station_text_ok addr : length addr = 6%nat -> Forall is_byte addr ->
  length (station_text addr) = 17%nat /\ Forall is_byte (station_text addr).
Proof.
  intros Hl H. do 6 (destruct addr as [|? addr]; [done|]). destruct addr; [|done]. split; [done|].
  repeat match goal with H : Forall _ (_ :: _) |- _ => apply Forall_cons_1 in H as [? H] end.
  cbn [station_text]. rewrite !Forall_app.
  repeat split; try (by apply hex_byte_byte); repeat constructor; lia.
Qed.

(** ** Building a frame *)

Definition FRAME : nat := 1600.
(** The attributes [l] are in the frame behind the header; they end at [n] at
    most. *)
Definition built (hdr : list Z) (l : list attr) (n : nat) (d : build) : Prop :=
  exists rest, bd_frame d = hdr ++ attrs_bytes l ++ rest /\ length (bd_frame d) = FRAME /\
    length hdr = 20%nat /\ bd_data d = length (hdr ++ attrs_bytes l) /\ (bd_data d <= n)%nat /\
    bd_len d = Z.of_nat (bd_data d) /\ Forall plain_attr l.

Lemma plain_intro t v : 0 <= t < 256 -> t <> 80 -> (length v <= 253)%nat -> Forall is_byte v ->
  plain_attr (mk_attr t v).
Proof. intros [] ? ? ?. by repeat split. Qed.

Lemma put_put (b : list Z) p x y r1 r2 : b = p ++ r1 ++ r2 -> length r1 = (length x + length y)%nat ->
  (b ← put b (length p) x; put b (length p + length x) y) = Some (p ++ x ++ y ++ r2).
Proof.
  intros -> H. rewrite <- (take_drop (length x) r1), <- (app_assoc (take _ r1)).
  rewrite put_mid by (rewrite length_take; lia). cbn [mbind option_bind].
  pose proof (put_mid (p ++ x) (drop (length x) r1) y r2 ltac:(rewrite length_drop; lia)) as E.
  rewrite length_app, <- !app_assoc in E. exact E.
Qed.

(** An attribute is written, and possibly [z] behind it. *)
Lemma attrib_built hdr l n d t v z : built hdr l n d -> plain_attr (mk_attr t v) ->
  (n + 2 + length v + length z <= FRAME)%nat ->
  exists d', (b ← put (bd_frame d) (bd_data d) [t; 2 + Z.of_nat (length v)];
              b ← put b (bd_data d + 2) (v ++ z); next_attrib b (bd_data d) (bd_len d)) = Some d' /\
    built hdr (l ++ [mk_attr t v]) (n + 2 + length v) d'.
Proof.
  intros (rest & Ef & Hl & Hh & Ed & Hn & Hlen & Hp) Hv Hr.
  rewrite Ef, !length_app in Hl. rewrite length_app in Ed.
  set (P := hdr ++ attrs_bytes l). assert (EP : bd_data d = length P) by (unfold P; rewrite length_app; lia).
  set (k := (2 + length v + length z)%nat).
  assert (Ef' : bd_frame d = P ++ take k rest ++ drop k rest) by (unfold P; by rewrite take_drop, <- app_assoc).
  pose proof (put_put (bd_frame d) P [t; 2 + Z.of_nat (length v)] (v ++ z) (take k rest) (drop k rest) Ef') as E.
  assert (Hk : (k <= length rest)%nat) by (unfold k; lia).
  assert (Hk' : length (take k rest) = (length [t; (2 + Z.of_nat (length v))%Z] + length (v ++ z))%nat).
  { rewrite length_take, length_app. simpl length. unfold k in *. lia. }
  specialize (E Hk'). rewrite <- EP in E.
  destruct (put (bd_frame d) (bd_data d) _) as [b|]; [|done]. cbn [mbind option_bind] in E |- *.
  simpl length in E. rewrite E. cbn [mbind option_bind].
  assert (Eb : P ++ [t; 2 + Z.of_nat (length v)] ++ (v ++ z) ++ drop k rest =
    P ++ attr_bytes (mk_attr t v) ++ z ++ drop k rest) by (unfold attr_bytes; simpl; by rewrite <- app_assoc).
  rewrite Eb. unfold next_attrib. pose proof (rd_attr_len P (mk_attr t v) (z ++ drop k rest)) as El.
  rewrite <- EP in El. rewrite El. cbn [mbind option_bind at_value].
  eexists. split; [done|]. exists (z ++ drop k rest). cbn [bd_frame bd_data bd_len].
  rewrite attrs_bytes_app, attrs_bytes_cons, !length_app, attr_bytes_length. change (attrs_bytes []) with (@nil Z).
  simpl at_value. simpl length. unfold FRAME in *. split_and!.
  - unfold P. rewrite app_nil_r. by rewrite <- !app_assoc.
  - rewrite !length_drop. unfold P in *. rewrite length_app in *. lia.
  - done.
  - lia.
  - lia.
  - rewrite u32_small by lia. lia.
  - apply Forall_app. split; [done|]. by constructor.
Qed.

Lemma set_val_built hdr l n d t v : built hdr l n d -> plain_attr (mk_attr t v) ->
  (n + 2 + length v <= FRAME)%nat ->
  exists d', set_val t v d = Some d' /\ built hdr (l ++ [mk_attr t v]) (n + 2 + length v) d'.
Proof.
  intros Hb Hp Hn. pose proof Hp as [(Ht & Hl & _) _]. simpl in Ht, Hl.
  destruct (attrib_built hdr l n d t v [] Hb Hp) as (d' & E & H'); [simpl; lia|].
  exists d'. split; [|done]. unfold set_val. rewrite !u8_small by lia. by rewrite app_nil_r in E.
Qed.
Lemma set_val_dword_built hdr l n d t v : built hdr l n d -> 0 <= t < 256 -> t <> 80 -> (n + 6 <= FRAME)%nat ->
  exists d', set_val_dword t v d = Some d' /\ built hdr (l ++ [mk_attr t (be32 v)]) (n + 6) d'.
Proof.
  intros Hb Ht Ht' Hn.
  destruct (attrib_built hdr l n d t (be32 v) [] Hb) as (d' & E & H').
  - apply plain_intro; [done..|rewrite be32_length; lia|apply be32_byte].
  - rewrite be32_length. simpl. lia.
  - rewrite be32_length, app_nil_r in E. rewrite be32_length in H'. exists d'.
    unfold set_val_dword. rewrite u8_small by lia. split; [exact E|]. replace (n + 6)%nat with (n + 2 + 4)%nat by lia. done.
Qed.
Lemma set_val_station_built hdr l n d t addr : built hdr l n d -> 0 <= t < 256 -> t <> 80 -> (n + 20 <= FRAME)%nat ->
  length addr = 6%nat -> Forall is_byte addr ->
  exists d', set_val_station t addr d = Some d' /\ built hdr (l ++ [mk_attr t (station_text addr)]) (n + 19) d'.
Proof.
  intros Hb Ht Ht' Hn Hl Ha. destruct (station_text_ok addr Hl Ha) as [Hs Hsb].
  destruct (attrib_built hdr l n d t (station_text addr) [0] Hb) as (d' & E & H').
  - apply plain_intro; [done..|lia|done].
  - simpl. lia.
  - exists d'. unfold set_val_station. rewrite bytes_Some by lia. rewrite drop_0, take_ge by lia.
    cbn [mbind option_bind]. rewrite u8_small by lia. rewrite Hs in E, H'. split; [exact E|].
    by replace (n + 19)%nat with (n + 2 + 17)%nat by lia.
Qed.

(** A part of the code adds the attributes [la], in [k] bytes at most. *)
Definition adds (f : build -> option build) (la : list attr) (k : nat) : Prop :=
  forall hdr l n d, built hdr l n d -> (n + k + 1 <= FRAME)%nat ->
    exists d', f d = Some d' /\ built hdr (l ++ la) (n + k) d'.

Lemma built_le hdr l n m d : built hdr l n d -> (n <= m)%nat -> built hdr l m d.
Proof. intros (rest & ? & ? & ? & ? & ? & ? & ?) ?. exists rest. split_and!; done || lia. Qed.
Lemma adds_le f la k m : adds f la k -> (k <= m)%nat -> adds f la m.
Proof.
  intros Hf Hm hdr l n d Hb Hn. destruct (Hf hdr l n d Hb) as (d' & E & H'); [lia|].
  exists d'. split; [done|]. apply (built_le _ _ _ _ _ H'). lia.
Qed.
Lemma adds_bind f g la lb k m : adds f la k -> adds g lb m ->
  adds (fun d => d ← f d; g d) (la ++ lb) (k + m).
Proof.
  intros Hf Hg hdr l n d Hb Hn. destruct (Hf hdr l n d Hb) as (d1 & -> & H1); [lia|].
  cbn [mbind option_bind]. rewrite app_assoc, Nat.add_assoc. apply Hg; [done|lia].
Qed.
Lemma adds_when c f la k : adds f la k -> adds (when c f) (if (c : bool) then la else []) k.
Proof.
  intros Hf hdr l n d Hb Hn. destruct c; simpl; [by apply Hf|]. exists d. split; [done|].
  rewrite app_nil_r. apply (built_le _ _ _ _ _ Hb). lia.
Qed.
Lemma adds_set_val t v : plain_attr (mk_attr t v) -> adds (set_val t v) [mk_attr t v] (2 + length v).
Proof.
  intros Hp hdr l n d Hb Hn. destruct (set_val_built hdr l n d t v Hb Hp) as (d' & E & H'); [lia|].
  exists d'. split; [done|]. apply (built_le _ _ _ _ _ H'). lia.
Qed.
Lemma adds_dword t v : 0 <= t < 256 -> t <> 80 -> adds (set_val_dword t v) [mk_attr t (be32 v)] 6.
Proof. intros Ht Ht' hdr l n d Hb Hn. apply set_val_dword_built; done || lia. Qed.
Lemma adds_station t addr : 0 <= t < 256 -> t <> 80 -> length addr = 6%nat -> Forall is_byte addr ->
  adds (set_val_station t addr) [mk_attr t (station_text addr)] 19.
Proof. intros Ht Ht' Hl Ha hdr l n d Hb Hn. apply set_val_station_built; done || lia. Qed.
Lemma adds_bytes b o k v f la m : bytes b o k = Some v -> adds (f v) la m ->
  adds (fun d => v ← bytes b o k; f v d) la m.
Proof. intros E Hf hdr l n d Hb Hn. rewrite E. by apply Hf. Qed.

(** ** What a [radius_info] holds *)

Definition bytes_ok (n : nat) (l : list Z) : Prop := length l = n /\ Forall is_byte l.
Record info_ok (i : radius_info) : Prop := {
  io_ip : bytes_ok 4 (ri_ip_addr i); io_src : bytes_ok 6 (ri_src i); io_dst : bytes_ok 6 (ri_dst i);
  io_state : bytes_ok 16 (ri_state i); io_eap : bytes_ok 1500 (ri_eap i); io_msg : bytes_ok 80 (ri_msg i);
  io_name : bytes_ok 80 (ri_name i); io_pass : bytes_ok 129 (ri_password i);
  io_enc : bytes_ok 128 (ri_encrypted i); io_authen : bytes_ok 16 (ri_authen i);
  io_frame : bytes_ok FRAME (ri_radius_data i);
  io_pstate : bytes_ok 16 (rp_state (ri_packet i)); io_ostate : bytes_ok 16 (rp_state (ri_original i));
  io_ovector : bytes_ok 16 (rp_vector (ri_original i)) }.
(** The lengths in use; an EAP message of one attribute. *)
Record lens_ok (i : radius_info) : Prop := {
  lo_name : 0 <= ri_name_len i <= 79; lo_pass : 0 <= ri_password_len i <= 128;
  lo_state : 0 <= ri_state_len i <= 16; lo_msg : 0 <= ri_msg_len i <= 79;
  lo_eap : 0 <= ri_eap_len i <= 253 }.

Lemma bytes_ok_take n l k : bytes_ok n l -> (k <= n)%nat ->
  bytes l 0 k = Some (take k l) /\ length (take k l) = k /\ Forall is_byte (take k l).
Proof.
  intros [Hl Hb] Hk. split_and!; [rewrite bytes_Some by lia; by rewrite drop_0| |by apply Forall_take].
  rewrite length_take. lia.
Qed.

(** The used part of a field. *)
Definition used (l : list Z) (n : Z) : list Z := take (Z.to_nat n) l.
Lemma used_ok n l k : bytes_ok n l -> 0 <= k <= Z.of_nat n ->
  bytes l 0 (Z.to_nat k) = Some (used l k) /\ length (used l k) = Z.to_nat k /\ Forall is_byte (used l k).
Proof. intros H Hk. apply (bytes_ok_take n); [done|lia]. Qed.

Definition when_attrs (c : bool) (l : list attr) : list attr := if c then l else [].

Definition attrs_1 (i : radius_info) : list attr :=
  when_attrs (truthy (nth 0 (ri_ip_addr i) 0)) [mk_attr RADIUS_NAS_IP_ADDRESS (take 4 (ri_ip_addr i))] ++
  when_attrs (truthy (ri_port i)) [mk_attr RADIUS_NAS_PORT (be32 (ri_port i));
                                   mk_attr RADIUS_NAS_PORT_TYPE (be32 NAS_PORT_TYPE_ETHERNET)] ++
  when_attrs (truthy (ri_name_len i)) [mk_attr RADIUS_USER_NAME (used (ri_name i) (ri_name_len i))].
Definition attrs_2 (i : radius_info) : list attr :=
  when_attrs (negb (nth 0 (ri_src i) 0 =? 0xff)) [mk_attr RADIUS_CALLED_STATION_ID (station_text (ri_src i))] ++
  when_attrs (negb (nth 0 (ri_dst i) 0 =? 0xff)) [mk_attr RADIUS_CALLING_STATION_ID (station_text (ri_dst i))] ++
  when_attrs (truthy (ri_framed i)) [mk_attr RADIUS_FRAMED_IP_ADDRESS (be32 (ri_framed i))] ++
  [mk_attr RADIUS_SERVICE_TYPE (be32 SERVICE_TYPE_FRAMED)] ++
  when_attrs (truthy (ri_mtu i)) [mk_attr RADIUS_FRAMED_MTU (be32 (ri_mtu i))] ++
  when_attrs (truthy (ri_msg_len i)) [mk_attr RADIUS_REPLY_MESSAGE (used (ri_msg i) (ri_msg_len i))].

Lemma nth0 (l : list Z) n : length l = S n -> l !! 0%nat = Some (nth 0 l 0).
Proof. by destruct l. Qed.


Lemma adds_used t b n k : bytes_ok n b -> 0 <= k <= Z.of_nat n -> k <= 253 -> 0 <= t < 256 -> t <> 80 ->
  adds (fun d => v ← bytes b 0 (Z.to_nat k); set_val t v d) [mk_attr t (used b k)] (2 + Z.to_nat k).
Proof.
  intros Hb Hk Hk' Ht Ht'. destruct (used_ok n b k Hb Hk) as (E & Hl & Hv).
  apply (adds_bytes _ _ _ (used b k)); [done|]. rewrite <- Hl. apply adds_set_val, plain_intro; done || lia.
Qed.

Lemma prep_attribs_1_adds i : info_ok i -> lens_ok i -> adds (prep_attribs_1 i) (attrs_1 i) 99.
Proof.
  intros Hi Hl. destruct (io_ip i Hi) as [Hip Hipb].
  eapply (adds_le _ _ (6 + (12 + 81))); [|lia]. intros hdr l n d. unfold prep_attribs_1.
  rewrite (nth0 _ 3 Hip). cbn [mbind option_bind]. revert hdr l n d. unfold attrs_1, when_attrs.
  apply (adds_bind (when _ _)); [apply adds_when|apply (adds_bind (when _ _)); apply adds_when].
  - apply (adds_used _ _ 4 4); done || lia.
  - apply (adds_bind _ _ [_] [_] 6 6); by apply adds_dword.
  - eapply adds_le; [apply (adds_used _ _ 80); try done; try apply Hi|]; destruct (lo_name i Hl); lia.
Qed.

Lemma prep_attribs_2_adds i : info_ok i -> lens_ok i -> adds (prep_attribs_2 i) (attrs_2 i) 137.
Proof.
  intros Hi Hl. destruct (io_src i Hi) as [Hs Hsb]. destruct (io_dst i Hi) as [Hd Hdb].
  eapply (adds_le _ _ (19 + (19 + (6 + (6 + (6 + 81)))))); [|lia]. intros hdr l n d. unfold prep_attribs_2.
  rewrite (nth0 _ 5 Hs), (nth0 _ 5 Hd). cbn [mbind option_bind]. revert hdr l n d. unfold attrs_2, when_attrs.
  apply (adds_bind (when _ _)); [apply adds_when; by apply adds_station|].
  apply (adds_bind (when _ _)); [apply adds_when; by apply adds_station|].
  apply (adds_bind (when _ _)); [apply adds_when; by apply adds_dword|].
  apply (adds_bind (set_val_dword _ _)); [by apply adds_dword|].
  apply (adds_bind (when _ _)); [apply adds_when; by apply adds_dword|]. apply adds_when.
  eapply adds_le; [apply (adds_used _ _ 80); try done; try apply Hi|]; destruct (lo_msg i Hl); lia.
Qed.

Section prep.
Context (stack : fr_md5_ctx) (Hstack : length (mc_buffer stack) = 64%nat).
Context (secret : list Z) (Hsecret : piece secret) (src : pool_source) (Hsrc : source_ok src).

(** The password as it is sent. *)
Definition hidden (i : radius_info) (w : list Z) : list Z :=
  let n := Z.to_nat (ri_password_len i) in
  rfc_hide (pass_blocks n) secret w (padded n (ri_password i)).
Lemma hidden_ok i w : info_ok i -> lens_ok i -> let n := Z.to_nat (ri_password_len i) in
  length (hidden i w) = round_pass n /\ (round_pass n <= 128)%nat /\ Forall is_byte (hidden i w).
Proof.
  clear Hstack Hsecret Hsrc.
  intros Hi Hl n. destruct (io_pass i Hi) as [Hp Hpb]. destruct (lo_pass i Hl).
  assert (Hn : (n <= 128)%nat) by (unfold n; lia). destruct (round_pass_blocks n Hn) as (E & Hk & _).
  unfold hidden. fold n. rewrite rfc_hide_length by (apply padded_length; [done|rewrite Hp; lia]).
  split_and!; [done|lia|by apply rfc_hide_byte, padded_byte].
Qed.
Definition attrs_password (i : radius_info) (w : list Z) : list attr :=
  when_attrs (truthy (ri_password_len i)) [mk_attr RADIUS_USER_PASSWORD (hidden i w)].
Definition after_password (i : radius_info) (w : list Z) : radius_info :=
  if truthy (ri_password_len i) then
    put_encrypted (hidden i w ++ drop (length (hidden i w)) (ri_encrypted i))
      (put_password_len (Z.of_nat (length (hidden i w))) i)
  else i.

Lemma prep_password_built i h4 w l n d : info_ok i -> lens_ok i -> header h4 w ->
  built (h4 ++ w) l n d -> (n + 131 <= FRAME)%nat ->
  exists d', prep_password stack secret i d = Some (after_password i w, d') /\
    built (h4 ++ w) (l ++ attrs_password i w) (n + 130) d'.
Proof.
  intros Hi Hl (H4 & Hw & _ & Hwb) Hb Hn. unfold prep_password, after_password, attrs_password.
  destruct (truthy (ri_password_len i)) eqn:Et.
  2:{ exists d. split; [done|]. simpl. rewrite app_nil_r. apply (built_le _ _ _ _ _ Hb). lia. }
  pose proof Hb as (rest & Ef & _ & _ & _ & _ & _ & _).
  assert (bytes (bd_frame d) 4 16 = Some w) as ->.
  { rewrite Ef, <- app_assoc. pose proof (bytes_mid h4 w (attrs_bytes l ++ rest)) as B. by rewrite H4, Hw in B. }
  cbn [mbind option_bind]. destruct (io_pass i Hi) as [Hp Hpb]. destruct (lo_pass i Hl) as [Hp0 Hp1].
  pose proof (make_passwd_spec stack Hstack (ri_password i) (Z.to_nat (ri_password_len i)) secret w
    Hsecret ltac:(lia) Hwb Hpb ltac:(lia)) as M. cbv zeta in M.
  rewrite Nat.min_l, (take_ge w) in M by lia. rewrite M. clear M. cbn [mbind option_bind].
  fold (hidden i w). destruct (hidden_ok i w Hi Hl) as (Eh & Hh & Hhb).
  destruct (io_enc i Hi) as [He _]. rewrite put_0 by lia. cbn [mbind option_bind].
  rewrite <- Eh. cbn [ri_encrypted put_encrypted put_password_len].
  rewrite bytes_Some by (rewrite length_app; lia). rewrite drop_0, take_app_le, take_ge by lia.
  cbn [mbind option_bind].
  destruct (set_val_built (h4 ++ w) l n d RADIUS_USER_PASSWORD (hidden i w) Hb) as (d' & -> & H').
  { apply plain_intro; unfold RADIUS_USER_PASSWORD; done || lia. } { lia. }
  exists d'. split; [done|]. apply (built_le _ _ _ _ _ H'). lia.
Qed.

Definition attrs_state (i : radius_info) : list attr :=
  when_attrs (truthy (ri_state_len i)) [mk_attr RADIUS_STATE (used (ri_state i) (ri_state_len i))].
Definition after_state (i : radius_info) : radius_info :=
  if truthy (ri_state_len i) then
    put_original (set_rp_state (used (ri_state i) (ri_state_len i) ++
      drop (Z.to_nat (ri_state_len i)) (rp_state (ri_original i))) (ri_original i)) i
  else i.
Lemma prep_state_built i hdr l n d : info_ok i -> lens_ok i -> built hdr l n d -> (n + 19 <= FRAME)%nat ->
  exists d', prep_state i d = Some (after_state i, d') /\ built hdr (l ++ attrs_state i) (n + 18) d'.
Proof.
  intros Hi Hl Hb Hn. unfold prep_state, after_state, attrs_state.
  destruct (truthy (ri_state_len i)) eqn:Et.
  2:{ exists d. split; [done|]. simpl. rewrite app_nil_r. apply (built_le _ _ _ _ _ Hb). lia. }
  destruct (lo_state i Hl). destruct (used_ok 16 (ri_state i) (ri_state_len i)) as (-> & El & Ev);
    [apply Hi|lia|]. cbn [mbind option_bind].
  destruct (set_val_built hdr l n d RADIUS_STATE (used (ri_state i) (ri_state_len i)) Hb) as (d' & -> & H').
  { apply plain_intro; unfold RADIUS_STATE; done || lia. } { lia. }
  cbn [mbind option_bind]. destruct (io_ostate i Hi) as [Ho _]. rewrite put_0 by lia. cbn [mbind option_bind].
  rewrite El. exists d'. split; [done|]. apply (built_le _ _ _ _ _ H'). lia.
Qed.

Definition attrs_eap (i : radius_info) : list attr :=
  when_attrs (truthy (ri_eap_len i)) [mk_attr RADIUS_EAP_MESSAGE (used (ri_eap i) (ri_eap_len i))].

(** The frame behind the EAP message: with room for the authenticator, if one is sent. *)
Definition closed (hdr : list Z) (l : list attr) (mac : bool) (d : build) : Prop :=
  exists rest, bd_frame d = hdr ++ attrs_bytes (message l (unsigned_mac mac) []) ++ rest /\
    length hdr = 20%nat /\ length (bd_frame d) = FRAME /\
    bd_len d = Z.of_nat (20 + length (attrs_bytes (message l (unsigned_mac mac) []))) /\
    bd_len d <= Z.of_nat FRAME.
Definition after_eap (i : radius_info) (l : list attr) : radius_info :=
  if truthy (ri_eap_len i)
  then put_packet (set_rp_offset (20 + length (attrs_bytes l)) (ri_packet i)) (put_authen zero_vector i)
  else put_packet (set_rp_offset 0%nat (ri_packet i)) i.

Lemma set_eap_one i hdr l n d : info_ok i -> lens_ok i -> built hdr l n d -> (n + 256 <= FRAME)%nat ->
  exists d', set_eap (Z.to_nat (ri_eap_len i)) (ri_eap i) 0 (ri_eap_len i) d = Some d' /\
    built hdr (l ++ attrs_eap i) (n + 255) d'.
Proof.
  intros Hi Hl Hb Hn. destruct (lo_eap i Hl) as [H0 H1]. unfold attrs_eap, truthy.
  destruct (Z.eqb_spec (ri_eap_len i) 0) as [E|E].
  { rewrite E. exists d. split; [done|]. simpl. rewrite app_nil_r. apply (built_le _ _ _ _ _ Hb). lia. }
  cbn [negb when_attrs]. destruct (Z.to_nat (ri_eap_len i)) as [|k] eqn:Ek; [lia|]. cbn [set_eap].
  rewrite (proj2 (Z.eqb_neq _ _)) by done. destruct (_ >? 255) eqn:E2; bools; [lia|].
  destruct (used_ok 1500 (ri_eap i) (ri_eap_len i)) as (-> & El & Ev); [apply Hi|lia|]. cbn [mbind option_bind].
  destruct (set_val_built hdr l n d RADIUS_EAP_MESSAGE (used (ri_eap i) (ri_eap_len i)) Hb) as (d' & -> & H').
  { apply plain_intro; unfold RADIUS_EAP_MESSAGE; done || lia. } { lia. }
  cbn [mbind option_bind]. rewrite Z.sub_diag. exists d'.
  split; [by destruct k|]. apply (built_le _ _ _ _ _ H'). lia.
Qed.

(** The Message-Authenticator, all zeros, behind the attributes. *)
Lemma set_mac_closed hdr l n d : built hdr l n d -> (n + 18 <= FRAME)%nat ->
  exists d', set_val RADIUS_MESSAGE_AUTHENTICATOR zero_vector d = Some d' /\ closed hdr l true d'.
Proof.
  intros (rest & Ef & Hlf & Hh & Ed & Hnd & Hlen & Hp) Hn. rewrite length_app, Hh in Ed.
  rewrite Ef, !length_app, Hh in Hlf. set (P := hdr ++ attrs_bytes l).
  assert (EP : bd_data d = length P) by (unfold P; rewrite length_app; lia).
  assert (Hl18 : length (take 18 rest) = 18%nat) by (rewrite length_take; lia).
  pose proof (put_put (bd_frame d) P [80; 18] zero_vector (take 18 rest) (drop 18 rest)) as E.
  rewrite <- EP in E. specialize (E ltac:(unfold P; rewrite take_drop, <- app_assoc; exact Ef) Hl18).
  unfold set_val. change (length zero_vector) with 16%nat.
  change ([u8 RADIUS_MESSAGE_AUTHENTICATOR; u8 (2 + Z.of_nat 16)]) with [80; 18].
  destruct (put (bd_frame d) (bd_data d) _) as [b|]; [|done]. cbn [mbind option_bind] in E |- *.
  simpl length in E. rewrite E. cbn [mbind option_bind].
  change ([80; 18] ++ zero_vector ++ drop 18 rest) with (attr_bytes (mac_attr zero_vector) ++ drop 18 rest).
  unfold next_attrib. pose proof (rd_attr_len P (mac_attr zero_vector) (drop 18 rest)) as El.
  rewrite <- EP in El. rewrite El. cbn [mbind option_bind]. change (at_value (mac_attr zero_vector)) with zero_vector.
  change (length zero_vector) with 16%nat. eexists. split; [done|].
  exists (drop 18 rest). unfold message, unsigned_mac. cbn [bd_frame bd_len].
  rewrite app_nil_r, attrs_bytes_app. change (attrs_bytes [mac_attr zero_vector]) with (attr_bytes (mac_attr zero_vector) ++ []).
  rewrite app_nil_r, !length_app, attr_bytes_length. change (length (at_value (mac_attr zero_vector))) with 16%nat.
  unfold FRAME in *. split_and!.
  - unfold P. by rewrite <- !app_assoc.
  - done.
  - rewrite length_drop. unfold P. rewrite length_app. lia.
  - rewrite u32_small by lia. lia.
  - rewrite u32_small by lia. lia.
Qed.

Lemma prep_eap_built i hdr l n d : info_ok i -> lens_ok i -> built hdr l n d -> (n + 300 <= FRAME)%nat ->
  exists d', prep_eap i d = Some (after_eap i (l ++ attrs_eap i), d') /\
    closed hdr (l ++ attrs_eap i) (truthy (ri_eap_len i)) d' /\ Forall plain_attr (l ++ attrs_eap i).
Proof.
  intros Hi Hl Hb Hn. unfold prep_eap.
  destruct (set_eap_one i hdr l n d Hi Hl Hb ltac:(lia)) as (d1 & -> & H1). cbn [mbind option_bind].
  cbn [ri_eap_len put_packet]. set (l1 := l ++ attrs_eap i) in *. unfold after_eap.
  pose proof H1 as (rest & Ef & Hlf & Hh & Ed & Hnd & Hlen & Hp).
  rewrite length_app, Hh in Ed. destruct (truthy (ri_eap_len i)) eqn:Et.
  2:{ exists d1. split; [done|]. split; [|done]. exists rest. unfold message, unsigned_mac.
      rewrite !app_nil_r. split_and!; try done; [by rewrite Hlen, Ed|unfold FRAME in *; lia]. }
  cbn [ri_authen put_packet put_authen].
  destruct (set_mac_closed hdr l1 (n + 255) d1 H1 ltac:(lia)) as (d' & -> & Hd').
  exists d'. split; [|done]. by rewrite Ed.
Qed.

(** ** The whole message *)

(** The header is in the frame. *)
Definition started (i : radius_info) (b : buf) (w : list Z) : radius_info :=
  put_radius_data b (put_packet (set_rp_vector w (ri_packet i)) i).
Lemma started_ok i b w : info_ok i -> bytes_ok FRAME b -> info_ok (started i b w).
Proof. intros [] Hb. by split. Qed.
Lemma after_password_ok i w : info_ok i -> lens_ok i ->
  info_ok (after_password i w) /\ lens_ok (after_password i w).
Proof.
  intros Hi Hl. unfold after_password. destruct (truthy _); [|done].
  destruct (hidden_ok i w Hi Hl) as (E & H & Hb). destruct Hi, Hl.
  split; [split|split]; try done; simpl; [|lia]. destruct io_enc0 as [He Heb].
  split; [rewrite length_app, length_drop; lia|]. apply Forall_app. split; [done|by apply Forall_drop].
Qed.
Lemma after_state_ok i : info_ok i -> lens_ok i -> info_ok (after_state i) /\ lens_ok (after_state i).
Proof.
  intros Hi Hl. unfold after_state. destruct (truthy _); [|done].
  destruct (used_ok 16 (ri_state i) (ri_state_len i) (io_state i Hi)) as (_ & E & Hb); [apply Hl|].
  destruct Hi, Hl. split; [|by split]. split; try done. simpl. destruct io_ostate0 as [Ho Hob].
  split; [rewrite length_app, length_drop; lia|]. apply Forall_app. split; [done|by apply Forall_drop].
Qed.

(** The attributes of a message, but for the authenticator. *)
Definition sent_attrs (i : radius_info) (w : list Z) : list attr :=
  attrs_1 i ++ attrs_password i w ++ attrs_2 i ++ attrs_state i ++ attrs_eap i.
Definition handled (i : radius_info) (w : list Z) : radius_info := after_state (after_password i w).

Lemma handled_packet i w : ri_packet (handled i w) = ri_packet i /\
  rp_vector (ri_original (handled i w)) = rp_vector (ri_original i) /\ ri_eap_len (handled i w) = ri_eap_len i.
Proof.
  unfold handled, after_state, after_password.
  destruct (truthy (ri_password_len i)); simpl; by destruct (truthy (ri_state_len i)).
Qed.

(** All the attributes are written. *)
Lemma body_built i h4 w rest : info_ok i -> lens_ok i -> header h4 w ->
  length (h4 ++ w ++ rest) = FRAME ->
  exists d, (d ← prep_attribs_1 i (mk_build (h4 ++ w ++ rest) SIZE_radius_frame (Z.of_nat SIZE_radius_frame));
             '(i, d) ← prep_password stack secret i d; d ← prep_attribs_2 i d; '(i, d) ← prep_state i d;
             prep_eap i d) = Some (after_eap (handled i w) (sent_attrs i w), d) /\
    closed (h4 ++ w) (sent_attrs i w) (truthy (ri_eap_len i)) d /\ Forall plain_attr (sent_attrs i w).
Proof.
  intros Hi Hl Hh Hf. pose proof Hh as (H4 & Hw & _).
  assert (H0 : built (h4 ++ w) [] 20 (mk_build (h4 ++ w ++ rest) SIZE_radius_frame (Z.of_nat SIZE_radius_frame))).
  { exists rest. cbn [bd_frame bd_data bd_len]. change (attrs_bytes []) with (@nil Z).
    rewrite !app_nil_r, app_nil_l, <- app_assoc. assert (length (h4 ++ w) = 20%nat) by (rewrite length_app; lia).
    by split_and!. }
  destruct (prep_attribs_1_adds i Hi Hl _ _ _ _ H0) as (d1 & -> & H1); [unfold FRAME; lia|]. cbn [mbind option_bind].
  destruct (prep_password_built i h4 w _ _ d1 Hi Hl Hh H1) as (d2 & -> & H2); [unfold FRAME; lia|]. cbn [mbind option_bind].
  destruct (after_password_ok i w Hi Hl) as [Hi2 Hl2].
  destruct (prep_attribs_2_adds _ Hi2 Hl2 _ _ _ _ H2) as (d3 & -> & H3); [unfold FRAME; lia|]. cbn [mbind option_bind].
  destruct (prep_state_built _ _ _ _ d3 Hi2 Hl2 H3) as (d4 & -> & H4'); [unfold FRAME; lia|]. cbn [mbind option_bind].
  fold (handled i w). destruct (after_state_ok _ Hi2 Hl2) as [Hi4 Hl4]. fold (handled i w) in Hi4, Hl4.
  destruct (prep_eap_built _ _ _ _ d4 Hi4 Hl4 H4') as (d5 & -> & H5 & Hp); [unfold FRAME; lia|].
  assert (E : (((([] ++ attrs_1 i) ++ attrs_password i w) ++ attrs_2 (after_password i w)) ++ attrs_state (after_password i w)) ++
    attrs_eap (handled i w) = sent_attrs i w).
  { unfold sent_attrs, handled, after_state, after_password. rewrite app_nil_l, <- !app_assoc.
    by destruct (truthy (ri_password_len i)); simpl; destruct (truthy (ri_state_len i)). }
  rewrite E in *. assert (Ee : ri_eap_len (handled i w) = ri_eap_len i).
  { unfold handled, after_state, after_password. destruct (truthy (ri_password_len i)); simpl; by destruct (truthy (ri_state_len i)). }
  rewrite Ee in H5. by exists d5.
Qed.

(** The authenticator that a message gets. *)
Definition vector_for (i : radius_info) (code : Z) (pool : rand_pool) : option (list Z * rand_pool) :=
  if code =? RADIUS_CODE_ACCESS_REQUEST then prep_radius_req src pool
  else v ← bytes (rp_vector (ri_original i)) 0 16; Some (v, pool).
Definition code_ok (code : Z) : Prop := code = RADIUS_CODE_ACCESS_REQUEST \/ is_reply code = true.
Lemma vector_for_ok i code pool : info_ok i -> rand_ok pool -> code_ok code ->
  exists w pool', vector_for i code pool = Some (w, pool') /\ rand_ok pool'.
Proof.
  intros Hi Hp [->|Hc].
  - destruct (prep_radius_req_ok src pool Hsrc Hp) as (w & p' & E & Hw & Hb & Hp'). by exists w, p'.
  - destruct (io_ovector i Hi) as [Ho Hob]. exists (rp_vector (ri_original i)), pool. unfold vector_for.
    rewrite bytes_Some by lia. rewrite drop_0, take_ge by lia.
    by destruct (is_reply_code _ Hc) as [->|[->| ->]].
Qed.
Lemma vector_for_shape i code pool w pool' : info_ok i -> code_ok code -> vector_for i code pool = Some (w, pool') ->
  length w = 16%nat /\ Forall is_byte w /\ (is_reply code = true -> w = rp_vector (ri_original i)).
Proof.
  intros Hi Hc. unfold vector_for. destruct (io_ovector i Hi) as [Ho Hob]. destruct (Z.eqb_spec code RADIUS_CODE_ACCESS_REQUEST) as [->|E].
  - intros [Hl Hb]%prep_radius_req_shape. by split_and!.
  - rewrite bytes_Some by lia. rewrite drop_0, take_ge by lia. intros H. injection H as <- _. by split_and!.
Qed.

Lemma prep_header_vector i code id pool w pool' : info_ok i -> code_ok code -> vector_for i code pool = Some (w, pool') ->
  exists x rest, prep_header src i code id pool =
      Some (started i (([u8 code; u8 id] ++ x) ++ w ++ rest) w, pool') /\
    length x = 2%nat /\ Forall is_byte x /\
    length (([u8 code; u8 id] ++ x) ++ w ++ rest) = FRAME /\ Forall is_byte rest.
Proof.
  intros Hi Hc E. destruct (vector_for_shape _ _ _ _ _ Hi Hc E) as (Hw & Hwb & _).
  unfold prep_header. destruct (io_frame i Hi) as [Hf Hfb]. set (D := ri_radius_data i) in *.
  rewrite put_0 by (rewrite Hf; unfold FRAME; simpl; lia). cbn [mbind option_bind].
  set (x := take 2 (drop 2 D)). set (y := take 16 (drop 4 D)). set (rest := drop 20 D).
  assert (ED : drop 2 D = x ++ y ++ rest).
  { unfold x, y, rest. rewrite <- (take_drop 2 (drop 2 D)) at 1. f_equal. rewrite drop_drop.
    rewrite <- (take_drop 16 (drop (2 + 2) D)) at 1. f_equal. by rewrite drop_drop. }
  assert (Hx : length x = 2%nat) by (unfold x; rewrite length_take, length_drop, Hf; done).
  assert (Hy : length y = 16%nat) by (unfold y; rewrite length_take, length_drop, Hf; done).
  fold (vector_for i code pool). rewrite E. cbn [mbind option_bind]. change (length [u8 code; u8 id]) with 2%nat. rewrite ED.
  pose proof (put_mid ([u8 code; u8 id] ++ x) y w rest ltac:(lia)) as Ep.
  rewrite length_app, Hx, <- app_assoc in Ep. change (length [u8 code; u8 id] + 2)%nat with 4%nat in Ep. rewrite Ep.
  cbn [mbind option_bind]. exists x, rest. split; [done|]. split_and!; try done.
  - unfold x. by apply Forall_take, Forall_drop.
  - rewrite !length_app, Hx, Hw. unfold rest. rewrite length_drop, Hf. done.
  - unfold rest. by apply Forall_drop.
Qed.

(** The message that is sent: its first four bytes, and what is signed. *)
Definition sent_head (code id : Z) (n : nat) : list Z := [u8 code; u8 id] ++ be16 (Z.of_nat n).
Definition message_len (l : list attr) (mac : bool) : nat :=
  20 + length (attrs_bytes (message l (unsigned_mac mac) [])).
Definition sent_message (code id : Z) (w : list Z) (l : list attr) (mac : bool) (rest : list Z) : list Z :=
  let h := sent_head code id (message_len l mac) in
  let m := message l (signed_mac secret h w l [] mac) [] in
  packet_bytes h (signed_vector secret code h w m) m rest.

Lemma sent_head_header code id n w : length w = 16%nat -> Forall is_byte w -> header (sent_head code id n) w.
Proof.
  clear.
  intros Hw Hb. unfold sent_head. split_and!; try done.
  apply Forall_app. split; [|apply be16_byte]. repeat constructor; apply Z.mod_pos_bound; lia.
Qed.

Definition offset_of (mac : bool) (l : list attr) : nat := if mac then 20 + length (attrs_bytes l) else 0.
Lemma prep_finish_spec i code id x w l mac d :
  code = RADIUS_CODE_ACCESS_REQUEST \/ (is_reply code = true /\ w = rp_vector (ri_original i)) ->
  length x = 2%nat -> header ([u8 code; u8 id] ++ x) w -> Forall plain_attr l ->
  rp_vector (ri_packet i) = w -> rp_offset (ri_packet i) = offset_of mac l ->
  closed (([u8 code; u8 id] ++ x) ++ w) l mac d ->
  exists i' rest, prep_finish stack secret i code d = Some i' /\
    ri_radius_data i' = sent_message code id w l mac rest /\ ri_len i' = Z.of_nat (message_len l mac) /\
    (code = RADIUS_CODE_ACCESS_REQUEST -> rp_vector (ri_original i') = w) /\
    (message_len l mac + length rest = FRAME)%nat.
Proof.
  intros Hc Hx Hh Hp Hw Ho (rest & Ef & _ & Hl & Hlen & Hmax). pose proof Hh as (_ & Hwl & _ & Hwb).
  set (n := message_len l mac). change (20 + length (attrs_bytes (message l (unsigned_mac mac) [])))%nat with n in Hlen.
  unfold prep_finish. rewrite Hlen. rewrite Hlen in Hmax.
  rewrite u16_small by (unfold FRAME in Hmax; lia). rewrite s32_small by (unfold FRAME in Hmax; lia).
  rewrite Ef, <- !app_assoc. pose proof (put_mid [u8 code; u8 id] x (be16 (Z.of_nat n))
    (w ++ attrs_bytes (message l (unsigned_mac mac) []) ++ rest) ltac:(by rewrite be16_length)) as Ep.
  change (length [u8 code; u8 id]) with 2%nat in Ep. rewrite Ep. cbn [mbind option_bind]. rewrite Nat2Z.id.
  set (p := set_rp_data_len n (set_rp_code code (ri_packet (put_len (Z.of_nat n) i)))).
  pose proof (sent_head_header code id n w Hwl Hwb) as Hh'.
  assert (Hok : message_ok p (Some (ri_original i)) (sent_head code id n) w w l (unsigned_mac mac) []).
  { split; try done; [| |unfold p; simpl; unfold FRAME in Hmax; lia].
    - unfold mac_vector, p. simpl. destruct Hc as [->|[Hc ->]]; [done|].
      by destruct (is_reply_code _ Hc) as [->|[->| ->]].
    - destruct mac; [|done]. split; [done|by apply Forall_replicate]. }
  assert (Hc' : rp_code p = RADIUS_CODE_ACCESS_REQUEST \/ is_reply (rp_code p) = true /\ w = w) by naive_solver.
  pose proof (rad_sign_spec stack Hstack secret Hsecret p (Some (ri_original i)) _ w w l mac [] rest Hc' Hok Ho) as Es.
  cbv zeta in Es. rewrite (app_assoc [u8 code; u8 id]). fold (sent_head code id n).
  change (sent_head code id n ++ w ++ attrs_bytes (message l (unsigned_mac mac) []) ++ rest)
    with (packet_bytes (sent_head code id n) w (message l (unsigned_mac mac) []) rest).
  change (ri_original (put_len (Z.of_nat n) i)) with (ri_original i).
  rewrite Es. cbn [mbind option_bind]. change (rp_code p) with code.
  change (packet_bytes (sent_head code id n) _ _ rest) with (sent_message code id w l mac rest).
  assert (Hr : (n + length rest = FRAME)%nat).
  { rewrite Ef, !length_app, Hwl, Hx in Hl. unfold n, message_len. simpl length in Hl. lia. }
  destruct (code =? RADIUS_CODE_ACCESS_REQUEST) eqn:E; bools.
  - assert (bytes (sent_message code id w l mac rest) 4 16 = Some w) as ->.
    { unfold sent_message, packet_bytes, signed_vector. rewrite E. simpl Z.eqb. cbv iota.
      destruct Hh' as (H4 & _). pose proof (bytes_mid (sent_head code id n) w) as B. rewrite H4, Hwl in B. apply B. }
    cbn [mbind option_bind]. eexists _, rest. split; [done|]. by split_and!.
  - eexists _, rest. split; [done|]. by split_and!.
Qed.

Lemma prep_radius_msg_given i code id pool w pool' : info_ok i -> lens_ok i -> code_ok code ->
  vector_for i code pool = Some (w, pool') ->
  exists i' rest, prep_radius_msg stack secret src i code id pool = Some (i', pool') /\
    length w = 16%nat /\ Forall is_byte w /\
    (is_reply code = true -> w = rp_vector (ri_original i)) /\
    ri_radius_data i' = sent_message code id w (sent_attrs i w) (truthy (ri_eap_len i)) rest /\
    ri_len i' = Z.of_nat (message_len (sent_attrs i w) (truthy (ri_eap_len i))) /\
    (code = RADIUS_CODE_ACCESS_REQUEST -> rp_vector (ri_original i') = w) /\
    Forall plain_attr (sent_attrs i w) /\
    (message_len (sent_attrs i w) (truthy (ri_eap_len i)) + length rest = FRAME)%nat.
Proof.
  intros Hi Hl Hc Hv. destruct (vector_for_shape _ _ _ _ _ Hi Hc Hv) as (Hw & Hwb & He).
  destruct (prep_header_vector i code id pool w pool' Hi Hc Hv) as (x & rest & E & Hx & Hxb & Hf & Hrb).
  unfold prep_radius_msg. rewrite E. cbn [mbind option_bind]. set (i1 := started i _ w).
  assert (Hh : header ([u8 code; u8 id] ++ x) w).
  { split_and!; try done; [rewrite length_app, Hx; done|]. apply Forall_app. split; [|done].
    repeat constructor; apply Z.mod_pos_bound; lia. }
  assert (Hi1 : info_ok i1).
  { apply started_ok; [done|]. split; [done|]. rewrite !Forall_app. destruct Hh as (_ & _ & H & _).
    apply Forall_app in H as []. done. }
  assert (Hl1 : lens_ok i1) by (destruct Hl; by split).
  destruct (body_built i1 ([u8 code; u8 id] ++ x) w rest Hi1 Hl1 Hh Hf) as (d & Eb & Hcl & Hpl).
  change (ri_radius_data i1) with (([u8 code; u8 id] ++ x) ++ w ++ rest).
  destruct (prep_attribs_1 i1 _) as [d1|]; [|done]. cbn [mbind option_bind] in Eb |- *.
  destruct (prep_password stack secret i1 d1) as [[i2 d2]|]; [|done]. cbn [mbind option_bind] in Eb |- *.
  destruct (prep_attribs_2 i2 d2) as [d3|]; [|done]. cbn [mbind option_bind] in Eb |- *.
  destruct (prep_state i2 d3) as [[i4 d4]|]; [|done]. cbn [mbind option_bind] in Eb |- *.
  rewrite Eb. cbn [mbind option_bind]. set (l := sent_attrs i1 w) in *. set (i5 := after_eap (handled i1 w) l).
  destruct (handled_packet i1 w) as (Eh & Eo & Ee).
  assert (E5 : rp_vector (ri_packet i5) = w /\ rp_offset (ri_packet i5) = offset_of (truthy (ri_eap_len i1)) l /\
    rp_vector (ri_original i5) = rp_vector (ri_original i)).
  { unfold i5, after_eap, offset_of. rewrite Ee. destruct (truthy (ri_eap_len i1)); simpl; rewrite Eh; split_and!; done. }
  destruct E5 as (Ev & Eoff & Eor).
  destruct (prep_finish_spec i5 code id x w l (truthy (ri_eap_len i1)) d) as (i' & r & -> & ? & ? & ? & ?); try done.
  { rewrite Eor. destruct Hc; naive_solver. }
  cbn [mbind option_bind]. exists i', r. by split_and!.
Qed.
Lemma prep_radius_msg_spec i code id pool : info_ok i -> lens_ok i -> rand_ok pool -> code_ok code ->
  exists i' pool' w rest, prep_radius_msg stack secret src i code id pool = Some (i', pool') /\
    length w = 16%nat /\ Forall is_byte w /\ rand_ok pool' /\
    (is_reply code = true -> w = rp_vector (ri_original i)) /\
    ri_radius_data i' = sent_message code id w (sent_attrs i w) (truthy (ri_eap_len i)) rest /\
    ri_len i' = Z.of_nat (message_len (sent_attrs i w) (truthy (ri_eap_len i))) /\
    (code = RADIUS_CODE_ACCESS_REQUEST -> rp_vector (ri_original i') = w) /\
    Forall plain_attr (sent_attrs i w) /\
    (message_len (sent_attrs i w) (truthy (ri_eap_len i)) + length rest = FRAME)%nat.
Proof.
  intros Hi Hl Hp Hc. destruct (vector_for_ok i code pool Hi Hp Hc) as (w & pool' & Hv & Hp').
  destruct (prep_radius_msg_given i code id pool w pool' Hi Hl Hc Hv) as (i' & rest & ? & ? & ? & ? & ? & ? & ? & ? & ?).
  exists i', pool', w, rest. by split_and!.
Qed.
End prep.
