(* ===== verification/RadiusRecv.v ===== *)
(** * What is stored of a RADIUS message

    [proc_radius_msg] on the messages [prep_radius_msg] writes: each attribute is
    stored on its own, and a request is stored as it was meant. *)

From stdpp Require Import base list numbers option.
From Stdlib Require Import ZArith Lia.
From S2P Require Import Prelude Wire WireProofs TlvProofs Bytes Md5 Md5Proofs Isaac Radius RadiusProofs SignProofs RadiusMsg RadiusServer RadiusMsgProofs.

(** ** Texts *)

(** The characters before the first NUL. *)
Fixpoint text_of (b : list Z) : list Z :=
  match b with [] => [] | x :: b => if x =? 0 then [] else x :: text_of b end.
Lemma strlen_text_of b r : exists r', b ++ 0 :: r = text_of b ++ r' /\
  strlen (b ++ 0 :: r) = Some (length (text_of b)).
Proof.
  induction b as [|x b IH]; simpl; [by exists (0 :: r)|].
  destruct (x =? 0) eqn:E; [by exists (x :: b ++ 0 :: r)|]. destruct IH as (r' & -> & ->). by exists r'.
Qed.
Lemma text_of_length b : (length (text_of b) <= length b)%nat.
Proof. induction b as [|x b IH]; simpl; [lia|]. destruct (x =? 0); simpl; lia. Qed.
Lemma text_of_byte b : Forall is_byte b -> Forall is_byte (text_of b).
Proof. induction 1 as [|x b Hx _ IH]; simpl; [constructor|]. destruct (x =? 0); by constructor. Qed.
Lemma text_of_all b r : Forall (fun x => x <> 0) b -> text_of (b ++ r) = b ++ text_of r.
Proof. induction 1 as [|x b Hx _ IH]; simpl; [done|]. rewrite (proj2 (Z.eqb_neq _ _)) by done. by rewrite IH. Qed.
Lemma text_of_pad b n : text_of (b ++ replicate n 0) = text_of b.
Proof. induction b as [|x b IH]; simpl; [by destruct n|]. by rewrite IH. Qed.

(** [v] at [k] of [b]. *)
Definition over (k : nat) (b v : list Z) : list Z := take k b ++ v ++ drop (k + length v) b.
Lemma put_over b k v : (k + length v <= length b)%nat -> put b k v = Some (over k b v).
Proof.
  intros H. unfold over. rewrite <- (take_drop k b) at 1. rewrite <- (take_drop (length v) (drop k b)) at 1.
  rewrite drop_drop. assert (length (take k b) = k) as Ek by (rewrite length_take; lia).
  rewrite <- Ek at 4. apply put_mid. rewrite length_take, length_drop. lia.
Qed.
Lemma over_ok n b k v : bytes_ok n b -> Forall is_byte v -> (k + length v <= n)%nat -> bytes_ok n (over k b v).
Proof.
  intros [Hl Hb] Hv H. unfold over. split.
  - rewrite !length_app, length_take, length_drop. lia.
  - rewrite !Forall_app. split_and!; [by apply Forall_take|done|by apply Forall_drop].
Qed.
Lemma take_over b v r n : n = length v -> take n (over 0 b (v ++ r)) = v.
Proof. intros ->. unfold over. rewrite take_0, app_nil_l, <- app_assoc, take_app_le by lia. by rewrite take_ge. Qed.

Lemma bytes_over b v : bytes (over 0 b v) 0 (length v) = Some v.
Proof. unfold over. rewrite take_0. apply (bytes_mid []). Qed.
Lemma rd_nth (b : buf) k : (k < length b)%nat -> rd b k 1 = Some (nth k b 0).
Proof.
  intros H. rewrite <- (take_drop k b) at 1. destruct (drop k b) as [|x r] eqn:E.
  { apply (f_equal length) in E. rewrite length_drop in E. simpl in E. lia. }
  pose proof (rd_byte (take k b) x r) as Er. rewrite length_take, Nat.min_l in Er by lia. rewrite Er. f_equal.
  rewrite <- (take_drop k b), app_nth2; rewrite length_take, Nat.min_l by lia; [|lia].
  by rewrite E, Nat.sub_diag.
Qed.

Section recv.
Context (stack : fr_md5_ctx) (Hstack : length (mc_buffer stack) = 64%nat).
Context (pw0 : buf) (Hpw0 : length pw0 = 129%nat).
Context (secret : list Z) (Hsecret : piece secret).
(** The authenticator of the message; whether the program is the server. *)
Context (vector : list Z) (Hvector : length vector = 16%nat) (Hvb : Forall is_byte vector) (server : bool).

(** ** One attribute *)

Definition shown (v : list Z) : list Z := text_of (rfc_show (length v / 16) secret vector v).
Definition store_name (v : list Z) (i : radius_info) : radius_info :=
  put_name (over 0 (ri_name i) (v ++ [0])) (put_name_len (Z.of_nat (length v)) i).
Definition store_password (v : list Z) (i : radius_info) : radius_info :=
  put_password (over 0 (ri_password i) (shown v)) (put_password_len (Z.of_nat (length (shown v))) i).
Definition store_msg (v : list Z) (i : radius_info) : radius_info :=
  put_msg (over 0 (ri_msg i) (v ++ [0])) (put_msg_len (Z.of_nat (length v)) i).
Definition store_state (v : list Z) (i : radius_info) : radius_info :=
  put_packet (set_rp_state (over 0 (rp_state (ri_packet i)) v) (ri_packet i))
    (put_state (over 0 (ri_state i) v) (put_state_len (Z.of_nat (length v)) i)).
Definition store_authen (data : nat) (v : list Z) (i : radius_info) : radius_info :=
  put_packet (set_rp_offset data (ri_packet i)) (put_authen (over 0 (ri_authen i) v) i).
Definition eap_kind (i : radius_info) : radius_info :=
  let code := nth 0 (ri_eap i) 0 in let id := nth 1 (ri_eap i) 0 in let type := nth 4 (ri_eap i) 0 in
  let i := put_eap_code code (put_eap_type type i) in
  if server && negb ((code =? EAP_CODE_RESPONSE) && (type =? EAP_TYPE_IDENTITY)) then i else put_eap_id id i.
Definition store_eap (k : nat) (v : list Z) (i : radius_info) : radius_info :=
  let i := put_eap (over k (ri_eap i) v) i in
  let i := if Nat.eqb k 0 then eap_kind i else i in
  put_eap_len (u16 (ri_eap_len i + Z.of_nat (length v))) i.

(** What has been stored, where the next attribute is, and how much of the EAP
    message has come. *)
Record rcv := mk_rcv { rv_info : radius_info; rv_data : nat; rv_eap : nat }.
Definition store (a : attr) (s : rcv) : rcv :=
  let v := at_value a in let i := rv_info s in
  let '(i, k) :=
    if at_type a =? RADIUS_USER_NAME then (store_name v i, rv_eap s)
    else if at_type a =? RADIUS_USER_PASSWORD then (store_password v i, rv_eap s)
    else if at_type a =? RADIUS_EAP_MESSAGE then (store_eap (rv_eap s) v i, (rv_eap s + length v)%nat)
    else if at_type a =? RADIUS_REPLY_MESSAGE then (store_msg v i, rv_eap s)
    else if at_type a =? RADIUS_STATE then (store_state v i, rv_eap s)
    else if (at_type a =? RADIUS_MESSAGE_AUTHENTICATOR) && Nat.eqb (length v) 16
      then (store_authen (rv_data s) v i, rv_eap s)
    else (i, rv_eap s) in
  mk_rcv i (rv_data s + length (attr_bytes a)) k.

(** The values have room in the fields. *)
Definition fits (a : attr) (s : rcv) : Prop :=
  let n := length (at_value a) in attr_ok a /\ (0 < n)%nat /\
  (at_type a = RADIUS_USER_NAME -> (n <= 79)%nat) /\
  (at_type a = RADIUS_USER_PASSWORD -> (n <= 128)%nat /\ n mod 16 = 0)%nat /\
  (at_type a = RADIUS_EAP_MESSAGE -> (rv_eap s + n <= 1500)%nat) /\
  (at_type a = RADIUS_REPLY_MESSAGE -> (n <= 79)%nat) /\
  (at_type a = RADIUS_STATE -> (n <= 16)%nat).

Lemma attrib_value_eq w L a R : attr_ok a -> 0 <= Z.of_nat (length (at_value a)) < 2 ^ w ->
  attrib_value w (L ++ attr_bytes a ++ R) (length L) (2 + Z.of_nat (length (at_value a))) = Some (at_value a).
Proof.
  clear. intros _ H. unfold attrib_value, uN. replace (2 + Z.of_nat (length (at_value a)) - 2) with (Z.of_nat (length (at_value a))) by lia.
  rewrite Z.mod_small by lia. rewrite Nat2Z.id.
  pose proof (bytes_mid (L ++ [at_type a; 2 + Z.of_nat (length (at_value a))]) (at_value a) R) as E.
  rewrite length_app, <- app_assoc in E. exact E.
Qed.
Lemma store_string_eq n b v : bytes_ok n b -> (length v < n)%nat -> store_string b v = Some (over 0 b (v ++ [0])).
Proof.
  clear. intros [Hl _] Hn. unfold store_string. rewrite put_over by lia. cbn [mbind option_bind].
  rewrite put_over. 2:{ unfold over. rewrite !length_app, length_take, length_drop. simpl. lia. }
  unfold over. rewrite !take_0, !app_nil_l, take_app_le, (take_ge v) by lia. f_equal. rewrite <- app_assoc. do 2 f_equal.
  rewrite drop_app_ge by lia. rewrite drop_drop. f_equal. simpl. rewrite length_app. simpl. lia.
Qed.
Lemma password_eq v i : info_ok i -> Forall is_byte v -> (0 < length v <= 128)%nat -> (length v mod 16 = 0)%nat ->
  exists p n, (password ← put pw0 0 v; rad_pwdecode stack password (length v) secret vector) = Some (n, p) /\
    strlen p = Some n /\ bytes p 0 n = Some (shown v) /\ n = length (shown v).
Proof.
  intros Hi Hv Hl Hm. rewrite put_0 by lia. cbn [mbind option_bind].
  assert (Ek : (length v = 16 * (length v / 16))%nat) by (pose proof (Nat.div_mod (length v) 16 ltac:(done)); lia).
  set (k := (length v / 16)%nat) in *.
  assert (Hr : drop (length v) pw0 <> []) by (intros H%(f_equal length); rewrite length_drop in H; simpl in H; lia).
  set (r := drop (length v) pw0) in *. rewrite Ek.
  rewrite (rad_pwdecode_spec stack Hstack v r secret vector k) by (done || lia).
  rewrite (take_ge vector) by lia. cbv zeta.
  destruct (strlen_text_of (rfc_show k secret vector v) (drop 1 r)) as (r' & E & Es).
  rewrite Es. cbn [mbind option_bind]. eexists _, _. split; [done|]. fold k.
  change (text_of (rfc_show k secret vector v)) with (shown v) in *. rewrite Es. split; [done|]. split; [|done].
  rewrite E. exact (bytes_mid [] (shown v) r').
Qed.

Lemma first_eap_eq i : info_ok i -> first_eap i server = Some (eap_kind i).
Proof.
  clear. intros Hi. destruct (io_eap i Hi) as [Hl _]. unfold first_eap. rewrite !rd_nth by lia.
  cbn [mbind option_bind]. unfold eap_kind. destruct server; [|done]. cbn [andb].
  by destruct (_ && _).
Qed.

Lemma put_eap_ok i b : info_ok i -> bytes_ok 1500 b -> info_ok (put_eap b i).
Proof. clear. intros [] ?. by split. Qed.

(** The attribute [a] of a message, at its place. *)
Lemma proc_attrib_eq a s L R : info_ok (rv_info s) -> rv_data s = length L -> fits a s ->
  bytes (L ++ attr_bytes a ++ R) 4 16 = Some vector ->
  proc_attrib stack pw0 secret (L ++ attr_bytes a ++ R) (length L) server (rv_info s) (rv_eap s) =
  Some (rv_info (store a s), rv_eap (store a s)).
Proof.
  intros Hi Hd (Ha & Hn & Hf1 & Hf2 & Hf3 & Hf4 & Hf5) Ev. pose proof Ha as (_ & Hl253 & Hb).
  unfold proc_attrib, store. rewrite rd_attr_type, rd_attr_len. cbn [mbind option_bind]. rewrite Ev, Hd.
  rewrite !attrib_value_eq by (done || simpl; lia). cbn [mbind option_bind].
  destruct (at_type a =? RADIUS_USER_NAME) eqn:E1.
  { bools. specialize (Hf1 E1). by rewrite (store_string_eq 80) by (apply Hi || lia). }
  destruct (at_type a =? RADIUS_USER_PASSWORD) eqn:E2.
  { bools. destruct (Hf2 E2) as [H128 Hm].
    destruct (password_eq (at_value a) (rv_info s) Hi Hb ltac:(lia) Hm) as (p & n & E & Es & Ep & ->).
    destruct (put pw0 0 (at_value a)) as [q|]; [|done]. cbn [mbind option_bind] in E |- *. rewrite E.
    cbn [mbind option_bind]. rewrite Es. cbn [mbind option_bind]. rewrite Ep. cbn [mbind option_bind].
    rewrite put_over; [done|]. destruct (io_pass _ Hi) as [-> _]. unfold shown.
    pose proof (text_of_length (rfc_show (length (at_value a) / 16) secret vector (at_value a))).
    assert (length (at_value a) = 16 * (length (at_value a) / 16))%nat as Ek
      by (pose proof (Nat.div_mod (length (at_value a)) 16 ltac:(done)); lia).
    rewrite (rfc_show_length _ _ _ _ Ek) in H. lia. }
  destruct (at_type a =? RADIUS_EAP_MESSAGE) eqn:E3.
  { bools. specialize (Hf3 E3). destruct (io_eap _ Hi) as [He Heb].
    rewrite put_over by lia. cbn [mbind option_bind].
    assert (Hi' : info_ok (put_eap (over (rv_eap s) (ri_eap (rv_info s)) (at_value a)) (rv_info s)))
      by (by apply put_eap_ok, over_ok).
    rewrite first_eap_eq by done. unfold store_eap. by destruct (Nat.eqb (rv_eap s) 0). }
  destruct (at_type a =? RADIUS_REPLY_MESSAGE) eqn:E4.
  { bools. specialize (Hf4 E4). by rewrite (store_string_eq 80) by (apply Hi || lia). }
  destruct (at_type a =? RADIUS_STATE) eqn:E5.
  { bools. specialize (Hf5 E5). destruct (io_state _ Hi) as [Hs _]. destruct (io_pstate _ Hi) as [Hps _].
    rewrite put_over by lia. cbn [mbind option_bind]. rewrite bytes_over. cbn [mbind option_bind].
    rewrite put_over by lia. done. }
  destruct (at_type a =? RADIUS_MESSAGE_AUTHENTICATOR) eqn:E6; [|done]. cbn [andb].
  destruct (Nat.eqb_spec (length (at_value a)) 16) as [En|En].
  - rewrite En. change (2 + Z.of_nat 16 =? 18) with true. cbv iota. destruct (io_authen _ Hi) as [Hau _].
    pose proof (attrib_value_eq 8 L a R Ha ltac:(simpl; lia)) as Eb. unfold attrib_value, uN in Eb. rewrite En in Eb.
    change (Z.to_nat _) with 16%nat in Eb. rewrite Eb. cbn [mbind option_bind]. by rewrite put_over by lia.
  - destruct (_ =? 18) eqn:E7; bools; [lia|done].
Qed.

Lemma shown_ok v : Forall is_byte v -> (length v mod 16 = 0)%nat ->
  Forall is_byte (shown v) /\ (length (shown v) <= length v)%nat.
Proof.
  clear. intros Hv Hm. assert (Ek : (length v = 16 * (length v / 16))%nat)
    by (pose proof (Nat.div_mod (length v) 16 ltac:(done)); lia).
  unfold shown. split; [by apply text_of_byte, rfc_show_byte|].
  pose proof (text_of_length (rfc_show (length v / 16) secret vector v)) as H.
  rewrite rfc_show_length in H by done. lia.
Qed.
Lemma zero_end v : Forall is_byte v -> Forall is_byte (v ++ [0]).
Proof. clear. intros H. apply Forall_app. split; [done|]. repeat constructor; lia. Qed.
Lemma eap_kind_ok i : info_ok i -> info_ok (eap_kind i).
Proof. clear. intros []. unfold eap_kind. by destruct (_ && _); split. Qed.

(** What is received stays within the fields. *)
Lemma store_ok a s : info_ok (rv_info s) -> fits a s -> info_ok (rv_info (store a s)).
Proof.
  clear Hstack Hsecret Hpw0. intros Hi (Ha & Hn & Hf1 & Hf2 & Hf3 & Hf4 & Hf5). pose proof Ha as (_ & _ & Hb).
  unfold store.
  destruct (at_type a =? RADIUS_USER_NAME) eqn:E1; bools.
  { specialize (Hf1 E1). destruct Hi. split; try done. apply over_ok; [done|by apply zero_end|rewrite length_app; simpl; lia]. }
  destruct (at_type a =? RADIUS_USER_PASSWORD) eqn:E2; bools.
  { destruct (Hf2 E2) as [H128 Hm]. destruct (shown_ok (at_value a) Hb Hm) as [Hsb Hsl].
    destruct Hi. split; try done. apply over_ok; [done|done|lia]. }
  destruct (at_type a =? RADIUS_EAP_MESSAGE) eqn:E3; bools.
  { specialize (Hf3 E3). cbn [rv_info]. unfold store_eap.
    assert (Hi' : info_ok (put_eap (over (rv_eap s) (ri_eap (rv_info s)) (at_value a)) (rv_info s))).
    { apply put_eap_ok, over_ok; [done|apply Hi|done|lia]. }
    assert (Hi2 : info_ok (if Nat.eqb (rv_eap s) 0
      then eap_kind (put_eap (over (rv_eap s) (ri_eap (rv_info s)) (at_value a)) (rv_info s))
      else put_eap (over (rv_eap s) (ri_eap (rv_info s)) (at_value a)) (rv_info s)))
      by (destruct (Nat.eqb _ 0); [by apply eap_kind_ok|done]).
    destruct Hi2. by split. }
  destruct (at_type a =? RADIUS_REPLY_MESSAGE) eqn:E4; bools.
  { specialize (Hf4 E4). destruct Hi. split; try done. apply over_ok; [done|by apply zero_end|rewrite length_app; simpl; lia]. }
  destruct (at_type a =? RADIUS_STATE) eqn:E5; bools.
  { specialize (Hf5 E5). destruct Hi. split; try done; apply over_ok; done || lia. }
  destruct (_ && _) eqn:E6; [|done]. apply andb_true_iff in E6 as [_ E6%Nat.eqb_eq].
  destruct Hi. split; try done. apply over_ok; done || lia.
Qed.

(** ** All of them *)

Fixpoint all_fit (l : list attr) (s : rcv) : Prop :=
  match l with [] => True | a :: l => fits a s /\ all_fit l (store a s) end.
Definition store_all (l : list attr) (s : rcv) : rcv := foldl (fun s a => store a s) s l.

Lemma proc_attribs_eq l : forall fuel s L R, info_ok (rv_info s) -> rv_data s = length L -> all_fit l s ->
  (length l <= fuel)%nat -> Z.of_nat (length (attrs_bytes l)) < 65536 ->
  bytes (L ++ attrs_bytes l ++ R) 4 16 = Some vector ->
  proc_attribs stack pw0 secret fuel (L ++ attrs_bytes l ++ R) (length L) (Z.of_nat (length (attrs_bytes l)))
    server (rv_info s) (rv_eap s) = Some (rv_info (store_all l s)).
Proof.
  induction l as [|a l IH]; intros fuel s L R Hi Hd Hf Hl Hb Hv; [by destruct fuel|].
  destruct Hf as [Ha Hf]. destruct fuel as [|fuel]; [simpl in Hl; lia|]. pose proof Ha as (Hok & Hn & _).
  rewrite attrs_bytes_cons, length_app, attr_bytes_length in Hb. rewrite attrs_bytes_cons, <- app_assoc in Hv |- *.
  cbn [proc_attribs]. rewrite rd_attr_len. cbn [mbind option_bind]. rewrite length_app, attr_bytes_length.
  rewrite u32_small by lia. unfold SIZE_radius_attrib.
  destruct (_ >? Z.of_nat 2) eqn:E1; bools; [|lia]. destruct (_ >=? 2 + _) eqn:E2; bools; [|lia].
  rewrite proc_attrib_eq by done. cbn [mbind option_bind].
  pose proof (IH fuel (store a s) (L ++ attr_bytes a) R) as E. rewrite <- !app_assoc in E.
  unfold store_all. cbn [foldl]. fold (store_all l (store a s)). rewrite <- E.
  - f_equal; rewrite ?length_app, ?attr_bytes_length; lia.
  - by apply store_ok.
  - unfold store. rewrite length_app. repeat (case_match; simplify_eq/=; try lia).
  - done.
  - simpl in Hl. lia.
  - lia.
  - done.
Qed.

Lemma store_all_app l l' s : store_all (l ++ l') s = store_all l' (store_all l s).
Proof. apply foldl_app. Qed.
Lemma all_fit_app l l' s : all_fit (l ++ l') s <-> all_fit l s /\ all_fit l' (store_all l s).
Proof. revert s. induction l as [|a l IH]; intros s; simpl; [naive_solver|]. rewrite IH. naive_solver. Qed.

(** What no attribute of the list is about stays. *)
Definition not_of (t : Z) (l : list attr) : Prop := Forall (fun a => at_type a <> t) l.
Lemma store_all_other {A} (f : rcv -> A) t l : (forall a s, at_type a <> t -> f (store a s) = f s) ->
  not_of t l -> forall s, f (store_all l s) = f s.
Proof. clear. intros H Hl. induction Hl as [|a l Ha _ IH]; intros s; [done|]. unfold store_all. simpl. fold (store_all l (store a s)). by rewrite IH, H. Qed.

Ltac store_frame := clear; intros; unfold store, store_eap, eap_kind;
  repeat (case_match; simplify_eq/=; bools; try done; try congruence).
Definition name_of (s : rcv) : list Z := used (ri_name (rv_info s)) (ri_name_len (rv_info s)).
Definition password_of (s : rcv) : list Z := used (ri_password (rv_info s)) (ri_password_len (rv_info s)).
Definition msg_of (s : rcv) : list Z := used (ri_msg (rv_info s)) (ri_msg_len (rv_info s)).
Definition state_of (s : rcv) : list Z := used (ri_state (rv_info s)) (ri_state_len (rv_info s)).
Definition eap_of (s : rcv) : list Z * nat * Z :=
  (used (ri_eap (rv_info s)) (ri_eap_len (rv_info s)), rv_eap s, ri_eap_len (rv_info s)).
Lemma name_frame a s : at_type a <> RADIUS_USER_NAME -> name_of (store a s) = name_of s.
Proof. unfold name_of. store_frame. Qed.
Lemma password_frame a s : at_type a <> RADIUS_USER_PASSWORD -> password_of (store a s) = password_of s.
Proof. unfold password_of. store_frame. Qed.
Lemma msg_frame a s : at_type a <> RADIUS_REPLY_MESSAGE -> msg_of (store a s) = msg_of s.
Proof. unfold msg_of. store_frame. Qed.
Lemma state_frame a s : at_type a <> RADIUS_STATE -> state_of (store a s) = state_of s.
Proof. unfold state_of. store_frame. Qed.
Lemma eap_frame a s : at_type a <> RADIUS_EAP_MESSAGE -> eap_of (store a s) = eap_of s.
Proof. unfold eap_of. store_frame. Qed.
(** What no attribute changes. *)
Definition head_of (s : rcv) : list Z * radius_packet * Z * Z :=
  (rp_vector (ri_packet (rv_info s)), ri_original (rv_info s), ri_code (rv_info s),
   if server then ri_id (rv_info s) else 0).
Lemma head_frame a s : head_of (store a s) = head_of s.
Proof. unfold head_of. store_frame. Qed.
Lemma head_all l s : head_of (store_all l s) = head_of s.
Proof. revert s. induction l as [|a l IH]; intros s; [done|]. etransitivity; [apply IH|apply head_frame]. Qed.

(** ** A message that was sent *)

Lemma not_of_when t c l : not_of t l -> not_of t (when_attrs c l).
Proof. clear. destruct c; [done|constructor]. Qed.
(** The attributes are passed one after the other, up to the one of type [t]. *)
Lemma store_peel {A} (f : rcv -> A) t (r : A -> A) l0 l s : (forall a s, at_type a <> t -> f (store a s) = f s) ->
  not_of t l0 -> (forall s', f s' = f s -> f (store_all l s') = r (f s')) -> f (store_all (l0 ++ l) s) = r (f s).
Proof.
  clear. intros Hf H0 H. rewrite store_all_app. assert (E : f (store_all l0 s) = f s) by (by apply store_all_other with t).
  by rewrite H, E.
Qed.
Lemma store_field {A} (f : rcv -> A) t g c v l s : (forall a s, at_type a <> t -> f (store a s) = f s) ->
  f (store (mk_attr t v) s) = g -> not_of t l ->
  f (store_all (when_attrs c [mk_attr t v] ++ l) s) = if (c : bool) then g else f s.
Proof.
  clear. intros Hf Hg H. rewrite store_all_app, (store_all_other f t) by done. by destruct c.
Qed.
Lemma used_over b v : used (over 0 b v) (Z.of_nat (length v)) = v.
Proof. clear. unfold used. rewrite Nat2Z.id. rewrite <- (app_nil_r v) at 2. by apply take_over. Qed.
Lemma used_over_zero b v : used (over 0 b (v ++ [0])) (Z.of_nat (length v)) = v.
Proof. clear. unfold used. rewrite Nat2Z.id. by apply take_over. Qed.

(** The attributes of the message as it is received. *)
Definition sent_mac (i : radius_info) (h : list Z) : list attr :=
  when_attrs (truthy (ri_eap_len i))
    [mac_attr (rfc_hmac secret (mac_text h vector (sent_attrs secret i vector) []))].
Definition received (i : radius_info) (h : list Z) : list attr := sent_attrs secret i vector ++ sent_mac i h.

Ltac other := repeat (apply Forall_app; split); try apply not_of_when;
  repeat (apply Forall_cons_2; [done|]); apply Forall_nil_2.
Ltac peel f r frame :=
  intros; unfold received, sent_attrs, attrs_1, attrs_2, attrs_password, attrs_state, attrs_eap, sent_mac; rewrite <- !app_assoc;
  repeat (apply (store_peel f _ r _ _ _ frame); [other|intros ? _]).

Lemma received_name i h s : name_of (store_all (received i h) s) =
  if truthy (ri_name_len i) then used (ri_name i) (ri_name_len i) else name_of s.
Proof.
  clear. peel name_of (fun x => if truthy (ri_name_len i) then used (ri_name i) (ri_name_len i) else x) name_frame.
  apply store_field; [apply name_frame|apply used_over_zero|other].
Qed.
Lemma received_msg i h s : msg_of (store_all (received i h) s) =
  if truthy (ri_msg_len i) then used (ri_msg i) (ri_msg_len i) else msg_of s.
Proof.
  clear. peel msg_of (fun x => if truthy (ri_msg_len i) then used (ri_msg i) (ri_msg_len i) else x) msg_frame.
  apply store_field; [apply msg_frame|apply used_over_zero|other].
Qed.
Lemma received_state i h s : state_of (store_all (received i h) s) =
  if truthy (ri_state_len i) then used (ri_state i) (ri_state_len i) else state_of s.
Proof.
  clear. peel state_of (fun x => if truthy (ri_state_len i) then used (ri_state i) (ri_state_len i) else x) state_frame.
  apply store_field; [apply state_frame|apply used_over|other].
Qed.
(** The password is shown up to the first NUL. *)
Lemma received_password i h s : info_ok i -> lens_ok i -> password_of (store_all (received i h) s) =
  if truthy (ri_password_len i) then text_of (used (ri_password i) (ri_password_len i)) else password_of s.
Proof.
  clear Hstack Hpw0. intros Hi Hl.
  peel password_of (fun x => if truthy (ri_password_len i)
    then text_of (used (ri_password i) (ri_password_len i)) else x) password_frame.
  apply store_field; [apply password_frame| |other].
  unfold password_of, store. simpl. rewrite used_over. destruct (io_pass i Hi) as [Hp _]. destruct (lo_pass i Hl).
  unfold shown, hidden. set (n := Z.to_nat (ri_password_len i)). assert (Hn : (n <= 128)%nat) by (unfold n; lia).
  destruct (round_pass_blocks n Hn) as (E & Hk & _).
  assert (Hpl : length (padded n (ri_password i)) = (16 * pass_blocks n)%nat) by (apply padded_length; [done|rewrite Hp; lia]).
  rewrite rfc_hide_length by done. rewrite (Nat.mul_comm 16), Nat.div_mul by done.
  rewrite rfc_show_hide by done. unfold padded, used. fold n. apply text_of_pad.
Qed.
Lemma received_eap i h s : info_ok i -> lens_ok i -> eap_of s = ([], 0%nat, 0) ->
  (eap_of (store_all (received i h) s)).1 = (used (ri_eap i) (ri_eap_len i), Z.to_nat (ri_eap_len i)).
Proof.
  clear. intros Hi Hl Hs. destruct (lo_eap i Hl) as [He0 He1].
  assert (E : eap_of (store_all (received i h) s) =
    (used (ri_eap i) (ri_eap_len i), Z.to_nat (ri_eap_len i), ri_eap_len i)); [|by rewrite E].
  destruct (used_ok 1500 (ri_eap i) (ri_eap_len i) (io_eap i Hi) ltac:(lia)) as (_ & El & _).
  set (r := fun x : list Z * nat * Z => (used (ri_eap i) (ri_eap_len i), Z.to_nat (ri_eap_len i), ri_eap_len i)).
  change (eap_of (store_all (received i h) s) = r (eap_of s)). revert Hs.
  unfold received, sent_attrs, attrs_1, attrs_2, attrs_password, attrs_state, attrs_eap, sent_mac. rewrite <- !app_assoc.
  intros Hs. repeat (apply (store_peel eap_of RADIUS_EAP_MESSAGE r _ _ _ eap_frame); [other|intros ? Hn; rewrite Hs in Hn; clear Hs; rename Hn into Hs]).
  erewrite store_field; [|apply eap_frame|reflexivity|other]. destruct (truthy (ri_eap_len i)) eqn:Et.
  2:{ rewrite Hs. apply negb_false_iff, Z.eqb_eq in Et. unfold r. by rewrite Et. }
  unfold eap_of in Hs |- *. injection Hs as _ Hk Hz. unfold store. simpl. rewrite Hk. simpl.
  unfold store_eap. simpl. unfold eap_kind.
  assert (Eu : u16 (0 + Z.of_nat (length (used (ri_eap i) (ri_eap_len i)))) =
    Z.of_nat (length (used (ri_eap i) (ri_eap_len i)))) by (apply u16_small; lia).
  destruct (server && _); simpl; rewrite Hz, Eu, used_over, El, Z2Nat.id by lia; done.
Qed.

(** The values sent fit. *)
Definition fits_any (a : attr) : Prop := at_type a <> RADIUS_EAP_MESSAGE /\ forall s, fits a s.
Lemma all_fit_any l s : Forall fits_any l -> all_fit l s.
Proof. clear. intros H. revert s. induction H as [|a l [_ Ha] _ IH]; intros s; simpl; naive_solver. Qed.
Lemma any_when c l : (c = true -> Forall fits_any l) -> Forall fits_any (when_attrs c l).
Proof. clear. destruct c; [by intros H; apply H|constructor]. Qed.
Lemma any_intro t v : 0 <= t < 256 -> t <> RADIUS_EAP_MESSAGE -> (0 < length v <= 253)%nat -> Forall is_byte v ->
  (t = RADIUS_USER_NAME -> (length v <= 79)%nat) ->
  (t = RADIUS_USER_PASSWORD -> (length v <= 128)%nat /\ length v mod 16 = 0)%nat ->
  (t = RADIUS_REPLY_MESSAGE -> (length v <= 79)%nat) -> (t = RADIUS_STATE -> (length v <= 16)%nat) ->
  fits_any (mk_attr t v).
Proof. clear. intros. split; [done|]. intros s. unfold fits, attr_ok. simpl. split_and!; try done; lia. Qed.
Lemma any_other t v : 0 <= t < 256 -> t <> 1 -> t <> 2 -> t <> 79 -> t <> 18 -> t <> 24 ->
  (0 < length v <= 253)%nat -> Forall is_byte v -> fits_any (mk_attr t v).
Proof. clear. intros. by apply any_intro. Qed.
Lemma any_dword t v : 0 <= t < 256 -> t <> 1 -> t <> 2 -> t <> 79 -> t <> 18 -> t <> 24 -> fits_any (mk_attr t (be32 v)).
Proof. clear. intros. apply any_other; try done; [rewrite be32_length; lia|apply be32_byte]. Qed.
Lemma any_station t addr : 0 <= t < 256 -> t <> 1 -> t <> 2 -> t <> 79 -> t <> 18 -> t <> 24 ->
  bytes_ok 6 addr -> fits_any (mk_attr t (station_text addr)).
Proof. clear. intros ? ? ? ? ? ? [Hl Hb]. destruct (station_text_ok addr Hl Hb). apply any_other; done || lia. Qed.
Lemma truthy_nonzero n : truthy n = true -> n <> 0.
Proof. clear. unfold truthy. intros H. bools; lia. Qed.

Lemma sent_fit_1 i : info_ok i -> lens_ok i -> Forall fits_any (attrs_1 i).
Proof.
  clear. intros Hi Hl. destruct (io_ip i Hi) as [Hip Hipb]. unfold attrs_1.
  repeat (apply Forall_app; split); apply any_when; intros Hc%truthy_nonzero.
  - constructor; [|constructor]. apply any_other; try done; [rewrite length_take; lia|by apply Forall_take].
  - constructor; [by apply any_dword|]. constructor; [by apply any_dword|constructor].
  - destruct (lo_name i Hl). destruct (used_ok 80 (ri_name i) (ri_name_len i) (io_name i Hi) ltac:(lia)) as (_ & El & Eb).
    constructor; [|constructor]. apply any_intro; done || lia.
Qed.
Lemma sent_fit_2 i : info_ok i -> lens_ok i -> Forall fits_any (attrs_2 i).
Proof.
  clear. intros Hi Hl. unfold attrs_2.
  repeat (apply Forall_app; split); try (apply any_when; intros Hc); (constructor; [|constructor]);
    try (by apply any_dword); try (apply any_station; done || apply Hi).
  apply truthy_nonzero in Hc.
  destruct (lo_msg i Hl). destruct (used_ok 80 (ri_msg i) (ri_msg_len i) (io_msg i Hi) ltac:(lia)) as (_ & El & Eb).
  apply any_intro; done || lia.
Qed.
Lemma sent_fit_password i : info_ok i -> lens_ok i -> Forall fits_any (attrs_password secret i vector).
Proof.
  clear Hstack Hpw0 Hsecret. intros Hi Hl. apply any_when. intros Hc%truthy_nonzero. constructor; [|constructor].
  destruct (hidden_ok secret i vector Hi Hl) as (E & Hr & Hb). destruct (lo_pass i Hl).
  destruct (round_pass_blocks (Z.to_nat (ri_password_len i)) ltac:(lia)) as (E2 & Hk & _).
  assert (Em : (length (hidden secret i vector) mod 16 = 0)%nat) by (rewrite E, E2, Nat.mul_comm; by apply Nat.Div0.mod_mul).
  apply any_intro; done || lia.
Qed.
Lemma sent_fit_state i : info_ok i -> lens_ok i -> Forall fits_any (attrs_state i).
Proof.
  clear. intros Hi Hl. apply any_when. intros Hc%truthy_nonzero. constructor; [|constructor]. destruct (lo_state i Hl).
  destruct (used_ok 16 (ri_state i) (ri_state_len i) (io_state i Hi) ltac:(lia)) as (_ & El & Eb).
  apply any_intro; done || lia.
Qed.

Lemma received_fit i h s : info_ok i -> lens_ok i -> rv_eap s = 0%nat -> all_fit (received i h) s.
Proof.
  clear Hstack Hpw0 Hsecret. intros Hi Hl Hs.
  set (A := attrs_1 i ++ attrs_password secret i vector ++ attrs_2 i ++ attrs_state i).
  assert (HA : Forall fits_any A).
  { unfold A. rewrite !Forall_app. split_and!;
      [by apply sent_fit_1|by apply sent_fit_password|by apply sent_fit_2|by apply sent_fit_state]. }
  assert (E : received i h = A ++ attrs_eap i ++ sent_mac i h) by (unfold received, sent_attrs, A; by rewrite <- !app_assoc).
  rewrite E, !all_fit_app. split_and!; [by apply all_fit_any| |].
  - assert (Hk : rv_eap (store_all A s) = 0%nat).
    { assert (Hn : not_of RADIUS_EAP_MESSAGE A) by (eapply Forall_impl; [|exact HA]; by intros a []).
      pose proof (store_all_other eap_of RADIUS_EAP_MESSAGE A eap_frame Hn s) as Ee. unfold eap_of in Ee.
      injection Ee as _ Ek _. congruence. }
    unfold attrs_eap. destruct (truthy _) eqn:Et; [|done]. apply truthy_nonzero in Et. destruct (lo_eap i Hl).
    destruct (used_ok 1500 (ri_eap i) (ri_eap_len i) (io_eap i Hi) ltac:(lia)) as (_ & El & Eb).
    simpl. split; [|done]. unfold fits, attr_ok. simpl. rewrite Hk. split_and!; try done; lia.
  - apply all_fit_any, any_when. intros _. constructor; [|constructor]. apply any_other; try done.
    + rewrite rfc_hmac_length. lia.
    + apply md5_byte.
Qed.
Lemma received_message i h : received i h =
  message (sent_attrs secret i vector) (signed_mac secret h vector (sent_attrs secret i vector) [] (truthy (ri_eap_len i))) [].
Proof. unfold received, sent_mac, message, signed_mac. rewrite app_nil_r. by destruct (truthy _). Qed.
Lemma received_ok i h : Forall plain_attr (sent_attrs secret i vector) -> Forall attr_ok (received i h).
Proof.
  clear. intros H. apply Forall_app. split; [by apply plain_ok|]. unfold sent_mac. destruct (truthy _); [|constructor].
  constructor; [|constructor]. split; [done|]. split; [|apply md5_byte].
  cbn [at_value mac_attr]. rewrite rfc_hmac_length. lia.
Qed.
Lemma received_length i h : length (attrs_bytes (received i h)) =
  (message_len (sent_attrs secret i vector) (truthy (ri_eap_len i)) - 20)%nat.
Proof.
  clear. unfold message_len, received, sent_mac, message, unsigned_mac. rewrite app_nil_r, !attrs_bytes_app, !length_app.
  destruct (truthy _); cbn [when_attrs]; [|simpl; lia].
  rewrite !attrs_bytes_cons, !length_app, !attr_bytes_length. cbn [at_value mac_attr]. rewrite rfc_hmac_length.
  change (length zero_vector) with 16%nat. simpl. lia.
Qed.
End recv.

Section trip.
Context (stack : fr_md5_ctx) (Hstack : length (mc_buffer stack) = 64%nat).
Context (pw0 : buf) (Hpw0 : length pw0 = 129%nat).
Context (secret : list Z) (Hsecret : piece secret) (src : pool_source) (Hsrc : source_ok src).

(** The state behind the header of a request. *)
Definition started_rcv (j : radius_info) (id : Z) (w : list Z) : rcv :=
  let j := put_id id (put_code RADIUS_CODE_ACCESS_REQUEST j) in
  mk_rcv (put_eap_code 0 (put_eap_len 0 (put_packet (set_rp_vector w (ri_packet j)) j))) 20 0.
(** The state behind all of it. *)
Definition ended (n : nat) (w : list Z) (i : radius_info) : radius_info :=
  let p := set_rp_data_len n (set_rp_code (ri_code i) (ri_packet i)) in
  put_original (set_rp_vector w p) (put_packet p i).

Lemma started_rcv_ok j id w : info_ok j -> info_ok (rv_info (started_rcv j id w)).
Proof. clear. intros []. by split. Qed.

Lemma request_received i j id w rest len : info_ok i -> lens_ok i -> info_ok j ->
  length w = 16%nat -> Forall is_byte w -> Forall plain_attr (sent_attrs secret i w) ->
  let mac := truthy (ri_eap_len i) in let n := message_len (sent_attrs secret i w) mac in
  let h := sent_head RADIUS_CODE_ACCESS_REQUEST id n in
  let b := sent_message secret RADIUS_CODE_ACCESS_REQUEST id w (sent_attrs secret i w) mac rest in
  (n <= FRAME)%nat -> Z.of_nat n <= len ->
  let j' := ended n w (rv_info (store_all secret w true (received secret w i h) (started_rcv j (u8 id) w))) in
  proc_radius_msg stack pw0 secret b j len true = Some j' /\
  rad_verify stack (ri_packet j') b (Some (ri_original j')) secret = Some (0, b).
Proof.
  intros Hi Hl Hj Hw Hwb Hp mac n h b Hn Hlen j'. set (l := received secret w i h). 
  assert (Eb : b = packet_bytes h w l rest).
  { unfold l. rewrite received_message. done. }
  pose proof (sent_head_header RADIUS_CODE_ACCESS_REQUEST id n w Hw Hwb) as Hh. fold h in Hh.
  pose proof Hh as (H4 & _ & Hb4 & _).
  assert (Hlb : Z.of_nat n = 20 + Z.of_nat (length (attrs_bytes l))).
  { unfold l. rewrite received_length. fold mac n. unfold n, message_len. lia. }
  assert (E0 : rd_be16 b 2 = Some (Z.of_nat n)).
  { rewrite Eb. unfold packet_bytes, h, sent_head. rewrite <- !app_assoc.
    apply (rd_be16_be16 [u8 RADIUS_CODE_ACCESS_REQUEST; u8 id]). unfold FRAME in Hn. lia. }
  assert (E1 : rd b 0 1 = Some RADIUS_CODE_ACCESS_REQUEST) by (rewrite Eb; apply (rd_byte [])).
  assert (E2 : rd b 1 1 = Some (u8 id)) by (rewrite Eb; apply (rd_byte [1])).
  assert (E3 : bytes b 4 16 = Some w).
  { rewrite Eb. unfold packet_bytes. pose proof (bytes_mid h w (attrs_bytes l ++ rest)) as B. by rewrite H4, Hw in B. }
  assert (Hlok : Forall attr_ok l) by (by apply received_ok).
  pose proof (attrs_count stack Hstack l Hlok) as Hcnt.
  assert (Ebl : b = (h ++ w) ++ attrs_bytes l ++ rest) by (rewrite Eb; unfold packet_bytes; by rewrite <- app_assoc).
  set (s0 := started_rcv j (u8 id) w) in *.
  pose proof (proc_attribs_eq stack Hstack pw0 Hpw0 secret Hsecret w Hw Hwb true l
    (length (attrs_bytes l)) s0 (h ++ w) rest) as EA.
  rewrite <- Ebl in EA. assert (E20 : length (h ++ w) = 20%nat) by (rewrite length_app; lia). rewrite E20 in EA.
  specialize (EA (started_rcv_ok j (u8 id) w Hj) eq_refl).
  specialize (EA ltac:(by apply received_fit) Hcnt ltac:(unfold FRAME in Hn; lia) E3).
  set (s1 := store_all secret w true l s0) in *.
  pose proof (head_all secret w true l s0) as Hhd. fold s1 in Hhd. unfold head_of in Hhd.
  injection Hhd as Hv Ho Hcode Hid.
  change j' with (ended n w (rv_info s1)) in *. clear j'. clearbody s1. set (j' := ended n w (rv_info s1)).
  assert (Hver : rad_verify stack (ri_packet j') b (Some (ri_original j')) secret = Some (0, b)).
  { rewrite Eb. unfold l. rewrite received_message. fold mac.
    apply rad_verify_request; [exact Hstack|exact Hsecret|exact Hcode| |by destruct mac]. split; try done.
    - unfold mac_vector. unfold j', ended. simpl. by rewrite Hcode.
    - destruct mac; [|done]. split; [apply rfc_hmac_length|apply md5_byte].
    - change (rp_data_len (ri_packet j')) with n. unfold mac. rewrite <- received_message. fold l. lia.
    - unfold j', ended. simpl. unfold FRAME in Hn. lia. }
  split; [|exact Hver].
  unfold proc_radius_msg. rewrite E0, E1, E2, E3. cbn [mbind option_bind negb andb].
  assert (El : (if len >? Z.of_nat n then Z.of_nat n else len) = Z.of_nat n) by (destruct (_ >? _) eqn:E; bools; lia).
  rewrite El. replace (Z.of_nat n - Z.of_nat SIZE_radius_frame) with (Z.of_nat (length (attrs_bytes l)))
    by (unfold SIZE_radius_frame; lia).
  rewrite !Nat2Z.id. set (jj := put_id (u8 id) (put_code RADIUS_CODE_ACCESS_REQUEST j)).
  assert (EA' : proc_attribs stack pw0 secret (length (attrs_bytes l)) b SIZE_radius_frame
    (Z.of_nat (length (attrs_bytes l))) true
    (put_eap_code 0 (put_eap_len 0 (put_packet (set_rp_vector w (ri_packet jj)) jj))) 0 = Some (rv_info s1)) by exact EA.
  rewrite EA'. cbn [mbind option_bind]. cbv zeta.
  change (ri_code (put_packet _ (rv_info s1))) with (ri_code (rv_info s1)). rewrite Hcode, Z.eqb_refl.
  rewrite <- Hcode. change (put_original _ (put_packet _ (rv_info s1))) with j'. rewrite Hver. cbn [mbind option_bind].
  done.
Qed.

(** C13: A request that [prep_radius_msg] builds and a server with the same secret
    receives is verified, and stored as it was sent: the identifier, the
    authenticator (the one the requester remembers), the EAP message, and the
    name, password (up to the first NUL), message and state, if they are sent;
    if not, what an earlier request left stays. *)
Theorem request_stored_as_sent i j id pool : info_ok i -> lens_ok i -> info_ok j -> rand_ok pool ->
  exists i' pool' j', prep_radius_msg stack secret src i RADIUS_CODE_ACCESS_REQUEST id pool = Some (i', pool') /\
    (forall len, ri_len i' <= len -> proc_radius_msg stack pw0 secret (ri_radius_data i') j len true = Some j') /\
    rad_verify stack (ri_packet j') (ri_radius_data i') (Some (ri_original j')) secret = Some (0, ri_radius_data i') /\
    ri_code j' = RADIUS_CODE_ACCESS_REQUEST /\ ri_id j' = u8 id /\
    rp_vector (ri_original j') = rp_vector (ri_original i') /\
    used (ri_eap j') (ri_eap_len j') = used (ri_eap i) (ri_eap_len i) /\
    used (ri_name j') (ri_name_len j') = (if truthy (ri_name_len i) then used (ri_name i) (ri_name_len i)
      else used (ri_name j) (ri_name_len j)) /\
    used (ri_password j') (ri_password_len j') = (if truthy (ri_password_len i)
      then text_of (used (ri_password i) (ri_password_len i)) else used (ri_password j) (ri_password_len j)) /\
    used (ri_msg j') (ri_msg_len j') = (if truthy (ri_msg_len i) then used (ri_msg i) (ri_msg_len i)
      else used (ri_msg j) (ri_msg_len j)) /\
    used (ri_state j') (ri_state_len j') = (if truthy (ri_state_len i) then used (ri_state i) (ri_state_len i)
      else used (ri_state j) (ri_state_len j)).
Proof.
  intros Hi Hl Hj Hp.
  destruct (prep_radius_msg_spec stack Hstack secret Hsecret src Hsrc i RADIUS_CODE_ACCESS_REQUEST id pool Hi Hl Hp
    ltac:(by left)) as (i' & pool' & w & rest & E & Hw & Hwb & _ & _ & Ed & El & Ew & Hpl & Hn).
  set (n := message_len (sent_attrs secret i w) (truthy (ri_eap_len i))) in *.
  set (h := sent_head RADIUS_CODE_ACCESS_REQUEST id n).
  set (l := received secret w i h). set (s0 := started_rcv j (u8 id) w).
  set (s1 := store_all secret w true l s0).
  exists i', pool', (ended n w (rv_info s1)). split; [exact E|].
  assert (HR : forall len, Z.of_nat n <= len -> _)
    by exact (fun len => request_received i j id w rest len Hi Hl Hj Hw Hwb Hpl ltac:(fold n; lia)).
  rewrite Ed, El. split; [intros len Hlen; by apply HR|]. split; [by apply (HR (Z.of_nat n))|].
  pose proof (head_all secret w true l s0) as Hhd. fold s1 in Hhd. injection Hhd as _ _ Hcode Hid.
  split; [exact Hcode|]. split; [exact Hid|]. split; [simpl; by rewrite Ew|].
  split; [|split_and!].
  - pose proof (received_eap secret w true i h s0 Hi Hl eq_refl) as He. by injection He.
  - exact (received_name secret w true i h s0).
  - exact (received_password secret w Hw true i h s0 Hi Hl).
  - exact (received_msg secret w true i h s0).
  - exact (received_state secret w true i h s0).
Qed.
End trip.

(** ** A request with a name and a password *)

Lemma replicate_ok n : bytes_ok n (replicate n 0).
Proof. split; [apply length_replicate|apply Forall_replicate; lia]. Qed.
Lemma zero_radius_ok : info_ok zero_radius.
Proof. split; apply replicate_ok. Qed.
Definition login : radius_info :=
  put_name_len 7 (put_name (text_testing ++ replicate 73 0)
    (put_password_len 8 (put_password (text_password ++ replicate 121 0) zero_radius))).
Lemma login_ok : info_ok login /\ lens_ok login.
Proof.
  destruct zero_radius_ok. split; [|split; simpl; lia].
  split; try done; (split; [done|]); apply Forall_app; split; try (apply Forall_replicate; lia); repeat constructor; lia.
Qed.
Definition login_source : pool_source := Urandom [replicate 1000 7; [1; 2; 3]].
Lemma login_source_ok : source_ok login_source.
Proof.
  split; [simpl; unfold RANDSIZ; lia|]. constructor; [apply Forall_replicate; lia|].
  repeat (constructor; [|]); try lia; try done.
Qed.

Lemma request_stored_as_sent_witness :
  exists i' pool' j', prep_radius_msg md5_ctx0 [115] login_source login RADIUS_CODE_ACCESS_REQUEST 5 None = Some (i', pool') /\
    (forall len, ri_len i' <= len -> proc_radius_msg md5_ctx0 (replicate 129 0) [115] (ri_radius_data i') zero_radius len true = Some j') /\
    rad_verify md5_ctx0 (ri_packet j') (ri_radius_data i') (Some (ri_original j')) [115] = Some (0, ri_radius_data i') /\
    ri_code j' = RADIUS_CODE_ACCESS_REQUEST /\ ri_id j' = 5 /\
    rp_vector (ri_original j') = rp_vector (ri_original i') /\
    used (ri_eap j') (ri_eap_len j') = [] /\
    used (ri_name j') (ri_name_len j') = text_testing /\
    used (ri_password j') (ri_password_len j') = text_password /\
    used (ri_msg j') (ri_msg_len j') = [] /\ used (ri_state j') (ri_state_len j') = [].
Proof.
  exact (request_stored_as_sent md5_ctx0 eq_refl (replicate 129 0) eq_refl [115] reply_secret_ok login_source
    login_source_ok login zero_radius 5 None (proj1 login_ok) (proj2 login_ok) zero_radius_ok I).
Defined.

(** ** What the server lets in *)

(** A message to a server, and the server's answer. *)
Definition request (i : radius_info) (id : Z) : option (radius_info * rand_pool) :=
  prep_radius_msg md5_ctx0 [115] login_source i RADIUS_CODE_ACCESS_REQUEST id None.
Definition served (i j : radius_info) (id : Z) : option (option (list Z) * radius_info * Z * rand_pool) :=
  serve md5_ctx0 [115] login_source (replicate 129 0) (ri_radius_data i) (ri_len i) j id None.
(** A password of which only the first characters are given: the comparison is
    over the length that came. *)
Definition answers (i : radius_info) : option bool :=
  '(i, _) ← request i 5; '(answer, _, _, _) ← served i zero_radius 0;
  Some (if (answer : option (list Z)) then true else false).
Example right_password_accepted : answers login = Some true.
Proof. vm_compute. reflexivity. Qed.
Lemma prefix_password_accepted : answers (put_password_len 1 login) = Some true.
Proof. vm_compute. reflexivity. Qed.
Example wrong_password_refused :
  answers (put_password_len 2 (put_password ([112; 113] ++ replicate 127 0) login)) = Some false.
Proof. vm_compute. reflexivity. Qed.

(** The answer to a challenge is not looked at, only the state that came with it,
    which is compared with itself: a client that has named itself and then sends
    zeros and a state of its own is accepted. *)
Definition eap_request (eap state : list Z) : radius_info :=
  put_eap (eap ++ replicate (1500 - length eap) 0) (put_eap_len (Z.of_nat (length eap))
    (put_state (state ++ replicate (16 - length state) 0) (put_state_len (Z.of_nat (length state)) zero_radius))).
Definition answer_code (a : option (list Z)) : Z := match a with Some l => nth 0 l 0 | None => 0 end.
Definition eap_exchange (state : list Z) : option (Z * Z) :=
  '(i, _) ← request (eap_request ([2; 1; 0; 12; 1] ++ text_testing) []) 5;
  '(a, j, id, _) ← served i zero_radius 0;
  '(i, _) ← request (eap_request ([2; 2; 0; 22; 4; 16] ++ replicate 16 0) state) 6;
  '(b, _, _, _) ← served i j id;
  Some (answer_code a, answer_code b).
Lemma any_answer_accepted : eap_exchange [1; 2; 3] =
  Some (RADIUS_CODE_ACCESS_CHALLENGE, RADIUS_CODE_ACCESS_ACCEPT).
Proof. vm_compute. reflexivity. Qed.

(** An Accept with an EAP success whose authenticator is wrong is stored like a
    right one. *)
Definition forged_answer : buf := sent_head RADIUS_CODE_ACCESS_ACCEPT 5 26 ++ replicate 16 0 ++ [79; 6; 3; 0; 0; 4].
Lemma forged_answer_stored : exists j, 
  proc_radius_msg md5_ctx0 (replicate 129 0) [115] forged_answer (put_id 5 zero_radius) 26 false = Some j /\
  ri_code j = RADIUS_CODE_ACCESS_ACCEPT /\ ri_eap_code j = EAP_CODE_SUCCESS /\
  (fst <$> rad_verify md5_ctx0 (ri_packet j) forged_answer (Some (ri_original j)) [115]) = Some (-1).
Proof. eexists. split; [vm_compute; reflexivity|]. vm_compute. by repeat split. Qed.
