(* ===== verification/Dot1x.v ===== *)
(** * Port access control (nettest/network/authtest.c): a port and its messages

    The authentication program opens or closes a port of the switch (802.1X): a
    supplicant sends frames, a RADIUS server answers, and state machines decide.
    This file holds a port's state, the frames it sends, and what the receiving
    thread, the timer and the console do to it; Dot1xMachines.v holds the state
    machines.

    A port is its [auth_info] and what it shares with the program: the counter of
    identifiers, the random numbers, what has been sent or written.  While
    [wait_for_resp] waits, other threads run: what they handle then is given as a
    list of events for each wait. *)

From stdpp Require Import base list numbers option fin vector.
From Stdlib Require Import ZArith Lia.
From S2P Require Import Prelude Wire Md5 Isaac Radius RadiusMsg RadiusServer.

(** ** The structures *)

Record eap_vars := mk_eap_vars {
  authAbort_ : bool; authFail_ : bool; authStart_ : bool; authTimeout_ : bool; authSuccess_ : bool;
  eapFail_ : bool; eapolEap_ : bool; eapSuccess_ : bool; eapTimeout_ : bool; initialize_ : bool;
  keyAvailable_ : bool; keyDone_ : bool; keyRun_ : bool; keyTxEnabled_ : bool; portEnabled_ : bool;
  portValid_ : bool; reAuthenticate_ : bool; suppAbort_ : bool; suppFail_ : bool; suppStart_ : bool;
  suppSuccess_ : bool; suppTimeout_ : bool; rxKey_ : bool; authPortStatus_ : Z; portControl_ : Z;
  portStatus_ : Z; suppPortStatus_ : Z }.
#[export] Instance eta_eap_vars : Eta eap_vars := fun x => mk_eap_vars
  (authAbort_ x) (authFail_ x) (authStart_ x) (authTimeout_ x) (authSuccess_ x) (eapFail_ x) (eapolEap_ x)
  (eapSuccess_ x) (eapTimeout_ x) (initialize_ x) (keyAvailable_ x) (keyDone_ x) (keyRun_ x)
  (keyTxEnabled_ x) (portEnabled_ x) (portValid_ x) (reAuthenticate_ x) (suppAbort_ x) (suppFail_ x)
  (suppStart_ x) (suppSuccess_ x) (suppTimeout_ x) (rxKey_ x) (authPortStatus_ x) (portControl_ x)
  (portStatus_ x) (suppPortStatus_ x).
Record eap_auth_vars := mk_auth_vars {
  eapolLogoff_ : bool; eapolStart_ : bool; eapReq_ : bool; eapRestart_ : bool; eapNoReq_ : bool;
  eapResp_ : bool; portMode_ : Z; reAuthCount_ : Z }.
#[export] Instance eta_eap_auth_vars : Eta eap_auth_vars := fun x => mk_auth_vars
  (eapolLogoff_ x) (eapolStart_ x) (eapReq_ x) (eapRestart_ x) (eapNoReq_ x) (eapResp_ x) (portMode_ x)
  (reAuthCount_ x).
Record eap_supp_vars := mk_supp_vars {
  logoffSent_ : bool; eapNoResp_ : bool; userLogoff_ : bool; suppKeyAvailable_ : bool; sPortMode_ : Z;
  startCount_ : Z }.
#[export] Instance eta_eap_supp_vars : Eta eap_supp_vars := fun x => mk_supp_vars
  (logoffSent_ x) (eapNoResp_ x) (userLogoff_ x) (suppKeyAvailable_ x) (sPortMode_ x) (startCount_ x).

(** A port.  The sockets, the frame buffers' addresses and the objects threads wait
    for are left out; what is sent is an output. *)
Record auth_info := mk_auth_info {
  ai_link : Z; ai_port : Z; ai_eap_first_req : Z; ai_eap_radius_req : Z; ai_auth_pae_state : Z;
  ai_auth_bke_state : Z; ai_supp_pae_state : Z; ai_supp_bke_state : Z; ai_auth_key_tx_state : Z;
  ai_supp_key_tx_state : Z; ai_key_rx_state : Z; ai_re_auth_state : Z; ai_mode : Z; ai_state : Z;
  ai_code : Z; ai_eap_id : Z; ai_eap_resp_id : Z; ai_update : Z; ai_eap_resp : Z; ai_eap_req : Z;
  ai_eap_timers : vec Z 6; ai_eap_var : eap_vars; ai_auth_var : eap_auth_vars; ai_supp_var : eap_supp_vars;
  ai_eapol_data : buf; ai_eap : buf; ai_resp_data : buf; ai_resp_len : Z; ai_radius : radius_info }.
#[export] Instance eta_auth_info : Eta auth_info := fun x => mk_auth_info
  (ai_link x) (ai_port x) (ai_eap_first_req x) (ai_eap_radius_req x) (ai_auth_pae_state x)
  (ai_auth_bke_state x) (ai_supp_pae_state x) (ai_supp_bke_state x) (ai_auth_key_tx_state x)
  (ai_supp_key_tx_state x) (ai_key_rx_state x) (ai_re_auth_state x) (ai_mode x) (ai_state x) (ai_code x)
  (ai_eap_id x) (ai_eap_resp_id x) (ai_update x) (ai_eap_resp x) (ai_eap_req x) (ai_eap_timers x)
  (ai_eap_var x) (ai_auth_var x) (ai_supp_var x) (ai_eapol_data x) (ai_eap x) (ai_resp_data x)
  (ai_resp_len x) (ai_radius x).

(** What leaves a port: an EAPOL frame, a RADIUS message, and what is written to
    the driver's [authen_mode] of the port (whether it is opened). *)
Inductive output := OutEapol (frame : list Z) | OutRadius (msg : list Z) | OutAuthorize (enable : bool).
(** What the other threads handle: a frame from the address given, a RADIUS
    message and its length, a command of the console, a second of the timer. *)
Inductive event :=
  | ev_eapol (frame : buf) (msglen : Z) (from : list Z)
  | ev_radius (msg : buf) (msglen : Z)
  | ev_cmd (letter : Z)
  | ev_tick.

Record port := mk_port {
  p_info : auth_info; p_radius_id : Z; p_pool : rand_pool; p_out : list output; p_during : list (list event) }.
Definition on_info (f : auth_info -> auth_info) (x : port) : port :=
  mk_port (f (p_info x)) (p_radius_id x) (p_pool x) (p_out x) (p_during x).
(** The last output comes first. *)
Definition emit (o : output) (x : port) : port :=
  mk_port (p_info x) (p_radius_id x) (p_pool x) (o :: p_out x) (p_during x).
Definition set_radius_id (v : Z) (x : port) : port := mk_port (p_info x) v (p_pool x) (p_out x) (p_during x).
Definition set_pool (v : rand_pool) (x : port) : port := mk_port (p_info x) (p_radius_id x) v (p_out x) (p_during x).
Definition set_during (v : list (list event)) (x : port) : port := mk_port (p_info x) (p_radius_id x) (p_pool x) (p_out x) v.

(** The fields of [info], and the macros that name the variables of its structures. *)
Definition i_link (x : port) : Z := ai_link (p_info x).
Definition iset_link (v : Z) (x : port) : port := on_info (fun i => ltac:(field_set ai_link v i)) x.
Definition i_port (x : port) : Z := ai_port (p_info x).
Definition iset_port (v : Z) (x : port) : port := on_info (fun i => ltac:(field_set ai_port v i)) x.
Definition i_eap_first_req (x : port) : Z := ai_eap_first_req (p_info x).
Definition iset_eap_first_req (v : Z) (x : port) : port := on_info (fun i => ltac:(field_set ai_eap_first_req v i)) x.
Definition i_eap_radius_req (x : port) : Z := ai_eap_radius_req (p_info x).
Definition iset_eap_radius_req (v : Z) (x : port) : port := on_info (fun i => ltac:(field_set ai_eap_radius_req v i)) x.
Definition i_auth_pae_state (x : port) : Z := ai_auth_pae_state (p_info x).
Definition iset_auth_pae_state (v : Z) (x : port) : port := on_info (fun i => ltac:(field_set ai_auth_pae_state v i)) x.
Definition i_auth_bke_state (x : port) : Z := ai_auth_bke_state (p_info x).
Definition iset_auth_bke_state (v : Z) (x : port) : port := on_info (fun i => ltac:(field_set ai_auth_bke_state v i)) x.
Definition i_supp_pae_state (x : port) : Z := ai_supp_pae_state (p_info x).
Definition iset_supp_pae_state (v : Z) (x : port) : port := on_info (fun i => ltac:(field_set ai_supp_pae_state v i)) x.
Definition i_supp_bke_state (x : port) : Z := ai_supp_bke_state (p_info x).
Definition iset_supp_bke_state (v : Z) (x : port) : port := on_info (fun i => ltac:(field_set ai_supp_bke_state v i)) x.
Definition i_auth_key_tx_state (x : port) : Z := ai_auth_key_tx_state (p_info x).
Definition iset_auth_key_tx_state (v : Z) (x : port) : port := on_info (fun i => ltac:(field_set ai_auth_key_tx_state v i)) x.
Definition i_supp_key_tx_state (x : port) : Z := ai_supp_key_tx_state (p_info x).
Definition iset_supp_key_tx_state (v : Z) (x : port) : port := on_info (fun i => ltac:(field_set ai_supp_key_tx_state v i)) x.
Definition i_key_rx_state (x : port) : Z := ai_key_rx_state (p_info x).
Definition iset_key_rx_state (v : Z) (x : port) : port := on_info (fun i => ltac:(field_set ai_key_rx_state v i)) x.
Definition i_re_auth_state (x : port) : Z := ai_re_auth_state (p_info x).
Definition iset_re_auth_state (v : Z) (x : port) : port := on_info (fun i => ltac:(field_set ai_re_auth_state v i)) x.
Definition i_mode (x : port) : Z := ai_mode (p_info x).
Definition iset_mode (v : Z) (x : port) : port := on_info (fun i => ltac:(field_set ai_mode v i)) x.
Definition i_state (x : port) : Z := ai_state (p_info x).
Definition iset_state (v : Z) (x : port) : port := on_info (fun i => ltac:(field_set ai_state v i)) x.
Definition i_code (x : port) : Z := ai_code (p_info x).
Definition iset_code (v : Z) (x : port) : port := on_info (fun i => ltac:(field_set ai_code v i)) x.
Definition i_eap_id (x : port) : Z := ai_eap_id (p_info x).
Definition iset_eap_id (v : Z) (x : port) : port := on_info (fun i => ltac:(field_set ai_eap_id v i)) x.
Definition i_eap_resp_id (x : port) : Z := ai_eap_resp_id (p_info x).
Definition iset_eap_resp_id (v : Z) (x : port) : port := on_info (fun i => ltac:(field_set ai_eap_resp_id v i)) x.
Definition i_update (x : port) : Z := ai_update (p_info x).
Definition iset_update (v : Z) (x : port) : port := on_info (fun i => ltac:(field_set ai_update v i)) x.
Definition i_eap_resp (x : port) : Z := ai_eap_resp (p_info x).
Definition iset_eap_resp (v : Z) (x : port) : port := on_info (fun i => ltac:(field_set ai_eap_resp v i)) x.
Definition i_eap_req (x : port) : Z := ai_eap_req (p_info x).
Definition iset_eap_req (v : Z) (x : port) : port := on_info (fun i => ltac:(field_set ai_eap_req v i)) x.
Definition i_eap_timers (x : port) : vec Z 6 := ai_eap_timers (p_info x).
Definition iset_eap_timers (v : vec Z 6) (x : port) : port := on_info (fun i => ltac:(field_set ai_eap_timers v i)) x.
Definition i_eap_var (x : port) : eap_vars := ai_eap_var (p_info x).
Definition iset_eap_var (v : eap_vars) (x : port) : port := on_info (fun i => ltac:(field_set ai_eap_var v i)) x.
Definition i_auth_var (x : port) : eap_auth_vars := ai_auth_var (p_info x).
Definition iset_auth_var (v : eap_auth_vars) (x : port) : port := on_info (fun i => ltac:(field_set ai_auth_var v i)) x.
Definition i_supp_var (x : port) : eap_supp_vars := ai_supp_var (p_info x).
Definition iset_supp_var (v : eap_supp_vars) (x : port) : port := on_info (fun i => ltac:(field_set ai_supp_var v i)) x.
Definition i_eapol_data (x : port) : buf := ai_eapol_data (p_info x).
Definition iset_eapol_data (v : buf) (x : port) : port := on_info (fun i => ltac:(field_set ai_eapol_data v i)) x.
Definition i_eap (x : port) : buf := ai_eap (p_info x).
Definition iset_eap (v : buf) (x : port) : port := on_info (fun i => ltac:(field_set ai_eap v i)) x.
Definition i_resp_data (x : port) : buf := ai_resp_data (p_info x).
Definition iset_resp_data (v : buf) (x : port) : port := on_info (fun i => ltac:(field_set ai_resp_data v i)) x.
Definition i_resp_len (x : port) : Z := ai_resp_len (p_info x).
Definition iset_resp_len (v : Z) (x : port) : port := on_info (fun i => ltac:(field_set ai_resp_len v i)) x.
Definition i_radius (x : port) : radius_info := ai_radius (p_info x).
Definition iset_radius (v : radius_info) (x : port) : port := on_info (fun i => ltac:(field_set ai_radius v i)) x.
Definition authAbort (x : port) : bool := authAbort_ (i_eap_var x).
Definition put_authAbort (v : bool) (x : port) : port :=
  iset_eap_var (let r : eap_vars := i_eap_var x in ltac:(field_set authAbort_ v r)) x.
Definition authFail (x : port) : bool := authFail_ (i_eap_var x).
Definition put_authFail (v : bool) (x : port) : port :=
  iset_eap_var (let r : eap_vars := i_eap_var x in ltac:(field_set authFail_ v r)) x.
Definition authStart (x : port) : bool := authStart_ (i_eap_var x).
Definition put_authStart (v : bool) (x : port) : port :=
  iset_eap_var (let r : eap_vars := i_eap_var x in ltac:(field_set authStart_ v r)) x.
Definition authTimeout (x : port) : bool := authTimeout_ (i_eap_var x).
Definition put_authTimeout (v : bool) (x : port) : port :=
  iset_eap_var (let r : eap_vars := i_eap_var x in ltac:(field_set authTimeout_ v r)) x.
Definition authSuccess (x : port) : bool := authSuccess_ (i_eap_var x).
Definition put_authSuccess (v : bool) (x : port) : port :=
  iset_eap_var (let r : eap_vars := i_eap_var x in ltac:(field_set authSuccess_ v r)) x.
Definition eapFail (x : port) : bool := eapFail_ (i_eap_var x).
Definition put_eapFail (v : bool) (x : port) : port :=
  iset_eap_var (let r : eap_vars := i_eap_var x in ltac:(field_set eapFail_ v r)) x.
Definition eapolEap (x : port) : bool := eapolEap_ (i_eap_var x).
Definition put_eapolEap (v : bool) (x : port) : port :=
  iset_eap_var (let r : eap_vars := i_eap_var x in ltac:(field_set eapolEap_ v r)) x.
Definition eapSuccess (x : port) : bool := eapSuccess_ (i_eap_var x).
Definition put_eapSuccess (v : bool) (x : port) : port :=
  iset_eap_var (let r : eap_vars := i_eap_var x in ltac:(field_set eapSuccess_ v r)) x.
Definition eapTimeout (x : port) : bool := eapTimeout_ (i_eap_var x).
Definition put_eapTimeout (v : bool) (x : port) : port :=
  iset_eap_var (let r : eap_vars := i_eap_var x in ltac:(field_set eapTimeout_ v r)) x.
Definition initialize (x : port) : bool := initialize_ (i_eap_var x).
Definition put_initialize (v : bool) (x : port) : port :=
  iset_eap_var (let r : eap_vars := i_eap_var x in ltac:(field_set initialize_ v r)) x.
Definition keyAvailable (x : port) : bool := keyAvailable_ (i_eap_var x).
Definition put_keyAvailable (v : bool) (x : port) : port :=
  iset_eap_var (let r : eap_vars := i_eap_var x in ltac:(field_set keyAvailable_ v r)) x.
Definition keyDone (x : port) : bool := keyDone_ (i_eap_var x).
Definition put_keyDone (v : bool) (x : port) : port :=
  iset_eap_var (let r : eap_vars := i_eap_var x in ltac:(field_set keyDone_ v r)) x.
Definition keyRun (x : port) : bool := keyRun_ (i_eap_var x).
Definition put_keyRun (v : bool) (x : port) : port :=
  iset_eap_var (let r : eap_vars := i_eap_var x in ltac:(field_set keyRun_ v r)) x.
Definition keyTxEnabled (x : port) : bool := keyTxEnabled_ (i_eap_var x).
Definition put_keyTxEnabled (v : bool) (x : port) : port :=
  iset_eap_var (let r : eap_vars := i_eap_var x in ltac:(field_set keyTxEnabled_ v r)) x.
Definition portEnabled (x : port) : bool := portEnabled_ (i_eap_var x).
Definition put_portEnabled (v : bool) (x : port) : port :=
  iset_eap_var (let r : eap_vars := i_eap_var x in ltac:(field_set portEnabled_ v r)) x.
Definition portValid (x : port) : bool := portValid_ (i_eap_var x).
Definition put_portValid (v : bool) (x : port) : port :=
  iset_eap_var (let r : eap_vars := i_eap_var x in ltac:(field_set portValid_ v r)) x.
Definition reAuthenticate (x : port) : bool := reAuthenticate_ (i_eap_var x).
Definition put_reAuthenticate (v : bool) (x : port) : port :=
  iset_eap_var (let r : eap_vars := i_eap_var x in ltac:(field_set reAuthenticate_ v r)) x.
Definition suppAbort (x : port) : bool := suppAbort_ (i_eap_var x).
Definition put_suppAbort (v : bool) (x : port) : port :=
  iset_eap_var (let r : eap_vars := i_eap_var x in ltac:(field_set suppAbort_ v r)) x.
Definition suppFail (x : port) : bool := suppFail_ (i_eap_var x).
Definition put_suppFail (v : bool) (x : port) : port :=
  iset_eap_var (let r : eap_vars := i_eap_var x in ltac:(field_set suppFail_ v r)) x.
Definition suppStart (x : port) : bool := suppStart_ (i_eap_var x).
Definition put_suppStart (v : bool) (x : port) : port :=
  iset_eap_var (let r : eap_vars := i_eap_var x in ltac:(field_set suppStart_ v r)) x.
Definition suppSuccess (x : port) : bool := suppSuccess_ (i_eap_var x).
Definition put_suppSuccess (v : bool) (x : port) : port :=
  iset_eap_var (let r : eap_vars := i_eap_var x in ltac:(field_set suppSuccess_ v r)) x.
Definition suppTimeout (x : port) : bool := suppTimeout_ (i_eap_var x).
Definition put_suppTimeout (v : bool) (x : port) : port :=
  iset_eap_var (let r : eap_vars := i_eap_var x in ltac:(field_set suppTimeout_ v r)) x.
Definition rxKey (x : port) : bool := rxKey_ (i_eap_var x).
Definition put_rxKey (v : bool) (x : port) : port :=
  iset_eap_var (let r : eap_vars := i_eap_var x in ltac:(field_set rxKey_ v r)) x.
Definition authPortStatus (x : port) : Z := authPortStatus_ (i_eap_var x).
Definition put_authPortStatus (v : Z) (x : port) : port :=
  iset_eap_var (let r : eap_vars := i_eap_var x in ltac:(field_set authPortStatus_ v r)) x.
Definition portControl (x : port) : Z := portControl_ (i_eap_var x).
Definition put_portControl (v : Z) (x : port) : port :=
  iset_eap_var (let r : eap_vars := i_eap_var x in ltac:(field_set portControl_ v r)) x.
Definition portStatus (x : port) : Z := portStatus_ (i_eap_var x).
Definition put_portStatus (v : Z) (x : port) : port :=
  iset_eap_var (let r : eap_vars := i_eap_var x in ltac:(field_set portStatus_ v r)) x.
Definition suppPortStatus (x : port) : Z := suppPortStatus_ (i_eap_var x).
Definition put_suppPortStatus (v : Z) (x : port) : port :=
  iset_eap_var (let r : eap_vars := i_eap_var x in ltac:(field_set suppPortStatus_ v r)) x.
Definition eapolLogoff (x : port) : bool := eapolLogoff_ (i_auth_var x).
Definition put_eapolLogoff (v : bool) (x : port) : port :=
  iset_auth_var (let r : eap_auth_vars := i_auth_var x in ltac:(field_set eapolLogoff_ v r)) x.
Definition eapolStart (x : port) : bool := eapolStart_ (i_auth_var x).
Definition put_eapolStart (v : bool) (x : port) : port :=
  iset_auth_var (let r : eap_auth_vars := i_auth_var x in ltac:(field_set eapolStart_ v r)) x.
Definition eapReq (x : port) : bool := eapReq_ (i_auth_var x).
Definition put_eapReq (v : bool) (x : port) : port :=
  iset_auth_var (let r : eap_auth_vars := i_auth_var x in ltac:(field_set eapReq_ v r)) x.
Definition eapRestart (x : port) : bool := eapRestart_ (i_auth_var x).
Definition put_eapRestart (v : bool) (x : port) : port :=
  iset_auth_var (let r : eap_auth_vars := i_auth_var x in ltac:(field_set eapRestart_ v r)) x.
Definition eapNoReq (x : port) : bool := eapNoReq_ (i_auth_var x).
Definition put_eapNoReq (v : bool) (x : port) : port :=
  iset_auth_var (let r : eap_auth_vars := i_auth_var x in ltac:(field_set eapNoReq_ v r)) x.
Definition eapResp (x : port) : bool := eapResp_ (i_auth_var x).
Definition put_eapResp (v : bool) (x : port) : port :=
  iset_auth_var (let r : eap_auth_vars := i_auth_var x in ltac:(field_set eapResp_ v r)) x.
Definition portMode (x : port) : Z := portMode_ (i_auth_var x).
Definition put_portMode (v : Z) (x : port) : port :=
  iset_auth_var (let r : eap_auth_vars := i_auth_var x in ltac:(field_set portMode_ v r)) x.
Definition reAuthCount (x : port) : Z := reAuthCount_ (i_auth_var x).
Definition put_reAuthCount (v : Z) (x : port) : port :=
  iset_auth_var (let r : eap_auth_vars := i_auth_var x in ltac:(field_set reAuthCount_ v r)) x.
Definition logoffSent (x : port) : bool := logoffSent_ (i_supp_var x).
Definition put_logoffSent (v : bool) (x : port) : port :=
  iset_supp_var (let r : eap_supp_vars := i_supp_var x in ltac:(field_set logoffSent_ v r)) x.
Definition eapNoResp (x : port) : bool := eapNoResp_ (i_supp_var x).
Definition put_eapNoResp (v : bool) (x : port) : port :=
  iset_supp_var (let r : eap_supp_vars := i_supp_var x in ltac:(field_set eapNoResp_ v r)) x.
Definition userLogoff (x : port) : bool := userLogoff_ (i_supp_var x).
Definition put_userLogoff (v : bool) (x : port) : port :=
  iset_supp_var (let r : eap_supp_vars := i_supp_var x in ltac:(field_set userLogoff_ v r)) x.
Definition suppKeyAvailable (x : port) : bool := suppKeyAvailable_ (i_supp_var x).
Definition put_suppKeyAvailable (v : bool) (x : port) : port :=
  iset_supp_var (let r : eap_supp_vars := i_supp_var x in ltac:(field_set suppKeyAvailable_ v r)) x.
Definition sPortMode (x : port) : Z := sPortMode_ (i_supp_var x).
Definition put_sPortMode (v : Z) (x : port) : port :=
  iset_supp_var (let r : eap_supp_vars := i_supp_var x in ltac:(field_set sPortMode_ v r)) x.
Definition startCount (x : port) : Z := startCount_ (i_supp_var x).
Definition put_startCount (v : Z) (x : port) : port :=
  iset_supp_var (let r : eap_supp_vars := i_supp_var x in ltac:(field_set startCount_ v r)) x.

(** ** Constants *)

Definition AUTH_PAE_INVALID : Z := 0.
Definition AUTH_PAE_INITIALIZE : Z := 1.
Definition AUTH_PAE_DISCONNECTED : Z := 2.
Definition AUTH_PAE_RESTART : Z := 3.
Definition AUTH_PAE_CONNECTING : Z := 4.
Definition AUTH_PAE_AUTHENTICATING : Z := 5.
Definition AUTH_PAE_AUTHENTICATED : Z := 6.
Definition AUTH_PAE_ABORTING : Z := 7.
Definition AUTH_PAE_HELD : Z := 8.
Definition AUTH_PAE_FORCE_AUTH : Z := 9.
Definition AUTH_PAE_FORCE_UNAUTH : Z := 10.
Definition AUTH_BKE_REQUEST : Z := 1.
Definition AUTH_BKE_RESPONSE : Z := 2.
Definition AUTH_BKE_SUCCESS : Z := 3.
Definition AUTH_BKE_FAIL : Z := 4.
Definition AUTH_BKE_TIMEOUT : Z := 5.
Definition AUTH_BKE_IDLE : Z := 6.
Definition AUTH_BKE_INITIALIZE : Z := 7.
Definition AUTH_BKE_IGNORE : Z := 8.
Definition SUPP_PAE_LOGOFF : Z := 1.
Definition SUPP_PAE_DISCONNECTED : Z := 2.
Definition SUPP_PAE_CONNECTING : Z := 3.
Definition SUPP_PAE_AUTHENTICATING : Z := 4.
Definition SUPP_PAE_HELD : Z := 5.
Definition SUPP_PAE_AUTHENTICATED : Z := 6.
Definition SUPP_PAE_RESTART : Z := 7.
Definition SUPP_PAE_S_FORCE_AUTH : Z := 8.
Definition SUPP_PAE_S_FORCE_UNAUTH : Z := 9.
Definition SUPP_BKE_REQUEST : Z := 1.
Definition SUPP_BKE_RESPONSE : Z := 2.
Definition SUPP_BKE_SUCCESS : Z := 3.
Definition SUPP_BKE_FAIL : Z := 4.
Definition SUPP_BKE_TIMEOUT : Z := 5.
Definition SUPP_BKE_IDLE : Z := 6.
Definition SUPP_BKE_INITIALIZE : Z := 7.
Definition SUPP_BKE_RECEIVE : Z := 8.
Definition AUTH_KEY_NO_TRANSMIT : Z := 1.
Definition AUTH_KEY_TRANSMIT : Z := 2.
Definition SUPP_KEY_NO_TRANSMIT : Z := 1.
Definition SUPP_KEY_TRANSMIT : Z := 2.
Definition KEY_NO_RECEIVE : Z := 1.
Definition KEY_RECEIVE : Z := 2.
Definition RE_AUTH_INITIALIZE : Z := 1.
Definition RE_AUTHENTICATE : Z := 2.
Definition Authorized : Z := 0.
Definition Unauthorized : Z := 1.
Definition Auto : Z := 1.
Definition ForceAuthorized : Z := 2.
Definition ForceUnauthorized : Z := 3.
Definition AUTH_PAE_STATE_MACHINE : Z := 1.
Definition AUTH_BKE_STATE_MACHINE : Z := 2.
Definition SUPP_PAE_STATE_MACHINE : Z := 4.
Definition SUPP_BKE_STATE_MACHINE : Z := 8.
Definition AUTH_KEY_STATE_MACHINE : Z := 16.
Definition SUPP_KEY_STATE_MACHINE : Z := 32.
Definition KEY_RX_STATE_MACHINE : Z := 64.
Definition RE_AUTH_STATE_MACHINE : Z := 128.
Definition ALL_STATE_MACHINE : Z := 255.
Definition EAP_PACKET : Z := 0.
Definition EAPOL_START : Z := 1.
Definition EAPOL_LOGOFF : Z := 2.
(** The timers of a port. *)
Definition authWhile : fin 6 := 0%fin.
Definition aWhile : fin 6 := 1%fin.
Definition heldWhile : fin 6 := 2%fin.
Definition quietWhile : fin 6 := 3%fin.
Definition reAuthWhen : fin 6 := 4%fin.
Definition startWhen : fin 6 := 5%fin.
(** What [auth_init] stores in [eap_auth_consts] and [eap_supp_consts]. *)
Definition quietPeriod : Z := 60.
Definition reAuthMax : Z := 2.
Definition serverTimeout : Z := 3.
Definition heldPeriod : Z := 60.
Definition startPeriod : Z := 30.
Definition maxStart : Z := 3.
Definition authPeriod : Z := 30.
Definition reAuthPeriod : Z := 60.
Definition reAuthEnabled : bool := true.

Definition timer (t : fin 6) (x : port) : Z := i_eap_timers x !!! t.
Definition put_timer (t : fin 6) (v : Z) (x : port) : port := iset_eap_timers (vinsert t v (i_eap_timers x)) x.

(** ** Updates *)

(** The whole of [update] is replaced. *)
Definition signal_update (update : Z) (x : port) : port := iset_update update x.
Definition add_update (m : Z) (x : port) : port := iset_update (Z.lor (i_update x) m) x.
Definition drop_update (m : Z) (x : port) : port := iset_update (Z.ldiff (i_update x) m) x.
Definition has_update (m : Z) (x : port) : bool := truthy (Z.land (i_update x) m).
Definition signal_radius_resp (x : port) : port := iset_eap_radius_req 0 x.
(** One of the files under [drvname] is written. *)
Definition authorize_port (enable : bool) (x : port) : port := emit (OutAuthorize enable) x.

(** ** Frames *)

(** The version, the type and the length are stored in [eapol_data]. *)
Definition prepare_header (type len : Z) (x : port) : option port :=
  b ← put (i_eapol_data x) 0 ([2; type] ++ be16 len); Some (iset_eapol_data b x).
Definition prepare_eapol (type : Z) (x : port) : option port := prepare_header type 0 x.
Definition prepare_eap (len : Z) (x : port) : option port := prepare_header EAP_PACKET len x.
Definition SIZE_eapol_frame : nat := 4.
(** [len] bytes behind the Ethernet header, in a buffer of 1518 bytes. *)
Definition send_eapol (len : nat) (x : port) : option port :=
  v ← bytes (i_eapol_data x) 0 len;
  if (14 + len <=? 1518)%nat then Some (emit (OutEapol v) x) else UB.
Definition send_start (x : port) : option port := x ← prepare_eapol EAPOL_START x; send_eapol SIZE_eapol_frame x.
Definition send_logoff (x : port) : option port := x ← prepare_eapol EAPOL_LOGOFF x; send_eapol SIZE_eapol_frame x.
(** An EAP message: its header, and [data] behind it. *)
Definition send_eap_msg (code id : Z) (data : list Z) (x : port) : option port :=
  let len := Z.of_nat (SIZE_eap_frame + length data) in
  b ← put (i_eapol_data x) SIZE_eapol_frame [code; id];
  b ← put b (SIZE_eapol_frame + SIZE_eap_frame) data;
  b ← put b (SIZE_eapol_frame + 2) (be16 (u16 len));
  x ← prepare_eap (u16 len) (iset_eapol_data b x);
  send_eapol (Z.to_nat (u16 len) + SIZE_eapol_frame) x.
Definition send_eap_resp (id : Z) (resp : list Z) (x : port) : option port := send_eap_msg EAP_CODE_RESPONSE id resp x.
Definition send_success (id : Z) (x : port) : option port := send_eap_msg EAP_CODE_SUCCESS id [] x.
Definition send_failure (id : Z) (x : port) : option port := send_eap_msg EAP_CODE_FAILURE id [] x.
Definition send_supp_resp (x : port) : option port :=
  if (1 <=? i_eap_resp x) && (i_eap_resp x <=? 2) then
    v ← bytes (i_resp_data x) 0 (Z.to_nat (i_resp_len x)); send_eap_resp (i_eap_resp_id x) v x
  else Some x.
Definition txCannedSuccess (x : port) : option port :=
  let id := i_eap_id x in send_success id (iset_eap_id (u8 (id + 1)) x).
Definition txCannedFail (x : port) : option port :=
  let id := i_eap_id x in send_failure id (iset_eap_id (u8 (id + 1)) x).

Section handlers.
Context (stack : fr_md5_ctx) (pw0 : buf) (secret : list Z) (src : pool_source).

(** The answer of a supplicant to the request that has come. *)
Definition proc_auth_req (x : port) : option port :=
  code ← rd (i_eap x) 0 1; id ← rd (i_eap x) 1 1;
  let x := iset_eap_resp_id id x in
  if code =? EAP_CODE_REQUEST then
    type ← rd (i_eap x) 4 1;
    if type =? EAP_TYPE_IDENTITY then
      b ← put (i_resp_data x) 0 ([type] ++ text_testing ++ [0]);
      Some (add_update SUPP_BKE_STATE_MACHINE
        (put_eapResp true (iset_resp_len 8 (iset_resp_data b (iset_eap_resp 1 x)))))
    else if type =? EAP_TYPE_MD5_CHALLENGE then
      v ← bytes (i_eap x) 5 17;
      b ← put (i_resp_data x) 0 [type];
      b ← put b 1 v;
      d ← eap_md5 stack id text_password (drop 5 (i_eap x));
      b ← put b 2 d;
      Some (add_update SUPP_BKE_STATE_MACHINE
        (put_eapResp true (iset_resp_len 18 (iset_resp_data b (iset_eap_resp 2 x)))))
    else Some x
  else Some x.

(** The request to the server. *)
Definition send_access_req (x : port) : option port :=
  '(radius, id, pool) ← prep_access_req stack secret src (i_radius x) (p_radius_id x) (p_pool x);
  let x := iset_radius radius (set_radius_id id (set_pool pool x)) in
  v ← bytes (ri_radius_data radius) 0 (Z.to_nat (ri_len radius));
  Some (emit (OutRadius v) x).

(** ** What the server said *)

(** The machines to run, and the port. *)
Definition proc_radius (x : port) : Z * port :=
  let pae_bke := Z.lor AUTH_PAE_STATE_MACHINE AUTH_BKE_STATE_MACHINE in
  let '(update, x) :=
    if ri_eap_code (i_radius x) =? EAP_CODE_REQUEST then (pae_bke, put_eapReq true (iset_eap_req 1 x))
    else if ri_eap_code (i_radius x) =? EAP_CODE_SUCCESS then (pae_bke, put_eapSuccess true (iset_eap_req 2 x))
    else if ri_eap_code (i_radius x) =? EAP_CODE_FAILURE then (pae_bke, put_eapFail true (iset_eap_req 3 x))
    else (AUTH_BKE_STATE_MACHINE, put_eapNoReq true x) in
  (update, put_eapResp false x).

(** ** What the supplicant, or the authenticator, said *)

Definition proc_id_resp (x : port) (update : Z) : port * Z :=
  if i_eap_first_req x =? 2 then
    let x := put_eapTimeout false x in
    let x := iset_eap_first_req (u8 (i_eap_first_req x + 1)) x in
    (iset_auth_bke_state AUTH_BKE_REQUEST x, Z.lor update AUTH_BKE_STATE_MACHINE)
  else (x, update).

(** The first request for the identity is made here, as if a server had sent it. *)
Definition first_request (x : port) : option (Z * port) :=
  let init := put_eap_id (ri_eap_id (i_radius x)) (put_id (ri_id (i_radius x)) zero_radius) in
  '(init, pool) ← prep_init_req stack secret src init (p_pool x);
  radius ← proc_radius_msg stack pw0 secret (ri_radius_data init) (i_radius x) (ri_len init) false;
  let radius := put_eap_id (u8 (ri_eap_id radius + 1)) radius in
  Some (proc_radius (iset_eap_first_req 1 (iset_radius radius (set_pool pool x)))).

Definition eapol_start (x : port) : option port :=
  if 2 <=? i_eap_first_req x then Some (put_eapTimeout false (iset_eap_first_req 0 x))
  else
    let x := put_eapolStart true (put_eapolEap false x) in
    let update := AUTH_PAE_STATE_MACHINE in
    '(update, x) ← (if (i_state x =? 1) && (portControl x =? Auto) && (i_auth_pae_state x =? AUTH_PAE_CONNECTING)
                    then '(u, x) ← first_request x; Some (Z.lor update u, x)
                    else Some (update, x));
    Some (signal_update update x).

Definition auth_machines (x : port) (m : Z) : Z := if negb (i_state x =? 0) then m else 0.
Definition supp_machines (x : port) : Z :=
  if negb (i_state x =? 1) then Z.lor SUPP_PAE_STATE_MACHINE SUPP_BKE_STATE_MACHINE else 0.

(** A response, saved for the server. *)
Definition eap_response (f : buf) (len : Z) (x : port) (update : Z) : option (port * Z) :=
  type ← rd f 8 1;
  v ← bytes f 4 (Z.to_nat len);
  eap ← put (ri_eap (i_radius x)) 0 v;
  let x := iset_radius (put_eap eap (put_eap_len len (i_radius x))) x in
  '(x, update) ← (if type =? EAP_TYPE_IDENTITY then
                    let n := u16 (ri_eap_len (i_radius x) - 5) in
                    v ← bytes f 9 (Z.to_nat n);
                    name ← put (ri_name (i_radius x)) 0 v;
                    Some (proc_id_resp (iset_radius (put_name name (put_name_len n (i_radius x))) x) update)
                  else if type =? EAP_TYPE_NAK then Some (x, update)
                  else Some (iset_eap_first_req 0 x, update));
  Some (signal_radius_resp x, update).

Definition eap_packet (f : buf) (x : port) : option port :=
  let both := Z.lor AUTH_PAE_STATE_MACHINE AUTH_BKE_STATE_MACHINE in
  code ← rd f 4 1;
  if code =? EAP_CODE_SUCCESS then
    Some (signal_update (Z.lor (auth_machines x both) (supp_machines x)) (put_eapSuccess true x))
  else if code =? EAP_CODE_FAILURE then
    Some (signal_update (Z.lor (auth_machines x both) (supp_machines x)) (put_eapFail true x))
  else
    len ← rd_be16 f 6;
    v ← bytes f 4 (Z.to_nat len);
    eap ← put (i_eap x) 0 v;
    let x := iset_eap eap x in
    '(x, update) ← (if (code =? EAP_CODE_RESPONSE) && (i_state x =? 1) then eap_response f len x 0
                    else Some (x, 0));
    let update := Z.lor (Z.lor update (auth_machines x AUTH_BKE_STATE_MACHINE)) (supp_machines x) in
    Some (signal_update update (put_eapolEap true x)).

(** The frame from its EAPOL header on. *)
Definition proc_eapol (f : buf) (x : port) : option port :=
  type ← rd f 1 1;
  if type =? EAPOL_START then eapol_start x
  else if type =? EAPOL_LOGOFF then Some (signal_update AUTH_PAE_STATE_MACHINE (put_eapolLogoff true x))
  else if type =? EAP_PACKET then eap_packet f x
  else Some (signal_update 0 x).

(** ** The other threads *)

(** What [ReceiveTask] does with an EAPOL frame of the port, [msglen] bytes of
    which came behind the Ethernet header, and with a RADIUS message. *)
Definition receive_eapol (f : buf) (msglen : Z) (from : list Z) (x : port) : option port :=
  dst ← (if i_state x =? 1 then v ← bytes from 0 6; put (ri_dst (i_radius x)) 0 v else Some (ri_dst (i_radius x)));
  let x := iset_radius (put_dst dst (i_radius x)) x in
  len ← rd_be16 f 2;
  if msglen >=? len then proc_eapol f x else Some x.
Definition receive_radius (msg : buf) (msglen : Z) (x : port) : option port :=
  id ← rd msg 1 1;
  if ri_sent (i_radius x) && (ri_id (i_radius x) =? id) then
    radius ← proc_radius_msg stack pw0 secret msg (put_sent false (i_radius x)) msglen false;
    let '(update, x) := proc_radius (iset_radius radius x) in
    Some (signal_update update (signal_radius_resp x))
  else Some x.

(** The timers that run out. *)
Definition tick_timer (t : Z) : Z := if t =? 0 then t else t - 1.
Definition eap_timers_state_machine (x : port) : Z * port :=
  let ran_out t := negb (t =? 0) && (t - 1 =? 0) in
  (if existsb ran_out (vec_to_list (i_eap_timers x)) then ALL_STATE_MACHINE else 0,
   iset_eap_timers (vmap tick_timer (i_eap_timers x)) x).
Definition timer_tick (x : port) : port :=
  let '(update, x) := eap_timers_state_machine x in
  if truthy update then signal_update update x else x.

(** A command of the console; those that send a request to the server by hand
    are not for mode 3. *)
Definition send_request (r : option (radius_info * Z * rand_pool)) (x : port) : option port :=
  if negb (i_mode x =? 3) then
    '(radius, id, pool) ← r;
    let x := iset_radius radius (set_radius_id id (set_pool pool x)) in
    v ← bytes (ri_radius_data radius) 0 (Z.to_nat (ri_len radius));
    Some (emit (OutRadius v) x)
  else Some x.
Definition get_cmd (letter : Z) (x : port) : option port :=
  let pae_bke := Z.lor AUTH_PAE_STATE_MACHINE AUTH_BKE_STATE_MACHINE in
  let all f := Some (signal_update ALL_STATE_MACHINE (f x)) in
  let r := i_radius x in
  if letter =? 111 (* o *) then all (put_portControl Auto)
  else if letter =? 97 (* a *) then all (put_portControl ForceAuthorized)
  else if letter =? 117 (* u *) then all (put_portControl ForceUnauthorized)
  else if letter =? 114 (* r *) then all (put_eapRestart false)
  else if letter =? 115 (* s *) then Some (signal_update pae_bke (put_eapReq true (iset_eap_req 1 x)))
  else if letter =? 105 (* i *) then Some (signal_update pae_bke (put_eapNoReq true x))
  else if letter =? 120 (* x *) then
    '(radius, pool) ← prep_success stack secret src r (p_pool x);
    Some (signal_update pae_bke (put_eapSuccess true (iset_radius radius (set_pool pool (iset_eap_req 2 x)))))
  else if letter =? 121 (* y *) then
    '(radius, pool) ← prep_fail stack secret src r (p_pool x);
    Some (signal_update pae_bke (put_eapFail true (iset_radius radius (set_pool pool (iset_eap_req 3 x)))))
  else if letter =? 108 (* l *) then all (put_userLogoff true)
  else if letter =? 109 (* m *) then all (put_userLogoff false)
  else if letter =? 99 (* c *) then send_request (prep_access_request_req stack secret src r (p_radius_id x) (p_pool x)) x
  else if letter =? 100 (* d *) then send_request (prep_access_challenge_req stack secret src r (p_radius_id x) (p_pool x)) x
  else if letter =? 101 (* e *) then send_request (prep_access_request_simple_req stack secret src r (p_radius_id x) (p_pool x)) x
  else if letter =? 113 (* q *) then
    if (i_mode x =? 0) && (i_supp_pae_state x =? SUPP_PAE_AUTHENTICATED) then all (put_userLogoff true) else Some x
  else Some x.

Definition handle (e : event) (x : port) : option port :=
  match e with
  | ev_eapol f msglen from => receive_eapol f msglen from x
  | ev_radius msg msglen => receive_radius msg msglen x
  | ev_cmd letter => get_cmd letter x
  | ev_tick => Some (timer_tick x)
  end.
Definition handle_all (es : list event) (x : port) : option port :=
  foldl (fun r e => x ← r; handle e x) (Some x) es.

(** ** Waiting for an answer *)

(** The events of this wait happen; without an answer it times out. *)
Definition wait_for_resp (x : port) : option port :=
  x ← (if truthy (i_eap_radius_req x) then
         handle_all (hd [] (p_during x)) (set_during (tl (p_during x)) x)
       else Some x);
  if truthy (i_eap_radius_req x) then
    let x := if i_eap_first_req x =? 1 then iset_eap_first_req (u8 (i_eap_first_req x + 1)) x else x in
    Some (signal_update AUTH_BKE_STATE_MACHINE (put_eapTimeout true (iset_eap_radius_req 0 x)))
  else Some x.

Definition send_eap (src_eap : buf) (len : Z) (x : port) : option port :=
  v ← bytes src_eap 0 (Z.to_nat len);
  b ← put (i_eapol_data x) SIZE_eapol_frame v;
  x ← prepare_eap len (iset_eapol_data b x);
  let waits := negb (truthy (Z.land (i_eap_req x) 2)) in
  let x := if waits then iset_eap_radius_req 1 x else x in
  x ← send_eapol (Z.to_nat (u16 (len + Z.of_nat SIZE_eapol_frame))) x;
  let waits := negb (truthy (Z.land (i_eap_req x) 2)) in
  if waits then wait_for_resp x else Some x.
Definition send_auth_req (x : port) : option port :=
  if (1 <=? i_eap_req x) && (i_eap_req x <=? 3) then send_eap (ri_eap (i_radius x)) (ri_eap_len (i_radius x)) x
  else Some x.
End handlers.
