(* ===== verification/Dot1xMachines.v ===== *)
(** * The state machines of port access control (nettest/network/authtest.c)

    Every state has a function that is called when it is entered and one that
    chooses the next state; a machine has conditions of its own besides.  The
    functions that do nothing ([abortAuth], [abortSupp], [txKey], [txSuppKey],
    [processKey]) are left out. *)

From stdpp Require Import base list numbers option fin vector.
From Stdlib Require Import ZArith Lia.
From S2P Require Import Prelude Wire Md5 Isaac Radius RadiusMsg RadiusServer Dot1x.

Section machines.
Context (stack : fr_md5_ctx) (pw0 : buf) (secret : list Z) (src : pool_source).

(** ** The authenticator *)

Definition auth_pae_init_init (x : port) : option port := Some (put_portMode Auto x).
Definition auth_pae_init_next (x : port) (new : Z) : Z :=
  if negb (initialize x || negb (portEnabled x)) then AUTH_PAE_DISCONNECTED else new.
(** The port is closed, if it was open. *)
Definition close_port (x : port) : port :=
  let x := if authPortStatus x =? Authorized then authorize_port false x else x in
  put_authPortStatus Unauthorized x.
Definition open_port (x : port) : port :=
  let x := if authPortStatus x =? Unauthorized then authorize_port true x else x in
  put_authPortStatus Authorized x.
Definition auth_pae_disc_init (x : port) : option port :=
  Some (put_eapolLogoff false (put_reAuthCount 0 (close_port x))).
Definition auth_pae_disc_next (x : port) (new : Z) : Z := AUTH_PAE_RESTART.
Definition auth_pae_restart_init (x : port) : option port := Some (put_eapRestart true x).
Definition auth_pae_restart_next (x : port) (new : Z) : Z :=
  if negb (eapRestart x) then AUTH_PAE_CONNECTING else new.
Definition auth_pae_conn_init (x : port) : option port :=
  let x := put_reAuthenticate false x in Some (put_reAuthCount (reAuthCount x + 1) x).
Definition auth_pae_conn_next (x : port) (new : Z) : Z :=
  let new := if eapolLogoff x || (reAuthCount x >? reAuthMax) then AUTH_PAE_DISCONNECTED else new in
  if (eapReq x && (reAuthCount x <=? reAuthMax)) || eapSuccess x || eapFail x then AUTH_PAE_AUTHENTICATING else new.
Definition auth_pae_authg_init (x : port) : option port :=
  let x := put_authTimeout false (put_authFail false (put_authSuccess false (put_eapolStart false x))) in
  let x := add_update AUTH_BKE_STATE_MACHINE (put_authStart true x) in
  Some (put_keyDone false (put_keyRun false x)).
Definition auth_pae_authg_next (x : port) (new : Z) : Z :=
  let new := if eapolStart x || eapolLogoff x || authTimeout x then AUTH_PAE_ABORTING else new in
  let new := if authFail x || (keyDone x && negb (portValid x)) then AUTH_PAE_HELD else new in
  if authSuccess x && portValid x then AUTH_PAE_AUTHENTICATED else new.
Definition auth_pae_authd_init (x : port) : option port := Some (put_reAuthCount 0 (open_port x)).
Definition auth_pae_authd_next (x : port) (new : Z) : Z :=
  let new := if eapolStart x || reAuthenticate x then AUTH_PAE_RESTART else new in
  if eapolLogoff x || negb (portValid x) then AUTH_PAE_DISCONNECTED else new.
Definition auth_pae_abort_init (x : port) : option port :=
  Some (put_keyDone false (put_keyRun false (add_update AUTH_BKE_STATE_MACHINE (put_authAbort true x)))).
Definition auth_pae_abort_next (x : port) (new : Z) : Z :=
  let new := if negb (eapolLogoff x) && negb (authAbort x) then AUTH_PAE_RESTART else new in
  if eapolLogoff x && negb (authAbort x) then AUTH_PAE_DISCONNECTED else new.
Definition auth_pae_held_init (x : port) : option port :=
  Some (put_eapolLogoff false (put_timer quietWhile quietPeriod (close_port x))).
Definition auth_pae_held_next (x : port) (new : Z) : Z :=
  if timer quietWhile x =? 0 then AUTH_PAE_RESTART else new.
Definition auth_pae_force_auth_init (x : port) : option port :=
  txCannedSuccess (put_eapolStart false (put_portMode ForceAuthorized (open_port x))).
Definition auth_pae_force_auth_next (x : port) (new : Z) : Z := if eapolStart x then AUTH_PAE_FORCE_AUTH else new.
Definition auth_pae_force_unauth_init (x : port) : option port :=
  txCannedFail (put_eapolStart false (put_portMode ForceUnauthorized (close_port x))).
Definition auth_pae_force_unauth_next (x : port) (new : Z) : Z := if eapolStart x then AUTH_PAE_FORCE_UNAUTH else new.
Definition auth_pae_next (x : port) (new_state : Z) : Z :=
  if truthy new_state then new_state
  else
    let enabled := negb (initialize x || negb (portEnabled x)) in
    let new := if ((portControl x =? Auto) && negb (portMode x =? portControl x)) || negb enabled
               then AUTH_PAE_INITIALIZE else new_state in
    let new := if (portControl x =? ForceAuthorized) && negb (portMode x =? portControl x) && enabled
               then AUTH_PAE_FORCE_AUTH else new in
    let new := if (portControl x =? ForceUnauthorized) && negb (portMode x =? portControl x) && enabled
               then AUTH_PAE_FORCE_UNAUTH else new in
    if new =? i_auth_pae_state x then 0 else new.

Definition txReq : port -> option port := send_auth_req stack pw0 secret src.
Definition auth_bke_req_init (x : port) : option port :=
  x ← txReq (put_eapTimeout false x); Some (put_eapReq false x).
Definition auth_bke_req_next (x : port) (new : Z) : Z :=
  let new := if eapTimeout x then AUTH_BKE_TIMEOUT else new in
  let new := if eapolEap x then AUTH_BKE_RESPONSE else new in
  if eapReq x then AUTH_BKE_REQUEST else new.
Definition auth_bke_resp_init (x : port) : option port :=
  let x := put_eapNoReq false (put_eapolEap false (put_authTimeout false x)) in
  send_access_req stack secret src (put_eapResp true (put_timer aWhile serverTimeout x)).
Definition auth_bke_resp_next (x : port) (new : Z) : Z :=
  let new := if timer aWhile x =? 0 then AUTH_BKE_TIMEOUT else new in
  let new := if eapSuccess x then AUTH_BKE_SUCCESS else new in
  let new := if eapFail x then AUTH_BKE_FAIL else new in
  let new := if eapNoReq x then AUTH_BKE_IGNORE else new in
  if eapReq x then AUTH_BKE_REQUEST else new.
Definition auth_bke_succ_init (x : port) : option port :=
  x ← txReq x; Some (put_keyRun true (add_update AUTH_PAE_STATE_MACHINE (put_authSuccess true x))).
Definition auth_bke_succ_next (x : port) (new : Z) : Z := AUTH_BKE_IDLE.
Definition auth_bke_fail_init (x : port) : option port :=
  x ← txReq x; Some (add_update AUTH_PAE_STATE_MACHINE (put_authFail true x)).
Definition auth_bke_fail_next (x : port) (new : Z) : Z := AUTH_BKE_IDLE.
Definition auth_bke_timeout_init (x : port) : option port :=
  Some (add_update AUTH_PAE_STATE_MACHINE (put_authTimeout true x)).
Definition auth_bke_timeout_next (x : port) (new : Z) : Z := AUTH_BKE_IDLE.
Definition auth_bke_idle_init (x : port) : option port := Some (put_authStart false x).
Definition auth_bke_idle_next (x : port) (new : Z) : Z :=
  let new := if eapReq x && authStart x then AUTH_BKE_REQUEST else new in
  let new := if eapSuccess x && authStart x then AUTH_BKE_SUCCESS else new in
  if eapFail x && authStart x then AUTH_BKE_FAIL else new.
Definition auth_bke_init_init (x : port) : option port :=
  Some (add_update AUTH_PAE_STATE_MACHINE (put_authAbort false (put_eapNoReq false x))).
Definition auth_bke_init_next (x : port) (new : Z) : Z :=
  if negb (negb (portControl x =? Auto) || initialize x || authAbort x) then AUTH_BKE_IDLE else new.
Definition auth_bke_ignore_init (x : port) : option port := Some (put_eapNoReq false x).
Definition auth_bke_ignore_next (x : port) (new : Z) : Z :=
  let new := if eapolEap x then AUTH_BKE_RESPONSE else new in
  let new := if eapReq x then AUTH_BKE_REQUEST else new in
  if eapTimeout x then AUTH_BKE_TIMEOUT else new.
Definition auth_bke_next (x : port) (new_state : Z) : Z :=
  if truthy new_state then new_state
  else
    let new := if negb (portControl x =? Auto) || initialize x || authAbort x then AUTH_BKE_INITIALIZE else new_state in
    if new =? i_auth_bke_state x then 0 else new.

(** ** The supplicant *)

Definition supp_pae_logoff_init (x : port) : option port :=
  x ← send_logoff x; Some (put_suppPortStatus Unauthorized (put_logoffSent true x)).
Definition supp_pae_logoff_next (x : port) (new : Z) : Z := if negb (userLogoff x) then SUPP_PAE_DISCONNECTED else new.
Definition supp_pae_disc_init (x : port) : option port :=
  let x := put_suppPortStatus Unauthorized (put_logoffSent false (put_startCount 0 (put_sPortMode Auto x))) in
  Some (add_update SUPP_BKE_STATE_MACHINE (put_suppAbort true x)).
Definition supp_pae_disc_next (x : port) (new : Z) : Z :=
  if negb (initialize x || negb (portEnabled x)) then SUPP_PAE_CONNECTING else new.
Definition supp_pae_conn_init (x : port) : option port :=
  let x := put_timer startWhen startPeriod x in
  send_start (put_eapolEap false (put_startCount (startCount x + 1) x)).
Definition supp_pae_conn_next (x : port) (new : Z) : Z :=
  let ended := timer startWhen x =? 0 in
  let new := if eapolEap x then SUPP_PAE_RESTART else new in
  let new := if eapSuccess x || eapFail x then SUPP_PAE_AUTHENTICATING else new in
  let new := if ended && (startCount x >=? maxStart) && portValid x then SUPP_PAE_AUTHENTICATED else new in
  let new := if ended && (startCount x >=? maxStart) && negb (portValid x) then SUPP_PAE_HELD else new in
  if ended && (startCount x <? maxStart) then SUPP_PAE_CONNECTING else new.
Definition supp_pae_authg_init (x : port) : option port :=
  let x := put_suppTimeout false (put_suppFail false (put_suppSuccess false (put_startCount 0 x))) in
  let x := put_keyDone false (put_keyRun false x) in
  Some (add_update SUPP_BKE_STATE_MACHINE (put_suppStart true x)).
Definition supp_pae_authg_next (x : port) (new : Z) : Z :=
  let new := if suppSuccess x && portValid x then SUPP_PAE_AUTHENTICATED else new in
  let new := if suppFail x || (keyDone x && negb (portValid x)) then SUPP_PAE_HELD else new in
  if suppTimeout x then SUPP_PAE_CONNECTING else new.
Definition supp_pae_held_init (x : port) : option port :=
  Some (put_suppPortStatus Unauthorized (put_timer heldWhile heldPeriod x)).
Definition supp_pae_held_next (x : port) (new : Z) : Z :=
  let new := if eapolEap x then SUPP_PAE_RESTART else new in
  if timer heldWhile x =? 0 then SUPP_PAE_CONNECTING else new.
Definition supp_pae_authd_init (x : port) : option port := Some (put_suppPortStatus Authorized x).
Definition supp_pae_authd_next (x : port) (new : Z) : Z :=
  let new := if eapolEap x && portValid x then SUPP_PAE_RESTART else new in
  if negb (portValid x) then SUPP_PAE_DISCONNECTED else new.
Definition supp_pae_restart_init (x : port) : option port := Some (put_eapRestart true x).
Definition supp_pae_restart_next (x : port) (new : Z) : Z :=
  if negb (eapRestart x) then SUPP_PAE_AUTHENTICATING else new.
Definition supp_pae_s_force_auth_init (x : port) : option port :=
  Some (put_sPortMode ForceAuthorized (put_suppPortStatus Authorized x)).
Definition supp_pae_s_force_unauth_init (x : port) : option port :=
  send_logoff (put_sPortMode ForceUnauthorized (put_suppPortStatus Unauthorized x)).
Definition supp_pae_next (x : port) (new_state : Z) : Z :=
  if truthy new_state then new_state
  else
    let enabled := negb (initialize x || negb (portEnabled x)) in
    let new := if userLogoff x && negb (logoffSent x) && enabled then SUPP_PAE_LOGOFF else new_state in
    let new := if ((portControl x =? Auto) && negb (sPortMode x =? portControl x)) || negb enabled
               then SUPP_PAE_DISCONNECTED else new in
    let new := if (portControl x =? ForceAuthorized) && negb (sPortMode x =? portControl x) && enabled
               then SUPP_PAE_S_FORCE_AUTH else new in
    let new := if (portControl x =? ForceUnauthorized) && negb (sPortMode x =? portControl x) && enabled
               then SUPP_PAE_S_FORCE_UNAUTH else new in
    if new =? i_supp_pae_state x then 0 else new.

Definition supp_bke_req_init (x : port) : option port :=
  proc_auth_req stack (put_eapReq true (put_timer authWhile 0 x)).
Definition supp_bke_req_next (x : port) (new : Z) : Z :=
  let new := if eapResp x then SUPP_BKE_RESPONSE else new in
  let new := if eapNoResp x then SUPP_BKE_RECEIVE else new in
  let new := if eapFail x then SUPP_BKE_FAIL else new in
  if eapSuccess x then SUPP_BKE_SUCCESS else new.
Definition supp_bke_resp_init (x : port) : option port := x ← send_supp_resp x; Some (put_eapResp false x).
Definition supp_bke_resp_next (x : port) (new : Z) : Z := SUPP_BKE_RECEIVE.
Definition supp_bke_succ_init (x : port) : option port :=
  Some (add_update SUPP_PAE_STATE_MACHINE (put_suppSuccess true (put_keyRun true x))).
Definition supp_bke_succ_next (x : port) (new : Z) : Z := SUPP_BKE_IDLE.
Definition supp_bke_fail_init (x : port) : option port :=
  Some (add_update SUPP_PAE_STATE_MACHINE (put_suppFail true x)).
Definition supp_bke_fail_next (x : port) (new : Z) : Z := SUPP_BKE_IDLE.
Definition supp_bke_timeout_init (x : port) : option port :=
  Some (add_update SUPP_PAE_STATE_MACHINE (put_suppTimeout true x)).
Definition supp_bke_timeout_next (x : port) (new : Z) : Z := SUPP_BKE_IDLE.
Definition supp_bke_idle_init (x : port) : option port := Some (put_suppStart false x).
Definition supp_bke_idle_next (x : port) (new : Z) : Z :=
  let new := if eapolEap x && suppStart x then SUPP_BKE_REQUEST else new in
  let new := if eapSuccess x && suppStart x then SUPP_BKE_SUCCESS else new in
  if eapFail x && suppStart x then SUPP_BKE_FAIL else new.
Definition supp_bke_init_init (x : port) : option port := Some (put_suppAbort false x).
Definition supp_bke_init_next (x : port) (new : Z) : Z :=
  if negb (initialize x || suppAbort x) then SUPP_BKE_IDLE else new.
Definition supp_bke_recv_init (x : port) : option port :=
  Some (put_eapNoResp false (put_eapolEap false (put_timer authWhile authPeriod x))).
Definition supp_bke_recv_next (x : port) (new : Z) : Z :=
  let new := if timer authWhile x =? 0 then SUPP_BKE_TIMEOUT else new in
  let new := if eapSuccess x then SUPP_BKE_SUCCESS else new in
  let new := if eapFail x then SUPP_BKE_FAIL else new in
  if eapolEap x then SUPP_BKE_REQUEST else new.
Definition supp_bke_next (x : port) (new_state : Z) : Z :=
  if truthy new_state then new_state
  else
    let new := if initialize x || suppAbort x then SUPP_BKE_INITIALIZE else new_state in
    if new =? i_supp_bke_state x then 0 else new.

(** ** Keys and the next authentication *)

Definition no_init (x : port) : option port := Some x.
Definition not_auto (x : port) : bool := initialize x || negb (portControl x =? Auto).
(** What these machines have in common: a condition forces the state [s]. *)
Definition forced (c : bool) (s current new_state : Z) : Z :=
  let new := if c then s else new_state in
  if (new_state =? 0) && (new =? current) then 0 else new.
Definition auth_key_no_tx_init := no_init.
Definition auth_key_no_tx_next (x : port) (new : Z) : Z :=
  if negb (not_auto x) && keyTxEnabled x && keyAvailable x && keyRun x then AUTH_KEY_TRANSMIT else new.
Definition auth_key_tx_init (x : port) : option port := Some (put_keyDone true (put_keyAvailable false x)).
Definition auth_key_tx_next (x : port) (new : Z) : Z :=
  let new := if keyAvailable x then AUTH_KEY_TRANSMIT else new in
  if negb (keyTxEnabled x) || negb (keyRun x) then AUTH_KEY_NO_TRANSMIT else new.
Definition auth_key_next (x : port) (new_state : Z) : Z :=
  forced (not_auto x) AUTH_KEY_NO_TRANSMIT (i_auth_key_tx_state x) new_state.
Definition supp_key_no_tx_init := no_init.
Definition supp_key_no_tx_next (x : port) (new : Z) : Z :=
  if negb (not_auto x) && keyTxEnabled x && suppKeyAvailable x && keyRun x then SUPP_KEY_TRANSMIT else new.
Definition supp_key_tx_init (x : port) : option port := Some (put_keyDone true (put_keyAvailable false x)).
Definition supp_key_tx_next (x : port) (new : Z) : Z :=
  let new := if suppKeyAvailable x then SUPP_KEY_TRANSMIT else new in
  if negb (keyTxEnabled x) || negb (keyRun x) then SUPP_KEY_NO_TRANSMIT else new.
Definition supp_key_next (x : port) (new_state : Z) : Z :=
  forced (not_auto x) SUPP_KEY_NO_TRANSMIT (i_supp_key_tx_state x) new_state.
Definition key_no_rx_init := no_init.
Definition key_no_rx_next (x : port) (new : Z) : Z := if negb (not_auto x) && rxKey x then KEY_RECEIVE else new.
Definition key_rx_init (x : port) : option port := Some (put_rxKey false x).
Definition key_rx_next (x : port) (new : Z) : Z := if rxKey x then KEY_RECEIVE else new.
Definition key_next (x : port) (new_state : Z) : Z := forced (not_auto x) KEY_NO_RECEIVE (i_key_rx_state x) new_state.
Definition re_auth_init_init (x : port) : option port := Some (put_timer reAuthWhen reAuthPeriod x).
Definition re_auth_init_next (x : port) (new : Z) : Z :=
  if negb (not_auto x || (portControl x =? Unauthorized) || negb reAuthEnabled) && (timer reAuthWhen x =? 0)
  then RE_AUTHENTICATE else new.
Definition re_authen_init (x : port) : option port := Some (put_reAuthenticate true x).
Definition re_authen_next (x : port) (new : Z) : Z := RE_AUTH_INITIALIZE.
Definition re_auth_next (x : port) (new_state : Z) : Z :=
  forced (not_auto x || (portControl x =? Unauthorized) || negb reAuthEnabled)
    RE_AUTH_INITIALIZE (i_re_auth_state x) new_state.

(** ** Running a machine *)

Record auth_state := mk_state { st_change : Z; st_new : Z }.
(** A state: what is called when it is entered, what chooses the next one, and
    whether the machine ends if the first says so. *)
Record entry := mk_entry { en_init : port -> option port; en_next : option (port -> Z -> Z); en_goto : bool }.
Definition auth_proc_state (x : port) (st : auth_state) (e : entry) : option (bool * port * auth_state) :=
  let next x st := match en_next e with
                   | Some f => mk_state (st_change st) (f x (st_new st))
                   | None => st
                   end in
  if truthy (st_new st) then
    let st := mk_state (st_change st) 0 in
    x ← en_init e x;
    if st_change st =? 1 then Some (true, x, st) else Some (false, x, next x st)
  else Some (false, x, next x st).

Record machine := mk_machine {
  m_bit : Z; m_state : port -> Z; m_put : Z -> port -> port; m_table : Z -> option entry; m_next : port -> Z -> Z }.
(** A round of the loop, and whether there is another. *)
Definition iterate (m : machine) (x : port) (st : auth_state) : option (port * auth_state * bool) :=
  let st := mk_state (st_change st - 1) (st_new st) in
  let goon (x : port) (st : auth_state) :=
    let new := m_next m x (st_new st) in
    if truthy new then Some (m_put m new x, mk_state (st_change st + 1) new, truthy (st_change st + 1))
    else Some (x, mk_state (st_change st) new, truthy (st_change st)) in
  match m_table m (m_state m x) with
  | Some e =>
      '(ret, x, st) ← auth_proc_state x st e;
      if (ret : bool) && en_goto e then Some (x, st, false) else goon x st
  | None => goon x st
  end.
(** [fuel] rounds at most; whether the loop has ended. *)
Fixpoint run (fuel : nat) (m : machine) (x : port) (st : auth_state) : option (bool * port) :=
  match fuel with
  | O => Some (false, x)
  | S fuel => '(x, st, more) ← iterate m x st; if (more : bool) then run fuel m x st else Some (true, x)
  end.
Definition MACHINE_FUEL : nat := 12.
Definition state_machine (m : machine) (x : port) : option port :=
  if negb (has_update (m_bit m) x) then Some x
  else
    '(ended, x) ← run MACHINE_FUEL m (drop_update (m_bit m) x) (mk_state 1 0);
    if (ended : bool) then Some x else UB.

Definition entries (l : list (Z * entry)) (s : Z) : option entry :=
  snd <$> find (fun e => fst e =? s) l.
Definition state_of (s : Z) (init : port -> option port) (next : port -> Z -> Z) : Z * entry :=
  (s, mk_entry init (Some next) true).

Definition auth_pae_table : Z -> option entry := entries
  [state_of AUTH_PAE_INITIALIZE auth_pae_init_init auth_pae_init_next;
   state_of AUTH_PAE_DISCONNECTED auth_pae_disc_init auth_pae_disc_next;
   state_of AUTH_PAE_RESTART auth_pae_restart_init auth_pae_restart_next;
   state_of AUTH_PAE_CONNECTING auth_pae_conn_init auth_pae_conn_next;
   state_of AUTH_PAE_AUTHENTICATING auth_pae_authg_init auth_pae_authg_next;
   state_of AUTH_PAE_AUTHENTICATED auth_pae_authd_init auth_pae_authd_next;
   state_of AUTH_PAE_ABORTING auth_pae_abort_init auth_pae_abort_next;
   state_of AUTH_PAE_HELD auth_pae_held_init auth_pae_held_next;
   state_of AUTH_PAE_FORCE_AUTH auth_pae_force_auth_init auth_pae_force_auth_next;
   (AUTH_PAE_FORCE_UNAUTH, mk_entry auth_pae_force_unauth_init (Some auth_pae_force_unauth_next) false)].
Definition auth_pae_state_machine : machine :=
  mk_machine AUTH_PAE_STATE_MACHINE i_auth_pae_state iset_auth_pae_state auth_pae_table auth_pae_next.
Definition auth_bke_table : Z -> option entry := entries
  [state_of AUTH_BKE_REQUEST auth_bke_req_init auth_bke_req_next;
   state_of AUTH_BKE_RESPONSE auth_bke_resp_init auth_bke_resp_next;
   state_of AUTH_BKE_SUCCESS auth_bke_succ_init auth_bke_succ_next;
   state_of AUTH_BKE_FAIL auth_bke_fail_init auth_bke_fail_next;
   state_of AUTH_BKE_TIMEOUT auth_bke_timeout_init auth_bke_timeout_next;
   state_of AUTH_BKE_IDLE auth_bke_idle_init auth_bke_idle_next;
   state_of AUTH_BKE_INITIALIZE auth_bke_init_init auth_bke_init_next;
   state_of AUTH_BKE_IGNORE auth_bke_ignore_init auth_bke_ignore_next].
Definition auth_bke_state_machine : machine :=
  mk_machine AUTH_BKE_STATE_MACHINE i_auth_bke_state iset_auth_bke_state auth_bke_table auth_bke_next.
Definition supp_pae_table : Z -> option entry := entries
  [state_of SUPP_PAE_LOGOFF supp_pae_logoff_init supp_pae_logoff_next;
   state_of SUPP_PAE_DISCONNECTED supp_pae_disc_init supp_pae_disc_next;
   state_of SUPP_PAE_CONNECTING supp_pae_conn_init supp_pae_conn_next;
   state_of SUPP_PAE_AUTHENTICATING supp_pae_authg_init supp_pae_authg_next;
   state_of SUPP_PAE_HELD supp_pae_held_init supp_pae_held_next;
   state_of SUPP_PAE_AUTHENTICATED supp_pae_authd_init supp_pae_authd_next;
   state_of SUPP_PAE_RESTART supp_pae_restart_init supp_pae_restart_next;
   (SUPP_PAE_S_FORCE_AUTH, mk_entry supp_pae_s_force_auth_init None true);
   (SUPP_PAE_S_FORCE_UNAUTH, mk_entry supp_pae_s_force_unauth_init None true)].
Definition supp_pae_state_machine : machine :=
  mk_machine SUPP_PAE_STATE_MACHINE i_supp_pae_state iset_supp_pae_state supp_pae_table supp_pae_next.
Definition supp_bke_table : Z -> option entry := entries
  [state_of SUPP_BKE_REQUEST supp_bke_req_init supp_bke_req_next;
   state_of SUPP_BKE_RESPONSE supp_bke_resp_init supp_bke_resp_next;
   state_of SUPP_BKE_SUCCESS supp_bke_succ_init supp_bke_succ_next;
   state_of SUPP_BKE_FAIL supp_bke_fail_init supp_bke_fail_next;
   state_of SUPP_BKE_TIMEOUT supp_bke_timeout_init supp_bke_timeout_next;
   state_of SUPP_BKE_IDLE supp_bke_idle_init supp_bke_idle_next;
   state_of SUPP_BKE_INITIALIZE supp_bke_init_init supp_bke_init_next;
   state_of SUPP_BKE_RECEIVE supp_bke_recv_init supp_bke_recv_next].
Definition supp_bke_state_machine : machine :=
  mk_machine SUPP_BKE_STATE_MACHINE i_supp_bke_state iset_supp_bke_state supp_bke_table supp_bke_next.
Definition auth_key_tx_state_machine : machine :=
  mk_machine AUTH_KEY_STATE_MACHINE i_auth_key_tx_state iset_auth_key_tx_state
    (entries [state_of AUTH_KEY_NO_TRANSMIT auth_key_no_tx_init auth_key_no_tx_next;
              state_of AUTH_KEY_TRANSMIT auth_key_tx_init auth_key_tx_next]) auth_key_next.
Definition supp_key_tx_state_machine : machine :=
  mk_machine SUPP_KEY_STATE_MACHINE i_supp_key_tx_state iset_supp_key_tx_state
    (entries [state_of SUPP_KEY_NO_TRANSMIT supp_key_no_tx_init supp_key_no_tx_next;
              state_of SUPP_KEY_TRANSMIT supp_key_tx_init supp_key_tx_next]) supp_key_next.
Definition key_rx_state_machine : machine :=
  mk_machine KEY_RX_STATE_MACHINE i_key_rx_state iset_key_rx_state
    (entries [state_of KEY_NO_RECEIVE key_no_rx_init key_no_rx_next;
              state_of KEY_RECEIVE key_rx_init key_rx_next]) key_next.
Definition re_auth_state_machine : machine :=
  mk_machine RE_AUTH_STATE_MACHINE i_re_auth_state iset_re_auth_state
    (entries [state_of RE_AUTH_INITIALIZE re_auth_init_init re_auth_init_next;
              state_of RE_AUTHENTICATE re_authen_init re_authen_next]) re_auth_next.

(** ** The thread of a port *)

(** The link is found up or down. *)
Definition check_link (link : bool) (x : port) : port :=
  if negb (b2z link =? i_link x) then
    let x := put_portValid link (put_portEnabled link (iset_link (b2z link) x)) in
    signal_update ALL_STATE_MACHINE (put_eapFail false (put_eapSuccess false x))
  else x.
Definition all_machines (x : port) : option port :=
  x ← state_machine auth_pae_state_machine x;
  x ← state_machine auth_bke_state_machine x;
  x ← state_machine supp_pae_state_machine x;
  x ← state_machine supp_bke_state_machine x;
  x ← state_machine auth_key_tx_state_machine x;
  x ← state_machine supp_key_tx_state_machine x;
  x ← state_machine key_rx_state_machine x;
  state_machine re_auth_state_machine x.
(** Only the machines of the port's part run. *)
Definition mask_updates (x : port) : port :=
  let x := if negb (i_state x =? 1)
           then drop_update AUTH_BKE_STATE_MACHINE (drop_update AUTH_PAE_STATE_MACHINE x) else x in
  if negb (i_state x =? 0) then drop_update SUPP_BKE_STATE_MACHINE (drop_update SUPP_PAE_STATE_MACHINE x) else x.
Definition restart_eap (x : port) : port :=
  if eapRestart x then
    let x := put_eapRestart false (put_eapFail false (put_eapSuccess false x)) in
    let x := if negb (i_state x =? 0) then signal_update AUTH_PAE_STATE_MACHINE x else x in
    if negb (i_state x =? 1) then signal_update SUPP_PAE_STATE_MACHINE x else x
  else x.
Definition state_task (link : bool) (x : port) : option port :=
  x ← all_machines (mask_updates (check_link link x)); Some (restart_eap x).

(** ** Starting *)

Definition auth_ready (x : port) : port :=
  signal_update ALL_STATE_MACHINE (put_initialize true (put_authPortStatus Unauthorized (put_portControl Auto x))).
(** [auth_start] has waited until nothing is to be updated. *)
Definition auth_start (x : port) : port := signal_update ALL_STATE_MACHINE (put_initialize false x).
(** Not to be initialised, and the link is up. *)
Definition enabled (x : port) : bool := negb (initialize x || negb (portEnabled x)).
End machines.

(** A port as [auth_init] and [main] leave it. *)
Definition zero_eap : eap_vars :=
  mk_eap_vars false false false false false false false false false false false false false false false false
    false false false false false false false 0 0 0 0.
Definition auth_init (mode : Z) (radius : radius_info) : auth_info :=
  mk_auth_info 0 0 0 0 0 0 0 0 0 0 0 0 mode (if truthy mode then 1 else 0) 0 0 0 0 0 0 [# 0; 0; 0; 0; 0; 0] zero_eap
    (mk_auth_vars false false false false false false 0 0) (mk_supp_vars false false false false 0 0)
    (replicate 1600 0) (replicate 80 0) (replicate 80 0) 0 radius.
Definition port_init (mode : Z) (radius : radius_info) : port := mk_port (auth_init mode radius) 0 None [] [].
