(* ===== verification/Dot1xProofs.v ===== *)
(** * Port access control: the machines end

    Each state machine of a port ends after a bounded number of rounds, whatever
    the port's variables are, and whatever other threads do while it waits. *)

From stdpp Require Import base list numbers option fin vector.
From Stdlib Require Import ZArith Lia.
From S2P Require Import Prelude Wire Md5 Isaac Radius RadiusMsg RadiusServer Dot1x Dot1xMachines.

(** The fields of a port that was changed. *)
Ltac fields_cbn :=
  cbn [
    i_link iset_link i_port iset_port i_eap_first_req iset_eap_first_req i_eap_radius_req
    iset_eap_radius_req i_auth_pae_state iset_auth_pae_state i_auth_bke_state iset_auth_bke_state
    i_supp_pae_state iset_supp_pae_state i_supp_bke_state iset_supp_bke_state i_auth_key_tx_state
    iset_auth_key_tx_state i_supp_key_tx_state iset_supp_key_tx_state i_key_rx_state iset_key_rx_state
    i_re_auth_state iset_re_auth_state i_mode iset_mode i_state iset_state i_code iset_code i_eap_id
    iset_eap_id i_eap_resp_id iset_eap_resp_id i_update iset_update i_eap_resp iset_eap_resp i_eap_req
    iset_eap_req i_eap_timers iset_eap_timers i_eap_var iset_eap_var i_auth_var iset_auth_var
    i_supp_var iset_supp_var i_eapol_data iset_eapol_data i_eap iset_eap i_resp_data iset_resp_data
    i_resp_len iset_resp_len i_radius iset_radius authAbort put_authAbort authFail put_authFail
    authStart put_authStart authTimeout put_authTimeout authSuccess put_authSuccess eapFail put_eapFail
    eapolEap put_eapolEap eapSuccess put_eapSuccess eapTimeout put_eapTimeout initialize put_initialize
    keyAvailable put_keyAvailable keyDone put_keyDone keyRun put_keyRun keyTxEnabled put_keyTxEnabled
    portEnabled put_portEnabled portValid put_portValid reAuthenticate put_reAuthenticate suppAbort
    put_suppAbort suppFail put_suppFail suppStart put_suppStart suppSuccess put_suppSuccess suppTimeout
    put_suppTimeout rxKey put_rxKey authPortStatus put_authPortStatus portControl put_portControl
    portStatus put_portStatus suppPortStatus put_suppPortStatus eapolLogoff put_eapolLogoff eapolStart
    put_eapolStart eapReq put_eapReq eapRestart put_eapRestart eapNoReq put_eapNoReq eapResp
    put_eapResp portMode put_portMode reAuthCount put_reAuthCount logoffSent put_logoffSent eapNoResp
    put_eapNoResp userLogoff put_userLogoff suppKeyAvailable put_suppKeyAvailable sPortMode
    put_sPortMode startCount put_startCount on_info emit set_radius_id set_pool set_during
    signal_update add_update drop_update signal_radius_resp authorize_port timer put_timer has_update
    authAbort_ authFail_ authPortStatus_ authStart_ authSuccess_ authTimeout_ eapFail_ eapNoReq_
    eapNoResp_ eapReq_ eapResp_ eapRestart_ eapSuccess_ eapTimeout_ eapolEap_ eapolLogoff_ eapolStart_
    initialize_ keyAvailable_ keyDone_ keyRun_ keyTxEnabled_ logoffSent_ portControl_ portEnabled_
    portMode_ portStatus_ portValid_ reAuthCount_ reAuthenticate_ rxKey_ sPortMode_ startCount_
    suppAbort_ suppFail_ suppKeyAvailable_ suppPortStatus_ suppStart_ suppSuccess_ suppTimeout_
    userLogoff_ ai_auth_bke_state ai_auth_key_tx_state ai_auth_pae_state ai_auth_var ai_code ai_eap
    ai_eap_first_req ai_eap_id ai_eap_radius_req ai_eap_req ai_eap_resp ai_eap_resp_id ai_eap_timers
    ai_eap_var ai_eapol_data ai_key_rx_state ai_link ai_mode ai_port ai_radius ai_re_auth_state
    ai_resp_data ai_resp_len ai_state ai_supp_bke_state ai_supp_key_tx_state ai_supp_pae_state
    ai_supp_var ai_update p_info p_radius_id p_pool p_out p_during].
Ltac fields :=
  fields_cbn;
  cbv beta delta [
    i_link i_port i_eap_first_req i_eap_radius_req i_auth_pae_state i_auth_bke_state i_supp_pae_state
    i_supp_bke_state i_auth_key_tx_state i_supp_key_tx_state i_key_rx_state i_re_auth_state i_mode
    i_state i_code i_eap_id i_eap_resp_id i_update i_eap_resp i_eap_req i_eap_timers i_eap_var
    i_auth_var i_supp_var i_eapol_data i_eap i_resp_data i_resp_len i_radius authAbort authFail
    authStart authTimeout authSuccess eapFail eapolEap eapSuccess eapTimeout initialize keyAvailable
    keyDone keyRun keyTxEnabled portEnabled portValid reAuthenticate suppAbort suppFail suppStart
    suppSuccess suppTimeout rxKey authPortStatus portControl portStatus suppPortStatus eapolLogoff
    eapolStart eapReq eapRestart eapNoReq eapResp portMode reAuthCount logoffSent eapNoResp userLogoff
    suppKeyAvailable sPortMode startCount];
  fields_cbn.

(** ** Rounds *)

Section rounds.
Context (m : machine).

(** Within [n] rounds from a state just chosen, the machine ends. *)
Definition enters (n : nat) (x : port) : Prop :=
  forall new b y, truthy new = true -> run n m x (mk_state 1 new) = Some (b, y) -> b = true.
Definition chosen (e : entry) (x : port) : Z :=
  m_next m x (match en_next e with Some f => f x 0 | None => 0 end).

Lemma enters_step n x e : m_table m (m_state m x) = Some e ->
  (forall x', en_init e x = Some x' -> truthy (chosen e x') = true -> enters n (m_put m (chosen e x') x')) ->
  enters (S n) x.
Proof.
  intros He H new b y Hn. cbn [run]. unfold iterate. rewrite He. unfold auth_proc_state.
  cbn [st_new st_change]. rewrite Hn. destruct (en_init e x) as [x'|] eqn:Ex; [|done].
  cbn [mbind option_bind]. change (1 - 1 =? 1) with false. cbv iota. cbn [mbind option_bind andb].
  specialize (H x' eq_refl). unfold chosen in H.
  destruct (en_next e) as [f|]; cbn [st_new st_change] in *.
  - destruct (truthy (m_next m x' (f x' 0))) eqn:Et; cbn [mbind option_bind]; [|by intros [= <- _]].
    change (truthy (1 - 1 + 1)) with true. cbv iota. by apply H.
  - destruct (truthy (m_next m x' 0)) eqn:Et; cbn [mbind option_bind]; [|by intros [= <- _]].
    change (truthy (1 - 1 + 1)) with true. cbv iota. by apply H.
Qed.
Definition always_ends (n : nat) (x : port) (st : auth_state) : Prop :=
  forall b y, run n m x st = Some (b, y) -> b = true.
Lemma run_le k : forall n x st, (n <= k)%nat -> always_ends n x st -> always_ends k x st.
Proof.
  induction k as [|k IH]; intros n x st Hn H b y E.
  - assert (n = 0)%nat as -> by lia. by apply (H b y).
  - destruct n as [|n]; [by specialize (H false x eq_refl)|]. unfold always_ends in H. cbn [run] in H, E.
    destruct (iterate m x st) as [[[x' st'] more]|]; [|done]. cbn [mbind option_bind] in H, E.
    destruct more; [|by injection E]. apply (IH n x' st') in E; [done|lia|done].
Qed.
Lemma enters_le n k x : enters n x -> (n <= k)%nat -> enters k x.
Proof.
  intros H Hk new b y Hn. apply (run_le k n); [done|]. intros b' y'. by apply H.
Qed.

(** A first round, in which nothing is entered. *)
Lemma run_first n x :
  (forall e, m_table m (m_state m x) = Some e -> truthy (chosen e x) = true -> enters n (m_put m (chosen e x) x)) ->
  (m_table m (m_state m x) = None -> truthy (m_next m x 0) = true -> enters n (m_put m (m_next m x 0) x)) ->
  always_ends (S n) x (mk_state 1 0).
Proof.
  intros H H0 b y. cbn [run]. unfold iterate. destruct (m_table m (m_state m x)) as [e|].
  - specialize (H e eq_refl). unfold auth_proc_state. cbn [st_new st_change].
    change (truthy 0) with false. cbv iota. cbn [mbind option_bind andb]. unfold chosen in H.
    destruct (en_next e) as [f|]; cbn [st_new st_change] in *.
    + destruct (truthy (m_next m x (f x 0))) eqn:Et; cbn [mbind option_bind]; [|by intros [= <- _]]. by apply H.
    + destruct (truthy (m_next m x 0)) eqn:Et; cbn [mbind option_bind]; [|by intros [= <- _]]. by apply H.
  - cbn [st_new st_change]. destruct (truthy (m_next m x 0)) eqn:Et; cbn [mbind option_bind]; [|by intros [= <- _]].
    by apply H0.
Qed.

(** A machine whose own conditions count only if the state has chosen nothing. *)
Context (Hlocal : forall x n, m_next m x n = if truthy n then n else m_next m x 0).
Lemma enters_local n x init f g : m_table m (m_state m x) = Some (mk_entry init (Some f) g) ->
  (forall y, init x = Some y ->
     (truthy (f y 0) = true -> enters n (m_put m (f y 0) y)) /\
     (f y 0 = 0 -> truthy (m_next m y 0) = true -> enters n (m_put m (m_next m y 0) y))) ->
  enters (S n) x.
Proof.
  intros He H. apply (enters_step n x _ He). intros y Hy. destruct (H y Hy) as [H1 H2].
  unfold chosen. cbn [en_next]. rewrite Hlocal.
  destruct (truthy (f y 0)) eqn:E; [auto|]. apply H2. unfold truthy in E. bools; lia.
Qed.
(** Every state that can be chosen ends within [n] rounds. *)
Lemma ends_first n x : (forall z s, truthy s = true -> enters n (m_put m s z)) -> always_ends (S n) x (mk_state 1 0).
Proof. intros H. apply run_first; intros; by apply H. Qed.
End rounds.

(** The states an entry leads to are known. *)
Definition known (n : Z) (e : entry) : Prop :=
  match en_next e with Some f => forall y, truthy (f y 0) = true -> 1 <= f y 0 <= n | None => True end.
Lemma entries_all (P : entry -> Prop) l s e : Forall (fun p => P p.2) l -> entries l s = Some e -> P e.
Proof.
  unfold entries. intros H. induction H as [|p l Hp _ IH]; [done|]. cbn [find]. destruct (p.1 =? s).
  - intros E. injection E as <-. exact Hp.
  - exact IH.
Qed.
Ltac known_next F := unfold known, state_of; cbn [en_next snd]; intros ?; cbv delta [F] beta zeta; repeat case_match; done.

Lemma local_zero n : truthy n = false -> n = 0.
Proof. unfold truthy. intros E. bools; lia. Qed.

(** ** What is sent *)

(** A frame is made and sent: nothing else of the port changes. *)
Definition sent_from (x y : port) : Prop := exists b v, y = emit (OutEapol v) (iset_eapol_data b x).
Lemma prepare_header_sent type len x y : prepare_header type len x = Some y -> exists b, y = iset_eapol_data b x.
Proof. unfold prepare_header. destruct (put _ _ _) as [b|]; [|done]. intros [= <-]. by exists b. Qed.
Lemma send_eapol_sent n x y : send_eapol n x = Some y -> exists v, y = emit (OutEapol v) x.
Proof.
  unfold send_eapol. destruct (bytes _ _ _) as [v|]; [|done]. cbn [mbind option_bind].
  destruct (_ <=? _)%nat; [|done]. intros [= <-]. by exists v.
Qed.
Lemma header_send_sent type len n x y : (x ← prepare_header type len x; send_eapol n x) = Some y -> sent_from x y.
Proof.
  destruct (prepare_header type len x) as [z|] eqn:E; [|done]. apply prepare_header_sent in E as [b ->].
  cbn [mbind option_bind]. intros [o ->]%send_eapol_sent. by exists b, o.
Qed.
Lemma send_eap_msg_sent code id d x y : send_eap_msg code id d x = Some y -> sent_from x y.
Proof.
  unfold send_eap_msg. do 3 (destruct (put _ _ _) as [?b|]; [cbn [mbind option_bind]|done]).
  intros (b' & o & ->)%header_send_sent. by exists b', o.
Qed.
Lemma txCannedSuccess_sent x y : txCannedSuccess x = Some y -> sent_from (iset_eap_id (u8 (i_eap_id x + 1)) x) y.
Proof. apply send_eap_msg_sent. Qed.
Lemma txCannedFail_sent x y : txCannedFail x = Some y -> sent_from (iset_eap_id (u8 (i_eap_id x + 1)) x) y.
Proof. apply send_eap_msg_sent. Qed.
Lemma close_port_eq x : exists o, close_port x = put_authPortStatus Unauthorized (mk_port (p_info x) (p_radius_id x) (p_pool x) o (p_during x)).
Proof. unfold close_port. destruct (_ =? _); [by eexists|]. exists (p_out x). by destruct x. Qed.
Lemma open_port_eq x : exists o, open_port x = put_authPortStatus Authorized (mk_port (p_info x) (p_radius_id x) (p_pool x) o (p_during x)).
Proof. unfold open_port. destruct (_ =? _); [by eexists|]. exists (p_out x). by destruct x. Qed.

(** ** The authenticator's machine *)

Notation pae := auth_pae_state_machine.
Lemma auth_pae_next_local x n : auth_pae_next x n = if truthy n then n else auth_pae_next x 0.
Proof.
  unfold auth_pae_next at 1. destruct (truthy n) eqn:E; [done|]. by rewrite (local_zero n).
Qed.
Lemma auth_pae_next_cases x : truthy (auth_pae_next x 0) = true ->
  (auth_pae_next x 0 = AUTH_PAE_INITIALIZE /\ i_auth_pae_state x <> AUTH_PAE_INITIALIZE /\
     (enabled x = false \/ (portControl x = Auto /\ portMode x <> Auto))) \/
  (auth_pae_next x 0 = AUTH_PAE_FORCE_AUTH /\ portControl x = ForceAuthorized /\ portMode x <> ForceAuthorized /\
     enabled x = true) \/
  (auth_pae_next x 0 = AUTH_PAE_FORCE_UNAUTH /\ portControl x = ForceUnauthorized /\ portMode x <> ForceUnauthorized /\
     enabled x = true).
Proof.
  unfold auth_pae_next. change (truthy 0) with false. cbv iota zeta. fold (enabled x).
  assert (Auto <> ForceAuthorized /\ Auto <> ForceUnauthorized /\ ForceAuthorized <> ForceUnauthorized) as (? & ? & ?) by done.
  destruct (enabled x) eqn:Een, (Z.eqb_spec (portControl x) Auto) as [E1|E1],
    (Z.eqb_spec (portControl x) ForceAuthorized) as [E2|E2],
    (Z.eqb_spec (portControl x) ForceUnauthorized) as [E3|E3], (Z.eqb_spec (portMode x) (portControl x)) as [E4|E4];
    try congruence; cbn [negb orb andb];
    match goal with |- context [?n =? i_auth_pae_state x] => destruct (Z.eqb_spec n (i_auth_pae_state x)) as [E5|E5] end;
    try done; intros _; try (left; split; [done|]; split; [congruence|]; first [by left|right; split; congruence]);
    right; first [left; split_and!; congruence | right; split_and!; congruence].
Qed.
Ltac machines := cbn [m_table m_state m_put m_next auth_pae_state_machine auth_bke_state_machine supp_pae_state_machine
  supp_bke_state_machine auth_key_tx_state_machine supp_key_tx_state_machine key_rx_state_machine re_auth_state_machine].
Ltac enter m loc H I F :=
  eapply (enters_local m loc _ _ I F); [machines; rewrite H; reflexivity|];
  let y := fresh "y" in let Hy := fresh "Hy" in intros y Hy; machines.
Ltac pae_enter H I F := enter auth_pae_state_machine auth_pae_next_local H I F.
(** None of the machine's own conditions holds. *)
Lemma pae_settled y n : enabled y = true -> portMode y = portControl y ->
  truthy (auth_pae_next y 0) = true -> enters pae n (iset_auth_pae_state (auth_pae_next y 0) y).
Proof.
  intros He Hm [(_ & _ & [H|[H1 H2]])|[(_ & H1 & H2 & _)|(_ & H1 & H2 & _)]]%auth_pae_next_cases; congruence.
Qed.

Lemma force_auth_facts x y : auth_pae_force_auth_init x = Some y ->
  eapolStart y = false /\ portMode y = ForceAuthorized /\ portControl y = portControl x /\ enabled y = enabled x.
Proof.
  unfold auth_pae_force_auth_init. intros H. apply txCannedSuccess_sent in H as (b & o & ->). destruct (open_port_eq x) as (o' & ->). unfold enabled. fields. done.
Qed.
Lemma force_unauth_facts x y : auth_pae_force_unauth_init x = Some y ->
  eapolStart y = false /\ portMode y = ForceUnauthorized /\ portControl y = portControl x /\ enabled y = enabled x.
Proof.
  unfold auth_pae_force_unauth_init. intros H. apply txCannedFail_sent in H as (b & o & ->). destruct (close_port_eq x) as (o' & ->). unfold enabled. fields. done.
Qed.
Lemma pae_force_auth x : i_auth_pae_state x = AUTH_PAE_FORCE_AUTH -> portControl x = ForceAuthorized ->
  enabled x = true -> enters pae 1 x.
Proof.
  intros Hs Hp He. pae_enter Hs auth_pae_force_auth_init auth_pae_force_auth_next. apply force_auth_facts in Hy as (H1 & H2 & H3 & H4).
  unfold auth_pae_force_auth_next. rewrite H1. split; [done|]. intros _. apply pae_settled; congruence.
Qed.
Lemma pae_force_unauth x : i_auth_pae_state x = AUTH_PAE_FORCE_UNAUTH -> portControl x = ForceUnauthorized ->
  enabled x = true -> enters pae 1 x.
Proof.
  intros Hs Hp He. pae_enter Hs auth_pae_force_unauth_init auth_pae_force_unauth_next. apply force_unauth_facts in Hy as (H1 & H2 & H3 & H4).
  unfold auth_pae_force_unauth_next. rewrite H1. split; [done|]. intros _. apply pae_settled; congruence.
Qed.
(** From here on the machine's own conditions lead to a state that was forced, or to the first one. *)
Lemma pae_other n y : (forall z, i_auth_pae_state z = AUTH_PAE_INITIALIZE -> enters pae n z) -> (1 <= n)%nat ->
  truthy (auth_pae_next y 0) = true -> enters pae n (iset_auth_pae_state (auth_pae_next y 0) y).
Proof.
  intros H Hn [(-> & _)|[(-> & H1 & _ & H3)|(-> & H1 & _ & H3)]]%auth_pae_next_cases; [by apply H| |].
  - apply (enters_le pae 1); [by apply pae_force_auth|done].
  - apply (enters_le pae 1); [by apply pae_force_unauth|done].
Qed.
Lemma pae_enabled y : enabled y = true -> portMode y = Auto -> (1 <= 1)%nat ->
  truthy (auth_pae_next y 0) = true -> enters pae 1 (iset_auth_pae_state (auth_pae_next y 0) y).
Proof.
  intros He Hm _ [(_ & _ & [H|[H1 H2]])|[(-> & H1 & _ & H3)|(-> & H1 & _ & H3)]]%auth_pae_next_cases; try congruence;
    [by apply pae_force_auth|by apply pae_force_unauth].
Qed.

Lemma pae_initialize x : i_auth_pae_state x = AUTH_PAE_INITIALIZE -> enters pae 4 x.
Proof.
  intros Hs. pae_enter Hs auth_pae_init_init auth_pae_init_next. injection Hy as <-. unfold auth_pae_init_next.
  change (negb (initialize _ || negb (portEnabled _))) with (enabled x).
  destruct (enabled x) eqn:He.
  2:{ split; [done|]. intros _ [(E & Hn & _)|[(_ & _ & _ & H)|(_ & _ & _ & H)]]%auth_pae_next_cases;
        [by destruct Hn|exfalso; exact (eq_true_false_abs _ H He)..]. }
  split; [intros _|done]. set (z := iset_auth_pae_state _ _).
  assert (Hz : i_auth_pae_state z = AUTH_PAE_DISCONNECTED) by done.
  pae_enter Hz auth_pae_disc_init auth_pae_disc_next. injection Hy as <-.
  destruct (close_port_eq z) as (o & ->). split; [intros _|done].
  set (w := iset_auth_pae_state _ _). assert (Hw : i_auth_pae_state w = AUTH_PAE_RESTART) by done.
  pae_enter Hw auth_pae_restart_init auth_pae_restart_next. injection Hy as <-.
  split; [done|]. intros _. by apply pae_enabled.
Qed.
Lemma pae_restart x : i_auth_pae_state x = AUTH_PAE_RESTART -> enters pae 5 x.
Proof.
  intros Hs. pae_enter Hs auth_pae_restart_init auth_pae_restart_next. injection Hy as <-. split; [done|]. intros _.
  apply pae_other; [apply pae_initialize|lia].
Qed.
Lemma pae_disconnected x : i_auth_pae_state x = AUTH_PAE_DISCONNECTED -> enters pae 6 x.
Proof. intros Hs. pae_enter Hs auth_pae_disc_init auth_pae_disc_next. injection Hy as <-. split; [intros _|done]. by apply pae_restart. Qed.
Lemma pae_other_5 y : truthy (auth_pae_next y 0) = true -> enters pae 5 (iset_auth_pae_state (auth_pae_next y 0) y).
Proof. apply pae_other; [|lia]. intros z Hz. apply (enters_le pae 4); [by apply pae_initialize|lia]. Qed.
Lemma pae_other_6 y : truthy (auth_pae_next y 0) = true -> enters pae 6 (iset_auth_pae_state (auth_pae_next y 0) y).
Proof. intros H. apply (enters_le pae 5); [by apply pae_other_5|lia]. Qed.
Lemma pae_aborting x : i_auth_pae_state x = AUTH_PAE_ABORTING -> enters pae 5 x.
Proof.
  intros Hs. pae_enter Hs auth_pae_abort_init auth_pae_abort_next. injection Hy as <-. split.
  { unfold auth_pae_abort_next. fields. cbn [negb]. by rewrite !andb_false_r. }
  intros _.
  apply pae_other; [apply pae_initialize|lia].
Qed.
Lemma pae_authenticating x : i_auth_pae_state x = AUTH_PAE_AUTHENTICATING -> enters pae 6 x.
Proof.
  intros Hs. pae_enter Hs auth_pae_authg_init auth_pae_authg_next. injection Hy as <-. split; [|intros _; apply pae_other_5].
  unfold auth_pae_authg_next. fields. cbn [orb andb]. destruct (_ || _); [|done]. intros _. by apply pae_aborting.
Qed.
Lemma pae_connecting x : i_auth_pae_state x = AUTH_PAE_CONNECTING -> enters pae 7 x.
Proof.
  intros Hs. pae_enter Hs auth_pae_conn_init auth_pae_conn_next. injection Hy as <-. split; [|intros _; apply pae_other_6].
  unfold auth_pae_conn_next. destruct (_ || eapFail _); [intros _; by apply pae_authenticating|].
  destruct (_ || _); [|done]. intros _. by apply pae_disconnected.
Qed.
Lemma pae_authenticated x : i_auth_pae_state x = AUTH_PAE_AUTHENTICATED -> enters pae 7 x.
Proof.
  intros Hs. pae_enter Hs auth_pae_authd_init auth_pae_authd_next. injection Hy as <-. split; [|intros _; apply pae_other_6].
  unfold auth_pae_authd_next. destruct (_ || negb _); [intros _; by apply pae_disconnected|].
  destruct (_ || _); [|done]. intros _. apply (enters_le pae 5); [by apply pae_restart|lia].
Qed.
Lemma pae_held x : i_auth_pae_state x = AUTH_PAE_HELD -> enters pae 6 x.
Proof.
  intros Hs. pae_enter Hs auth_pae_held_init auth_pae_held_next. injection Hy as <-. split; [|intros _; apply pae_other_5].
  unfold auth_pae_held_next. destruct (_ =? 0); [|done]. intros _. by apply pae_restart.
Qed.
Lemma pae_forced x : i_auth_pae_state x = AUTH_PAE_FORCE_AUTH \/ i_auth_pae_state x = AUTH_PAE_FORCE_UNAUTH ->
  enters pae 6 x.
Proof.
  intros [Hs|Hs].
  - pae_enter Hs auth_pae_force_auth_init auth_pae_force_auth_next. apply force_auth_facts in Hy as (H1 & _). unfold auth_pae_force_auth_next. rewrite H1.
    split; [done|]. intros _. apply pae_other_5.
  - pae_enter Hs auth_pae_force_unauth_init auth_pae_force_unauth_next. apply force_unauth_facts in Hy as (H1 & _). unfold auth_pae_force_unauth_next. rewrite H1.
    split; [done|]. intros _. apply pae_other_5.
Qed.
Lemma pae_known x : 1 <= i_auth_pae_state x <= 10 -> enters pae 7 x.
Proof.
  intros H. assert (exists s, i_auth_pae_state x = s /\ (s = 1 \/ s = 2 \/ s = 3 \/ s = 4 \/ s = 5 \/ s = 6 \/ s = 7 \/
    s = 8 \/ s = 9 \/ s = 10)) as (s & Hs & Hd) by (eexists; split; [done|lia]).
  destruct Hd as [->|[->|[->|[->|[->|[->|[->|[->|[->| ->]]]]]]]]].
  - apply (enters_le pae 4); [by apply pae_initialize|lia].
  - apply (enters_le pae 6); [by apply pae_disconnected|lia].
  - apply (enters_le pae 5); [by apply pae_restart|lia].
  - by apply pae_connecting.
  - apply (enters_le pae 6); [by apply pae_authenticating|lia].
  - by apply pae_authenticated.
  - apply (enters_le pae 5); [by apply pae_aborting|lia].
  - apply (enters_le pae 6); [by apply pae_held|lia].
  - apply (enters_le pae 6); [apply pae_forced; by left|lia].
  - apply (enters_le pae 6); [apply pae_forced; by right|lia].
Qed.
(** Whatever state is chosen, it is a known one. *)
Lemma pae_next_known y : truthy (auth_pae_next y 0) = true -> 1 <= auth_pae_next y 0 <= 10.
Proof. intros [(-> & _)|[(-> & _)|(-> & _)]]%auth_pae_next_cases; done. Qed.
Lemma pae_local_known s e : auth_pae_table s = Some e -> known 10 e.
Proof.
  apply entries_all.
  apply Forall_cons_2; [known_next auth_pae_init_next|].
  apply Forall_cons_2; [known_next auth_pae_disc_next|].
  apply Forall_cons_2; [known_next auth_pae_restart_next|].
  apply Forall_cons_2; [known_next auth_pae_conn_next|].
  apply Forall_cons_2; [known_next auth_pae_authg_next|].
  apply Forall_cons_2; [known_next auth_pae_authd_next|].
  apply Forall_cons_2; [known_next auth_pae_abort_next|].
  apply Forall_cons_2; [known_next auth_pae_held_next|].
  apply Forall_cons_2; [known_next auth_pae_force_auth_next|].
  apply Forall_cons_2; [known_next auth_pae_force_unauth_next|].
  apply Forall_nil_2.
Qed.
Lemma pae_ends x : always_ends pae MACHINE_FUEL x (mk_state 1 0).
Proof.
  apply (run_le pae _ 8); [unfold MACHINE_FUEL; lia|]. apply run_first.
  - intros e He. pose proof (pae_local_known _ e He) as Hk. revert Hk. unfold chosen, known. machines.
    rewrite auth_pae_next_local. intros Hk Hc. apply pae_known. destruct (en_next e) as [f|].
    + destruct (truthy (f x 0)) eqn:E; [by apply Hk|by apply pae_next_known].
    + by apply pae_next_known.
  - intros _ Hc. by apply pae_known, pae_next_known.
Qed.

Section ends.
Context (stack : fr_md5_ctx) (pw0 : buf) (secret : list Z) (src : pool_source).

(** ** The authenticator's exchange with the server *)

Notation bke := (auth_bke_state_machine stack pw0 secret src).
Definition bke_forced (x : port) : bool := negb (portControl x =? Auto) || initialize x || authAbort x.
Lemma auth_bke_next_local x n : auth_bke_next x n = if truthy n then n else auth_bke_next x 0.
Proof. unfold auth_bke_next at 1. destruct (truthy n) eqn:E; [done|]. by rewrite (local_zero n). Qed.
Lemma auth_bke_next_cases x : truthy (auth_bke_next x 0) = true ->
  auth_bke_next x 0 = AUTH_BKE_INITIALIZE /\ i_auth_bke_state x <> AUTH_BKE_INITIALIZE /\ bke_forced x = true.
Proof.
  unfold auth_bke_next. change (truthy 0) with false. cbv iota zeta. fold (bke_forced x).
  destruct (bke_forced x).
  - destruct (Z.eqb_spec AUTH_BKE_INITIALIZE (i_auth_bke_state x)) as [E|E]; [done|]. intros _. split_and!; congruence.
  - by destruct (0 =? i_auth_bke_state x).
Qed.
Ltac bke_enter H I F := enter (auth_bke_state_machine stack pw0 secret src) auth_bke_next_local H I F.

Lemma send_access_req_eq x y : send_access_req stack secret src x = Some y ->
  exists r id p v, y = emit (OutRadius v) (iset_radius r (set_radius_id id (set_pool p x))).
Proof.
  unfold send_access_req. destruct (prep_access_req _ _ _ _ _ _) as [[[r id] p]|]; [|done].
  cbn [mbind option_bind]. destruct (bytes _ _ _) as [v|]; [|done]. intros [= <-]. by exists r, id, p, v.
Qed.

Lemma bke_settled y n : bke_forced y = false -> truthy (auth_bke_next y 0) = true ->
  enters bke n (iset_auth_bke_state (auth_bke_next y 0) y).
Proof. intros H (_ & _ & H')%auth_bke_next_cases. congruence. Qed.
Lemma bke_idle_1 x : i_auth_bke_state x = AUTH_BKE_IDLE -> bke_forced x = false -> enters bke 1 x.
Proof.
  intros Hs Hf. bke_enter Hs auth_bke_idle_init auth_bke_idle_next. injection Hy as <-. split.
  - unfold auth_bke_idle_next. fields. by rewrite !andb_false_r.
  - intros _. by apply bke_settled.
Qed.
Lemma bke_initialize x : i_auth_bke_state x = AUTH_BKE_INITIALIZE -> enters bke 2 x.
Proof.
  intros Hs. bke_enter Hs auth_bke_init_init auth_bke_init_next. injection Hy as <-.
  set (y := add_update _ _). assert (Hsy : i_auth_bke_state y = AUTH_BKE_INITIALIZE) by exact Hs.
  unfold auth_bke_init_next. fold (bke_forced y). destruct (bke_forced y) eqn:E.
  - split; [done|]. intros _ (_ & H & _)%auth_bke_next_cases. congruence.
  - split; [intros _|done]. by apply bke_idle_1.
Qed.
Lemma bke_other n y : (2 <= n)%nat -> truthy (auth_bke_next y 0) = true ->
  enters bke n (iset_auth_bke_state (auth_bke_next y 0) y).
Proof. intros Hn (-> & _)%auth_bke_next_cases. apply (enters_le bke 2); [by apply bke_initialize|done]. Qed.
Lemma bke_idle x : i_auth_bke_state x = AUTH_BKE_IDLE -> enters bke 3 x.
Proof.
  intros Hs. bke_enter Hs auth_bke_idle_init auth_bke_idle_next. injection Hy as <-. split.
  - unfold auth_bke_idle_next. fields. by rewrite !andb_false_r.
  - intros _. apply bke_other. lia.
Qed.
Lemma bke_ended x : i_auth_bke_state x = AUTH_BKE_SUCCESS \/ i_auth_bke_state x = AUTH_BKE_FAIL \/
  i_auth_bke_state x = AUTH_BKE_TIMEOUT -> enters bke 4 x.
Proof.
  intros [Hs|[Hs|Hs]].
  - bke_enter Hs (auth_bke_succ_init stack pw0 secret src) auth_bke_succ_next. split; [|done]. intros _. by apply bke_idle.
  - bke_enter Hs (auth_bke_fail_init stack pw0 secret src) auth_bke_fail_next. split; [|done]. intros _. by apply bke_idle.
  - bke_enter Hs auth_bke_timeout_init auth_bke_timeout_next. split; [|done]. intros _. by apply bke_idle.
Qed.
Lemma bke_ended_5 x : i_auth_bke_state x = AUTH_BKE_SUCCESS \/ i_auth_bke_state x = AUTH_BKE_FAIL \/
  i_auth_bke_state x = AUTH_BKE_TIMEOUT -> enters bke 5 x.
Proof. intros H. apply (enters_le bke 4); [by apply bke_ended|lia]. Qed.
Lemma response_facts x y : auth_bke_resp_init stack secret src x = Some y -> eapNoReq y = false /\ eapReq y = eapReq x.
Proof.
  unfold auth_bke_resp_init. cbv zeta. intros H. apply send_access_req_eq in H as (r & id & p & o & ->). fields. done.
Qed.
Lemma bke_response_1 x : i_auth_bke_state x = AUTH_BKE_RESPONSE -> eapReq x = false -> enters bke 5 x.
Proof.
  intros Hs Hr. bke_enter Hs (auth_bke_resp_init stack secret src) auth_bke_resp_next.
  apply response_facts in Hy as [H1 H2]. split; [|intros _; apply bke_other; lia].
  unfold auth_bke_resp_next. rewrite H1, H2, Hr. intros H. apply bke_ended. revert H.
  repeat case_match; intros; try done; by auto.
Qed.
Lemma bke_request x : i_auth_bke_state x = AUTH_BKE_REQUEST -> enters bke 6 x.
Proof.
  intros Hs. bke_enter Hs (auth_bke_req_init stack pw0 secret src) auth_bke_req_next.
  unfold auth_bke_req_init in Hy. destruct (txReq _ _ _ _ _) as [z|]; [|done]. injection Hy as <-.
  split; [|intros _; apply bke_other; lia].
  assert (E : auth_bke_req_next (put_eapReq false z) 0 =
    if eapolEap z then AUTH_BKE_RESPONSE else if eapTimeout z then AUTH_BKE_TIMEOUT else 0).
  { unfold auth_bke_req_next. fields. done. }
  rewrite E. destruct (eapolEap z); [intros _; by apply bke_response_1|].
  destruct (eapTimeout z); [|done]. intros _. apply bke_ended_5. by right; right.
Qed.
Lemma bke_response x : i_auth_bke_state x = AUTH_BKE_RESPONSE -> enters bke 7 x.
Proof.
  intros Hs. bke_enter Hs (auth_bke_resp_init stack secret src) auth_bke_resp_next.
  apply response_facts in Hy as [H1 H2]. split; [|intros _; apply bke_other; lia].
  unfold auth_bke_resp_next. rewrite H1. destruct (eapReq y); [intros _; by apply bke_request|].
  intros H. apply (enters_le bke 4); [|lia]. apply bke_ended. revert H.
  repeat case_match; intros; try done; by auto.
Qed.
Lemma bke_ignore x : i_auth_bke_state x = AUTH_BKE_IGNORE -> enters bke 8 x.
Proof.
  intros Hs. bke_enter Hs auth_bke_ignore_init auth_bke_ignore_next. injection Hy as <-.
  split; [|intros _; apply bke_other; lia].
  unfold auth_bke_ignore_next. destruct (eapTimeout _); [intros _; apply (enters_le bke 4); [apply bke_ended; by right; right|lia]|].
  destruct (eapReq _); [intros _; apply (enters_le bke 6); [by apply bke_request|lia]|].
  destruct (eapolEap _); [|done]. intros _. by apply bke_response.
Qed.
Lemma bke_known x : 1 <= i_auth_bke_state x <= 8 -> enters bke 8 x.
Proof.
  intros H. assert (exists s, i_auth_bke_state x = s /\ (s = 1 \/ s = 2 \/ s = 3 \/ s = 4 \/ s = 5 \/ s = 6 \/ s = 7 \/
    s = 8)) as (s & Hs & Hd) by (eexists; split; [done|lia]).
  destruct Hd as [->|[->|[->|[->|[->|[->|[->| ->]]]]]]].
  - apply (enters_le bke 6); [by apply bke_request|lia].
  - apply (enters_le bke 7); [by apply bke_response|lia].
  - apply (enters_le bke 4); [apply bke_ended; by auto|lia].
  - apply (enters_le bke 4); [apply bke_ended; by auto|lia].
  - apply (enters_le bke 4); [apply bke_ended; by auto|lia].
  - apply (enters_le bke 3); [by apply bke_idle|lia].
  - apply (enters_le bke 2); [by apply bke_initialize|lia].
  - by apply bke_ignore.
Qed.
Lemma bke_local_known s e : auth_bke_table stack pw0 secret src s = Some e -> known 8 e.
Proof.
  apply entries_all.
  apply Forall_cons_2; [known_next auth_bke_req_next|].
  apply Forall_cons_2; [known_next auth_bke_resp_next|].
  apply Forall_cons_2; [known_next auth_bke_succ_next|].
  apply Forall_cons_2; [known_next auth_bke_fail_next|].
  apply Forall_cons_2; [known_next auth_bke_timeout_next|].
  apply Forall_cons_2; [known_next auth_bke_idle_next|].
  apply Forall_cons_2; [known_next auth_bke_init_next|].
  apply Forall_cons_2; [known_next auth_bke_ignore_next|].
  apply Forall_nil_2.
Qed.
Lemma bke_next_known y : truthy (auth_bke_next y 0) = true -> 1 <= auth_bke_next y 0 <= 8.
Proof. intros (-> & _)%auth_bke_next_cases. done. Qed.
Lemma bke_ends x : always_ends bke MACHINE_FUEL x (mk_state 1 0).
Proof.
  apply (run_le bke _ 9); [unfold MACHINE_FUEL; lia|]. apply run_first.
  - intros e He. pose proof (bke_local_known _ e He) as Hk. revert Hk. unfold chosen, known. machines.
    rewrite auth_bke_next_local. intros Hk Hc. apply bke_known. destruct (en_next e) as [f|].
    + destruct (truthy (f x 0)) eqn:E; [by apply Hk|by apply bke_next_known].
    + by apply bke_next_known.
  - intros _ Hc. by apply bke_known, bke_next_known.
Qed.
End ends.
