(* ===== verification/Dot1xEnds.v ===== *)
(** * Port access control: all the machines end

    The supplicant's machines, those of the keys, and the one that should start
    another authentication and never does. *)

From stdpp Require Import base list numbers option fin vector.
From Stdlib Require Import ZArith Lia.
From S2P Require Import Prelude Wire Md5 Md5Proofs Isaac Radius RadiusMsg RadiusServer RadiusRecv Dot1x Dot1xMachines Dot1xProofs.

(** ** The supplicant *)

Notation supp := supp_pae_state_machine.
Lemma supp_pae_next_local x n : supp_pae_next x n = if truthy n then n else supp_pae_next x 0.
Proof. unfold supp_pae_next at 1. destruct (truthy n) eqn:E; [done|]. by rewrite (local_zero n). Qed.
Lemma supp_pae_next_cases x : truthy (supp_pae_next x 0) = true ->
  (supp_pae_next x 0 = SUPP_PAE_DISCONNECTED /\ i_supp_pae_state x <> SUPP_PAE_DISCONNECTED /\
     (enabled x = false \/ (portControl x = Auto /\ sPortMode x <> Auto))) \/
  (enabled x = true /\
     ((supp_pae_next x 0 = SUPP_PAE_LOGOFF /\ userLogoff x = true /\ logoffSent x = false) \/
      (supp_pae_next x 0 = SUPP_PAE_S_FORCE_AUTH /\ portControl x = ForceAuthorized /\ sPortMode x <> ForceAuthorized) \/
      (supp_pae_next x 0 = SUPP_PAE_S_FORCE_UNAUTH /\ portControl x = ForceUnauthorized /\ sPortMode x <> ForceUnauthorized))).
Proof.
  unfold supp_pae_next. change (truthy 0) with false. cbv iota zeta. fold (enabled x).
  assert (Auto <> ForceAuthorized /\ Auto <> ForceUnauthorized /\ ForceAuthorized <> ForceUnauthorized) as (? & ? & ?) by done.
  destruct (enabled x) eqn:Een, (userLogoff x) eqn:Eu, (logoffSent x) eqn:El, (Z.eqb_spec (portControl x) Auto) as [E1|E1],
    (Z.eqb_spec (portControl x) ForceAuthorized) as [E2|E2],
    (Z.eqb_spec (portControl x) ForceUnauthorized) as [E3|E3], (Z.eqb_spec (sPortMode x) (portControl x)) as [E4|E4];
    try congruence; cbn [negb orb andb];
    match goal with |- context [?n =? i_supp_pae_state x] => destruct (Z.eqb_spec n (i_supp_pae_state x)) as [E5|E5] end;
    try done; intros _; try (left; split; [done|]; split; [congruence|]; first [by left|right; split; congruence]);
    right; (split; [done|]); first [left; split_and!; congruence | right; left; split_and!; congruence
                                   | right; right; split_and!; congruence].
Qed.
Ltac supp_enter H I F := enter supp_pae_state_machine supp_pae_next_local H I F.

Lemma send_logoff_sent x y : send_logoff x = Some y -> sent_from x y.
Proof. apply header_send_sent. Qed.
Lemma send_start_sent x y : send_start x = Some y -> sent_from x y.
Proof. apply header_send_sent. Qed.

(** Nothing forces a state. *)
Definition supp_calm (x : port) : Prop :=
  enabled x = true /\ sPortMode x = portControl x /\ (userLogoff x = false \/ logoffSent x = true).
Lemma supp_settled y n : supp_calm y -> truthy (supp_pae_next y 0) = true ->
  enters supp n (iset_supp_pae_state (supp_pae_next y 0) y).
Proof.
  intros (He & Hm & Hl) [(_ & _ & [H|[H1 H2]])|(_ & [(_ & H1 & H2)|[(_ & H1 & H2)|(_ & H1 & H2)]])]%supp_pae_next_cases;
    try congruence. destruct Hl; congruence.
Qed.
Lemma logoff_facts x y : supp_pae_logoff_init x = Some y ->
  logoffSent y = true /\ userLogoff y = userLogoff x /\ sPortMode y = sPortMode x /\ portControl y = portControl x /\
  enabled y = enabled x.
Proof.
  unfold supp_pae_logoff_init. destruct (send_logoff x) as [z|] eqn:E; [|done].
  apply send_logoff_sent in E as (b & o & ->). cbn [mbind option_bind]. intros H. injection H as <-.
  unfold enabled. fields. done.
Qed.
Lemma s_force_auth_facts x y : supp_pae_s_force_auth_init x = Some y ->
  sPortMode y = ForceAuthorized /\ portControl y = portControl x /\ enabled y = enabled x /\
  userLogoff y = userLogoff x /\ logoffSent y = logoffSent x.
Proof. unfold supp_pae_s_force_auth_init. intros H. injection H as <-. unfold enabled. fields. done. Qed.
Lemma s_force_unauth_facts x y : supp_pae_s_force_unauth_init x = Some y ->
  sPortMode y = ForceUnauthorized /\ portControl y = portControl x /\ enabled y = enabled x /\
  userLogoff y = userLogoff x /\ logoffSent y = logoffSent x.
Proof.
  unfold supp_pae_s_force_unauth_init. intros H. apply send_logoff_sent in H as (b & o & ->). unfold enabled. fields. done.
Qed.

(** A state without a function that chooses: only the machine's conditions. *)
Lemma enters_forced n x init g : supp_pae_table (i_supp_pae_state x) = Some (mk_entry init None g) ->
  (forall y, init x = Some y -> truthy (supp_pae_next y 0) = true ->
     enters supp n (iset_supp_pae_state (supp_pae_next y 0) y)) -> enters supp (S n) x.
Proof. intros He H. apply (enters_step supp n x _ He). intros y Hy. by apply H. Qed.

Definition forced_state (x : port) : Prop :=
  (i_supp_pae_state x = SUPP_PAE_S_FORCE_AUTH /\ portControl x = ForceAuthorized) \/
  (i_supp_pae_state x = SUPP_PAE_S_FORCE_UNAUTH /\ portControl x = ForceUnauthorized).
Lemma supp_forced_calm x : forced_state x -> enabled x = true -> (userLogoff x = false \/ logoffSent x = true) ->
  enters supp 1 x.
Proof.
  intros [[Hs Hp]|[Hs Hp]] He Hl.
  - apply (enters_forced 0 x supp_pae_s_force_auth_init true); [by rewrite Hs|]. intros y Hy.
    apply s_force_auth_facts in Hy as (H1 & H2 & H3 & H4 & H5). apply supp_settled. split_and!; [congruence..|].
    rewrite H4, H5. exact Hl.
  - apply (enters_forced 0 x supp_pae_s_force_unauth_init true); [by rewrite Hs|]. intros y Hy.
    apply s_force_unauth_facts in Hy as (H1 & H2 & H3 & H4 & H5). apply supp_settled. split_and!; [congruence..|].
    rewrite H4, H5. exact Hl.
Qed.
(** Logging off once everything else is settled, or with the mode still to be forced. *)
Lemma supp_logoff_calm x : i_supp_pae_state x = SUPP_PAE_LOGOFF -> userLogoff x = true -> enabled x = true ->
  (sPortMode x = portControl x \/ sPortMode x = Auto) -> enters supp 2 x.
Proof.
  intros Hs Hu He Hm. supp_enter Hs supp_pae_logoff_init supp_pae_logoff_next.
  apply logoff_facts in Hy as (H1 & H2 & H3 & H4 & H5). unfold supp_pae_logoff_next. rewrite H2, Hu.
  split; [done|]. intros _ [(_ & _ & [H|[H6 H7]])|(_ & [(_ & H6 & H7)|[(-> & H6 & H7)|(-> & H6 & H7)]])]%supp_pae_next_cases;
    [congruence|destruct Hm; congruence|congruence| |].
  - apply supp_forced_calm; [left; by split|by rewrite <- He|right; by rewrite <- H1].
  - apply supp_forced_calm; [right; by split|by rewrite <- He|right; by rewrite <- H1].
Qed.
Lemma supp_forced x : forced_state x -> enabled x = true -> enters supp 3 x.
Proof.
  intros [[Hs Hp]|[Hs Hp]] He.
  - apply (enters_forced 2 x supp_pae_s_force_auth_init true); [by rewrite Hs|]. intros y Hy.
    apply s_force_auth_facts in Hy as (H1 & H2 & H3 & H4 & H5).
    intros [(_ & _ & [H|[H6 H7]])|(_ & [(-> & H6 & H7)|[(_ & H6 & H7)|(_ & H6 & H7)]])]%supp_pae_next_cases; try congruence.
    apply supp_logoff_calm; [done|done|by rewrite <- He|]. left. change (sPortMode y = portControl y). congruence.
  - apply (enters_forced 2 x supp_pae_s_force_unauth_init true); [by rewrite Hs|]. intros y Hy.
    apply s_force_unauth_facts in Hy as (H1 & H2 & H3 & H4 & H5).
    intros [(_ & _ & [H|[H6 H7]])|(_ & [(-> & H6 & H7)|[(_ & H6 & H7)|(_ & H6 & H7)]])]%supp_pae_next_cases; try congruence.
    apply supp_logoff_calm; [done|done|by rewrite <- He|]. left. change (sPortMode y = portControl y). congruence.
Qed.

(** The link is up, and the port not forced. *)
Definition supp_open (x : port) : Prop := enabled x = true /\ sPortMode x = Auto.
Lemma supp_other_open y : supp_open y -> truthy (supp_pae_next y 0) = true ->
  enters supp 3 (iset_supp_pae_state (supp_pae_next y 0) y).
Proof.
  intros [He Hm] [(_ & _ & [H|[H1 H2]])|(_ & [(-> & H1 & H2)|[(-> & H1 & H2)|(-> & H1 & H2)]])]%supp_pae_next_cases;
    try congruence.
  - apply (enters_le supp 2); [|lia]. apply supp_logoff_calm; [done|done|done|by right].
  - apply supp_forced; [left; by split|done].
  - apply supp_forced; [right; by split|done].
Qed.
Lemma authg_facts x y : supp_pae_authg_init x = Some y ->
  suppSuccess y = false /\ suppFail y = false /\ suppTimeout y = false /\ keyDone y = false /\
  enabled y = enabled x /\ sPortMode y = sPortMode x.
Proof. unfold supp_pae_authg_init. intros H. injection H as <-. unfold enabled. fields. done. Qed.
Lemma supp_authg_none y : suppSuccess y = false -> suppFail y = false -> suppTimeout y = false -> keyDone y = false ->
  supp_pae_authg_next y 0 = 0.
Proof. unfold supp_pae_authg_next. by intros -> -> -> ->. Qed.
Lemma supp_authg_open x : i_supp_pae_state x = SUPP_PAE_AUTHENTICATING -> supp_open x -> enters supp 4 x.
Proof.
  intros Hs [He Hm]. supp_enter Hs supp_pae_authg_init supp_pae_authg_next.
  apply authg_facts in Hy as (H1 & H2 & H3 & H4 & H5 & H6). rewrite supp_authg_none by done.
  split; [done|]. intros _. apply supp_other_open. split; congruence.
Qed.
Lemma conn_facts x y : supp_pae_conn_init x = Some y ->
  eapolEap y = false /\ timer startWhen y = startPeriod /\ enabled y = enabled x /\ sPortMode y = sPortMode x.
Proof.
  unfold supp_pae_conn_init. cbv zeta. intros H. apply send_start_sent in H as (b & o & ->). unfold enabled. fields.
  split_and!; try done. apply vlookup_insert.
Qed.
Lemma supp_conn_next_eq y : eapolEap y = false -> timer startWhen y = startPeriod ->
  supp_pae_conn_next y 0 = if eapSuccess y || eapFail y then SUPP_PAE_AUTHENTICATING else 0.
Proof. unfold supp_pae_conn_next. by intros -> ->. Qed.
Lemma supp_connecting_open x : i_supp_pae_state x = SUPP_PAE_CONNECTING -> supp_open x -> enters supp 5 x.
Proof.
  intros Hs [He Hm]. supp_enter Hs supp_pae_conn_init supp_pae_conn_next.
  apply conn_facts in Hy as (H1 & H2 & H3 & H4). rewrite supp_conn_next_eq by done.
  assert (Ho : supp_open y) by (split; congruence). split.
  - destruct (_ || _); [|done]. intros _. by apply supp_authg_open.
  - intros _ Hc. apply (enters_le supp 3); [by apply supp_other_open|lia].
Qed.
Lemma disc_facts x y : supp_pae_disc_init x = Some y ->
  sPortMode y = Auto /\ enabled y = enabled x /\ i_supp_pae_state y = i_supp_pae_state x.
Proof. unfold supp_pae_disc_init. intros H. injection H as <-. unfold enabled. fields. done. Qed.
Lemma supp_disconnected x : i_supp_pae_state x = SUPP_PAE_DISCONNECTED -> enters supp 6 x.
Proof.
  intros Hs. supp_enter Hs supp_pae_disc_init supp_pae_disc_next.
  apply disc_facts in Hy as (H1 & H2 & H3). unfold supp_pae_disc_next. fold (enabled y).
  destruct (enabled y) eqn:E.
  - split; [intros _|done]. apply supp_connecting_open; [done|]. by split.
  - split; [done|]. intros _ [(_ & Hn & _)|(H & _)]%supp_pae_next_cases; congruence.
Qed.
Lemma supp_logoff x : i_supp_pae_state x = SUPP_PAE_LOGOFF -> enters supp 7 x.
Proof.
  intros Hs. supp_enter Hs supp_pae_logoff_init supp_pae_logoff_next.
  apply logoff_facts in Hy as (H1 & _). split.
  - unfold supp_pae_logoff_next. destruct (negb _); [|done]. intros _. by apply supp_disconnected.
  - intros _ [(-> & _)|(He & [(_ & _ & H)|[(-> & Hp & _)|(-> & Hp & _)]])]%supp_pae_next_cases;
      [by apply supp_disconnected|congruence| |];
      (apply (enters_le supp 3); [apply supp_forced; [|done]|lia]); [left|right]; by split.
Qed.
Lemma supp_other n y : (7 <= n)%nat -> truthy (supp_pae_next y 0) = true ->
  enters supp n (iset_supp_pae_state (supp_pae_next y 0) y).
Proof.
  intros Hn [(-> & _)|(He & [(-> & _)|[(-> & Hp & _)|(-> & Hp & _)]])]%supp_pae_next_cases.
  - apply (enters_le supp 6); [by apply supp_disconnected|lia].
  - apply (enters_le supp 7); [by apply supp_logoff|done].
  - apply (enters_le supp 3); [|lia]. apply supp_forced; [left; by split|done].
  - apply (enters_le supp 3); [|lia]. apply supp_forced; [right; by split|done].
Qed.
Lemma supp_authenticating x : i_supp_pae_state x = SUPP_PAE_AUTHENTICATING -> enters supp 8 x.
Proof.
  intros Hs. supp_enter Hs supp_pae_authg_init supp_pae_authg_next.
  apply authg_facts in Hy as (H1 & H2 & H3 & H4 & _). rewrite supp_authg_none by done.
  split; [done|]. intros _. by apply supp_other.
Qed.
Lemma supp_restart x : i_supp_pae_state x = SUPP_PAE_RESTART -> enters supp 8 x.
Proof.
  intros Hs. supp_enter Hs supp_pae_restart_init supp_pae_restart_next. injection Hy as <-.
  split; [done|]. intros _. by apply supp_other.
Qed.
Lemma supp_connecting x : i_supp_pae_state x = SUPP_PAE_CONNECTING -> enters supp 9 x.
Proof.
  intros Hs. supp_enter Hs supp_pae_conn_init supp_pae_conn_next.
  apply conn_facts in Hy as (H1 & H2 & _). rewrite supp_conn_next_eq by done.
  split; [|intros _; apply supp_other; lia]. destruct (_ || _); [|done]. intros _. by apply supp_authenticating.
Qed.
Lemma supp_authenticated x : i_supp_pae_state x = SUPP_PAE_AUTHENTICATED -> enters supp 9 x.
Proof.
  intros Hs. supp_enter Hs supp_pae_authd_init supp_pae_authd_next. split; [|intros _; apply supp_other; lia].
  unfold supp_pae_authd_next. destruct (negb _); [intros _; apply (enters_le supp 6); [by apply supp_disconnected|lia]|].
  destruct (_ && _); [|done]. intros _. by apply supp_restart.
Qed.
Lemma held_facts x y : supp_pae_held_init x = Some y -> timer heldWhile y = heldPeriod.
Proof. unfold supp_pae_held_init. intros H. injection H as <-. fields. apply vlookup_insert. Qed.
Lemma supp_held x : i_supp_pae_state x = SUPP_PAE_HELD -> enters supp 9 x.
Proof.
  intros Hs. supp_enter Hs supp_pae_held_init supp_pae_held_next. split; [|intros _; apply supp_other; lia].
  unfold supp_pae_held_next. apply held_facts in Hy as ->. change (heldPeriod =? 0) with false. cbv iota.
  destruct (eapolEap y); [|done]. intros _. by apply supp_restart.
Qed.
Lemma supp_known x : 1 <= i_supp_pae_state x <= 9 -> enters supp 9 x.
Proof.
  intros H. assert (exists s, i_supp_pae_state x = s /\ (s = 1 \/ s = 2 \/ s = 3 \/ s = 4 \/ s = 5 \/ s = 6 \/ s = 7 \/
    s = 8 \/ s = 9)) as (s & Hs & Hd) by (eexists; split; [done|lia]).
  destruct Hd as [->|[->|[->|[->|[->|[->|[->|[->| ->]]]]]]]].
  - apply (enters_le supp 7); [by apply supp_logoff|lia].
  - apply (enters_le supp 6); [by apply supp_disconnected|lia].
  - by apply supp_connecting.
  - apply (enters_le supp 8); [by apply supp_authenticating|lia].
  - by apply supp_held.
  - by apply supp_authenticated.
  - apply (enters_le supp 8); [by apply supp_restart|lia].
  - apply (enters_forced 8 x supp_pae_s_force_auth_init true); [by rewrite Hs|]. intros y _. apply supp_other. lia.
  - apply (enters_forced 8 x supp_pae_s_force_unauth_init true); [by rewrite Hs|]. intros y _. apply supp_other. lia.
Qed.
Lemma supp_pae_local_known s e : supp_pae_table s = Some e -> known 9 e.
Proof.
  apply entries_all.
  apply Forall_cons_2; [known_next supp_pae_logoff_next|].
  apply Forall_cons_2; [known_next supp_pae_disc_next|].
  apply Forall_cons_2; [known_next supp_pae_conn_next|].
  apply Forall_cons_2; [known_next supp_pae_authg_next|].
  apply Forall_cons_2; [known_next supp_pae_held_next|].
  apply Forall_cons_2; [known_next supp_pae_authd_next|].
  apply Forall_cons_2; [known_next supp_pae_restart_next|].
  apply Forall_cons_2; [exact I|]. apply Forall_cons_2; [exact I|]. apply Forall_nil_2.
Qed.
Lemma supp_pae_next_known y : truthy (supp_pae_next y 0) = true -> 1 <= supp_pae_next y 0 <= 9.
Proof. intros [(-> & _)|(_ & [(-> & _)|[(-> & _)|(-> & _)]])]%supp_pae_next_cases; done. Qed.
Lemma supp_pae_ends x : always_ends supp MACHINE_FUEL x (mk_state 1 0).
Proof.
  apply (run_le supp _ 10); [unfold MACHINE_FUEL; lia|]. apply run_first.
  - intros e He. pose proof (supp_pae_local_known _ e He) as Hk. revert Hk. unfold chosen, known. machines.
    rewrite supp_pae_next_local. intros Hk Hc. apply supp_known. destruct (en_next e) as [f|].
    + destruct (truthy (f x 0)) eqn:E; [by apply Hk|by apply supp_pae_next_known].
    + by apply supp_pae_next_known.
  - intros _ Hc. by apply supp_known, supp_pae_next_known.
Qed.

Section ends.
Context (stack : fr_md5_ctx) (pw0 : buf) (secret : list Z) (src : pool_source).

(** ** The supplicant's exchange *)

Notation sbke := (supp_bke_state_machine stack).
Definition sbke_forced (x : port) : bool := initialize x || suppAbort x.
Lemma supp_bke_next_local x n : supp_bke_next x n = if truthy n then n else supp_bke_next x 0.
Proof. unfold supp_bke_next at 1. destruct (truthy n) eqn:E; [done|]. by rewrite (local_zero n). Qed.
Lemma supp_bke_next_cases x : truthy (supp_bke_next x 0) = true ->
  supp_bke_next x 0 = SUPP_BKE_INITIALIZE /\ i_supp_bke_state x <> SUPP_BKE_INITIALIZE /\ sbke_forced x = true.
Proof.
  unfold supp_bke_next. change (truthy 0) with false. cbv iota zeta. fold (sbke_forced x).
  destruct (sbke_forced x).
  - destruct (Z.eqb_spec SUPP_BKE_INITIALIZE (i_supp_bke_state x)) as [E|E]; [done|]. intros _. split_and!; congruence.
  - by destruct (0 =? i_supp_bke_state x).
Qed.
Ltac sbke_enter H I F := enter (supp_bke_state_machine stack) supp_bke_next_local H I F.

Lemma sbke_idle x n : i_supp_bke_state x = SUPP_BKE_IDLE ->
  (forall y, sbke_forced y = sbke_forced x -> truthy (supp_bke_next y 0) = true ->
     enters sbke n (iset_supp_bke_state (supp_bke_next y 0) y)) -> enters sbke (S n) x.
Proof.
  intros Hs H. sbke_enter Hs supp_bke_idle_init supp_bke_idle_next. injection Hy as <-. split.
  - unfold supp_bke_idle_next. fields. by rewrite !andb_false_r.
  - intros _. by apply H.
Qed.
Lemma sbke_initialize x : i_supp_bke_state x = SUPP_BKE_INITIALIZE -> enters sbke 2 x.
Proof.
  intros Hs. sbke_enter Hs supp_bke_init_init supp_bke_init_next. injection Hy as <-.
  set (y := put_suppAbort false x). assert (Hsy : i_supp_bke_state y = SUPP_BKE_INITIALIZE) by exact Hs.
  unfold supp_bke_init_next. fold (sbke_forced y). destruct (sbke_forced y) eqn:E.
  - split; [done|]. intros _ (_ & H & _)%supp_bke_next_cases. congruence.
  - split; [intros _|done]. apply sbke_idle; [done|]. intros z Hz (_ & _ & H)%supp_bke_next_cases.
    rewrite Hz in H. exfalso. exact (eq_true_false_abs _ H E).
Qed.
Lemma sbke_other n y : (2 <= n)%nat -> truthy (supp_bke_next y 0) = true ->
  enters sbke n (iset_supp_bke_state (supp_bke_next y 0) y).
Proof. intros Hn (-> & _)%supp_bke_next_cases. apply (enters_le sbke 2); [by apply sbke_initialize|done]. Qed.
Lemma sbke_ended x : i_supp_bke_state x = SUPP_BKE_SUCCESS \/ i_supp_bke_state x = SUPP_BKE_FAIL \/
  i_supp_bke_state x = SUPP_BKE_TIMEOUT \/ i_supp_bke_state x = SUPP_BKE_IDLE -> enters sbke 4 x.
Proof.
  assert (HI : forall z, i_supp_bke_state z = SUPP_BKE_IDLE -> enters sbke 3 z)
    by (intros z Hz; apply sbke_idle; [done|]; intros; by apply sbke_other).
  intros [Hs|[Hs|[Hs|Hs]]].
  - sbke_enter Hs supp_bke_succ_init supp_bke_succ_next. split; [|done]. intros _. by apply HI.
  - sbke_enter Hs supp_bke_fail_init supp_bke_fail_next. split; [|done]. intros _. by apply HI.
  - sbke_enter Hs supp_bke_timeout_init supp_bke_timeout_next. split; [|done]. intros _. by apply HI.
  - apply (enters_le sbke 3); [by apply HI|lia].
Qed.
Lemma recv_facts x y : supp_bke_recv_init x = Some y -> eapolEap y = false.
Proof. unfold supp_bke_recv_init. intros H. injection H as <-. fields. done. Qed.
Lemma sbke_receive x : i_supp_bke_state x = SUPP_BKE_RECEIVE -> enters sbke 5 x.
Proof.
  intros Hs. sbke_enter Hs supp_bke_recv_init supp_bke_recv_next. apply recv_facts in Hy.
  split; [|intros _; apply sbke_other; lia].
  unfold supp_bke_recv_next. rewrite Hy. intros H. apply sbke_ended. revert H. repeat case_match; intros; try done; by auto.
Qed.
Lemma sbke_response x : i_supp_bke_state x = SUPP_BKE_RESPONSE -> enters sbke 6 x.
Proof.
  intros Hs. sbke_enter Hs supp_bke_resp_init supp_bke_resp_next. split; [|done]. intros _. by apply sbke_receive.
Qed.
Lemma sbke_request x : i_supp_bke_state x = SUPP_BKE_REQUEST -> enters sbke 7 x.
Proof.
  intros Hs. sbke_enter Hs (supp_bke_req_init stack) supp_bke_req_next. split; [|intros _; apply sbke_other; lia].
  unfold supp_bke_req_next.
  destruct (eapSuccess y); [intros _; apply (enters_le sbke 4); [apply sbke_ended; by auto|lia]|].
  destruct (eapFail y); [intros _; apply (enters_le sbke 4); [apply sbke_ended; by auto|lia]|].
  destruct (eapNoResp y); [intros _; apply (enters_le sbke 5); [by apply sbke_receive|lia]|].
  destruct (eapResp y); [|done]. intros _. by apply sbke_response.
Qed.
Lemma sbke_known x : 1 <= i_supp_bke_state x <= 8 -> enters sbke 7 x.
Proof.
  intros H. assert (exists s, i_supp_bke_state x = s /\ (s = 1 \/ s = 2 \/ s = 3 \/ s = 4 \/ s = 5 \/ s = 6 \/ s = 7 \/
    s = 8)) as (s & Hs & Hd) by (eexists; split; [done|lia]).
  destruct Hd as [->|[->|[->|[->|[->|[->|[->| ->]]]]]]].
  - by apply sbke_request.
  - apply (enters_le sbke 6); [by apply sbke_response|lia].
  - apply (enters_le sbke 4); [apply sbke_ended; by auto|lia].
  - apply (enters_le sbke 4); [apply sbke_ended; by auto|lia].
  - apply (enters_le sbke 4); [apply sbke_ended; by auto|lia].
  - apply (enters_le sbke 4); [apply sbke_ended; by auto|lia].
  - apply (enters_le sbke 2); [by apply sbke_initialize|lia].
  - apply (enters_le sbke 5); [by apply sbke_receive|lia].
Qed.
Lemma supp_bke_local_known s e : supp_bke_table stack s = Some e -> known 8 e.
Proof.
  apply entries_all.
  apply Forall_cons_2; [known_next supp_bke_req_next|].
  apply Forall_cons_2; [known_next supp_bke_resp_next|].
  apply Forall_cons_2; [known_next supp_bke_succ_next|].
  apply Forall_cons_2; [known_next supp_bke_fail_next|].
  apply Forall_cons_2; [known_next supp_bke_timeout_next|].
  apply Forall_cons_2; [known_next supp_bke_idle_next|].
  apply Forall_cons_2; [known_next supp_bke_init_next|].
  apply Forall_cons_2; [known_next supp_bke_recv_next|]. apply Forall_nil_2.
Qed.
Lemma supp_bke_next_known y : truthy (supp_bke_next y 0) = true -> 1 <= supp_bke_next y 0 <= 8.
Proof. intros (-> & _)%supp_bke_next_cases. done. Qed.
Lemma supp_bke_ends x : always_ends sbke MACHINE_FUEL x (mk_state 1 0).
Proof.
  apply (run_le sbke _ 8); [unfold MACHINE_FUEL; lia|]. apply run_first.
  - intros e He. pose proof (supp_bke_local_known _ e He) as Hk. revert Hk. unfold chosen, known. machines.
    rewrite supp_bke_next_local. intros Hk Hc. apply sbke_known. destruct (en_next e) as [f|].
    + destruct (truthy (f x 0)) eqn:E; [by apply Hk|by apply supp_bke_next_known].
    + by apply supp_bke_next_known.
  - intros _ Hc. by apply sbke_known, supp_bke_next_known.
Qed.
End ends.

(** ** Machines of two states *)

Section two.
Context (m : machine) (init0 init1 : port -> option port) (next0 next1 : port -> Z -> Z) (c : port -> bool) (P : port -> Prop).
Context (Htable : forall s, m_table m s = entries [state_of 1 init0 next0; state_of 2 init1 next1] s).
Context (Hnext : forall x n, m_next m x n = forced (c x) 1 (m_state m x) n).
Context (Hput : forall v x, m_state m (m_put m v x) = v).
Context (Hkeep : forall x, P x -> (forall v, P (m_put m v x)) /\ (forall y, init0 x = Some y \/ init1 x = Some y -> P y)).
(** The first state chooses the second, if nothing is forced; once the second
    has been entered, the first chooses nothing, and the second at most the first. *)
Context (H0 : forall x, P x -> next0 x 0 = 0 \/ (next0 x 0 = 2 /\ c x = false)).
Context (Hstate0 : forall x y, init0 x = Some y -> m_state m y = m_state m x /\ next0 y 0 = next0 x 0).
Context (H1 : forall x y, P x -> init1 x = Some y -> m_state m y = m_state m x /\
  (next1 y 0 = 0 \/ next1 y 0 = 1) /\ (forall v, next0 (m_put m v y) 0 = 0)).

Lemma two_table x : m_state m x = 1 -> m_table m (m_state m x) = Some (mk_entry init0 (Some next0) true).
Proof. intros ->. by rewrite Htable. Qed.
Lemma two_table_2 x : m_state m x = 2 -> m_table m (m_state m x) = Some (mk_entry init1 (Some next1) true).
Proof. intros ->. by rewrite Htable. Qed.
Lemma two_quiet x : m_state m x = 1 -> next0 x 0 = 0 -> enters m 1 x.
Proof.
  intros Hs Hq. apply (enters_step m 0 x _ (two_table x Hs)). intros y Hy. cbn [en_init] in Hy.
  destruct (Hstate0 x y Hy) as [E1 E2]. unfold chosen. cbn [en_next]. rewrite Hnext, E1, E2, Hs, Hq.
  unfold forced. by destruct (c y).
Qed.
Lemma two_second x : P x -> m_state m x = 2 -> enters m 2 x.
Proof.
  intros Hp Hs. apply (enters_step m 1 x _ (two_table_2 x Hs)). intros y Hy. cbn [en_init] in Hy.
  destruct (H1 x y Hp Hy) as (E1 & E2 & E3). unfold chosen. cbn [en_next]. rewrite Hnext, E1, Hs. unfold forced.
  destruct E2 as [->| ->]; destruct (c y); cbn [Z.eqb andb Pos.eqb]; intros Ht; try done;
    apply two_quiet; by rewrite ?Hput.
Qed.
Lemma two_first x : P x -> m_state m x = 1 -> enters m 3 x.
Proof.
  intros Hp Hs. apply (enters_step m 2 x _ (two_table x Hs)). intros y Hy. cbn [en_init] in Hy.
  destruct (Hstate0 x y Hy) as [E1 E2]. destruct (Hkeep x Hp) as [_ Hk]. specialize (Hk y (or_introl Hy)).
  unfold chosen. cbn [en_next]. rewrite Hnext, E1, Hs. unfold forced.
  destruct (H0 y Hk) as [->|[-> ->]]; [by destruct (c y)|]. intros _. apply two_second; [by apply Hkeep|apply Hput].
Qed.
Context (Hnext1 : forall x, next1 x 0 = 0 \/ next1 x 0 = 1 \/ next1 x 0 = 2).
Lemma two_ends x : P x -> always_ends m MACHINE_FUEL x (mk_state 1 0).
Proof.
  intros Hp. apply (run_le m _ 4); [unfold MACHINE_FUEL; lia|].
  assert (G : forall v, v = 1 \/ v = 2 -> enters m 3 (m_put m v x)).
  { intros v [->| ->]; [apply two_first; [by apply Hkeep|apply Hput]|].
    apply (enters_le m 2); [apply two_second; [by apply Hkeep|apply Hput]|lia]. }
  assert (F : forall v, (v = 0 \/ v = 1 \/ v = 2) -> truthy (forced (c x) 1 (m_state m x) v) = true ->
    forced (c x) 1 (m_state m x) v = 1 \/ forced (c x) 1 (m_state m x) v = 2).
  { intros v Hv. unfold forced. destruct (c x); [destruct (_ && _); by auto|].
    destruct Hv as [->|[->| ->]]; cbn [Z.eqb andb]; [by case_match|by auto..]. }
  apply run_first.
  - intros e He. unfold chosen. rewrite Hnext. intros Hc. apply G, F; [|done]. clear Hc. revert He.
    rewrite Htable. set (val e := match en_next e with Some f => f x 0 | None => 0 end).
    apply (entries_all (fun e => val e = 0 \/ val e = 1 \/ val e = 2)). unfold val.
    apply Forall_cons_2; [|apply Forall_cons_2; [|apply Forall_nil_2]]; unfold state_of; cbn [snd en_next].
    + destruct (H0 x Hp) as [->|[-> _]]; by auto.
    + apply Hnext1.
  - rewrite Hnext. intros _ Hc. apply G, F; [by left|done].
Qed.
End two.

Lemma auth_key_tx_ends x : always_ends auth_key_tx_state_machine MACHINE_FUEL x (mk_state 1 0).
Proof.
  apply (two_ends _ auth_key_no_tx_init auth_key_tx_init auth_key_no_tx_next auth_key_tx_next not_auto (fun _ => True));
    try done.
  - intros z _. unfold auth_key_no_tx_next. destruct (not_auto z); [by left|]. cbn [negb andb].
    destruct (_ && _); by auto.
  - intros z y Hz. injection Hz as <-. done.
  - intros z y _ Hz. injection Hz as <-. split; [done|]. unfold auth_key_tx_next, auth_key_no_tx_next. fields. split.
    + destruct (_ || _); by auto.
    + intros v. by rewrite andb_false_r.
  - intros z. unfold auth_key_tx_next. repeat case_match; by auto.
Qed.
Lemma supp_key_tx_ends x : suppKeyAvailable x = false -> always_ends supp_key_tx_state_machine MACHINE_FUEL x (mk_state 1 0).
Proof.
  apply (two_ends _ supp_key_no_tx_init supp_key_tx_init supp_key_no_tx_next supp_key_tx_next not_auto
    (fun x => suppKeyAvailable x = false)); try done.
  - intros z Hz. split; [done|]. intros y [H|H]; by injection H as <-.
  - intros z Hz. unfold supp_key_no_tx_next. rewrite Hz. rewrite andb_false_r. by left.
  - intros z y Hz. by injection Hz as <-.
  - intros z y Hz H. injection H as <-. split; [done|]. unfold supp_key_tx_next, supp_key_no_tx_next. machines. revert Hz. fields. intros Hz. rewrite Hz. split; [destruct (_ || _); by auto|]. intros v. by rewrite andb_false_r.
  - intros z. unfold supp_key_tx_next. repeat case_match; by auto.
Qed.
Lemma key_rx_ends x : always_ends key_rx_state_machine MACHINE_FUEL x (mk_state 1 0).
Proof.
  apply (two_ends _ key_no_rx_init key_rx_init key_no_rx_next key_rx_next not_auto (fun _ => True)); try done.
  - intros z _. unfold key_no_rx_next. destruct (not_auto z); [by left|]. destruct (rxKey z); by auto.
  - intros z y Hz. by injection Hz as <-.
  - intros z y _ Hz. injection Hz as <-. split; [done|]. unfold key_rx_next, key_no_rx_next. fields. split; [by auto|].
    intros v. by rewrite andb_false_r.
  - intros z. unfold key_rx_next. repeat case_match; by auto.
Qed.

(** The condition under which another authentication is due never holds: it
    compares [portControl] with [Unauthorized], which is the number of [Auto]. *)
Lemma re_auth_forced x : not_auto x || (portControl x =? Unauthorized) || negb reAuthEnabled = true.
Proof. unfold not_auto, Auto, Unauthorized. by destruct (initialize x), (portControl x =? 1). Qed.
Lemma re_auth_never x : re_auth_init_next x 0 = 0.
Proof. unfold re_auth_init_next. by rewrite re_auth_forced. Qed.
Lemma re_auth_ends x : always_ends re_auth_state_machine MACHINE_FUEL x (mk_state 1 0).
Proof.
  apply (two_ends _ re_auth_init_init re_authen_init re_auth_init_next re_authen_next
    (fun x => not_auto x || (portControl x =? Unauthorized) || negb reAuthEnabled) (fun _ => True)); try done.
  - intros z _. left. apply re_auth_never.
  - intros z y Hz. injection Hz as <-. split; [done|]. by rewrite !re_auth_never.
  - intros z y _ Hz. injection Hz as <-. split; [done|]. split; [by right|]. intros v. apply re_auth_never.
  - intros z. right. by left.
Qed.

(** ** Every machine *)

Definition machines_of (stack : fr_md5_ctx) (pw0 : buf) (secret : list Z) (src : pool_source) : list machine :=
  [auth_pae_state_machine; auth_bke_state_machine stack pw0 secret src; supp_pae_state_machine;
   supp_bke_state_machine stack; auth_key_tx_state_machine; supp_key_tx_state_machine; key_rx_state_machine;
   re_auth_state_machine].

(** C11: Each of the eight state machines ends within twelve rounds of its loop,
    in whatever states and with whatever variables it starts, whatever the other
    threads do while it waits for an answer - if no key of the supplicant is
    available, as none ever is: its machine would not end. *)
Theorem machines_end stack pw0 secret src x : suppKeyAvailable x = false ->
  Forall (fun m => forall b y, run MACHINE_FUEL m x (mk_state 1 0) = Some (b, y) -> b = true)
    (machines_of stack pw0 secret src).
Proof.
  intros H. unfold machines_of. repeat (apply Forall_cons_2).
  - apply pae_ends.
  - apply bke_ends.
  - apply supp_pae_ends.
  - apply supp_bke_ends.
  - apply auth_key_tx_ends.
  - by apply supp_key_tx_ends.
  - apply key_rx_ends.
  - apply re_auth_ends.
  - apply Forall_nil_2.
Qed.
Lemma machines_end_witness : let x := auth_ready (port_init 1 zero_radius) in
  Forall (fun m => forall b y, run MACHINE_FUEL m x (mk_state 1 0) = Some (b, y) -> b = true)
    (machines_of md5_ctx0 (replicate 129 0) [115] login_source) /\
  exists y, run MACHINE_FUEL auth_pae_state_machine x (mk_state 1 0) = Some (true, y) /\
    i_auth_pae_state y = AUTH_PAE_INITIALIZE.
Proof.
  split.
  - exact (machines_end md5_ctx0 (replicate 129 0) [115] login_source (auth_ready (port_init 1 zero_radius)) eq_refl).
  - eexists. split; [vm_compute; reflexivity|]. reflexivity.
Defined.

(** With a key of the supplicant, its machine goes round for ever: entering the
    state clears [keyAvailable], and not [suppKeyAvailable]. *)
Definition key_ready (x : port) : Prop :=
  i_supp_key_tx_state x = SUPP_KEY_TRANSMIT /\ not_auto x = false /\ suppKeyAvailable x = true /\
  keyTxEnabled x = true /\ keyRun x = true.
Lemma key_round x new : key_ready x ->
  exists y, iterate supp_key_tx_state_machine x (mk_state 1 new) = Some (y, mk_state 1 SUPP_KEY_TRANSMIT, true) /\ key_ready y.
Proof.
  intros (Hs & Ha & Hk & Ht & Hr). unfold iterate. machines. rewrite Hs.
  change (entries _ SUPP_KEY_TRANSMIT) with (Some (mk_entry supp_key_tx_init (Some supp_key_tx_next) true)).
  assert (H : forall y, key_ready y -> supp_key_next y (supp_key_tx_next y 0) = SUPP_KEY_TRANSMIT).
  { intros y (E1 & E2 & E3 & E4 & E5). unfold supp_key_tx_next, supp_key_next, forced. by rewrite E2, E3, E4, E5. }
  assert (Hz : forall z, key_ready z -> key_ready (iset_supp_key_tx_state SUPP_KEY_TRANSMIT z)).
  { intros z (E1 & E2 & E3 & E4 & E5). split_and!; done. }
  unfold auth_proc_state. cbn [st_new st_change en_init en_next en_goto]. destruct (truthy new) eqn:En.
  - unfold supp_key_tx_init. cbn [mbind option_bind]. change (1 - 1 =? 1) with false. cbv iota.
    cbn [mbind option_bind andb st_new st_change]. set (z := put_keyDone true _).
    assert (Hzk : key_ready z) by (split_and!; done). rewrite (H z Hzk).
    eexists. split; [reflexivity|by apply Hz].
  - assert (new = 0) as -> by (by apply local_zero). cbn [mbind option_bind andb st_new st_change].
    rewrite (H x) by done. eexists. split; [reflexivity|by apply Hz].
Qed.
Lemma supp_key_never_ends n : forall x new, key_ready x ->
  exists y, run n supp_key_tx_state_machine x (mk_state 1 new) = Some (false, y).
Proof.
  induction n as [|n IH]; intros x new Hx; [by exists x|]. cbn [run].
  destruct (key_round x new Hx) as (y & -> & Hy). cbn [mbind option_bind]. by apply IH.
Qed.
