(* ===== verification/Dot1xSafe.v ===== *)
(** * Port access control: when a port is open

    What is written to the driver follows the port's status, and without a
    success from someone the port stays closed.  The steps of a port are what the
    other threads handle, the rounds of its own, and the start. *)

From stdpp Require Import base list numbers option fin vector relations.
From Stdlib Require Import ZArith Lia.
From S2P Require Import Prelude Wire Md5 Md5Proofs Isaac Radius RadiusMsg RadiusServer RadiusRecv Dot1x Dot1xMachines Dot1xProofs Dot1xEnds.

(** ** What holds all along a machine's run *)

Section run.
Context (m : machine) (A B : port -> Prop).
(** [B] holds where a state has been chosen, [A] where it has been entered. *)
Context (Hba : forall x, B x -> A x).
Context (Hinit : forall x e y, B x -> m_table m (m_state m x) = Some e -> en_init e x = Some y -> A y).
(** [ok] holds of the states whose functions choose. *)
Context (ok : Z -> Prop) (Hok : forall x, A x -> ok (m_state m x)).
Context (Hchosen : forall x s e, A x -> ok s -> m_table m s = Some e -> truthy (chosen m e x) = true ->
  B (m_put m (chosen m e x) x)).
Context (Hnone : forall x n, A x -> m_table m (m_state m x) = None -> truthy (m_next m x n) = true ->
  n = 0 \/ n = m_state m x -> B (m_put m (m_next m x n) x)).
Context (Hput : forall v x, m_state m (m_put m v x) = v).

Lemma run_inv fuel : forall x new b y, (if truthy new then B x /\ m_state m x = new else A x) ->
  run fuel m x (mk_state 1 new) = Some (b, y) -> A y.
Proof.
  induction fuel as [|fuel IH]; intros x new b y Hx H.
  { injection H as _ <-. destruct (truthy new); [apply Hba, Hx|done]. }
  cbn [run] in H. unfold iterate in H. cbn [st_new st_change] in H.
  assert (Goon : forall z n, A z -> (truthy n = true -> B (m_put m n z)) ->
    ('(x, st, more) ← (if truthy n then Some (m_put m n z, mk_state (1 - 1 + 1) n, truthy (1 - 1 + 1))
                       else Some (z, mk_state (1 - 1) n, truthy (1 - 1)));
     if (more : bool) then run fuel m x st else Some (true, x)) = Some (b, y) -> A y).
  { intros z n Hz Hn Hr. destruct (truthy n) eqn:En; cbn [mbind option_bind] in Hr.
    - change (truthy (1 - 1 + 1)) with true in Hr. cbv iota in Hr. apply IH in Hr; [done|]. rewrite En. by auto.
    - by injection Hr as _ <-. }
  destruct (m_table m (m_state m x)) as [e|] eqn:Et.
  - unfold auth_proc_state in H. cbn [st_new st_change] in H. destruct (truthy new) eqn:En.
    + destruct Hx as [Hx Hs]. destruct (en_init e x) as [z|] eqn:Ez; [|done]. cbn [mbind option_bind] in H.
      change (1 - 1 =? 1) with false in H. cbv iota in H. cbn [mbind option_bind andb] in H.
      apply (Goon z (chosen m e z)); [by apply (Hinit x e)| |].
      * intros Hc. apply (Hchosen z (m_state m x) e); [by apply (Hinit x e)|by apply Hok, Hba|done|done].
      * unfold chosen. by destruct (en_next e).
    + assert (new = 0) as -> by (by apply local_zero). cbn [mbind option_bind andb] in H.
      apply (Goon x (chosen m e x)); [done| |].
      * intros Hc. apply (Hchosen x (m_state m x) e); [done|by apply Hok|done|done].
      * unfold chosen. by destruct (en_next e).
  - cbn [st_new st_change] in H.
    assert (Ha : A x /\ (new = 0 \/ new = m_state m x)).
    { destruct (truthy new) eqn:En; [split; [by apply Hba, Hx|right; by destruct Hx]|].
      split; [done|left; by apply local_zero]. }
    destruct Ha as [Ha Hd]. apply (Goon x (m_next m x new)); [done| |exact H]. intros Hn. by apply Hnone.
Qed.
Lemma state_machine_inv x y : (forall v x, A x -> A (drop_update v x)) -> A x -> state_machine m x = Some y -> A y.
Proof.
  intros Hd Hx. unfold state_machine. destruct (negb _); [by intros [= <-]|].
  destruct (run MACHINE_FUEL m _ _) as [[b z]|] eqn:E; [|done]. cbn [mbind option_bind].
  destruct b; [|done]. intros [= <-]. apply run_inv in E; [done|]. change (truthy 0) with false. cbv iota. by apply Hd.
Qed.
End run.

(** ** What is written follows the status *)

(** Whether the port was opened by what was written last. *)
Fixpoint is_open (l : list output) : bool :=
  match l with
  | [] => false
  | OutAuthorize b :: _ => b
  | _ :: l => is_open l
  end.
Definition agree (x : port) : Prop :=
  authPortStatus x = if is_open (p_out x) then Authorized else Unauthorized.
Definition same_access (x y : port) : Prop :=
  authPortStatus y = authPortStatus x /\ is_open (p_out y) = is_open (p_out x).
#[export] Instance same_access_preorder : PreOrder same_access.
Proof. split; [done|]. intros x y z [H1 H2] [H3 H4]. split; congruence. Qed.
Lemma same_access_agree x y : same_access x y -> agree x -> agree y.
Proof. unfold agree. by intros [-> ->]. Qed.

Ltac binds := repeat match goal with
  | H : (_ ≫= _) = Some _ |- _ => apply bind_Some in H as (? & ? & H)
  | H : Some _ = Some _ |- _ => injection H as <-
  | H : None = Some _ |- _ => discriminate H
  | H : (let '(_, _) := ?p in _) = Some _ |- _ => destruct p
  | H : (if ?b then _ else _) = Some _ |- _ => destruct b
  end.

Section access.
Context (stack : fr_md5_ctx) (pw0 : buf) (secret : list Z) (src : pool_source).

Lemma sent_access x y : sent_from x y -> same_access x y.
Proof. intros (b & v & ->). split; reflexivity. Qed.
Lemma proc_radius_access x u y : proc_radius x = (u, y) -> same_access x y.
Proof. unfold proc_radius. repeat case_match; intros [= _ <-]; simplify_eq; split; reflexivity. Qed.
Lemma first_request_access x u y : first_request stack pw0 secret src x = Some (u, y) -> same_access x y.
Proof.
  unfold first_request. intros H. binds. match goal with H : Some _ = _ |- _ => injection H as H end.
  apply proc_radius_access in H. etransitivity; [|exact H]. split; reflexivity.
Qed.
Lemma eapol_start_access x y : eapol_start stack pw0 secret src x = Some y -> same_access x y.
Proof.
  unfold eapol_start. destruct (2 <=? _); [intros [= <-]; split; reflexivity|]. cbv zeta. destruct (_ && _) eqn:E.
  - destruct (first_request _ _ _ _ _) as [[u z]|] eqn:Ef; [|done]. apply first_request_access in Ef.
    cbn [mbind option_bind]. intros H. injection H as <-. etransitivity; [|etransitivity; [exact Ef|split; reflexivity]].
    split; reflexivity.
  - intros H. injection H as <-. split; reflexivity.
Qed.
Lemma eap_response_access f len x u y v : eap_response f len x u = Some (y, v) -> same_access x y.
Proof.
  unfold eap_response, proc_id_resp. intros H. binds; simplify_eq;
    repeat (case_match; binds; simplify_eq); split; reflexivity.
Qed.
Lemma proc_eapol_access f x y : proc_eapol stack pw0 secret src f x = Some y -> same_access x y.
Proof.
  unfold proc_eapol. destruct (rd f 1 1) as [t|]; [|done]. cbn [mbind option_bind].
  destruct (t =? EAPOL_START); [apply eapol_start_access|].
  destruct (t =? EAPOL_LOGOFF); [intros H; injection H as <-; split; reflexivity|].
  destruct (t =? EAP_PACKET); [|intros H; injection H as <-; split; reflexivity].
  unfold eap_packet. cbv zeta. destruct (rd f 4 1) as [c|]; [|done]. cbn [mbind option_bind].
  destruct (c =? EAP_CODE_SUCCESS); [intros H; injection H as <-; split; reflexivity|].
  destruct (c =? EAP_CODE_FAILURE); [intros H; injection H as <-; split; reflexivity|].
  intros H. apply bind_Some in H as (len & _ & H). apply bind_Some in H as (v & _ & H).
  apply bind_Some in H as (eap & _ & H). apply bind_Some in H as ([z u] & Hz & H). injection H as <-.
  assert (same_access (iset_eap eap x) z) as Hs.
  { destruct (_ && _); [by apply eap_response_access in Hz|]. injection Hz as <-. done. }
  etransitivity; [|etransitivity; [exact Hs|split; reflexivity]]. split; reflexivity.
Qed.
Lemma send_request_access r x y : send_request r x = Some y -> same_access x y.
Proof.
  unfold send_request. destruct (negb _); [|intros H; by injection H as <-].
  intros H. binds. split; reflexivity.
Qed.
Lemma get_cmd_access c x y : get_cmd stack secret src c x = Some y -> same_access x y.
Proof.
  unfold get_cmd. cbv zeta.
  do 6 (destruct (_ =? _); [intros H; injection H as <-; split; reflexivity|]).
  do 2 (destruct (_ =? _); [intros H; apply bind_Some in H as ([r p] & _ & H); injection H as <-; split; reflexivity|]).
  do 2 (destruct (_ =? _); [intros H; injection H as <-; split; reflexivity|]).
  do 3 (destruct (_ =? _); [apply send_request_access|]).
  destruct (_ =? _); [|intros H; by injection H as <-].
  destruct (_ && _); intros H; injection H as <-; split; reflexivity.
Qed.
Lemma handle_access e x y : handle stack pw0 secret src e x = Some y -> same_access x y.
Proof.
  destruct e as [f n from|msg n|c|]; cbn [handle].
  - unfold receive_eapol. intros H. apply bind_Some in H as (dst & _ & H). cbv zeta in H.
    apply bind_Some in H as (len & _ & H). destruct (n >=? len).
    + apply proc_eapol_access in H. etransitivity; [|exact H]. split; reflexivity.
    + injection H as <-. split; reflexivity.
  - unfold receive_radius. intros H. apply bind_Some in H as (id & _ & H).
    destruct (_ && _); [|by injection H as <-]. apply bind_Some in H as (r & _ & H).
    destruct (proc_radius _) as [u z] eqn:Ez. apply proc_radius_access in Ez. injection H as <-.
    etransitivity; [|etransitivity; [exact Ez|split; reflexivity]]. split; reflexivity.
  - apply get_cmd_access.
  - intros H. injection H as <-. unfold timer_tick. destruct (eap_timers_state_machine x) as [u z] eqn:E.
    unfold eap_timers_state_machine in E. injection E as <- <-. destruct (truthy _); split; reflexivity.
Qed.
Lemma handle_all_none es : foldl (fun r e => x ← r; handle stack pw0 secret src e x) None es = None.
Proof. induction es as [|e es IH]; [done|]. exact IH. Qed.
(** What every event keeps, all of them keep. *)
Lemma handle_all_ind (R : port -> port -> Prop) `{!PreOrder R} (Q : event -> Prop) es :
  (forall e x y, Q e -> handle stack pw0 secret src e x = Some y -> R x y) -> Forall Q es ->
  forall x y, handle_all stack pw0 secret src es x = Some y -> R x y.
Proof.
  intros H Hes. unfold handle_all. induction Hes as [|e es He _ IH]; intros x y; cbn [foldl]; [by intros [= ->]|].
  cbn [mbind option_bind]. destruct (handle _ _ _ _ e x) as [z|] eqn:E; [|by rewrite handle_all_none].
  intros Hy. etransitivity; [by apply (H e)|by apply IH].
Qed.
Lemma handle_all_access es x y : handle_all stack pw0 secret src es x = Some y -> same_access x y.
Proof.
  apply (handle_all_ind same_access (fun _ => True)); [intros; by eapply handle_access|]. by apply Forall_true.
Qed.
Lemma wait_access x y : wait_for_resp stack pw0 secret src x = Some y -> same_access x y.
Proof.
  unfold wait_for_resp. intros H. apply bind_Some in H as (z & Hz & H).
  assert (same_access x z) as Hs.
  { destruct (truthy (i_eap_radius_req x)); [|by injection Hz as <-]. apply handle_all_access in Hz. etransitivity; [|exact Hz]. split; reflexivity. }
  etransitivity; [exact Hs|]. destruct (truthy (i_eap_radius_req z)); [|by injection H as <-].
  destruct (i_eap_first_req z =? 1); injection H as <-; split; reflexivity.
Qed.
Lemma send_eap_access b len x y : send_eap stack pw0 secret src b len x = Some y -> same_access x y.
Proof.
  unfold send_eap. intros H. apply bind_Some in H as (v & _ & H). apply bind_Some in H as (b' & _ & H).
  apply bind_Some in H as (z & Hz & H). apply prepare_header_sent in Hz as (b2 & ->). cbv zeta in H.
  apply bind_Some in H as (w & Hw & H). apply send_eapol_sent in Hw as (o & ->).
  set (z := if negb _ then iset_eap_radius_req 1 _ else _) in H.
  assert (same_access x (emit (OutEapol o) z)) as Hz.
  { unfold z. destruct (negb _); split; reflexivity. }
  clearbody z. destruct (negb _) in H.
  - apply wait_access in H. etransitivity; [exact Hz|exact H].
  - by injection H as <-.
Qed.
Lemma txReq_access x y : txReq stack pw0 secret src x = Some y -> same_access x y.
Proof. unfold txReq, send_auth_req. destruct (_ && _); [apply send_eap_access|by intros [= <-]]. Qed.
Lemma send_access_req_access x y : send_access_req stack secret src x = Some y -> same_access x y.
Proof. intros (r & id & p & v & ->)%send_access_req_eq. split; reflexivity. Qed.
Lemma proc_auth_req_access x y : proc_auth_req stack x = Some y -> same_access x y.
Proof.
  unfold proc_auth_req. intros H. binds; split; reflexivity.
Qed.
Lemma send_supp_resp_access x y : send_supp_resp x = Some y -> same_access x y.
Proof.
  unfold send_supp_resp. destruct (_ && _); [|by intros [= <-]]. intros H. apply bind_Some in H as (v & _ & H).
  by apply send_eap_msg_sent, sent_access in H.
Qed.
Lemma close_port_agree x : agree x -> agree (close_port x).
Proof. unfold close_port, agree. intros H. destruct (Z.eqb_spec (authPortStatus x) Authorized) as [E|E]; fields; [done|].
  revert H E. fields. intros -> E. destruct (is_open _); [by destruct E|done]. Qed.
Lemma open_port_agree x : agree x -> agree (open_port x).
Proof. unfold open_port, agree. intros H. destruct (Z.eqb_spec (authPortStatus x) Unauthorized) as [E|E]; fields; [done|].
  revert H E. fields. intros -> E. destruct (is_open _); [done|by destruct E]. Qed.

Definition keeps_agree (e : entry) : Prop := forall x y, agree x -> en_init e x = Some y -> agree y.
Lemma agree_from x y z : agree x -> same_access x y -> same_access y z -> agree z.
Proof. intros H H1 H2. eapply same_access_agree; [|exact H]. by etransitivity. Qed.
Ltac plain_init := let H := fresh "H" in let Hy := fresh "Hy" in
  unfold keeps_agree, state_of; cbn [snd en_init]; intros ? ? H Hy; injection Hy as <-;
  apply (same_access_agree _ _ ltac:(split; reflexivity) H).
Lemma auth_pae_agree s e : auth_pae_table s = Some e -> keeps_agree e.
Proof.
  apply entries_all.
  apply Forall_cons_2; [plain_init|].
  apply Forall_cons_2.
  { unfold keeps_agree, state_of. cbn [snd en_init]. intros x y H Hy. injection Hy as <-.
    apply (same_access_agree (close_port x)); [split; reflexivity|by apply close_port_agree]. }
  apply Forall_cons_2; [plain_init|]. apply Forall_cons_2; [plain_init|]. apply Forall_cons_2; [plain_init|].
  apply Forall_cons_2.
  { unfold keeps_agree, state_of. cbn [snd en_init]. intros x y H Hy. injection Hy as <-.
    apply (same_access_agree (open_port x)); [split; reflexivity|by apply open_port_agree]. }
  apply Forall_cons_2; [plain_init|].
  apply Forall_cons_2.
  { unfold keeps_agree, state_of. cbn [snd en_init]. intros x y H Hy. injection Hy as <-.
    apply (same_access_agree (close_port x)); [split; reflexivity|by apply close_port_agree]. }
  apply Forall_cons_2.
  { unfold keeps_agree, state_of. cbn [snd en_init]. unfold auth_pae_force_auth_init. intros x y H Hy.
    apply txCannedSuccess_sent, sent_access in Hy.
    apply (agree_from (open_port x) _ _ (open_port_agree x H)) in Hy; [done|split; reflexivity]. }
  apply Forall_cons_2; [|apply Forall_nil_2].
  unfold keeps_agree. cbn [snd en_init]. unfold auth_pae_force_unauth_init. intros x y H Hy.
  apply txCannedFail_sent, sent_access in Hy.
  apply (agree_from (close_port x) _ _ (close_port_agree x H)) in Hy; [done|split; reflexivity].
Qed.
Lemma auth_bke_agree s e : auth_bke_table stack pw0 secret src s = Some e -> keeps_agree e.
Proof.
  apply entries_all.
  apply Forall_cons_2.
  { unfold keeps_agree, state_of. cbn [snd en_init]. unfold auth_bke_req_init. intros x y H Hy.
    apply bind_Some in Hy as (z & Hz & Hy). injection Hy as <-. apply txReq_access in Hz.
    apply (agree_from (put_eapTimeout false x) z); [exact H|exact Hz|split; reflexivity]. }
  apply Forall_cons_2.
  { unfold keeps_agree, state_of. cbn [snd en_init]. unfold auth_bke_resp_init. intros x y H Hy. cbv zeta in Hy.
    apply send_access_req_access in Hy. eapply agree_from; [exact H| |exact Hy]. split; reflexivity. }
  apply Forall_cons_2.
  { unfold keeps_agree, state_of. cbn [snd en_init]. unfold auth_bke_succ_init. intros x y H Hy.
    apply bind_Some in Hy as (z & Hz & Hy). injection Hy as <-. apply txReq_access in Hz.
    apply (agree_from x z); [exact H|exact Hz|split; reflexivity]. }
  apply Forall_cons_2.
  { unfold keeps_agree, state_of. cbn [snd en_init]. unfold auth_bke_fail_init. intros x y H Hy.
    apply bind_Some in Hy as (z & Hz & Hy). injection Hy as <-. apply txReq_access in Hz.
    apply (agree_from x z); [exact H|exact Hz|split; reflexivity]. }
  do 4 (apply Forall_cons_2; [plain_init|]). apply Forall_nil_2.
Qed.
Lemma supp_pae_agree s e : supp_pae_table s = Some e -> keeps_agree e.
Proof.
  apply entries_all.
  apply Forall_cons_2.
  { unfold keeps_agree, state_of. cbn [snd en_init]. unfold supp_pae_logoff_init. intros x y H Hy.
    apply bind_Some in Hy as (z & Hz & Hy). injection Hy as <-. apply send_logoff_sent, sent_access in Hz.
    apply (agree_from x z); [exact H|exact Hz|split; reflexivity]. }
  apply Forall_cons_2; [plain_init|].
  apply Forall_cons_2.
  { unfold keeps_agree, state_of. cbn [snd en_init]. unfold supp_pae_conn_init. intros x y H Hy. cbv zeta in Hy.
    apply send_start_sent, sent_access in Hy. eapply agree_from; [exact H| |exact Hy]. split; reflexivity. }
  do 5 (apply Forall_cons_2; [plain_init|]).
  apply Forall_cons_2; [|apply Forall_nil_2].
  unfold keeps_agree. cbn [snd en_init]. unfold supp_pae_s_force_unauth_init. intros x y H Hy.
  apply send_logoff_sent, sent_access in Hy. eapply agree_from; [exact H| |exact Hy]. split; reflexivity.
Qed.
Lemma supp_bke_agree s e : supp_bke_table stack s = Some e -> keeps_agree e.
Proof.
  apply entries_all.
  apply Forall_cons_2.
  { unfold keeps_agree, state_of. cbn [snd en_init]. unfold supp_bke_req_init. intros x y H Hy.
    apply proc_auth_req_access in Hy. eapply agree_from; [exact H| |exact Hy]. split; reflexivity. }
  apply Forall_cons_2.
  { unfold keeps_agree, state_of. cbn [snd en_init]. unfold supp_bke_resp_init. intros x y H Hy.
    apply bind_Some in Hy as (z & Hz & Hy). injection Hy as <-. apply send_supp_resp_access in Hz.
    apply (agree_from x z); [exact H|exact Hz|split; reflexivity]. }
  do 6 (apply Forall_cons_2; [plain_init|]). apply Forall_nil_2.
Qed.
Lemma two_agree s1 i1 n1 s2 i2 n2 s e : keeps_agree (mk_entry i1 (Some n1) true) -> keeps_agree (mk_entry i2 (Some n2) true) ->
  entries [state_of s1 i1 n1; state_of s2 i2 n2] s = Some e -> keeps_agree e.
Proof. intros H1 H2. apply entries_all. by repeat constructor. Qed.

Lemma machine_agree m x y : (forall s e, m_table m s = Some e -> keeps_agree e) ->
  (forall v x, agree x -> agree (m_put m v x)) -> (forall v x, m_state m (m_put m v x) = v) ->
  state_machine m x = Some y -> agree x -> agree y.
Proof.
  intros Ht Hp Hs Hy Hx. apply (state_machine_inv m agree agree) with (ok := fun _ => True) (x := x); try done; try (intros; by apply Hp).
  intros z e w Hz He. by apply (Ht _ _ He).
Qed.
Lemma all_machines_agree x y : all_machines stack pw0 secret src x = Some y -> agree x -> agree y.
Proof.
  unfold all_machines. intros H Hx.
  do 7 (apply bind_Some in H as (? & ?Hm & H)).
  assert (P0 : agree x0) by (apply (machine_agree auth_pae_state_machine x); [apply auth_pae_agree|done..]).
  assert (P1 : agree x1) by (apply (machine_agree (auth_bke_state_machine stack pw0 secret src) x0); [apply auth_bke_agree|done..]).
  assert (P2 : agree x2) by (apply (machine_agree supp_pae_state_machine x1); [apply supp_pae_agree|done..]).
  assert (P3 : agree x3) by (apply (machine_agree (supp_bke_state_machine stack) x2); [apply supp_bke_agree|done..]).
  assert (P4 : agree x4) by (apply (machine_agree auth_key_tx_state_machine x3); [intros s e; apply two_agree; plain_init|done..]).
  assert (P5 : agree x5) by (apply (machine_agree supp_key_tx_state_machine x4); [intros s e; apply two_agree; plain_init|done..]).
  assert (P6 : agree x6) by (apply (machine_agree key_rx_state_machine x5); [intros s e; apply two_agree; plain_init|done..]).
  apply (machine_agree re_auth_state_machine x6); [intros s e; apply two_agree; plain_init|done..].
Qed.
Lemma state_task_agree link x y : state_task stack pw0 secret src link x = Some y -> agree x -> agree y.
Proof.
  unfold state_task. intros H Hx. apply bind_Some in H as (z & Hz & H). injection H as <-.
  assert (Hm : agree (mask_updates (check_link link x))).
  { apply (same_access_agree x); [|done]. unfold mask_updates, check_link. repeat case_match; split; reflexivity. }
  apply (all_machines_agree _ _ Hz) in Hm. apply (same_access_agree z); [|done].
  unfold restart_eap. repeat case_match; split; reflexivity.
Qed.
End access.

(** ** Steps *)

Section steps.
Context (stack : fr_md5_ctx) (pw0 : buf) (secret : list Z) (src : pool_source).

Inductive step (x : port) : port -> Prop :=
  | step_event e y : handle stack pw0 secret src e x = Some y -> step x y
  | step_round link during y : state_task stack pw0 secret src link (set_during during x) = Some y -> step x y
  | step_start : i_update x = 0 -> step x (auth_start x).
(** The steps as a list. *)
Inductive move := Event (e : event) | Round (link : bool) (during : list (list event)) | Start.
Definition do_move (m : move) (x : port) : option port :=
  match m with
  | Event e => handle stack pw0 secret src e x
  | Round link during => state_task stack pw0 secret src link (set_during during x)
  | Start => if i_update x =? 0 then Some (auth_start x) else None
  end.
Definition do_moves (ms : list move) (x : port) : option port := foldl (fun r m => x ← r; do_move m x) (Some x) ms.
Definition after (ms : list move) (x : port) : port := default x (do_moves ms x).
Definition goes (ms : list move) (x : port) : bool := if do_moves ms x then true else false.
Lemma do_move_step m x y : do_move m x = Some y -> step x y.
Proof.
  destruct m as [e|link during|]; cbn [do_move]; [apply step_event|apply step_round|].
  destruct (i_update x =? 0) eqn:E; [|done]. intros H. injection H as <-. apply step_start. by bools.
Qed.
Lemma do_moves_none ms : foldl (fun r m => x ← r; do_move m x) None ms = None.
Proof. induction ms as [|m ms IH]; [done|]. exact IH. Qed.
(** What every move of a list steps along, the list goes along. *)
Lemma moves_rtc (R : port -> port -> Prop) (ok : move -> Prop) ms x :
  (forall m x y, ok m -> do_move m x = Some y -> R x y) -> Forall ok ms -> goes ms x = true -> rtc R x (after ms x).
Proof.
  intros HR Ho. unfold goes, after. revert x. unfold do_moves.
  induction Ho as [|m ms Hm _ IH]; intros x; cbn [foldl]; [by intros _|]. cbn [mbind option_bind].
  destruct (do_move m x) as [y|] eqn:E; [|by rewrite do_moves_none]. specialize (IH y).
  destruct (foldl _ (Some y) ms) as [z|]; [|done]. intros H. eapply rtc_l; [by apply (HR m)|by apply IH].
Qed.
(** A port when [main] has called [auth_ready]. *)
Definition ready_port (mode : Z) (radius : radius_info) : port := auth_ready (port_init mode radius).

Lemma step_agree x y : step x y -> agree x -> agree y.
Proof.
  intros [e y' H|link during y' H|H] Hx.
  - eapply same_access_agree; [by eapply handle_access|done].
  - by apply (state_task_agree stack pw0 secret src _ _ _ H).
  - exact Hx.
Qed.

(** C8: Whatever frames, messages, commands and timeouts come, and however they are
    interleaved with the rounds of the port's machines, the port's status is
    authorized exactly when the last write to the driver opened the port. *)
Theorem driver_follows_status mode radius x : rtc step (ready_port mode radius) x ->
  authPortStatus x = if is_open (p_out x) then Authorized else Unauthorized.
Proof.
  intros H. change (agree x). assert (H0 : agree (ready_port mode radius)) by done. revert H0.
  induction H as [|y z w Hs _ IH]; [done|]. intros Hy. apply IH. by apply (step_agree y).
Qed.
End steps.

(** A port of the authenticator whose link comes up starts and waits for a
    supplicant; what comes is an EAP success. *)
Definition connect_moves : list move := [Round true []; Round true []; Start; Round true []; Round true []].
Definition success_eapol : buf := [1; 0; 0; 4; 3; 0; 0; 4].
Definition opening_moves : list move :=
  connect_moves ++ [Event (ev_eapol success_eapol 8 (replicate 6 2)); Round true []; Round true []].
Definition moved (ms : list move) : port :=
  after md5_ctx0 (replicate 129 0) [115] login_source ms (ready_port 1 zero_radius).
Definition moves (ms : list move) : bool :=
  goes md5_ctx0 (replicate 129 0) [115] login_source ms (ready_port 1 zero_radius).

Lemma driver_follows_status_witness : moves opening_moves = true /\
  authPortStatus (moved opening_moves) = if is_open (p_out (moved opening_moves)) then Authorized else Unauthorized.
Proof.
  assert (H : moves opening_moves = true) by (vm_compute; reflexivity).
  split; [exact H|]. apply (driver_follows_status md5_ctx0 (replicate 129 0) [115] login_source 1 zero_radius).
  apply (moves_rtc md5_ctx0 (replicate 129 0) [115] login_source _ (fun _ => True)); [|by apply Forall_true|exact H].
  intros m x y _. apply do_move_step.
Defined.

(** A client that sends an EAP success opens the port: no server has been asked. *)
Lemma success_frame_opens : moves opening_moves = true /\ authPortStatus (moved connect_moves) = Unauthorized /\
  authPortStatus (moved opening_moves) = Authorized /\ p_out (moved opening_moves) = [OutAuthorize true].
Proof. vm_compute. by split_and!. Qed.
