(* ===== verification/Dot1xLocked.v ===== *)
(** * Port access control: without a success a port stays closed

    A message or frame can tell a port of a success, and so can the console.
    Whatever else comes, the port stays closed.  The last part shows how little is
    enough to open it. *)

From stdpp Require Import base list numbers option fin vector relations.
From Stdlib Require Import ZArith Lia.
From S2P Require Import Prelude Wire WireProofs Bytes Md5 Md5Proofs Isaac Radius RadiusProofs SignProofs RadiusMsg RadiusServer RadiusMsgProofs RadiusRecv Dot1x Dot1xMachines Dot1xProofs Dot1xEnds Dot1xSafe.

(** ** What a message tells *)

(** The first fragment of the EAP message behind [data] has the code of a success,
    or none: then the code is what an earlier message left. *)
Fixpoint tells_success (fuel : nat) (radius : buf) (data : nat) (len : Z) : bool :=
  match fuel with
  | O => false
  | S fuel =>
      if u32 len >? Z.of_nat SIZE_radius_attrib then
        match rd radius data 1, rd radius (data + 1) 1 with
        | Some val, Some attrlen =>
            if len >=? attrlen then
              if val =? RADIUS_EAP_MESSAGE
              then (uN 8 (attrlen - 2) =? 0) || (nth (data + 2) radius 0 =? EAP_CODE_SUCCESS)
              else tells_success fuel radius (data + Z.to_nat attrlen) (len - attrlen)
            else false
        | _, _ => false
        end
      else false
  end.
Definition success_msg (radius : buf) (len : Z) : bool :=
  match rd_be16 radius 2 with
  | Some msglen => let len := (if len >? msglen then msglen else len) - Z.of_nat SIZE_radius_frame in
                   tells_success (Z.to_nat len) radius SIZE_radius_frame len
  | None => false
  end.
Definition no_success (i : radius_info) : Prop := ri_eap_code i <> EAP_CODE_SUCCESS.

Section reads.
Context (stack : fr_md5_ctx) (pw0 : buf) (secret : list Z) (src : pool_source).

Lemma bytes_nth b o n v k : bytes b o n = Some v -> (k < n)%nat -> nth k v 0 = nth (o + k) b 0.
Proof.
  unfold bytes, in_buf. destruct (_ <=? _)%nat eqn:E; [|done]. apply Nat.leb_le in E. intros [= <-] Hk.
  rewrite <- (take_drop o b) at 2. rewrite app_nth2; rewrite length_take, Nat.min_l by lia; [|lia].
  replace (o + k - o)%nat with k by lia. rewrite <- (take_drop n (drop o b)) at 2.
  rewrite app_nth1; [done|]. rewrite length_take, length_drop. lia.
Qed.
Lemma rd_inv (b : buf) k v : rd b k 1 = Some v -> (k < length b)%nat /\ v = nth k b 0.
Proof.
  intros H. assert (Hk : (k < length b)%nat).
  { unfold rd, bytes, in_buf in H. destruct (_ <=? _)%nat eqn:E; [|done]. apply Nat.leb_le in E. lia. }
  split; [done|]. rewrite rd_nth in H by done. by injection H as <-.
Qed.
Lemma put_0_nth (b v r : list Z) : put b 0 v = Some r -> v <> [] -> nth 0 r 0 = nth 0 v 0.
Proof.
  unfold put. destruct (in_buf _ _ _); [|done]. intros [= <-] Hv.
  apply app_nth1. destruct v; [done|simpl; lia].
Qed.
Lemma attrib_value_length w radius data n v : attrib_value w radius data n = Some v -> length v = Z.to_nat (uN w (n - 2)).
Proof.
  unfold attrib_value, bytes. destruct (in_buf _ _ _) eqn:E; [|done]. intros [= <-]. unfold in_buf in E.
  apply Nat.leb_le in E. rewrite length_take, length_drop. lia.
Qed.

(** What an attribute does to the code and to the place in the EAP message. *)
Lemma first_eap_code i j : first_eap i false = Some j -> ri_eap_code j = nth 0 (ri_eap i) 0.
Proof.
  unfold first_eap. intros H. apply bind_Some in H as (c & Hc & H). apply rd_inv in Hc as [_ ->].
  binds. reflexivity.
Qed.
Lemma proc_attrib_code radius data i k j k' : proc_attrib stack pw0 secret radius data false i k = Some (j, k') ->
  if nth data radius 0 =? RADIUS_EAP_MESSAGE then
    (k <= k')%nat /\ (k <> 0%nat -> ri_eap_code j = ri_eap_code i) /\
    (k = 0%nat -> uN 8 (nth (data + 1) radius 0 - 2) <> 0 -> k' <> 0%nat /\ ri_eap_code j = nth (data + 2) radius 0)
  else k' = k /\ ri_eap_code j = ri_eap_code i.
Proof.
  unfold proc_attrib. intros H. apply bind_Some in H as (val & Hval & H). apply rd_inv in Hval as [_ ->].
  apply bind_Some in H as (n & Hn & H). apply rd_inv in Hn as [Hlt ->].
  set (n := nth (data + 1) radius 0) in *. set (val := nth data radius 0) in *.
  destruct (val =? RADIUS_USER_NAME) eqn:E1.
  { bools. rewrite E1. change (RADIUS_USER_NAME =? RADIUS_EAP_MESSAGE) with false. cbv iota. binds. by subst. }
  destruct (val =? RADIUS_USER_PASSWORD) eqn:E2.
  { bools. rewrite E2. change (RADIUS_USER_PASSWORD =? RADIUS_EAP_MESSAGE) with false. cbv iota. binds. by subst. }
  destruct (val =? RADIUS_EAP_MESSAGE) eqn:E3.
  - apply bind_Some in H as (v & Hv & H). apply bind_Some in H as (eap & Heap & H). apply bind_Some in H as (i' & Hi' & H).
    injection H as <- <-. pose proof (attrib_value_length _ _ _ _ _ Hv) as Hl. split; [lia|].
    split; intros Hk.
    + rewrite (proj2 (Nat.eqb_neq _ _) Hk) in Hi'. by injection Hi' as <-.
    + subst k. intros Hn. simpl in Hi'. apply first_eap_code in Hi'.
      assert (Hl' : (0 < length v)%nat).
      { rewrite Hl. unfold uN in *. pose proof (Z.mod_pos_bound (n - 2) (2 ^ 8) ltac:(done)). lia. }
      split; [lia|]. change (ri_eap_code (put_eap_len _ i')) with (ri_eap_code i'). rewrite Hi'.
      change (ri_eap (put_eap eap i)) with eap. rewrite (put_0_nth _ _ _ Heap) by (intros ->; simpl in Hl'; lia).
      unfold attrib_value in Hv. rewrite (bytes_nth _ _ _ _ 0 Hv) by lia. by rewrite Nat.add_0_r.
  - destruct (val =? RADIUS_REPLY_MESSAGE); [binds; by subst|].
    destruct (val =? RADIUS_STATE); [binds; by subst|].
    destruct (val =? RADIUS_MESSAGE_AUTHENTICATOR); [|by injection H as <- <-].
    destruct (n =? 18); [binds; by subst|by injection H as <- <-].
Qed.
Lemma proc_attribs_quiet fuel : forall radius data len i k j, no_success i ->
  (k = 0%nat -> tells_success fuel radius data len = false) ->
  proc_attribs stack pw0 secret fuel radius data len false i k = Some j -> no_success j.
Proof.
  induction fuel as [|fuel IH]; intros radius data len i k j Hi Hq; cbn [proc_attribs].
  { destruct (_ >? _); [|by intros [= <-]]. intros H. apply bind_Some in H as (n & _ & H).
    destruct (_ >=? _); [done|by injection H as <-]. }
  cbn [tells_success] in Hq. destruct (u32 len >? Z.of_nat SIZE_radius_attrib); [|by intros [= <-]].
  intros H. apply bind_Some in H as (n & Hn & H). rewrite Hn in Hq. apply rd_inv in Hn as [Hlt En].
  rewrite (rd_nth radius data) in Hq by lia. destruct (len >=? n); [|by injection H as <-].
  apply bind_Some in H as ([i' k'] & Hp & H). apply proc_attrib_code in Hp. rewrite <- En in Hp.
  apply IH in H; [done| |].
  - unfold no_success in *. destruct (_ =? RADIUS_EAP_MESSAGE).
    + destruct Hp as (_ & H1 & H2). destruct (Nat.eq_dec k 0) as [E|E]; [|by rewrite H1].
      specialize (Hq E). apply orb_false_iff in Hq as [Hq1 Hq2]. bools. by destruct (H2 E Hq1) as [_ ->].
    + by destruct Hp as [_ ->].
  - intros ->. destruct (_ =? RADIUS_EAP_MESSAGE).
    + destruct Hp as (H0 & _ & H2). assert (k = 0%nat) as E by lia. specialize (Hq E).
      apply orb_false_iff in Hq as [Hq1 _]. bools. by destruct (H2 E Hq1).
    + destruct Hp as [<- _]. by apply Hq.
Qed.
Lemma proc_radius_msg_quiet radius i len j : no_success i -> success_msg radius len = false ->
  proc_radius_msg stack pw0 secret radius i len false = Some j -> no_success j.
Proof.
  intros Hi Hs H. unfold proc_radius_msg in H. unfold success_msg in Hs.
  destruct (rd_be16 radius 2) as [n|]; [|done]. cbn [mbind option_bind] in H. cbv zeta in Hs.
  apply bind_Some in H as (c & _ & H). apply bind_Some in H as (id & _ & H). cbn [negb andb] in H.
  destruct (negb (_ =? _)); [by injection H as <-|]. apply bind_Some in H as (v & _ & H). cbv zeta in H.
  apply bind_Some in H as (i' & Hi' & H). apply proc_attribs_quiet in Hi'; [|done|by intros _].
  apply bind_Some in H as ([r p] & _ & H).
  destruct (ri_code _ =? RADIUS_CODE_ACCESS_REQUEST) in H; destruct (truthy r); injection H as <-; exact Hi'.
Qed.
End reads.

(** ** The request a port makes itself *)

Section first.
Context (stack : fr_md5_ctx) (Hstack : length (mc_buffer stack) = 64%nat) (pw0 : buf).
Context (secret : list Z) (Hsecret : piece secret) (src : pool_source).

Definition no_success_attr (a : attr) : Prop :=
  at_type a = RADIUS_EAP_MESSAGE -> at_value a <> [] /\ nth 0 (at_value a) 0 <> EAP_CODE_SUCCESS.
Lemma tells_attrs l : forall fuel L R, Forall attr_ok l -> Forall no_success_attr l ->
  Z.of_nat (length (attrs_bytes l)) < 65536 ->
  tells_success fuel (L ++ attrs_bytes l ++ R) (length L) (Z.of_nat (length (attrs_bytes l))) = false.
Proof.
  clear. induction l as [|a l IH]; intros fuel L R Ho Hq Hn; [by destruct fuel|].
  destruct fuel as [|fuel]; [done|]. apply Forall_cons in Ho as [Ha Ho]. apply Forall_cons in Hq as [Hqa Hq].
  rewrite attrs_bytes_cons, length_app, attr_bytes_length in Hn. rewrite attrs_bytes_cons, <- app_assoc.
  cbn [tells_success]. rewrite rd_attr_type, rd_attr_len, length_app, attr_bytes_length.
  rewrite u32_small by lia. destruct (_ >? _) eqn:E1; [|done]. destruct (_ >=? 2 + _) eqn:E2; [|done].
  destruct (at_type a =? RADIUS_EAP_MESSAGE) eqn:Et.
  - bools. destruct (Hqa Et) as [Hne Hh]. destruct Ha as (_ & Hl & _).
    assert (Hp : (0 < length (at_value a))%nat) by (destruct (at_value a); [done|simpl; lia]).
    apply orb_false_iff. split; apply Z.eqb_neq.
    + unfold uN. rewrite Z.mod_small; simpl; lia.
    + assert (Ev : nth (length L + 2) (L ++ attr_bytes a ++ attrs_bytes l ++ R) 0 = nth 0 (at_value a) 0).
      { rewrite app_nth2 by lia. replace (length L + 2 - length L)%nat with 2%nat by lia.
        change (attr_bytes a) with ([at_type a; 2 + Z.of_nat (length (at_value a))] ++ at_value a).
        rewrite <- app_assoc. cbn [app nth]. by apply app_nth1. }
      by rewrite Ev.
  - pose proof (IH fuel (L ++ attr_bytes a) R Ho Hq ltac:(lia)) as E. rewrite <- !app_assoc in E.
    rewrite <- E. f_equal; rewrite ?length_app, ?attr_bytes_length; lia.
Qed.

Lemma not_of_quiet l : not_of RADIUS_EAP_MESSAGE l -> Forall no_success_attr l.
Proof. clear. intros H. eapply Forall_impl; [exact H|]. by intros a Ha E. Qed.
Ltac other := apply not_of_quiet; repeat (apply Forall_app; split); try apply not_of_when;
  repeat (apply Forall_cons_2; [done|]); apply Forall_nil_2.
(** What is sent as [i] tells of no success, if its EAP message is not one. *)
Lemma sent_tells i code id pool i' pool' : info_ok i -> lens_ok i -> code_ok code ->
  (truthy (ri_eap_len i) = true -> nth 0 (ri_eap i) 0 <> EAP_CODE_SUCCESS) ->
  prep stack secret src i code id pool = Some (i', pool') ->
  success_msg (ri_radius_data i') (ri_len i') = false.
Proof.
  unfold prep. intros Hi Hl Hc He H. assert (Hv : exists w, vector_for src i code pool = Some (w, pool')).
  { pose proof H as H2. unfold prep_radius_msg in H2. apply bind_Some in H2 as ([i1 p1] & H1 & H2).
    assert (p1 = pool') as ->.
    { apply bind_Some in H2 as (? & _ & H2). apply bind_Some in H2 as ([] & _ & H2). apply bind_Some in H2 as (? & _ & H2).
      apply bind_Some in H2 as ([] & _ & H2). apply bind_Some in H2 as ([] & _ & H2). apply bind_Some in H2 as (? & _ & H2).
      by injection H2. }
    unfold prep_header in H1. apply bind_Some in H1 as (b & _ & H1). apply bind_Some in H1 as ([v p] & Hv & H1).
    apply bind_Some in H1 as (b' & _ & H1). injection H1 as _ <-. by exists v. }
  destruct Hv as [w Hv].
  destruct (prep_radius_msg_given stack Hstack secret Hsecret src i code id pool w pool' Hi Hl Hc Hv)
    as (i2 & rest & E & Hw & Hwb & _ & Ed & El & _ & Hp & Hn).
  rewrite H in E. injection E as <-. rewrite Ed, El. clear H Ed El.
  set (mac := truthy (ri_eap_len i)) in *. set (l := sent_attrs secret i w) in *. set (n := message_len l mac) in *.
  set (h := sent_head code id n). set (l' := received secret w i h).
  assert (Eb : sent_message secret code id w l mac rest =
    (h ++ signed_vector secret code h w l') ++ attrs_bytes l' ++ rest).
  { unfold sent_message, packet_bytes. fold n h. unfold l'. rewrite received_message. fold l mac. by rewrite <- app_assoc. }
  assert (Hlen : Z.of_nat n = 20 + Z.of_nat (length (attrs_bytes l'))).
  { unfold l'. rewrite received_length. fold mac l n. unfold n, message_len. lia. }
  assert (E2 : rd_be16 (sent_message secret code id w l mac rest) 2 = Some (Z.of_nat n)).
  { rewrite Eb. unfold h at 1. unfold sent_head. rewrite <- !app_assoc.
    apply (rd_be16_be16 [u8 code; u8 id]). unfold FRAME in Hn. lia. }
  assert (E20 : length (h ++ signed_vector secret code h w l') = SIZE_radius_frame).
  { rewrite length_app. unfold signed_vector. destruct (code =? _); [by rewrite Hw|].
    unfold reply_digest. by rewrite md5_length. }
  assert (Hlok : Forall attr_ok l') by (by apply received_ok).
  unfold success_msg. rewrite E2. cbv zeta. rewrite Z.gtb_ltb, Z.ltb_irrefl. rewrite Hlen, Eb.
  replace (20 + Z.of_nat (length (attrs_bytes l')) - Z.of_nat SIZE_radius_frame)
    with (Z.of_nat (length (attrs_bytes l'))) by (unfold SIZE_radius_frame; lia).
  rewrite <- E20. apply tells_attrs; [done| |unfold FRAME in Hn; lia].
  unfold l', received. rewrite Forall_app. split.
  2:{ unfold sent_mac. destruct (truthy _); [|constructor]. constructor; [|constructor]. by intros H. }
  unfold sent_attrs, attrs_1, attrs_password, attrs_2, attrs_state, attrs_eap.
  apply Forall_app. split; [other|]. apply Forall_app. split; [other|]. apply Forall_app. split; [other|].
  apply Forall_app. split; [other|]. destruct (truthy (ri_eap_len i)) eqn:Ht; [|constructor].
  constructor; [|constructor]. specialize (He eq_refl). destruct (lo_eap i Hl) as [Hl0 Hl1].
  destruct (used_ok 1500 (ri_eap i) (ri_eap_len i) (io_eap i Hi) ltac:(lia)) as (_ & Elen & _).
  assert (Z.to_nat (ri_eap_len i) <> 0%nat) by (apply truthy_nonzero in Ht; lia).
  intros _. cbn [at_value]. split; [by intros Hu; rewrite Hu in Elen|].
  unfold used. destruct (Z.to_nat (ri_eap_len i)) as [|k]; [done|]. cbn [at_value] in *. by destruct (ri_eap i).
Qed.

Lemma put_ok n b o v r : put b o v = Some r -> bytes_ok n b -> Forall is_byte v -> bytes_ok n r.
Proof.
  unfold put. destruct (in_buf _ _ _) eqn:E; [|done]. intros [= <-] [Hl Hb] Hv. unfold in_buf in E. apply Nat.leb_le in E.
  split; [rewrite !length_app, length_take, length_drop; lia|]. rewrite !Forall_app.
  split_and!; [by apply Forall_take|done|by apply Forall_drop].
Qed.
Lemma init_request_tells z pool i pool' : info_ok z -> lens_ok z ->
  prep_init_req stack secret src z pool = Some (i, pool') ->
  success_msg (ri_radius_data i) (ri_len i) = false.
Proof.
  unfold prep_init_req. intros Hz Hlz H. apply bind_Some in H as (a & Ha & H). apply bind_Some in H as (b & Hb & H).
  apply bind_Some in H as (eap & He & H). apply bind_Some in H as (j & Hj & H).
  unfold eap_header in Hj. apply bind_Some in Hj as (eap' & He' & Hj). injection Hj as <-.
  destruct Hz, Hlz.
  assert (Hbyte : forall x, is_byte (u8 x)) by (intros x; apply Z.mod_pos_bound; lia).
  apply (put_ok 6) in Ha; [|done|by repeat constructor]. apply (put_ok 6) in Hb; [|done|by repeat constructor].
  apply (put_ok 1500) in He; [|done|by repeat constructor].
  pose proof (put_0_nth _ _ _ He' ltac:(done)) as Hn.
  apply (put_ok 1500) in He'; [|done|].
  2:{ apply Forall_app. split; [|apply be16_byte]. by repeat (apply Forall_cons_2; [apply Hbyte|]). }
  match type of H with prep _ _ _ ?i0 _ _ _ = _ => apply (sent_tells i0) in H end; [done| |by split|by left|].
  - by split.
  - intros _. cbn [ri_eap put_eap]. rewrite Hn. cbn [nth app]. done.
Qed.
End first.

(** ** A closed port *)

Definition success_frame (f : buf) : bool :=
  match rd f 1 1, rd f 4 1 with
  | Some type, Some code => (type =? EAP_PACKET) && (code =? EAP_CODE_SUCCESS)
  | _, _ => false
  end.
(** The events that can tell a port to open: an EAP success from the supplicant's
    side, one in a RADIUS message, the commands [a] and [x]. *)
Definition tells (e : event) : bool :=
  match e with
  | ev_eapol f _ _ => success_frame f
  | ev_radius msg n => success_msg msg n
  | ev_cmd letter => (letter =? 97) || (letter =? 120)
  | ev_tick => false
  end.
Definition quiet (e : event) : Prop := tells e = false.

(** Closed, and nothing on the way to open it. *)
Record locked (x : port) : Prop := mk_locked {
  lk_status : authPortStatus x = Unauthorized; lk_open : is_open (p_out x) = false;
  lk_eap : eapSuccess x = false; lk_auth : authSuccess x = false; lk_control : portControl x <> ForceAuthorized;
  lk_pae : i_auth_pae_state x <> AUTH_PAE_AUTHENTICATED /\ i_auth_pae_state x <> AUTH_PAE_FORCE_AUTH;
  lk_code : no_success (i_radius x); lk_during : Forall (Forall quiet) (p_during x) }.
(** What is told of [x] is told of it with other fields changed. *)
Ltac lock := let H := fresh in intros H; destruct H; split; first [assumption|reflexivity].
Definition still_locked (x y : port) : Prop := locked x -> locked y.
#[export] Instance still_locked_preorder : PreOrder still_locked.
Proof. split; unfold still_locked; [by intros x|by intros x y z; auto]. Qed.

Section closed.
Context (stack : fr_md5_ctx) (Hstack : length (mc_buffer stack) = 64%nat) (pw0 : buf).
Context (secret : list Z) (Hsecret : piece secret) (src : pool_source).

(** No message that is built changes what the last one received said. *)
Lemma prep_radius_msg_code i code id pool i' pool' :
  prep_radius_msg stack secret src i code id pool = Some (i', pool') -> ri_eap_code i' = ri_eap_code i.
Proof.
  unfold prep_radius_msg. intros H. apply bind_Some in H as ([i1 p1] & H1 & H). apply bind_Some in H as (d1 & _ & H).
  apply bind_Some in H as ([i2 d2] & H2 & H). apply bind_Some in H as (d3 & _ & H). apply bind_Some in H as ([i3 d4] & H3 & H).
  apply bind_Some in H as ([i4 d5] & H4 & H). apply bind_Some in H as (i5 & H5 & H). injection H as <- _.
  assert (E1 : ri_eap_code i1 = ri_eap_code i).
  { unfold prep_header in H1. apply bind_Some in H1 as (b & _ & H1). apply bind_Some in H1 as ([v p] & _ & H1).
    apply bind_Some in H1 as (b' & _ & H1). by injection H1 as <- _. }
  assert (E2 : ri_eap_code i2 = ri_eap_code i1).
  { unfold prep_password in H2. destruct (truthy _) in H2; [|by injection H2 as <- _].
    apply bind_Some in H2 as (v & _ & H2). apply bind_Some in H2 as ([o n] & _ & H2). apply bind_Some in H2 as (enc & _ & H2).
    apply bind_Some in H2 as (v' & _ & H2). apply bind_Some in H2 as (d & _ & H2). by injection H2 as <- _. }
  assert (E3 : ri_eap_code i3 = ri_eap_code i2).
  { unfold prep_state in H3. destruct (truthy _) in H3; [|by injection H3 as <- _].
    apply bind_Some in H3 as (v & _ & H3). apply bind_Some in H3 as (d & _ & H3). apply bind_Some in H3 as (s & _ & H3).
    by injection H3 as <- _. }
  assert (E4 : ri_eap_code i4 = ri_eap_code i3).
  { unfold prep_eap in H4. apply bind_Some in H4 as (d & _ & H4). destruct (truthy _) in H4; [|by injection H4 as <- _].
    apply bind_Some in H4 as (d' & _ & H4). by injection H4 as <- _. }
  assert (E5 : ri_eap_code i5 = ri_eap_code i4).
  { unfold prep_finish in H5. apply bind_Some in H5 as (b & _ & H5). apply bind_Some in H5 as ([[r p] b'] & _ & H5).
    destruct (_ =? _) in H5; [|by injection H5 as <-]. apply bind_Some in H5 as (v & _ & H5). by injection H5 as <-. }
  congruence.
Qed.

Lemma prep_code i code id pool i' pool' :
  prep stack secret src i code id pool = Some (i', pool') -> ri_eap_code i' = ri_eap_code i.
Proof. unfold prep. apply prep_radius_msg_code. Qed.
Lemma eap_header_code c id n i j : eap_header c id n i = Some j -> ri_eap_code j = ri_eap_code i.
Proof. unfold eap_header. intros H. binds. done. Qed.
Lemma locked_radius r x : no_success r -> locked x -> locked (iset_radius r x).
Proof. intros Hr []. by split. Qed.
Lemma locked_request r id p v x : no_success r -> locked x ->
  locked (emit (OutRadius v) (iset_radius r (set_radius_id id (set_pool p x)))).
Proof. intros Hr []. by split. Qed.

Lemma proc_radius_locked x u y : no_success (i_radius x) -> proc_radius x = (u, y) -> locked x -> locked y.
Proof.
  unfold proc_radius, no_success. intros Hr. destruct (_ =? EAP_CODE_REQUEST); [intros [= _ <-]; lock|].
  destruct (_ =? EAP_CODE_SUCCESS) eqn:E; [by bools|].
  destruct (_ =? EAP_CODE_FAILURE); intros [= _ <-]; lock.
Qed.
Lemma first_request_locked x u y : first_request stack pw0 secret src x = Some (u, y) -> locked x -> locked y.
Proof.
  unfold first_request. intros H Hx. apply bind_Some in H as ([i p] & Hi & H).
  apply init_request_tells in Hi; [|done|done|destruct zero_radius_ok; by split|by split].
  apply bind_Some in H as (r & Hr & H). injection H as H.
  assert (Hq : no_success r) by exact (proc_radius_msg_quiet stack pw0 secret _ _ _ _ (lk_code x Hx) Hi Hr).
  apply proc_radius_locked in H; [done|exact Hq|]. revert Hx. intros []. by split.
Qed.
Lemma eapol_start_locked x y : eapol_start stack pw0 secret src x = Some y -> locked x -> locked y.
Proof.
  unfold eapol_start. destruct (2 <=? _); [intros H; injection H as <-; lock|]. cbv zeta. intros H Hx.
  assert (Hx' : locked (put_eapolStart true (put_eapolEap false x))) by (revert Hx; lock).
  apply bind_Some in H as ([u z] & Hz & H). injection H as <-.
  assert (locked z); [|by revert H; lock].
  destruct (_ && _) in Hz; [|by injection Hz as _ <-].
  apply bind_Some in Hz as ([v z'] & Hf & Hz). injection Hz as _ <-. by apply first_request_locked in Hf.
Qed.
Lemma eap_response_locked f len x u y v : eap_response f len x u = Some (y, v) -> locked x -> locked y.
Proof.
  unfold eap_response, proc_id_resp. intros H. binds; simplify_eq; repeat (case_match; binds; simplify_eq); lock.
Qed.
Lemma proc_eapol_locked f x y : success_frame f = false -> proc_eapol stack pw0 secret src f x = Some y ->
  locked x -> locked y.
Proof.
  unfold success_frame, proc_eapol. destruct (rd f 1 1) as [t|]; [|done]. cbn [mbind option_bind]. intros Hs.
  destruct (t =? EAPOL_START); [apply eapol_start_locked|].
  destruct (t =? EAPOL_LOGOFF); [intros H; injection H as <-; lock|].
  destruct (t =? EAP_PACKET); [|intros H; injection H as <-; lock].
  unfold eap_packet. cbv zeta. destruct (rd f 4 1) as [c|]; [|done]. cbn [mbind option_bind andb] in Hs |- *. rewrite Hs.
  destruct (c =? EAP_CODE_FAILURE); [intros H; injection H as <-; lock|].
  intros H Hx. apply bind_Some in H as (len & _ & H). apply bind_Some in H as (v & _ & H).
  apply bind_Some in H as (eap & _ & H). apply bind_Some in H as ([z u] & Hz & H). injection H as <-.
  assert (Hx' : locked (iset_eap eap x)) by (revert Hx; lock).
  assert (locked z); [|by revert H; lock].
  destruct (_ && _) in Hz; [by apply eap_response_locked in Hz|by injection Hz as <-].
Qed.
Lemma send_request_locked r x y : (forall i id p, r = Some (i, id, p) -> no_success i) ->
  send_request r x = Some y -> locked x -> locked y.
Proof.
  unfold send_request. intros Hr. destruct (negb _); [|intros H; by injection H as <-].
  intros H Hx. apply bind_Some in H as ([[i id] p] & E & H). apply bind_Some in H as (v & _ & H). injection H as <-.
  apply locked_request; [by apply (Hr i id p)|done].
Qed.
(** The requests to the server. *)
Lemma access_code i id0 p0 i' id p :
  prep_access_req stack secret src i id0 p0 = Some (i', id, p) -> ri_eap_code i' = ri_eap_code i.
Proof.
  unfold prep_access_req, get_radius_id. intros H. apply bind_Some in H as ([j q] & Hj & H). injection H as <- _ _.
  apply prep_code in Hj. exact Hj.
Qed.
Lemma simple_code i id0 p0 i' id p :
  prep_access_request_simple_req stack secret src i id0 p0 = Some (i', id, p) -> ri_eap_code i' = ri_eap_code i.
Proof.
  unfold prep_access_request_simple_req. intros H. apply bind_Some in H as (a & _ & H).
  apply bind_Some in H as (b & _ & H). by apply access_code in H.
Qed.
Lemma request_code i id0 p0 i' id p :
  prep_access_request_req stack secret src i id0 p0 = Some (i', id, p) -> ri_eap_code i' = ri_eap_code i.
Proof.
  unfold prep_access_request_req. intros H. apply bind_Some in H as (a & _ & H).
  apply bind_Some in H as (b & _ & H). apply bind_Some in H as (j & Hj & H).
  apply access_code in H. apply eap_header_code in Hj. by rewrite H, Hj.
Qed.
Lemma challenge_code i id0 p0 i' id p :
  prep_access_challenge_req stack secret src i id0 p0 = Some (i', id, p) -> ri_eap_code i' = ri_eap_code i.
Proof.
  unfold prep_access_challenge_req. intros H. apply bind_Some in H as (b & _ & H).
  apply bind_Some in H as (j & Hj & H). apply access_code in H. apply eap_header_code in Hj. by rewrite H, Hj.
Qed.
Lemma prep_end_code c p i p' : prep_end stack secret src c p = Some (i, p') -> ri_eap_code i = 0.
Proof.
  unfold prep_end. intros H. apply bind_Some in H as (a & _ & H). apply bind_Some in H as (b & _ & H).
  apply bind_Some in H as (j & Hj & H). apply prep_code in H. apply eap_header_code in Hj.
  etransitivity; [exact H|]. etransitivity; [exact Hj|]. done.
Qed.
#[local] Opaque prep_end.
Lemma prep_fail_code i0 p i p' : prep_fail stack secret src i0 p = Some (i, p') -> ri_eap_code i = 0.
Proof. apply prep_end_code. Qed.
Lemma get_cmd_locked c x y : (c =? 97) || (c =? 120) = false -> get_cmd stack secret src c x = Some y -> locked x -> locked y.
Proof.
  intros [Ha Hx]%orb_false_iff. unfold get_cmd. cbv zeta. rewrite Ha, Hx. cbv iota. clear Ha Hx.
  destruct (_ =? _); [intros H; injection H as <-; intros []; by split|].
  destruct (_ =? _); [intros H; injection H as <-; intros []; by split|].
  do 3 (destruct (_ =? _); [intros H; injection H as <-; lock|]).
  destruct (_ =? _).
  { intros H [] . apply bind_Some in H as ([r p] & Hr & H). injection H as <-. apply prep_fail_code in Hr.
    split; try done. unfold no_success. by fields; rewrite Hr. }
  do 2 (destruct (_ =? _); [intros H; injection H as <-; lock|]).
  destruct (_ =? _).
  { intros H Hl. apply send_request_locked in H; [done| |done]. intros i id p E. apply request_code in E.
    unfold no_success. rewrite E. apply Hl. }
  destruct (_ =? _).
  { intros H Hl. apply send_request_locked in H; [done| |done]. intros i id p E. apply challenge_code in E.
    unfold no_success. rewrite E. apply Hl. }
  destruct (_ =? _).
  { intros H Hl. apply send_request_locked in H; [done| |done]. intros i id p E. apply simple_code in E.
    unfold no_success. rewrite E. apply Hl. }
  destruct (_ =? _); [|intros H; by injection H as <-].
  destruct (_ && _); intros H; injection H as <-; lock.
Qed.

Lemma receive_radius_locked msg n x y : success_msg msg n = false -> receive_radius stack pw0 secret msg n x = Some y ->
  locked x -> locked y.
Proof.
  unfold receive_radius. intros Hs H Hx. apply bind_Some in H as (id & _ & H).
  destruct (_ && _); [|by injection H as <-]. apply bind_Some in H as (r & Hr & H).
  destruct (proc_radius _) as [u z] eqn:Ez. injection H as <-.
  assert (Hq : no_success r).
  { apply (proc_radius_msg_quiet stack pw0 secret msg (put_sent false (i_radius x)) n); [apply Hx|exact Hs|exact Hr]. }
  apply proc_radius_locked in Ez; [|exact Hq|by apply locked_radius]. revert Ez. lock.
Qed.
Lemma handle_locked e x y : quiet e -> handle stack pw0 secret src e x = Some y -> still_locked x y.
Proof.
  unfold still_locked, quiet. destruct e as [f n from|msg n|c|]; cbn [tells handle]; intros Hq.
  - unfold receive_eapol. intros H Hx. apply bind_Some in H as (dst & _ & H). cbv zeta in H.
    apply bind_Some in H as (len & _ & H).
    assert (Hx' : locked (iset_radius (put_dst dst (i_radius x)) x)) by (apply locked_radius; [apply Hx|exact Hx]).
    destruct (n >=? len); [by apply proc_eapol_locked in H|by injection H as <-].
  - by apply receive_radius_locked.
  - by apply get_cmd_locked.
  - intros H. injection H as <-. unfold timer_tick. destruct (eap_timers_state_machine x) as [u z] eqn:E.
    unfold eap_timers_state_machine in E. injection E as <- <-. destruct (truthy _); lock.
Qed.
Lemma handle_all_locked es x y : Forall quiet es -> handle_all stack pw0 secret src es x = Some y -> still_locked x y.
Proof. intros Hes. apply (handle_all_ind stack pw0 secret src still_locked quiet es handle_locked Hes). Qed.

(** ** Rounds *)

Lemma wait_locked x y : wait_for_resp stack pw0 secret src x = Some y -> locked x -> locked y.
Proof.
  unfold wait_for_resp. intros H Hx. apply bind_Some in H as (z & Hz & H).
  assert (Hlz : locked z).
  { destruct (truthy (i_eap_radius_req x)); [|by injection Hz as <-].
    assert (Hd : Forall quiet (hd [] (p_during x)) /\ Forall (Forall quiet) (tl (p_during x)))
      by (destruct (lk_during x Hx); by split).
    apply handle_all_locked in Hz; [|apply Hd]. apply Hz. destruct Hd as [_ Hd], Hx. by split. }
  destruct (truthy (i_eap_radius_req z)); [|by injection H as <-].
  destruct (i_eap_first_req z =? 1); injection H as <-; revert Hlz; lock.
Qed.
Lemma sent_locked x y : sent_from x y -> locked x -> locked y.
Proof. intros (b & v & ->). lock. Qed.
Lemma send_eap_locked b len x y : send_eap stack pw0 secret src b len x = Some y -> locked x -> locked y.
Proof.
  unfold send_eap. intros H Hx. apply bind_Some in H as (v & _ & H). apply bind_Some in H as (b' & _ & H).
  apply bind_Some in H as (z & Hz & H). apply prepare_header_sent in Hz as (b2 & ->). cbv zeta in H.
  apply bind_Some in H as (w & Hw & H). apply send_eapol_sent in Hw as (o & ->).
  set (z := if negb _ then iset_eap_radius_req 1 _ else _) in H.
  assert (Hz : locked (emit (OutEapol o) z)) by (unfold z; destruct (negb _); revert Hx; lock).
  clearbody z. destruct (negb _) in H; [by apply wait_locked in H|by injection H as <-].
Qed.
Lemma txReq_locked x y : txReq stack pw0 secret src x = Some y -> locked x -> locked y.
Proof. unfold txReq, send_auth_req. destruct (_ && _); [apply send_eap_locked|intros H; by injection H as <-]. Qed.
Lemma send_access_req_locked x y : send_access_req stack secret src x = Some y -> locked x -> locked y.
Proof.
  unfold send_access_req. intros H Hx. apply bind_Some in H as ([[r id] p] & Hr & H).
  apply bind_Some in H as (v & _ & H). injection H as <-. apply access_code in Hr.
  apply locked_request; [|done]. unfold no_success. rewrite Hr. apply Hx.
Qed.
Lemma proc_auth_req_locked x y : proc_auth_req stack x = Some y -> locked x -> locked y.
Proof. unfold proc_auth_req. intros H. binds; lock. Qed.
Lemma send_supp_resp_locked x y : send_supp_resp x = Some y -> locked x -> locked y.
Proof.
  unfold send_supp_resp. destruct (_ && _); [|intros H; by injection H as <-].
  intros H. apply bind_Some in H as (v & _ & H). apply send_eap_msg_sent in H. by apply sent_locked.
Qed.
Lemma close_port_locked x : locked x -> locked (close_port x).
Proof.
  intros []. unfold close_port. rewrite lk_status0. change (Unauthorized =? Authorized) with false. by split.
Qed.

(** ** The machines *)

Lemma entries_at (P : Z -> entry -> Prop) l s e : Forall (fun p => P p.1 p.2) l -> entries l s = Some e -> P s e.
Proof.
  clear. unfold entries. intros H. induction H as [|p l Hp _ IH]; [done|]. cbn [find].
  destruct (Z.eqb_spec p.1 s) as [<-|]; [|exact IH]. intros E. injection E as <-. exact Hp.
Qed.
Definition out (bad : list Z) (n : Z) : bool := forallb (fun b => negb (n =? b)) bad.
(** From a state outside [bad] nothing opens the port, nor is one in it chosen. *)
Definition entry_locked (bad : list Z) (s : Z) (e : entry) : Prop := out bad s = true ->
  (forall x y, locked x -> en_init e x = Some y -> locked y) /\
  (forall x f, locked x -> en_next e = Some f -> out bad (f x 0) = true).
Definition pae_bad : list Z := [AUTH_PAE_AUTHENTICATED; AUTH_PAE_FORCE_AUTH].
Definition bke_bad : list Z := [AUTH_BKE_SUCCESS].
Lemma out_if bad (c : bool) a b : out bad a = true -> out bad b = true -> out bad (if c then a else b) = true.
Proof. by destruct c. Qed.

Ltac lock_init := let H := fresh in intros H; cbv zeta in H; injection H as <-; revert select (locked _); lock.
Ltac each tac := apply entries_at; unfold entry_locked, state_of;
  repeat (apply Forall_cons_2; [cbn [fst snd en_init en_next]; intros ?Hs; try discriminate Hs; (split;
    [intros x y Hx; try lock_init|intros x f Hx Hf; injection Hf as <-; tac])|]); try apply Forall_nil_2.
Ltac choices := cbv zeta; match goal with H : locked _ |- _ => destruct H end;
  repeat match goal with H : @eq bool _ false |- _ => rewrite H; clear H end; cbn [orb andb];
  repeat (apply out_if; [reflexivity|]); reflexivity.

Lemma canned_fail_locked x y : txCannedFail x = Some y -> locked x -> locked y.
Proof. intros H%txCannedFail_sent Hx. apply sent_locked in H; [done|]. revert Hx. lock. Qed.
Lemma pae_entries s e : auth_pae_table s = Some e -> entry_locked pae_bad s e.
Proof.
  each ltac:(unfold auth_pae_init_next, auth_pae_disc_next, auth_pae_restart_next, auth_pae_conn_next, auth_pae_authg_next,
    auth_pae_abort_next, auth_pae_held_next, auth_pae_force_unauth_next; choices).
  - intros H. injection H as <-. apply close_port_locked in Hx. revert Hx. lock.
  - intros H. injection H as <-. apply close_port_locked in Hx. revert Hx. lock.
  - unfold auth_pae_force_unauth_init. intros H. apply canned_fail_locked in H; [done|].
    apply close_port_locked in Hx. revert Hx. lock.
Qed.
Lemma bke_entries s e : auth_bke_table stack pw0 secret src s = Some e -> entry_locked bke_bad s e.
Proof.
  each ltac:(unfold auth_bke_req_next, auth_bke_resp_next, auth_bke_fail_next, auth_bke_timeout_next, auth_bke_idle_next,
    auth_bke_init_next, auth_bke_ignore_next; choices).
  - unfold auth_bke_req_init. intros H. apply bind_Some in H as (z & Hz & H). injection H as <-.
    apply txReq_locked in Hz; [revert Hz|revert Hx]; lock.
  - unfold auth_bke_resp_init. cbv zeta. intros H. apply send_access_req_locked in H; [done|]. revert Hx. lock.
  - unfold auth_bke_fail_init. intros H. apply bind_Some in H as (z & Hz & H). injection H as <-.
    apply txReq_locked in Hz; [revert Hz; lock|done].
Qed.
(** Success leads to idling. *)
Lemma bke_choices s e x f : auth_bke_table stack pw0 secret src s = Some e -> locked x -> en_next e = Some f ->
  out bke_bad (f x 0) = true.
Proof.
  intros He Hx Hf. destruct (out bke_bad s) eqn:E; [by apply (bke_entries s e He E)|].
  unfold out, bke_bad in E. cbn [forallb] in E. rewrite andb_true_r in E. bools. subst s. injection He as <-.
  by injection Hf as <-.
Qed.

(** What the machines of a port have in common. *)
Lemma machine_locked m (P : Z -> Prop) bad (x y : port) :
  (forall z, locked z -> P (m_state m z)) -> (forall v z, m_state m (m_put m v z) = v) ->
  (forall s e, m_table m s = Some e -> out bad s = true -> forall z w, locked z -> en_init e z = Some w -> locked w) ->
  (forall s e z, m_table m s = Some e -> P s -> locked z -> out bad (chosen m e z) = true) ->
  (forall z n, locked z -> n = 0 \/ n = m_state m z -> truthy (m_next m z n) = true ->
    m_table m (m_state m z) = None -> out bad (m_next m z n) = true) ->
  (forall v z, out bad v = true -> locked z -> locked (m_put m v z)) ->
  state_machine m x = Some y -> locked x -> locked y.
Proof.
  intros HP Hs Hi Hc Hn Hp H Hx.
  apply (state_machine_inv m locked (fun z => locked z /\ out bad (m_state m z) = true)) with (ok := P) (x := x); try done.
  - by intros z [].
  - intros z e w [Hz Ho] He. by apply (Hi (m_state m z)).
  - intros z s e Hz HPs He _. rewrite Hs. split; [|by apply (Hc s)]. apply Hp; [by apply (Hc s)|done].
  - intros z n Hz He Ht Hd. rewrite Hs. split; [apply Hp; [by apply Hn|done]|by apply Hn].
  - intros v z. lock.
Qed.

Lemma pae_next_out x n : locked x -> out pae_bad n = true -> out pae_bad (auth_pae_next x n) = true.
Proof.
  intros [] Hn. unfold auth_pae_next. cbv zeta. destruct (truthy n); [done|].
  rewrite (proj2 (Z.eqb_neq _ _) lk_control0). cbn [andb].
  apply out_if; [done|]. apply out_if; [done|]. by apply out_if.
Qed.
Lemma pae_locked x y : state_machine auth_pae_state_machine x = Some y -> locked x -> locked y.
Proof.
  apply machine_locked with (P := fun s => out pae_bad s = true) (bad := pae_bad).
  - intros z []. unfold out, pae_bad. cbn [forallb m_state auth_pae_state_machine].
    destruct lk_pae0 as [H1 H2]. by rewrite !(proj2 (Z.eqb_neq _ _)) by done.
  - done.
  - intros s e He Hs. by apply (pae_entries s e He Hs).
  - intros s e z He Hs Hz. unfold chosen. apply pae_next_out; [done|].
    destruct (en_next e) as [f|] eqn:Ef; [|done]. by apply (pae_entries s e He Hs).
  - intros z n Hz Hn _ _. apply pae_next_out; [done|]. destruct Hn as [->| ->]; [done|].
    destruct Hz, lk_pae0 as [H1 H2]. unfold out, pae_bad. cbn [forallb m_state auth_pae_state_machine].
    by rewrite !(proj2 (Z.eqb_neq _ _)) by done.
  - intros v z Hv []. unfold out, pae_bad in Hv. cbn [forallb] in Hv. bools. by split.
Qed.
Lemma bke_next_out x n : out bke_bad n = true -> out bke_bad (auth_bke_next x n) = true.
Proof. intros Hn. unfold auth_bke_next. cbv zeta. destruct (truthy n); [done|]. apply out_if; [done|]. by apply out_if. Qed.
Lemma bke_locked x y : state_machine (auth_bke_state_machine stack pw0 secret src) x = Some y -> locked x -> locked y.
Proof.
  apply machine_locked with (P := fun _ => True) (bad := bke_bad); try done.
  - intros s e He Hs. by apply (bke_entries s e He Hs).
  - intros s e z He _ Hz. apply bke_next_out. destruct (en_next e) as [f|] eqn:Ef; [|done].
    by apply (bke_choices s e z f).
  - intros z n _ Hn _ He. apply bke_next_out. destruct Hn as [->| ->]; [done|].
    unfold out, bke_bad. cbn [forallb]. rewrite andb_true_r. apply negb_true_iff, Z.eqb_neq. intros E.
    by rewrite E in He.
  - intros v z _. lock.
Qed.
(** The machines that have nothing to do with the authenticator. *)
Lemma other_locked m x y : (forall v z, m_state m (m_put m v z) = v) -> (forall v z, locked z -> locked (m_put m v z)) ->
  (forall s e, m_table m s = Some e -> forall z w, locked z -> en_init e z = Some w -> locked w) ->
  state_machine m x = Some y -> locked x -> locked y.
Proof. intros Hs Hp Hi. apply machine_locked with (P := fun _ => True) (bad := []); try done; intros; [by eapply Hi|by apply Hp]. Qed.
Definition init_locked (e : entry) : Prop := forall z w, locked z -> en_init e z = Some w -> locked w.
Ltac each_init := apply entries_all;
  repeat (apply Forall_cons_2; [unfold init_locked, state_of; cbn [snd en_init]; intros x y Hx; try lock_init|]);
  try apply Forall_nil_2.
Lemma supp_pae_entries s e : supp_pae_table s = Some e -> init_locked e.
Proof.
  each_init.
  - unfold supp_pae_logoff_init. intros H. apply bind_Some in H as (z & Hz & H). injection H as <-.
    apply send_logoff_sent, sent_locked in Hz; [revert Hz; lock|done].
  - unfold supp_pae_conn_init. cbv zeta. intros H. apply send_start_sent, sent_locked in H; [done|]. revert Hx. lock.
  - unfold supp_pae_s_force_unauth_init. intros H. apply send_logoff_sent, sent_locked in H; [done|]. revert Hx. lock.
Qed.
Lemma supp_bke_entries s e : supp_bke_table stack s = Some e -> init_locked e.
Proof.
  each_init.
  - unfold supp_bke_req_init. intros H. apply proc_auth_req_locked in H; [done|]. revert Hx. lock.
  - unfold supp_bke_resp_init. intros H. apply bind_Some in H as (z & Hz & H). injection H as <-.
    apply send_supp_resp_locked in Hz; [revert Hz; lock|done].
Qed.
Lemma two_locked s1 i1 n1 s2 i2 n2 s e : init_locked (mk_entry i1 (Some n1) true) -> init_locked (mk_entry i2 (Some n2) true) ->
  entries [state_of s1 i1 n1; state_of s2 i2 n2] s = Some e -> init_locked e.
Proof.
  intros H1 H2. apply entries_all. apply Forall_cons_2; [exact H1|]. apply Forall_cons_2; [exact H2|]. apply Forall_nil_2.
Qed.
Lemma all_machines_locked x y : all_machines stack pw0 secret src x = Some y -> locked x -> locked y.
Proof.
  unfold all_machines. intros H Hx. do 7 (apply bind_Some in H as (? & ?Hm & H)).
  apply pae_locked in Hm; [|done]. apply bke_locked in Hm0; [|done].
  apply other_locked in Hm1; [|done|intros v z; lock|apply supp_pae_entries|done].
  apply other_locked in Hm2; [|done|intros v z; lock|apply supp_bke_entries|done].
  apply other_locked in Hm3; [|done|intros v z; lock|intros s e; apply two_locked; intros z w Hz; lock_init|done].
  apply other_locked in Hm4; [|done|intros v z; lock|intros s e; apply two_locked; intros z w Hz; lock_init|done].
  apply other_locked in Hm5; [|done|intros v z; lock|intros s e; apply two_locked; intros z w Hz; lock_init|done].
  by apply other_locked in H; [|done|intros v z; lock|intros s e; apply two_locked; intros z w Hz; lock_init|].
Qed.
Lemma state_task_locked link x y : state_task stack pw0 secret src link x = Some y -> locked x -> locked y.
Proof.
  unfold state_task. intros H Hx. apply bind_Some in H as (z & Hz & H). injection H as <-.
  apply all_machines_locked in Hz.
  - unfold restart_eap. repeat case_match; revert Hz; lock.
  - unfold mask_updates, check_link. repeat case_match; revert Hx; lock.
Qed.

(** ** Steps without a success *)

Inductive quiet_step (x : port) : port -> Prop :=
  | quiet_event e y : quiet e -> handle stack pw0 secret src e x = Some y -> quiet_step x y
  | quiet_round link during y : Forall (Forall quiet) during ->
      state_task stack pw0 secret src link (set_during during x) = Some y -> quiet_step x y
  | quiet_start : i_update x = 0 -> quiet_step x (auth_start x).
Lemma quiet_step_locked x y : quiet_step x y -> locked x -> locked y.
Proof.
  intros [e y' He H|link during y' Hd H|_] Hx.
  - by apply (handle_locked e x y').
  - apply state_task_locked in H; [done|]. destruct Hx. by split.
  - revert Hx. lock.
Qed.

(** C3: As long as no EAP success comes from the supplicant's side, in a RADIUS
    message or by the commands [a] and [x], a port that was made ready stays
    closed: whatever frames, messages, commands and timeouts come, between the
    rounds of the machines or while they wait, its status is unauthorized and
    nothing opens it in the driver. *)
Theorem closed_without_success mode radius x : no_success radius -> rtc quiet_step (ready_port mode radius) x ->
  authPortStatus x = Unauthorized /\ is_open (p_out x) = false.
Proof.
  intros Hr H. assert (Hl : locked (ready_port mode radius)) by by split. revert Hl.
  induction H as [x|x y z Hs _ IH]; intros Hl; [split; apply Hl|]. by apply IH, (quiet_step_locked x).
Qed.
End closed.

(** A supplicant asks to start and is asked who it is; a second passes. *)
Definition start_eapol : buf := [1; 1; 0; 0].
Definition quiet_moves : list move :=
  connect_moves ++ [Event (ev_eapol start_eapol 4 (replicate 6 2)); Round true [[ev_tick]]; Event ev_tick; Round true []].
Definition quiet_move (m : move) : Prop :=
  match m with Event e => quiet e | Round _ during => Forall (Forall quiet) during | Start => True end.
Lemma quiet_move_step stack pw0 secret src m x y : quiet_move m -> do_move stack pw0 secret src m x = Some y ->
  quiet_step stack pw0 secret src x y.
Proof.
  destruct m as [e|link during|]; cbn [do_move quiet_move]; intros Hq.
  - by apply quiet_event.
  - by apply quiet_round.
  - destruct (i_update x =? 0) eqn:E; [|done]. intros H. injection H as <-. apply quiet_start. by bools.
Qed.

Lemma quiet_moves_quiet : Forall quiet_move quiet_moves.
Proof. by repeat constructor. Qed.

Lemma closed_without_success_witness : moves quiet_moves = true /\
  authPortStatus (moved quiet_moves) = Unauthorized /\ is_open (p_out (moved quiet_moves)) = false.
Proof.
  split; [vm_compute; reflexivity|].
  apply (closed_without_success md5_ctx0 eq_refl (replicate 129 0) [115] reply_secret_ok login_source 1 zero_radius).
  - by vm_compute.
  - apply (moves_rtc md5_ctx0 (replicate 129 0) [115] login_source
      (quiet_step md5_ctx0 (replicate 129 0) [115] login_source) quiet_move quiet_moves (ready_port 1 zero_radius)).
    + intros m x y. apply quiet_move_step.
    + exact quiet_moves_quiet.
    + vm_compute. reflexivity.
Defined.
